(** * rspamd: HTML core (libserver/html.c) and part similarity (libmime/message.c)

    A shallow embedding of the functions of [src/libserver/html.c] and
    [src/libmime/message.c] that the specification talks about, and the
    properties of the specification settled against them.

    Conventions.
    - A C [char]/[guchar] is an [ascii]; a byte buffer is a [list ascii].
    - C integers are [Z]; where the source relies on a fixed width the
      wrap-around is written out with [wrap32]/[sint32].
    - Pointers into a buffer are offsets ([nat] or [Z]) from its start. *)

From Stdlib Require Import Ascii String.
From Stdlib Require Import ZArith List Bool Lia Arith.
From Stdlib Require Import Sorting.Sorted Sorting.Permutation.
Import ListNotations.
Open Scope Z_scope.

(** ** Machine integers *)

Definition wrap32 (z : Z) : Z := z mod 2^32.
Definition wrap64 (z : Z) : Z := z mod 2^64.

(** Conversion of a 32-bit pattern to [gint]. *)
Definition sint32 (z : Z) : Z :=
  let w := wrap32 z in if w <? 2^31 then w else w - 2^32.

(** ** Bytes and the C character classes used by the sources *)

Definition code (c : ascii) : Z := Z.of_N (N_of_ascii c).
Definition chr (z : Z) : ascii := ascii_of_N (Z.to_N (z mod 256)).

Definition bytes (s : string) : list ascii := list_ascii_of_string s.

Definition NUL : ascii := "000"%char.

(** [isspace] in the C locale: space, \t, \n, \v, \f, \r. *)
Definition isspace (c : ascii) : bool :=
  let n := code c in (n =? 32) || ((9 <=? n) && (n <=? 13)).

(** glib's [g_ascii_isspace]: space, \t, \n, \f, \r.  The vertical tab
    \v (0x0B) is a control character only in glib's table, so it is not
    white space here, unlike for [isspace]. *)
Definition g_ascii_isspace (c : ascii) : bool :=
  let n := code c in
  (n =? 32) || (n =? 9) || (n =? 10) || (n =? 12) || (n =? 13).

Definition g_ascii_isdigit (c : ascii) : bool :=
  let n := code c in (48 <=? n) && (n <=? 57).

Definition g_ascii_isgraph (c : ascii) : bool :=
  let n := code c in (33 <=? n) && (n <=? 126).

Definition g_ascii_tolower (c : ascii) : ascii :=
  let n := code c in if (65 <=? n) && (n <=? 90) then chr (n + 32) else c.

(** Array cells: reading past the end of a list yields the default, a store
    past the end is dropped ([upd]) unless said otherwise. *)
Fixpoint upd {A} (l : list A) (i : nat) (v : A) : list A :=
  match l, i with
  | [], _ => []
  | _ :: t, O => v :: t
  | h :: t, S j => h :: upd t j v
  end.

(** * libmime/message.c *)

(** [MIN3(a, b, c)] *)
Definition MIN3 (a b c : Z) : Z :=
  if a <? b then (if a <? c then a else c) else (if b <? c then b else c).

Definition max_words : Z := 8192.

Section Levenshtein.
Variables w1 w2 : list Z.

Let s1len : nat := length w1.

(** Body of the inner [for (y = 1, ...; y <= s1len; y++)] loop; the state
    is the array [column] and the scalar [lastdiag]. *)
Definition lev_inner_body (x : nat) (st : list Z * Z) (y : nat) : list Z * Z :=
  let '(column, lastdiag) := st in
  let olddiag := nth y column 0 in
  let h1 := nth (y - 1) w1 0 in
  let h2 := nth (x - 1) w2 0 in
  let eq := if h1 =? h2 then 1 else 0 in
  let column := upd column y
      (MIN3 (nth y column 0 + 1) (nth (y - 1) column 0 + 1)
            (lastdiag + eq * 2)) in
  (column, olddiag).

(** Body of the outer [for (x = 1; x <= s2len; x++)] loop. *)
Definition lev_outer_body (column : list Z) (x : nat) : list Z :=
  let column := upd column 0 (Z.of_nat x) in
  fst (fold_left (lev_inner_body x) (seq 1 s1len) (column, Z.of_nat x - 1)).

Definition rspamd_words_levenshtein_distance : Z :=
  let s2len := length w2 in
  if wrap32 (Z.of_nat s1len + Z.of_nat s2len) >? max_words then 0
  else
    (* g_malloc0 ((s1len + 1) * sizeof (guint)), then column[y] = y *)
    let column := repeat 0 (S s1len) in
    let column := fold_left (fun col y => upd col y (Z.of_nat y))
                            (seq 1 s1len) column in
    let column := fold_left lev_outer_body (seq 1 s2len) column in
    nth s1len column 0.
End Levenshtein.

(** The distance the specification describes: a substitution of two differing
    hashes costs 2, an insertion or a deletion costs 1 (textbook recursion on
    the two sequences, with fuel for the double recursion). *)
Fixpoint lev_spec (fuel : nat) (a b : list Z) : Z :=
  match fuel with
  | O => 0
  | S fuel =>
    match a, b with
    | [], _ => Z.of_nat (length b)
    | _, [] => Z.of_nat (length a)
    | x :: a', y :: b' =>
      Z.min (Z.min (lev_spec fuel a' b + 1) (lev_spec fuel a b' + 1))
            (lev_spec fuel a' b' + (if x =? y then 0 else 2))
    end
  end.

(** * libc and glib helpers used by html.c

    [qsort] and [bsearch] are the C library's.  C only promises that [qsort]
    returns a permutation ordered by the comparison and that [bsearch]
    returns some element comparing equal to the key; the models below are an
    insertion sort and the usual halving search. *)

Section Libc.
Context {A K : Type}.

Fixpoint qsort_insert (cmp : A -> A -> Z) (x : A) (l : list A) : list A :=
  match l with
  | [] => [x]
  | y :: l' => if cmp x y <=? 0 then x :: l else y :: qsort_insert cmp x l'
  end.

Definition qsort (cmp : A -> A -> Z) (l : list A) : list A :=
  fold_right (qsort_insert cmp) [] l.

Fixpoint bsearch_loop (fuel : nat) (cmp : K -> A -> Z) (key : K)
         (base : list A) (lo hi : nat) : option A :=
  match fuel with
  | O => None
  | S fuel =>
    if (lo <? hi)%nat then
      let idx := ((lo + hi) / 2)%nat in
      match nth_error base idx with
      | None => None
      | Some p =>
        let c := cmp key p in
        if c <? 0 then bsearch_loop fuel cmp key base lo idx
        else if c >? 0 then bsearch_loop fuel cmp key base (S idx) hi
        else Some p
      end
    else None
  end.

Definition bsearch (cmp : K -> A -> Z) (key : K) (base : list A) : option A :=
  bsearch_loop (S (List.length base)) cmp key base 0 (List.length base).
End Libc.

(** [g_ascii_strcasecmp] on NUL-terminated strings; the end of the list
    stands for the terminating NUL. *)
Fixpoint g_ascii_strcasecmp (s1 s2 : list ascii) : Z :=
  match s1, s2 with
  | c1 :: r1, c2 :: r2 =>
    let a := code (g_ascii_tolower c1) in
    let b := code (g_ascii_tolower c2) in
    if a =? b then g_ascii_strcasecmp r1 r2 else a - b
  | c1 :: _, [] => code c1
  | [], c2 :: _ => 0 - code c2
  | [], [] => 0
  end.

(** Value of a digit of [strtoul], for any base up to 36. *)
Definition digit_val (c : ascii) : option Z :=
  let n := code c in
  if (48 <=? n) && (n <=? 57) then Some (n - 48)
  else if (97 <=? n) && (n <=? 122) then Some (n - 97 + 10)
  else if (65 <=? n) && (n <=? 90) then Some (n - 65 + 10)
  else None.

Definition is_digit_in (base : Z) (c : ascii) : bool :=
  match digit_val c with Some d => d <? base | None => false end.

(** Longest run of digits of [base]: accumulated value and number of bytes. *)
Fixpoint strtoul_digits (base : Z) (s : list ascii) (acc : Z) (n : nat) : Z * nat :=
  match s with
  | c :: r =>
    match digit_val c with
    | Some d => if d <? base then strtoul_digits base r (acc * base + d) (S n)
                else (acc, n)
    | None => (acc, n)
    end
  | [] => (acc, n)
  end.

Fixpoint count_while {A} (f : A -> bool) (l : list A) : nat :=
  match l with
  | x :: r => if f x then S (count_while f r) else O
  | [] => O
  end.

Definition ULONG_MAX : Z := 2^64 - 1.

(** [strtoul (s, &end, base)] for [base] 8, 10 or 16 with a 64-bit
    [unsigned long]: leading white space, an optional sign, for base 16 an
    optional [0x], then digits.  The result is the value and [end - s];
    without any digit the value is 0 and [end = s]. *)
Definition strtoul (s : list ascii) (base : Z) : Z * nat :=
  let ws := count_while isspace s in
  let s1 := skipn ws s in
  let '(neg, s2, sl) :=
    match s1 with
    | c :: r =>
      if Ascii.eqb c "-" then (true, r, 1%nat)
      else if Ascii.eqb c "+" then (false, r, 1%nat)
      else (false, s1, 0%nat)
    | [] => (false, s1, 0%nat)
    end in
  let '(s3, pl) :=
    match s2 with
    | z :: x :: d :: r =>
      if (base =? 16) && Ascii.eqb z "0"
         && ((Ascii.eqb x "x") || (Ascii.eqb x "X")) && is_digit_in 16 d
      then (d :: r, 2%nat) else (s2, 0%nat)
    | _ => (s2, 0%nat)
    end in
  let '(v, k) := strtoul_digits base s3 0 0 in
  match k with
  | O => (0, O)
  | _ =>
    ((if v >? ULONG_MAX then ULONG_MAX else if neg then wrap64 (- v) else v),
     (ws + sl + pl + k)%nat)
  end.

(** [g_unichar_to_utf8 (c, outbuf)]: the bytes written (1 to 6 of them). *)
Definition utf8_tail (c : Z) (k : Z) : ascii :=
  chr (Z.lor (Z.land (Z.shiftr c (6 * k)) 63) 128).

Definition g_unichar_to_utf8 (c : Z) : list ascii :=
  if c <? 128 then [chr c]
  else if c <? 2048 then
    [chr (Z.lor (Z.shiftr c 6) 192); utf8_tail c 0]
  else if c <? 65536 then
    [chr (Z.lor (Z.shiftr c 12) 224); utf8_tail c 1; utf8_tail c 0]
  else if c <? 2097152 then
    [chr (Z.lor (Z.shiftr c 18) 240); utf8_tail c 2; utf8_tail c 1; utf8_tail c 0]
  else if c <? 67108864 then
    [chr (Z.lor (Z.shiftr c 24) 248); utf8_tail c 3; utf8_tail c 2;
     utf8_tail c 1; utf8_tail c 0]
  else
    [chr (Z.lor (Z.shiftr c 30) 252); utf8_tail c 4; utf8_tail c 3;
     utf8_tail c 2; utf8_tail c 1; utf8_tail c 0].

(** * libserver/html.c: the entity table *)

Record entity := ent {
  ent_name : string;
  ent_code : Z;
  ent_replacement : option string   (* [None] is the C [NULL] *)
}.

Definition dquote : string := String "034"%char EmptyString.

Local Open Scope string_scope.

Definition entities_defs_src : list entity := [
  ent "quot" 34 (Some dquote);
  ent "amp" 38 (Some "&");
  ent "apos" 39 (Some "'");
  ent "lt" 60 (Some "<");
  ent "gt" 62 (Some ">");
  ent "nbsp" 160 (Some " ");
  ent "iexcl" 161 (Some "!");
  ent "cent" 162 (Some "cent");
  ent "pound" 163 (Some "pound");
  ent "curren" 164 (Some "current");
  ent "yen" 165 (Some "yen");
  ent "brvbar" 166 None;
  ent "sect" 167 None;
  ent "uml" 168 (Some "uml");
  ent "copy" 169 (Some "c");
  ent "ordf" 170 None;
  ent "laquo" 171 (Some dquote);
  ent "not" 172 (Some "!");
  ent "shy" 173 None;
  ent "reg" 174 (Some "r");
  ent "macr" 175 None;
  ent "deg" 176 (Some "deg");
  ent "plusmn" 177 (Some "+-");
  ent "sup2" 178 (Some "2");
  ent "sup3" 179 (Some "3");
  ent "acute" 180 None;
  ent "micro" 181 None;
  ent "para" 182 None;
  ent "middot" 183 (Some ".");
  ent "cedil" 184 None;
  ent "sup1" 185 (Some "1");
  ent "ordm" 186 None;
  ent "raquo" 187 (Some dquote);
  ent "frac14" 188 (Some "1/4");
  ent "frac12" 189 (Some "1/2");
  ent "frac34" 190 (Some "3/4");
  ent "iquest" 191 (Some "i");
  ent "Agrave" 192 (Some "a");
  ent "Aacute" 193 (Some "a");
  ent "Acirc" 194 (Some "a");
  ent "Atilde" 195 (Some "a");
  ent "Auml" 196 (Some "a");
  ent "Aring" 197 (Some "a");
  ent "AElig" 198 (Some "a");
  ent "Ccedil" 199 (Some "c");
  ent "Egrave" 200 (Some "e");
  ent "Eacute" 201 (Some "e");
  ent "Ecirc" 202 (Some "e");
  ent "Euml" 203 (Some "e");
  ent "Igrave" 204 (Some "i");
  ent "Iacute" 205 (Some "i");
  ent "Icirc" 206 (Some "i");
  ent "Iuml" 207 (Some "i");
  ent "ETH" 208 (Some "e");
  ent "Ntilde" 209 (Some "n");
  ent "Ograve" 210 (Some "o");
  ent "Oacute" 211 (Some "o");
  ent "Ocirc" 212 (Some "o");
  ent "Otilde" 213 (Some "o");
  ent "Ouml" 214 (Some "o");
  ent "times" 215 (Some "t");
  ent "Oslash" 216 (Some "o");
  ent "Ugrave" 217 (Some "u");
  ent "Uacute" 218 (Some "u");
  ent "Ucirc" 219 (Some "u");
  ent "Uuml" 220 (Some "u");
  ent "Yacute" 221 (Some "y");
  ent "THORN" 222 (Some "t");
  ent "szlig" 223 (Some "s");
  ent "agrave" 224 (Some "a");
  ent "aacute" 225 (Some "a");
  ent "acirc" 226 (Some "a");
  ent "atilde" 227 (Some "a");
  ent "auml" 228 (Some "a");
  ent "aring" 229 (Some "a");
  ent "aelig" 230 (Some "a");
  ent "ccedil" 231 (Some "c");
  ent "egrave" 232 (Some "e");
  ent "eacute" 233 (Some "e");
  ent "ecirc" 234 (Some "e");
  ent "euml" 235 (Some "e");
  ent "igrave" 236 (Some "e");
  ent "iacute" 237 (Some "e");
  ent "icirc" 238 (Some "e");
  ent "iuml" 239 (Some "e");
  ent "eth" 240 (Some "e");
  ent "ntilde" 241 (Some "n");
  ent "ograve" 242 (Some "o");
  ent "oacute" 243 (Some "o");
  ent "ocirc" 244 (Some "o");
  ent "otilde" 245 (Some "o");
  ent "ouml" 246 (Some "o");
  ent "divide" 247 (Some "/");
  ent "oslash" 248 (Some "/");
  ent "ugrave" 249 (Some "u");
  ent "uacute" 250 (Some "u");
  ent "ucirc" 251 (Some "u");
  ent "uuml" 252 (Some "u");
  ent "yacute" 253 (Some "y");
  ent "thorn" 254 (Some "t");
  ent "yuml" 255 (Some "y");
  ent "fnof" 402 (Some "f");
  ent "Alpha" 913 (Some "alpha");
  ent "Beta" 914 (Some "beta");
  ent "Gamma" 915 (Some "gamma");
  ent "Delta" 916 (Some "delta");
  ent "Epsilon" 917 (Some "epsilon");
  ent "Zeta" 918 (Some "zeta");
  ent "Eta" 919 (Some "eta");
  ent "Theta" 920 (Some "theta");
  ent "Iota" 921 (Some "iota");
  ent "Kappa" 922 (Some "kappa");
  ent "Lambda" 923 (Some "lambda");
  ent "Mu" 924 (Some "mu");
  ent "Nu" 925 (Some "nu");
  ent "Xi" 926 (Some "xi");
  ent "Omicron" 927 (Some "omicron");
  ent "Pi" 928 (Some "pi");
  ent "Rho" 929 (Some "rho");
  ent "Sigma" 931 (Some "sigma");
  ent "Tau" 932 (Some "tau");
  ent "Upsilon" 933 (Some "upsilon");
  ent "Phi" 934 (Some "phi");
  ent "Chi" 935 (Some "chi");
  ent "Psi" 936 (Some "psi");
  ent "Omega" 937 (Some "omega");
  ent "alpha" 945 (Some "alpha");
  ent "beta" 946 (Some "beta");
  ent "gamma" 947 (Some "gamma");
  ent "delta" 948 (Some "delta");
  ent "epsilon" 949 (Some "epsilon");
  ent "zeta" 950 (Some "zeta");
  ent "eta" 951 (Some "eta");
  ent "theta" 952 (Some "theta");
  ent "iota" 953 (Some "iota");
  ent "kappa" 954 (Some "kappa");
  ent "lambda" 955 (Some "lambda");
  ent "mu" 956 (Some "mu");
  ent "nu" 957 (Some "nu");
  ent "xi" 958 (Some "xi");
  ent "omicron" 959 (Some "omicron");
  ent "pi" 960 (Some "pi");
  ent "rho" 961 (Some "rho");
  ent "sigmaf" 962 (Some "sigmaf");
  ent "sigma" 963 (Some "sigma");
  ent "tau" 964 (Some "tau");
  ent "upsilon" 965 (Some "upsilon");
  ent "phi" 966 (Some "phi");
  ent "chi" 967 (Some "chi");
  ent "psi" 968 (Some "psi");
  ent "omega" 969 (Some "omega");
  ent "thetasym" 977 (Some "thetasym");
  ent "upsih" 978 (Some "upsih");
  ent "piv" 982 (Some "piv");
  ent "bull" 8226 (Some "bull");
  ent "hellip" 8230 (Some "...");
  ent "prime" 8242 (Some "'");
  ent "Prime" 8243 (Some "'");
  ent "oline" 8254 (Some "-");
  ent "frasl" 8260 None;
  ent "weierp" 8472 None;
  ent "image" 8465 None;
  ent "real" 8476 None;
  ent "trade" 8482 None;
  ent "alefsym" 8501 (Some "a");
  ent "larr" 8592 None;
  ent "uarr" 8593 None;
  ent "rarr" 8594 None;
  ent "darr" 8595 None;
  ent "harr" 8596 None;
  ent "crarr" 8629 None;
  ent "lArr" 8656 None;
  ent "uArr" 8657 None;
  ent "rArr" 8658 None;
  ent "dArr" 8659 None;
  ent "hArr" 8660 None;
  ent "forall" 8704 None;
  ent "part" 8706 None;
  ent "exist" 8707 None;
  ent "empty" 8709 None;
  ent "nabla" 8711 None;
  ent "isin" 8712 None;
  ent "notin" 8713 None;
  ent "ni" 8715 None;
  ent "prod" 8719 None;
  ent "sum" 8721 (Some "E");
  ent "minus" 8722 (Some "-");
  ent "lowast" 8727 None;
  ent "radic" 8730 None;
  ent "prop" 8733 None;
  ent "infin" 8734 None;
  ent "ang" 8736 (Some "'");
  ent "and" 8743 (Some "&");
  ent "or" 8744 (Some "|");
  ent "cap" 8745 None;
  ent "cup" 8746 None;
  ent "gint" 8747 None;
  ent "there4" 8756 None;
  ent "sim" 8764 None;
  ent "cong" 8773 None;
  ent "asymp" 8776 None;
  ent "ne" 8800 (Some "!=");
  ent "equiv" 8801 (Some "==");
  ent "le" 8804 (Some "<=");
  ent "ge" 8805 (Some ">=");
  ent "sub" 8834 None;
  ent "sup" 8835 None;
  ent "nsub" 8836 None;
  ent "sube" 8838 None;
  ent "supe" 8839 None;
  ent "oplus" 8853 None;
  ent "otimes" 8855 None;
  ent "perp" 8869 None;
  ent "sdot" 8901 None;
  ent "lceil" 8968 None;
  ent "rceil" 8969 None;
  ent "lfloor" 8970 None;
  ent "rfloor" 8971 None;
  ent "lang" 9001 None;
  ent "rang" 9002 None;
  ent "loz" 9674 None;
  ent "spades" 9824 None;
  ent "clubs" 9827 None;
  ent "hearts" 9829 None;
  ent "diams" 9830 None;
  ent "OElig" 338 None;
  ent "oelig" 339 None;
  ent "Scaron" 352 None;
  ent "scaron" 353 None;
  ent "Yuml" 376 None;
  ent "circ" 710 None;
  ent "tilde" 732 None;
  ent "ensp" 8194 None;
  ent "emsp" 8195 None;
  ent "thinsp" 8201 None;
  ent "zwnj" 8204 None;
  ent "zwj" 8205 None;
  ent "lrm" 8206 None;
  ent "rlm" 8207 None;
  ent "ndash" 8211 (Some "-");
  ent "mdash" 8212 (Some "-");
  ent "lsquo" 8216 (Some "'");
  ent "rsquo" 8217 (Some "'");
  ent "sbquo" 8218 (Some dquote);
  ent "ldquo" 8220 (Some dquote);
  ent "rdquo" 8221 (Some dquote);
  ent "bdquo" 8222 (Some dquote);
  ent "dagger" 8224 (Some "T");
  ent "Dagger" 8225 (Some "T");
  ent "permil" 8240 None;
  ent "lsaquo" 8249 (Some dquote);
  ent "rsaquo" 8250 (Some dquote);
  ent "euro" 8364 (Some "E")
].

Local Close Scope string_scope.

Definition entity_cmp (p1 p2 : entity) : Z :=
  g_ascii_strcasecmp (bytes (ent_name p1)) (bytes (ent_name p2)).

(** [p1->code - p2->code] on [uint], returned as [gint]. *)
Definition entity_cmp_num (p1 p2 : entity) : Z :=
  sint32 (ent_code p1 - ent_code p2).

(** The two views [rspamd_html_library_init] builds. *)
Definition entities_defs : list entity :=
  Eval vm_compute in qsort entity_cmp entities_defs_src.

Definition entities_defs_num : list entity :=
  Eval vm_compute in qsort entity_cmp_num entities_defs.

(** * libserver/html.c: [rspamd_html_decode_entitles_inplace]

    The buffer [s] is a list of cells.  The function writes through [t]
    without any bound check, so a store may land past the cells it was given:
    [poke] keeps such a store by growing the list, the extra cells standing
    for the memory that follows the caller's buffer (it reads as NUL until
    written). *)

Definition peek (m : list ascii) (i : nat) : ascii := nth i m NUL.

Definition poke (m : list ascii) (i : nat) (c : ascii) : list ascii :=
  if (i <? List.length m)%nat then upd m i c
  else m ++ repeat NUL (i - List.length m) ++ [c].

(** [memcpy (m + t, src, strlen (src))] *)
Fixpoint memcpy (m : list ascii) (t : nat) (src : list ascii) : list ascii :=
  match src with
  | [] => m
  | c :: r => memcpy (poke m t c) (S t) r
  end.

(** [memmove (m + t, m + e, n)]: the source cells are read before any store. *)
Definition memmove (m : list ascii) (t e n : nat) : list ascii :=
  memcpy m t (map (peek m) (seq e n)).

(** The C string that starts at cell [i]. *)
Fixpoint take_cstr (m : list ascii) : list ascii :=
  match m with
  | [] => []
  | c :: r => if Ascii.eqb c NUL then [] else c :: take_cstr r
  end.

Definition cstr_at (m : list ascii) (i : nat) : list ascii := take_cstr (skipn i m).

Definition strlen (m : list ascii) : Z := Z.of_nat (List.length (take_cstr m)).

Section EntityDecoder.
(** glib's Unicode class test, on a [gunichar]. *)
Variable g_unichar_isgraph : Z -> bool.

Record dec_state := mk_dec {
  dec_s : list ascii;   (* the memory at [s] *)
  dec_t : nat;          (* t - s *)
  dec_h : nat;          (* h - s *)
  dec_e : nat;          (* e - s *)
  dec_in_entity : bool  (* state == 1 *)
}.

(** The block run in state 1 when [*h == ';' && h > e]; it yields the
    memory and [t] just before [*h = ';'] is restored. *)
Definition decode_token (m : list ascii) (t h e : nat) : list ascii * nat :=
  let m := poke m h NUL in
  let key_name := cstr_at m (S e) in
  let found :=
    if negb (Ascii.eqb (peek m (S e)) "#") then
      bsearch (fun k p => g_ascii_strcasecmp k (bytes (ent_name p)))
              key_name entities_defs
    else None in
  match found with
  | Some f =>
    match ent_replacement f with
    | Some rep => (memcpy m t (bytes rep), (t + List.length (bytes rep))%nat)
    | None => (memmove m t e (h - e), (t + (h - e))%nat)
    end
  | None =>
    if (e + 2 <? h)%nat then
      let c2 := peek m (e + 2) in
      let base :=
        if (Ascii.eqb c2 "x") || (Ascii.eqb c2 "X") then 16
        else if (Ascii.eqb c2 "o") || (Ascii.eqb c2 "O") then 8
        else 10 in
      let start := if base =? 10 then (e + 2)%nat else (e + 3)%nat in
      let str := cstr_at m start in
      let '(v, consumed) := strtoul str base in
      let val := sint32 v in
      if (consumed <? List.length str)%nat then
        (* *end_ptr != '\0': skip undecoded *)
        (memmove m t e (h - e), (t + (h - e))%nat)
      else
        let key_code := wrap32 val in
        match bsearch (fun k p => sint32 (k - ent_code p))
                      key_code entities_defs_num with
        | Some f =>
          match ent_replacement f with
          | Some rep => (memcpy m t (bytes rep), (t + List.length (bytes rep))%nat)
          | None => (m, t)
          end
        | None =>
          if g_unichar_isgraph key_code then
            let u := g_unichar_to_utf8 key_code in
            (memcpy m t u, (t + List.length u)%nat)
          else (m, t)
        end
    else (m, t)
  end.

(** One turn of the [while] loop. *)
Definition decode_step (st : dec_state) : dec_state :=
  let m := dec_s st in
  let t := dec_t st in
  let h := dec_h st in
  let e := dec_e st in
  if negb (dec_in_entity st) then
    if Ascii.eqb (peek m h) "&" then mk_dec m t (S h) h true
    else mk_dec (poke m t (peek m h)) (S t) (S h) e false
  else
    if Ascii.eqb (peek m h) ";" && (e <? h)%nat then
      let '(m', t') := decode_token m t h e in
      mk_dec (poke m' h ";") t' (S h) e false
    else mk_dec m t (S h) e true.

(** [while (h - s < (gint) l)]; every turn advances [h] by one, so [l]
    turns of fuel are enough. *)
Fixpoint decode_loop (fuel : nat) (l : Z) (st : dec_state) : dec_state :=
  match fuel with
  | O => st
  | S fuel =>
    if Z.of_nat (dec_h st) <? sint32 l then decode_loop fuel l (decode_step st)
    else st
  end.

(** Returns the memory after the call and the returned length [t - s]. *)
Definition rspamd_html_decode_entitles_inplace (s : list ascii) (len : Z)
  : list ascii * Z :=
  let l := if len =? 0 then wrap32 (strlen s) else len in
  let st := decode_loop (Z.to_nat l) l (mk_dec s 0 0 0 false) in
  (dec_s st, wrap32 (Z.of_nat (dec_t st))).
End EntityDecoder.

(** * libserver/html.c: URLs

    [struct rspamd_url] (url.h) reduced to the fields html.c reads or
    writes.  [phished_url] points to another URL record; the tags of a URL
    are kept as (name, value) pairs in the order they were added. *)

#[warnings="-register-all"]
Inductive rspamd_url : Type := mk_url {
  url_string : list ascii;
  url_host : list ascii;
  url_tld : list ascii;
  url_flags : Z;
  url_phished_url : option rspamd_url;
  url_tags : list (string * list ascii)
}.

(** [rspamd_mempool_alloc0 (pool, sizeof (struct rspamd_url))] *)
Definition url_alloc0 : rspamd_url := mk_url [] [] [] 0 None [].

Definition url_or_flags (u : rspamd_url) (f : Z) : rspamd_url :=
  mk_url (url_string u) (url_host u) (url_tld u) (Z.lor (url_flags u) f)
         (url_phished_url u) (url_tags u).

Definition url_set_phished_url (u : rspamd_url) (p : rspamd_url) : rspamd_url :=
  mk_url (url_string u) (url_host u) (url_tld u) (url_flags u) (Some p) (url_tags u).

(** [rspamd_url_add_tag (url, tag, value, pool)] *)
Definition rspamd_url_add_tag (u : rspamd_url) (tag : string) (v : list ascii)
  : rspamd_url :=
  mk_url (url_string u) (url_host u) (url_tld u) (url_flags u)
         (url_phished_url u) (url_tags u ++ [(tag, v)]).

(** ** [rspamd_html_process_url] *)

Definition hexdigests : list ascii := bytes "0123456789abcdef".

(** Leading and trailing loop of "Strip spaces from the url": the span that
    is left, [s[0 .. len)]. *)
Fixpoint url_trim_tail (s : list ascii) (len : nat) : nat :=
  match len with
  | O => O
  | S k => if g_ascii_isspace (nth k s NUL) then url_trim_tail s k else len
  end.

Definition url_trim (start : list ascii) : list ascii :=
  let s := skipn (count_while g_ascii_isspace start) start in
  firstn (url_trim_tail s (List.length s)) s.

(** Body of the second [for] loop: what one byte of the span adds to
    [decoded], and whether it sets [has_bad_chars]. *)
Definition url_encode_byte (c : ascii) : list ascii * bool :=
  if Ascii.eqb c "013" || Ascii.eqb c "010" then ([], false)
  else if (code c <? 128) && negb (g_ascii_isgraph c) then
    (["%"%char;
      nth (Z.to_nat (Z.land (Z.shiftr (code c) 4) 15)) hexdigests NUL;
      nth (Z.to_nat (Z.land (code c) 15)) hexdigests NUL], true)
  else ([c], false).

Definition url_encode (s : list ascii) : list ascii * bool :=
  fold_left (fun acc c =>
               let '(d, bad) := url_encode_byte c in
               (fst acc ++ d, snd acc || bad))
            s ([], false).

(** [memchr (s, ':', len) == NULL] *)
Definition url_no_prefix (s : list ascii) : bool :=
  negb (existsb (fun c => Ascii.eqb c ":") s).

(** The buffer [decoded] as it stands at [*d = 0], with [has_bad_chars] and
    [no_prefix]. *)
Definition process_url_decoded (start : list ascii) : list ascii * bool * bool :=
  let s := url_trim start in
  let len := List.length s in
  let no_prefix := url_no_prefix s in
  let prefix :=
    if no_prefix then
      if Ascii.eqb (nth 0 s NUL) "/" && ((2 <? len)%nat && Ascii.eqb (nth 1 s NUL) "/")
      then bytes "http:" else bytes "http://"
    else [] in
  let '(body, has_bad_chars) := url_encode s in
  (prefix ++ body, has_bad_chars, no_prefix).

Section ProcessUrl.
(** url.h flag bits and the two collaborators of the URL layer. *)
Variables RSPAMD_URL_FLAG_OBSCURED RSPAMD_URL_FLAG_SCHEMALESS
          RSPAMD_URL_FLAG_UNNORMALISED : Z.
(** [rspamd_normalise_unicode_inplace]: the buffer after the call and
    whether normalisation changed it. *)
Variable rspamd_normalise_unicode_inplace : list ascii -> list ascii * bool.
(** [rspamd_url_parse (url, str, len, pool)]: [None] when [rc] is not
    [URI_ERRNO_OK], else the filled record. *)
Variable rspamd_url_parse : rspamd_url -> list ascii -> option rspamd_url.

Definition rspamd_html_process_url (start : list ascii) : option rspamd_url :=
  let '(decoded, has_bad_chars, no_prefix) := process_url_decoded start in
  let url := url_alloc0 in
  let '(decoded, changed) := rspamd_normalise_unicode_inplace decoded in
  let url := if changed then url_or_flags url RSPAMD_URL_FLAG_UNNORMALISED
             else url in
  match rspamd_url_parse url decoded with
  | Some url =>
    let url := if has_bad_chars then url_or_flags url RSPAMD_URL_FLAG_OBSCURED
               else url in
    let url := if no_prefix then url_or_flags url RSPAMD_URL_FLAG_SCHEMALESS
               else url in
    Some url
  | None => None
  end.
End ProcessUrl.

(** ** [rspamd_url_is_subdomain]

    Pointers are offsets from [begin]; an empty token makes the code start at
    [begin - 1], cells outside the token read as NUL here. *)

Definition peekz (t : list ascii) (i : Z) : ascii :=
  if (0 <=? i) && (i <? Z.of_nat (List.length t)) then nth (Z.to_nat i) t NUL
  else NUL.

(** "Skip trailing dots" *)
Fixpoint skip_trailing_dots (fuel : nat) (t : list ascii) (p : Z) : Z :=
  match fuel with
  | O => p
  | S fuel =>
    if p >? 0 then
      if negb (Ascii.eqb (peekz t p) ".") then p
      else skip_trailing_dots fuel t (p - 1)
    else p
  end.

(** [while (p1 > t1->begin && p2 > t2->begin)] *)
Fixpoint subdomain_walk (fuel : nat) (t1 t2 : list ascii) (p1 p2 : Z) : Z * Z :=
  match fuel with
  | O => (p1, p2)
  | S fuel =>
    if (p1 >? 0) && (p2 >? 0) then
      if negb (Ascii.eqb (peekz t1 p1) (peekz t2 p2)) then (p1, p2)
      else subdomain_walk fuel t1 t2 (p1 - 1) (p2 - 1)
    else (p1, p2)
  end.

Definition rspamd_url_is_subdomain (t1 t2 : list ascii) : bool :=
  let p1 := Z.of_nat (List.length t1) - 1 in
  let p2 := Z.of_nat (List.length t2) - 1 in
  let p1 := skip_trailing_dots (List.length t1) t1 p1 in
  let p2 := skip_trailing_dots (List.length t2) t2 p2 in
  let '(p1, p2) := subdomain_walk (List.length t1) t1 t2 p1 p2 in
  if p2 =? 0 then
    (* p2 can be subdomain of p1 if *p1 is '.' *)
    negb (p1 =? 0) && Ascii.eqb (peekz t1 (p1 - 1)) "."
  else if p1 =? 0 then
    negb (p2 =? 0) && Ascii.eqb (peekz t2 (p2 - 1)) "."
  else false.

(** ** [rspamd_html_url_is_phished] *)

(** Modelled from the spec: [rspamd_substring_search_caseless] (str_util.c)
    is not part of these sources; it returns the offset of the first
    case-insensitive occurrence of the pattern, or -1. *)
Fixpoint prefix_caseless (pat s : list ascii) : bool :=
  match pat, s with
  | [], _ => true
  | _ :: _, [] => false
  | a :: pat', b :: s' =>
    Ascii.eqb (g_ascii_tolower a) (g_ascii_tolower b) && prefix_caseless pat' s'
  end.

Fixpoint rspamd_substring_search_caseless (s pat : list ascii) : Z :=
  if prefix_caseless pat s then 0
  else match s with
       | [] => -1
       | _ :: s' =>
         let r := rspamd_substring_search_caseless s' pat in
         if r =? -1 then -1 else r + 1
       end.

Section Phished.
Variables RSPAMD_URL_FLAG_PHISHED RSPAMD_URL_FLAG_HTML_DISPLAYED : Z.
(** [rspamd_url_find (pool, text, len, &url_str, FALSE, &url_pos, NULL)]:
    [Some (url_str, url_pos)] when it returns TRUE with [url_str] set. *)
Variable rspamd_url_find : list ascii -> option (list ascii * Z).
(** [rspamd_url_parse] on a zeroed record. *)
Variable rspamd_url_parse : list ascii -> option rspamd_url.
(** ICU's [uidna_nameToUnicodeUTF8] into a buffer of twice the length plus
    one: the converted name, or [None] when [uc_err] is not
    [U_ZERO_ERROR] afterwards. *)
Variable uidna_nameToUnicodeUTF8 : list ascii -> option (list ascii).
(** [rspamd_ftok_casecmp] (fstring.c). *)
Variable rspamd_ftok_casecmp : list ascii -> list ascii -> Z.

(** One of the four "convert it to the normal value first" blocks.
    [uc_err] is shared by all four and never reset: ICU returns at once
    when it is entered with a failure code, which the code then reports
    again. *)
Definition idn_tok (uc_err : bool) (name : list ascii) : list ascii * bool :=
  if negb (rspamd_substring_search_caseless name (bytes "xn--") =? -1) then
    match (if uc_err then None else uidna_nameToUnicodeUTF8 name) with
    | Some u => (u, false)
    | None => (name, true)
    end
  else (name, uc_err).

Record phished_result := mk_phished {
  ph_href_url : rspamd_url;            (* [*href_url] after the call *)
  ph_url_found : bool;                 (* [*url_found] *)
  ph_text_url : option rspamd_url      (* [*ptext_url], when assigned *)
}.

Definition rspamd_html_url_is_phished (href_url : rspamd_url)
           (url_text : list ascii) : phished_result :=
  let url_text := skipn (count_while g_ascii_isspace url_text) url_text in
  if (4 <? List.length url_text)%nat then
    match rspamd_url_find url_text with
    | Some (url_str, url_pos) =>
      if (url_pos >? 0)
         && negb (forallb g_ascii_isspace (firstn (Z.to_nat url_pos) url_text))
      then mk_phished href_url false None
      else
        match rspamd_url_parse url_str with
        | Some text_url =>
          let '(disp_tok, uc_err) := idn_tok false (url_host text_url) in
          let '(href_tok, uc_err) := idn_tok uc_err (url_host href_url) in
          if negb (rspamd_ftok_casecmp disp_tok href_tok =? 0) then
            (* Apply the same logic for TLD *)
            let '(disp_tok, uc_err) := idn_tok uc_err (url_tld text_url) in
            let '(href_tok, uc_err) := idn_tok uc_err (url_tld href_url) in
            if negb (rspamd_ftok_casecmp disp_tok href_tok =? 0)
               && negb (rspamd_url_is_subdomain disp_tok href_tok)
            then
              (* [href_url->phished_url] aliases [text_url], which gets its
                 tag and flag afterwards *)
              let text_url :=
                url_or_flags
                  (rspamd_url_add_tag text_url "phishing" href_tok)
                  RSPAMD_URL_FLAG_HTML_DISPLAYED in
              let href_url :=
                url_set_phished_url
                  (url_or_flags href_url RSPAMD_URL_FLAG_PHISHED) text_url in
              mk_phished href_url true (Some text_url)
            else mk_phished href_url true (Some text_url)
          else mk_phished href_url true (Some text_url)
        | None => mk_phished href_url false None
        end
    | None => mk_phished href_url false None
    end
  else mk_phished href_url false None.
End Phished.

(** * libserver/html.c: colours

    [struct html_color] (html.h) is a 32-bit word [d.val] overlaid with the
    four byte components [d.comp], and the flag [valid].  html.h is not among
    the sources; the component bytes are placed as line 1926 of html.c
    assumes them, [val = b + (g << 8) + (r << 16)], with alpha in the
    remaining byte. *)

Record html_color := mk_color {
  color_val : Z;
  color_valid : bool
}.

Definition color_b (c : html_color) : Z := Z.land (color_val c) 255.
Definition color_g (c : html_color) : Z := Z.land (Z.shiftr (color_val c) 8) 255.
Definition color_r (c : html_color) : Z := Z.land (Z.shiftr (color_val c) 16) 255.
Definition color_alpha (c : html_color) : Z := Z.land (Z.shiftr (color_val c) 24) 255.

(** Store into one byte component ([k] is its index in [val]). *)
Definition set_comp (k : Z) (c : html_color) (v : Z) : html_color :=
  mk_color (Z.lor (Z.land (color_val c) (Z.lxor (2^32 - 1) (Z.shiftl 255 (8 * k))))
                  (Z.shiftl (v mod 256) (8 * k)))
           (color_valid c).

Definition set_b := set_comp 0.
Definition set_g := set_comp 1.
Definition set_r := set_comp 2.
Definition set_alpha := set_comp 3.
Definition set_valid (c : html_color) (v : bool) := mk_color (color_val c) v.

(** A zeroed [struct html_color] ([memset], [g_malloc0]). *)
Definition color_zero : html_color := mk_color 0 false.

(** "Set white background color by default" in
    [rspamd_html_process_part_full]. *)
Definition default_bgcolor : html_color :=
  let c := color_zero in
  let c := set_alpha c 0 in
  let c := set_r c 255 in
  let c := set_g c 255 in
  let c := set_b c 255 in
  set_valid c true.

(** "font color to black as a last resort" in
    [rspamd_html_process_block_tag]. *)
Definition fallback_font_color (c : html_color) : html_color :=
  let c := mk_color 0 (color_valid c) in
  let c := set_alpha c 255 in
  set_valid c true.

Inductive rgb_state := obrace | num1 | num2 | num3 | skip_spaces.

Section Colors.
(** The table [html_colornames] of html_colors.h: name and r, g, b. *)
Variable html_colornames : list (string * (Z * Z * Z)).
(** [rspamd_strtoul (s, len, &value)] (str_util.c): [None] is FALSE. *)
Variable rspamd_strtoul : list ascii -> option Z.

(** The colours [rspamd_html_library_init] inserts into
    [html_colors_hash], in table order. *)
Definition html_colors_hash : list (list ascii * html_color) :=
  map (fun e =>
         let '(name, (r, g, b)) := e in
         let color := color_zero in
         let color := set_alpha color 255 in
         let color := set_r color r in
         let color := set_g color g in
         let color := set_b color b in
         let color := set_valid color true in
         (bytes name, color))
      html_colornames.

(** [g_hash_table_lookup] with [rspamd_ftok_icase_equal]; a later insert
    of an equal key replaces the earlier one. *)
Definition icase_equal (a b : list ascii) : bool :=
  (List.length a =? List.length b)%nat && prefix_caseless a b.

Definition html_colors_lookup (search : list ascii) : option html_color :=
  match find (fun e => icase_equal search (fst e)) (rev html_colors_hash) with
  | Some e => Some (snd e)
  | None => None
  end.

Record rgb_st := mk_rgb {
  rgb_p : nat; rgb_c : nat;
  rgb_state_ : rgb_state; rgb_next : rgb_state;
  rgb_r : Z; rgb_g : Z; rgb_b : Z
}.

(** The text [c .. p) of [line]. *)
Definition span (line : list ascii) (c p : nat) : list ascii :=
  firstn (p - c) (skipn c line).

(** One turn of the [while (p < end)] loop of the rgb branch: the next
    state, or the value of [valid] at [stop]. *)
Definition rgb_step (line : list ascii) (st : rgb_st) : rgb_st + (bool * rgb_st) :=
  let p := rgb_p st in
  let ch := peek line p in
  let num (store : rgb_st -> Z -> rgb_st) (next : rgb_state) (last : bool) :=
    if Ascii.eqb ch "," then
      match rspamd_strtoul (span line (rgb_c st) p) with
      | None => inr (false, st)
      | Some v =>
        let st := store st v in
        if last then inr (true, st)
        else inl (mk_rgb (S p) (rgb_c st) skip_spaces next
                         (rgb_r st) (rgb_g st) (rgb_b st))
      end
    else if negb (g_ascii_isdigit ch) then inr (false, st)
    else inl (mk_rgb (S p) (rgb_c st) (rgb_state_ st) (rgb_next st)
                     (rgb_r st) (rgb_g st) (rgb_b st)) in
  match rgb_state_ st with
  | obrace =>
    if Ascii.eqb ch "(" then
      inl (mk_rgb (S p) (rgb_c st) skip_spaces num1 (rgb_r st) (rgb_g st) (rgb_b st))
    else if g_ascii_isspace ch then
      inl (mk_rgb p (rgb_c st) skip_spaces obrace (rgb_r st) (rgb_g st) (rgb_b st))
    else inr (false, st)
  | num1 =>
    num (fun st v => mk_rgb (rgb_p st) (rgb_c st) (rgb_state_ st) (rgb_next st)
                            v (rgb_g st) (rgb_b st)) num2 false
  | num2 =>
    num (fun st v => mk_rgb (rgb_p st) (rgb_c st) (rgb_state_ st) (rgb_next st)
                            (rgb_r st) v (rgb_b st)) num3 false
  | num3 =>
    num (fun st v => mk_rgb (rgb_p st) (rgb_c st) (rgb_state_ st) (rgb_next st)
                            (rgb_r st) (rgb_g st) v) num3 true
  | skip_spaces =>
    if negb (g_ascii_isspace ch) then
      inl (mk_rgb p p (rgb_next st) (rgb_next st) (rgb_r st) (rgb_g st) (rgb_b st))
    else
      inl (mk_rgb (S p) (rgb_c st) skip_spaces (rgb_next st)
                  (rgb_r st) (rgb_g st) (rgb_b st))
  end.

Fixpoint rgb_loop (fuel : nat) (line : list ascii) (st : rgb_st) : option (bool * rgb_st) :=
  match fuel with
  | O => None
  | S fuel =>
    if (rgb_p st <? List.length line)%nat then
      match rgb_step line st with
      | inl st' => rgb_loop fuel line st'
      | inr r => Some r
      end
    else Some (false, st)
  end.

(** The rgb branch: [Some (r, g, b)] when it leaves the loop with
    [valid] set.  A turn that does not advance [p] is followed by one that
    does, so twice the length (and a spare turn) is enough fuel. *)
Definition process_color_rgb (line : list ascii) : option (Z * Z * Z) :=
  let p := 3%nat in
  let p := if Ascii.eqb (peek line p) "a" then S p else p in
  match rgb_loop (2 * List.length line + 2) line
                 (mk_rgb p p skip_spaces obrace 0 0 0) with
  | Some (true, st) => Some (rgb_r st, rgb_g st, rgb_b st)
  | _ => None
  end.

Definition rspamd_html_process_color (line : list ascii) : html_color :=
  let len := List.length line in
  let cl := color_zero in
  if Ascii.eqb (peek line 0) "#" then
    (* rspamd_strlcpy (hexbuf, p, MIN (sizeof (hexbuf), end - p + 1)) *)
    let hexbuf := take_cstr (firstn (Nat.min 6 (len - 1)) (skipn 1 line)) in
    set_valid (mk_color (wrap32 (fst (strtoul hexbuf 16))) (color_valid cl)) true
  else if (4 <? len)%nat && prefix_caseless (bytes "rgb") line then
    match process_color_rgb line with
    | Some (r, g, b) =>
      set_valid (mk_color (wrap32 (b + Z.shiftl g 8 + Z.shiftl r 16))
                          (color_valid cl)) true
    | None => cl
    end
  else
    match html_colors_lookup line with
    | Some el => el
    | None => cl
    end.
End Colors.

(** * libserver/html.c: the tag table

    The tag identifiers [Tag_*] and [N_TAGS], the content-model bits [CM_*]
    (html_tags.h), the tag flags [FL_*] and the document flags
    [RSPAMD_HTML_FLAG_*] (html.h) are declared outside these sources, and so
    is [rspamd_lc_cmp] (str_util.c).  The class [html_h] stands for these
    declarations; what is assumed of them is [html_h_ok]. *)

Inductive tag_id_t :=
  | Tag_A | Tag_ABBR | Tag_ACRONYM | Tag_ADDRESS | Tag_APPLET | Tag_AREA
  | Tag_B | Tag_BASE | Tag_BASEFONT | Tag_BDO | Tag_BIG | Tag_BLOCKQUOTE
  | Tag_BODY | Tag_BR | Tag_BUTTON | Tag_CAPTION | Tag_CENTER | Tag_CITE
  | Tag_CODE | Tag_COL | Tag_COLGROUP | Tag_DD | Tag_DEL | Tag_DFN | Tag_DIR
  | Tag_DIV | Tag_DL | Tag_DT | Tag_EM | Tag_FIELDSET | Tag_FONT | Tag_FORM
  | Tag_FRAME | Tag_FRAMESET | Tag_H1 | Tag_H2 | Tag_H3 | Tag_H4 | Tag_H5
  | Tag_H6 | Tag_HEAD | Tag_HR | Tag_HTML | Tag_I | Tag_IFRAME | Tag_IMG
  | Tag_INPUT | Tag_INS | Tag_ISINDEX | Tag_KBD | Tag_LABEL | Tag_LEGEND
  | Tag_LI | Tag_LINK | Tag_LISTING | Tag_MAP | Tag_MENU | Tag_META
  | Tag_NOFRAMES | Tag_NOSCRIPT | Tag_OBJECT | Tag_OL | Tag_OPTGROUP
  | Tag_OPTION | Tag_P | Tag_PARAM | Tag_PLAINTEXT | Tag_PRE | Tag_Q | Tag_RB
  | Tag_RBC | Tag_RP | Tag_RT | Tag_RTC | Tag_RUBY | Tag_S | Tag_SAMP
  | Tag_SCRIPT | Tag_SELECT | Tag_SMALL | Tag_SPAN | Tag_STRIKE | Tag_STRONG
  | Tag_STYLE | Tag_SUB | Tag_SUP | Tag_TABLE | Tag_TBODY | Tag_TD
  | Tag_TEXTAREA | Tag_TFOOT | Tag_TH | Tag_THEAD | Tag_TITLE | Tag_TR
  | Tag_TT | Tag_U | Tag_UL | Tag_VAR | Tag_XMP | Tag_NEXTID | Tag_ALIGN
  | Tag_BGSOUND | Tag_BLINK | Tag_COMMENT | Tag_EMBED | Tag_ILAYER
  | Tag_KEYGEN | Tag_LAYER | Tag_MARQUEE | Tag_MULTICOL | Tag_NOBR
  | Tag_NOEMBED | Tag_NOLAYER | Tag_NOSAVE | Tag_SERVER | Tag_SERVLET
  | Tag_SPACER | Tag_WBR.

(** Names of the tag flags ([CM_*] of html_tags.h, [FL_*] of html.h) and of
    the document flags ([RSPAMD_HTML_FLAG_*] of html.h). *)
Inductive tag_flag_name :=
  | Bit_CM_EMPTY | Bit_CM_HTML | Bit_CM_HEAD | Bit_CM_BLOCK | Bit_CM_INLINE
  | Bit_CM_LIST | Bit_CM_DEFLIST | Bit_CM_TABLE | Bit_CM_ROWGRP | Bit_CM_ROW
  | Bit_CM_FIELD | Bit_CM_OBJECT | Bit_CM_PARAM | Bit_CM_FRAMES
  | Bit_CM_HEADING | Bit_CM_OPT | Bit_CM_IMG | Bit_CM_MIXED
  | Bit_CM_NO_INDENT | Bit_CM_OBSOLETE | Bit_CM_NEW | Bit_CM_OMITST
  | Bit_CM_UNIQUE | Bit_FL_CLOSING | Bit_FL_CLOSED | Bit_FL_BROKEN
  | Bit_FL_IGNORE | Bit_FL_BLOCK.

Inductive doc_flag_name :=
  | Bit_BAD_START | Bit_BAD_ELEMENTS | Bit_XML | Bit_UNBALANCED
  | Bit_UNKNOWN_ELEMENTS | Bit_DUPLICATE_ELEMENTS | Bit_TOO_MANY_TAGS.

Class html_h := {
  (** every tag flag and every document flag is [1 << n] for its own [n] *)
  tag_flag_bit : tag_flag_name -> Z;
  doc_flag_bit : doc_flag_name -> Z;
  (** [CM_UNKNOWN], the content model of no tag of the table *)
  CM_UNKNOWN : Z;
  (** numeric value of the enumerators [Tag_*], and the last one *)
  tag_num : tag_id_t -> Z;
  N_TAGS : Z;
  (** [rspamd_lc_cmp (s, d, l)] *)
  rspamd_lc_cmp : list ascii -> list ascii -> Z -> Z
}.

Infix ".|" := Z.lor (at level 50, left associativity).

(** [f & m] as a C condition. *)
Definition has (f m : Z) : bool := negb (Z.land f m =? 0).

Definition lower (s : list ascii) : list ascii := map g_ascii_tolower s.

Definition gint (z : Z) : Prop := - 2^31 <= z < 2^31.

(** Strings of small letters and digits. *)
Definition small_alnum (s : list ascii) : Prop :=
  forallb (fun c => let n := code c in
                    ((97 <=? n) && (n <=? 122)) || g_ascii_isdigit c) s = true.

Class html_h_ok `{html_h} : Prop := {
  (** the flags are bits of their own *)
  tag_flag_bit_inj : forall a b, tag_flag_bit a = tag_flag_bit b -> a = b;
  tag_flag_bit_nonneg : forall a, 0 <= tag_flag_bit a;
  doc_flag_bit_inj : forall a b, doc_flag_bit a = doc_flag_bit b -> a = b;
  doc_flag_bit_nonneg : forall a, 0 <= doc_flag_bit a;
  (** the enumerators are distinct, not negative, below [N_TAGS], and fit
      the [gint16] field [id] of the table *)
  tag_num_inj : forall a b, tag_num a = tag_num b -> a = b;
  tag_num_range : forall a, 0 <= tag_num a < N_TAGS;
  N_TAGS_gint16 : N_TAGS <= 2^15;
  (** [rspamd_lc_cmp] is zero on the strings that are equal up to case,
      and orders the strings of one length made of small letters and
      digits, as the names of the table are *)
  lc_cmp_zero : forall s d,
    List.length s = List.length d ->
    (rspamd_lc_cmp s d (Z.of_nat (List.length s)) = 0 <-> lower s = lower d);
  lc_cmp_sgn : forall s d,
    small_alnum s -> small_alnum d ->
    List.length s = List.length d ->
    Z.sgn (rspamd_lc_cmp d s (Z.of_nat (List.length s)))
    = - Z.sgn (rspamd_lc_cmp s d (Z.of_nat (List.length s)));
  lc_cmp_trans : forall a b c,
    small_alnum a -> small_alnum b -> small_alnum c ->
    List.length a = List.length b -> List.length b = List.length c ->
    rspamd_lc_cmp a b (Z.of_nat (List.length a)) <= 0 ->
    rspamd_lc_cmp b c (Z.of_nat (List.length a)) <= 0 ->
    rspamd_lc_cmp a c (Z.of_nat (List.length a)) <= 0
}.

Section Flags.
Context `{html_h}.

Definition tag_flag (n : tag_flag_name) : Z := Z.shiftl 1 (tag_flag_bit n).
Definition doc_flag (n : doc_flag_name) : Z := Z.shiftl 1 (doc_flag_bit n).

Definition CM_EMPTY : Z := tag_flag Bit_CM_EMPTY.
Definition CM_HTML : Z := tag_flag Bit_CM_HTML.
Definition CM_HEAD : Z := tag_flag Bit_CM_HEAD.
Definition CM_BLOCK : Z := tag_flag Bit_CM_BLOCK.
Definition CM_INLINE : Z := tag_flag Bit_CM_INLINE.
Definition CM_LIST : Z := tag_flag Bit_CM_LIST.
Definition CM_DEFLIST : Z := tag_flag Bit_CM_DEFLIST.
Definition CM_TABLE : Z := tag_flag Bit_CM_TABLE.
Definition CM_ROWGRP : Z := tag_flag Bit_CM_ROWGRP.
Definition CM_ROW : Z := tag_flag Bit_CM_ROW.
Definition CM_FIELD : Z := tag_flag Bit_CM_FIELD.
Definition CM_OBJECT : Z := tag_flag Bit_CM_OBJECT.
Definition CM_PARAM : Z := tag_flag Bit_CM_PARAM.
Definition CM_FRAMES : Z := tag_flag Bit_CM_FRAMES.
Definition CM_HEADING : Z := tag_flag Bit_CM_HEADING.
Definition CM_OPT : Z := tag_flag Bit_CM_OPT.
Definition CM_IMG : Z := tag_flag Bit_CM_IMG.
Definition CM_MIXED : Z := tag_flag Bit_CM_MIXED.
Definition CM_NO_INDENT : Z := tag_flag Bit_CM_NO_INDENT.
Definition CM_OBSOLETE : Z := tag_flag Bit_CM_OBSOLETE.
Definition CM_NEW : Z := tag_flag Bit_CM_NEW.
Definition CM_OMITST : Z := tag_flag Bit_CM_OMITST.
Definition CM_UNIQUE : Z := tag_flag Bit_CM_UNIQUE.
Definition FL_CLOSING : Z := tag_flag Bit_FL_CLOSING.
Definition FL_CLOSED : Z := tag_flag Bit_FL_CLOSED.
Definition FL_BROKEN : Z := tag_flag Bit_FL_BROKEN.
Definition FL_IGNORE : Z := tag_flag Bit_FL_IGNORE.
Definition FL_BLOCK : Z := tag_flag Bit_FL_BLOCK.

Definition RSPAMD_HTML_FLAG_BAD_START : Z := doc_flag Bit_BAD_START.
Definition RSPAMD_HTML_FLAG_BAD_ELEMENTS : Z := doc_flag Bit_BAD_ELEMENTS.
Definition RSPAMD_HTML_FLAG_XML : Z := doc_flag Bit_XML.
Definition RSPAMD_HTML_FLAG_UNBALANCED : Z := doc_flag Bit_UNBALANCED.
Definition RSPAMD_HTML_FLAG_UNKNOWN_ELEMENTS : Z := doc_flag Bit_UNKNOWN_ELEMENTS.
Definition RSPAMD_HTML_FLAG_DUPLICATE_ELEMENTS : Z := doc_flag Bit_DUPLICATE_ELEMENTS.
Definition RSPAMD_HTML_FLAG_TOO_MANY_TAGS : Z := doc_flag Bit_TOO_MANY_TAGS.
End Flags.

(** [struct html_tag_def] *)
Record html_tag_def := mk_tag_def {
  def_name : string;
  def_id : Z;      (* gint16 *)
  def_len : Z;     (* guint16 *)
  def_flags : Z
}.

Section TagTable.
Context `{html_h}.

Definition TAG_DEF (id : tag_id_t) (name : string) (flags : Z) : html_tag_def :=
  mk_tag_def name (tag_num id) (Z.of_nat (String.length name)) flags.

Local Open Scope string_scope.

(** [tag_defs] as the source lists it. *)
Definition tag_defs_src : list html_tag_def := [
  TAG_DEF Tag_A "a" (0);
  TAG_DEF Tag_ABBR "abbr" (CM_INLINE);
  TAG_DEF Tag_ACRONYM "acronym" (CM_INLINE);
  TAG_DEF Tag_ADDRESS "address" (CM_BLOCK);
  TAG_DEF Tag_APPLET "applet" (CM_OBJECT .| CM_IMG .| CM_INLINE .| CM_PARAM);
  TAG_DEF Tag_AREA "area" (CM_BLOCK .| CM_EMPTY);
  TAG_DEF Tag_B "b" (CM_INLINE .| FL_BLOCK);
  TAG_DEF Tag_BASE "base" (CM_HEAD .| CM_EMPTY);
  TAG_DEF Tag_BASEFONT "basefont" (CM_INLINE .| CM_EMPTY);
  TAG_DEF Tag_BDO "bdo" (CM_INLINE);
  TAG_DEF Tag_BIG "big" (CM_INLINE);
  TAG_DEF Tag_BLOCKQUOTE "blockquote" (CM_BLOCK);
  TAG_DEF Tag_BODY "body" (CM_HTML .| CM_OPT .| CM_OMITST .| CM_UNIQUE .| FL_BLOCK);
  TAG_DEF Tag_BR "br" (CM_INLINE .| CM_EMPTY);
  TAG_DEF Tag_BUTTON "button" (CM_INLINE .| FL_BLOCK);
  TAG_DEF Tag_CAPTION "caption" (CM_TABLE);
  TAG_DEF Tag_CENTER "center" (CM_BLOCK);
  TAG_DEF Tag_CITE "cite" (CM_INLINE);
  TAG_DEF Tag_CODE "code" (CM_INLINE);
  TAG_DEF Tag_COL "col" (CM_TABLE .| CM_EMPTY);
  TAG_DEF Tag_COLGROUP "colgroup" (CM_TABLE .| CM_OPT);
  TAG_DEF Tag_DD "dd" (CM_DEFLIST .| CM_OPT .| CM_NO_INDENT);
  TAG_DEF Tag_DEL "del" (CM_INLINE .| CM_BLOCK .| CM_MIXED);
  TAG_DEF Tag_DFN "dfn" (CM_INLINE);
  TAG_DEF Tag_DIR "dir" (CM_BLOCK .| CM_OBSOLETE);
  TAG_DEF Tag_DIV "div" (CM_BLOCK .| FL_BLOCK);
  TAG_DEF Tag_DL "dl" (CM_BLOCK .| FL_BLOCK);
  TAG_DEF Tag_DT "dt" (CM_DEFLIST .| CM_OPT .| CM_NO_INDENT);
  TAG_DEF Tag_EM "em" (CM_INLINE);
  TAG_DEF Tag_FIELDSET "fieldset" (CM_BLOCK);
  TAG_DEF Tag_FONT "font" (FL_BLOCK);
  TAG_DEF Tag_FORM "form" (CM_BLOCK);
  TAG_DEF Tag_FRAME "frame" (CM_FRAMES .| CM_EMPTY);
  TAG_DEF Tag_FRAMESET "frameset" (CM_HTML .| CM_FRAMES);
  TAG_DEF Tag_H1 "h1" (CM_BLOCK .| CM_HEADING);
  TAG_DEF Tag_H2 "h2" (CM_BLOCK .| CM_HEADING);
  TAG_DEF Tag_H3 "h3" (CM_BLOCK .| CM_HEADING);
  TAG_DEF Tag_H4 "h4" (CM_BLOCK .| CM_HEADING);
  TAG_DEF Tag_H5 "h5" (CM_BLOCK .| CM_HEADING);
  TAG_DEF Tag_H6 "h6" (CM_BLOCK .| CM_HEADING);
  TAG_DEF Tag_HEAD "head" (CM_HTML .| CM_OPT .| CM_OMITST .| CM_UNIQUE);
  TAG_DEF Tag_HR "hr" (CM_BLOCK .| CM_EMPTY);
  TAG_DEF Tag_HTML "html" (CM_HTML .| CM_OPT .| CM_OMITST .| CM_UNIQUE);
  TAG_DEF Tag_I "i" (CM_INLINE);
  TAG_DEF Tag_IFRAME "iframe" (0);
  TAG_DEF Tag_IMG "img" (CM_INLINE .| CM_IMG .| CM_EMPTY);
  TAG_DEF Tag_INPUT "input" (CM_INLINE .| CM_IMG .| CM_EMPTY);
  TAG_DEF Tag_INS "ins" (CM_INLINE .| CM_BLOCK .| CM_MIXED);
  TAG_DEF Tag_ISINDEX "isindex" (CM_BLOCK .| CM_EMPTY);
  TAG_DEF Tag_KBD "kbd" (CM_INLINE);
  TAG_DEF Tag_LABEL "label" (CM_INLINE);
  TAG_DEF Tag_LEGEND "legend" (CM_INLINE);
  TAG_DEF Tag_LI "li" (CM_LIST .| CM_OPT .| CM_NO_INDENT .| FL_BLOCK);
  TAG_DEF Tag_LINK "link" (CM_HEAD .| CM_EMPTY);
  TAG_DEF Tag_LISTING "listing" (CM_BLOCK .| CM_OBSOLETE);
  TAG_DEF Tag_MAP "map" (CM_INLINE);
  TAG_DEF Tag_MENU "menu" (CM_BLOCK .| CM_OBSOLETE);
  TAG_DEF Tag_META "meta" (CM_HEAD .| CM_INLINE .| CM_EMPTY);
  TAG_DEF Tag_NOFRAMES "noframes" (CM_BLOCK .| CM_FRAMES);
  TAG_DEF Tag_NOSCRIPT "noscript" (CM_BLOCK .| CM_INLINE .| CM_MIXED);
  TAG_DEF Tag_OBJECT "object" (CM_OBJECT .| CM_HEAD .| CM_IMG .| CM_INLINE .| CM_PARAM);
  TAG_DEF Tag_OL "ol" (CM_BLOCK .| FL_BLOCK);
  TAG_DEF Tag_OPTGROUP "optgroup" (CM_FIELD .| CM_OPT);
  TAG_DEF Tag_OPTION "option" (CM_FIELD .| CM_OPT);
  TAG_DEF Tag_P "p" (CM_BLOCK .| CM_OPT .| FL_BLOCK);
  TAG_DEF Tag_PARAM "param" (CM_INLINE .| CM_EMPTY);
  TAG_DEF Tag_PLAINTEXT "plaintext" (CM_BLOCK .| CM_OBSOLETE);
  TAG_DEF Tag_PRE "pre" (CM_BLOCK);
  TAG_DEF Tag_Q "q" (CM_INLINE);
  TAG_DEF Tag_RB "rb" (CM_INLINE);
  TAG_DEF Tag_RBC "rbc" (CM_INLINE);
  TAG_DEF Tag_RP "rp" (CM_INLINE);
  TAG_DEF Tag_RT "rt" (CM_INLINE);
  TAG_DEF Tag_RTC "rtc" (CM_INLINE);
  TAG_DEF Tag_RUBY "ruby" (CM_INLINE);
  TAG_DEF Tag_S "s" (CM_INLINE);
  TAG_DEF Tag_SAMP "samp" (CM_INLINE);
  TAG_DEF Tag_SCRIPT "script" (CM_HEAD .| CM_MIXED);
  TAG_DEF Tag_SELECT "select" (CM_INLINE .| CM_FIELD);
  TAG_DEF Tag_SMALL "small" (CM_INLINE);
  TAG_DEF Tag_SPAN "span" (CM_BLOCK .| FL_BLOCK);
  TAG_DEF Tag_STRIKE "strike" (CM_INLINE);
  TAG_DEF Tag_STRONG "strong" (CM_INLINE);
  TAG_DEF Tag_STYLE "style" (CM_HEAD);
  TAG_DEF Tag_SUB "sub" (CM_INLINE);
  TAG_DEF Tag_SUP "sup" (CM_INLINE);
  TAG_DEF Tag_TABLE "table" (CM_BLOCK .| FL_BLOCK);
  TAG_DEF Tag_TBODY "tbody" (CM_TABLE .| CM_ROWGRP .| CM_OPT .| FL_BLOCK);
  TAG_DEF Tag_TD "td" (CM_ROW .| CM_OPT .| CM_NO_INDENT .| FL_BLOCK);
  TAG_DEF Tag_TEXTAREA "textarea" (CM_INLINE .| CM_FIELD);
  TAG_DEF Tag_TFOOT "tfoot" (CM_TABLE .| CM_ROWGRP .| CM_OPT);
  TAG_DEF Tag_TH "th" (CM_ROW .| CM_OPT .| CM_NO_INDENT .| FL_BLOCK);
  TAG_DEF Tag_THEAD "thead" (CM_TABLE .| CM_ROWGRP .| CM_OPT);
  TAG_DEF Tag_TITLE "title" (CM_HEAD .| CM_UNIQUE);
  TAG_DEF Tag_TR "tr" (CM_TABLE .| CM_OPT .| FL_BLOCK);
  TAG_DEF Tag_TT "tt" (CM_INLINE);
  TAG_DEF Tag_U "u" (CM_INLINE);
  TAG_DEF Tag_UL "ul" (CM_BLOCK .| FL_BLOCK);
  TAG_DEF Tag_VAR "var" (CM_INLINE);
  TAG_DEF Tag_XMP "xmp" (CM_BLOCK .| CM_OBSOLETE);
  TAG_DEF Tag_NEXTID "nextid" (CM_HEAD .| CM_EMPTY);
  TAG_DEF Tag_ALIGN "align" (CM_BLOCK);
  TAG_DEF Tag_BGSOUND "bgsound" (CM_HEAD .| CM_EMPTY);
  TAG_DEF Tag_BLINK "blink" (CM_INLINE);
  TAG_DEF Tag_COMMENT "comment" (CM_INLINE);
  TAG_DEF Tag_EMBED "embed" (CM_INLINE .| CM_IMG .| CM_EMPTY);
  TAG_DEF Tag_ILAYER "ilayer" (CM_INLINE);
  TAG_DEF Tag_KEYGEN "keygen" (CM_INLINE .| CM_EMPTY);
  TAG_DEF Tag_LAYER "layer" (CM_BLOCK);
  TAG_DEF Tag_MARQUEE "marquee" (CM_INLINE .| CM_OPT);
  TAG_DEF Tag_MULTICOL "multicol" (CM_BLOCK);
  TAG_DEF Tag_NOBR "nobr" (CM_INLINE);
  TAG_DEF Tag_NOEMBED "noembed" (CM_INLINE);
  TAG_DEF Tag_NOLAYER "nolayer" (CM_BLOCK .| CM_INLINE .| CM_MIXED);
  TAG_DEF Tag_NOSAVE "nosave" (CM_BLOCK);
  TAG_DEF Tag_SERVER "server" (CM_HEAD .| CM_MIXED .| CM_BLOCK .| CM_INLINE);
  TAG_DEF Tag_SERVLET "servlet" (CM_OBJECT .| CM_IMG .| CM_INLINE .| CM_PARAM);
  TAG_DEF Tag_SPACER "spacer" (CM_INLINE .| CM_EMPTY);
  TAG_DEF Tag_WBR "wbr" (CM_INLINE .| CM_EMPTY)
].

Local Close Scope string_scope.
End TagTable.

Section TagLookup.
Context `{html_h}.

Definition tag_cmp (p1 p2 : html_tag_def) : Z :=
  if def_len p1 =? def_len p2 then
    rspamd_lc_cmp (bytes (def_name p1)) (bytes (def_name p2)) (def_len p1)
  else def_len p1 - def_len p2.

Definition tag_cmp_id (p1 p2 : html_tag_def) : Z := def_id p1 - def_id p2.

(** The key is a [struct html_tag] of which only [id] is set. *)
Definition tag_find_id (id : Z) (d : html_tag_def) : Z := sint32 (id - def_id d).

(** The key is a [struct html_tag] of which only [name] is set, with
    [name.len = strlen (name)] stored in a [guint]; the lengths are
    unsigned, their difference comes back as a [gint]. *)
Definition tag_find (name : list ascii) (d : html_tag_def) : Z :=
  let len := wrap32 (Z.of_nat (List.length name)) in
  if def_len d =? len then rspamd_lc_cmp name (bytes (def_name d)) len
  else sint32 (len - def_len d).

(** The tables after [rspamd_html_library_init]. *)
Definition tag_defs : list html_tag_def := qsort tag_cmp tag_defs_src.
Definition tag_defs_num : list html_tag_def := qsort tag_cmp_id tag_defs.

Definition rspamd_html_tag_by_name (name : list ascii) : Z :=
  match bsearch tag_find (take_cstr name) tag_defs with
  | Some found => def_id found
  | None => -1
  end.

(** [None] is the C [NULL]. *)
Definition rspamd_html_tag_by_id (id : Z) : option string :=
  match bsearch tag_find_id id tag_defs_num with
  | Some found => Some (def_name found)
  | None => None
  end.
End TagLookup.

(** * libserver/html.c: the tag tree

    Tags and tree nodes live in the message pool and are only reached
    through pointers, so they are kept in two stores addressed by index:
    [struct html_tag] records in [p_tags], glib [GNode]s in [p_nodes].  A
    [GNode] is appended to its parent once, right after [g_node_new], so the
    children of a node are the live nodes that name it as parent, in index
    order.  A freed node is [None]; a computation that would dereference
    NULL or a freed node, or not leave a loop, has no result ([None]). *)

Record html_tag := mk_tag {
  tag_id : Z;
  tag_flags : Z;
  tag_content_length : Z;
  tag_parent : option nat            (* GNode *parent *)
}.

Record GNode := mk_node {
  node_data : option nat;            (* the struct html_tag, or NULL *)
  node_parent : option nat
}.

Record html_content := mk_hc {
  hc_html_tags : option nat;         (* root of the tree *)
  hc_flags : Z;
  hc_total_tags : Z;
  hc_tags_seen : Z                   (* bit set indexed by tag id *)
}.

Record parser := mk_parser {
  p_tags : list html_tag;
  p_nodes : list (option GNode);
  p_hc : html_content;
  p_cur_level : option nat           (* GNode *cur_level *)
}.

Definition max_tags : Z := 8192.

Definition bind {A B} (o : option A) (f : A -> option B) : option B :=
  match o with Some a => f a | None => None end.

Notation "x <- e ;; k" := (bind e (fun x => k))
  (at level 61, e at next level, right associativity).
Notation "' pat <- e ;; k" := (bind e (fun x => match x with pat => k end))
  (at level 61, pat pattern, e at next level, right associativity).

Definition get_tag (P : parser) (i : nat) : option html_tag := nth_error (p_tags P) i.

Definition get_node (P : parser) (i : nat) : option GNode :=
  match nth_error (p_nodes P) i with
  | Some (Some n) => Some n
  | _ => None
  end.

Definition set_tag (P : parser) (i : nat) (t : html_tag) : parser :=
  mk_parser (upd (p_tags P) i t) (p_nodes P) (p_hc P) (p_cur_level P).

Definition set_hc (P : parser) (h : html_content) : parser :=
  mk_parser (p_tags P) (p_nodes P) h (p_cur_level P).

Definition set_cur_level (P : parser) (c : option nat) : parser :=
  mk_parser (p_tags P) (p_nodes P) (p_hc P) c.

Definition tag_or_flags (t : html_tag) (f : Z) : html_tag :=
  mk_tag (tag_id t) (tag_flags t .| f) (tag_content_length t) (tag_parent t).

Definition hc_or_flags (h : html_content) (f : Z) : html_content :=
  mk_hc (hc_html_tags h) (hc_flags h .| f) (hc_total_tags h) (hc_tags_seen h).

(** [hc->total_tags ++] on a [guint] *)
Definition hc_count_tag (h : html_content) : html_content :=
  mk_hc (hc_html_tags h) (hc_flags h) (wrap32 (hc_total_tags h + 1)) (hc_tags_seen h).

(** [g_node_new (data)] followed by [g_node_append (parent, nnode)]; with
    [parent = None] the node is left without parent.  Returns [nnode]. *)
Definition g_node_new_append (P : parser) (data parent : option nat) : parser * nat :=
  (mk_parser (p_tags P) (p_nodes P ++ [Some (mk_node data parent)]) (p_hc P)
             (p_cur_level P),
   List.length (p_nodes P)).

(** [g_node_destroy (node)] of a node without children. *)
Definition g_node_destroy (P : parser) (node : nat) : parser :=
  mk_parser (p_tags P) (upd (p_nodes P) node None) (p_hc P) (p_cur_level P).

(** The parser state at the start of [rspamd_html_process_part_full], for a
    zeroed [struct html_content]. *)
Definition parser_init : parser := mk_parser [] [] (mk_hc None 0 0 0) None.

Section TagTree.
Context `{html_h}.

(** The [while (cur && cur->data)] loop of [rspamd_html_check_balance]:
    the ancestor it stops at, if any. *)
Fixpoint balance_walk (fuel : nat) (P : parser) (arg_id : Z) (cur : option nat)
  : option (option nat) :=
  match fuel with
  | O => None
  | S fuel =>
    match cur with
    | None => Some None
    | Some c =>
      n <- get_node P c ;;
      match node_data n with
      | None => Some None
      | Some ti =>
        tmp <- get_tag P ti ;;
        if (tag_id tmp =? arg_id) && negb (has (tag_flags tmp) FL_CLOSED)
        then Some (Some c)
        else balance_walk fuel P arg_id (node_parent n)
      end
    end
  end.

Definition rspamd_html_check_balance (P : parser) (node : nat)
  : option (parser * bool) :=
  n <- get_node P node ;;
  ti <- node_data n ;;
  arg <- get_tag P ti ;;
  if has (tag_flags arg) FL_CLOSING then
    (* First of all check whether this tag is closing tag for parent node *)
    found <- balance_walk (S (List.length (p_nodes P))) P (tag_id arg) (node_parent n) ;;
    match found with
    | Some cur =>
      c <- get_node P cur ;;
      tj <- node_data c ;;
      tmp <- get_tag P tj ;;
      let P := set_tag P tj (tag_or_flags tmp FL_CLOSED) in
      (* Destroy current node as we find corresponding parent node *)
      let P := g_node_destroy P node in
      (* Change level *)
      Some (set_cur_level P (node_parent c), true)
    | None => Some (P, false)
    end
  else Some (P, true).

(** [rspamd_html_process_tag (pool, hc, tag, &cur_level, &balanced)], in the
    order of the source.  First the root is made on the first call, and the
    too-many-tags flag is set. *)
Definition pt_root (P : parser) : parser :=
  match hc_html_tags (p_hc P) with
  | None =>
    let '(P, nnode) := g_node_new_append P None None in
    let P := set_cur_level P (Some nnode) in
    set_hc P (mk_hc (Some nnode) (hc_flags (p_hc P)) (hc_total_tags (p_hc P))
                    (hc_tags_seen (p_hc P)))
  | Some _ => P
  end.

Definition pt_too_many (P : parser) : parser :=
  if hc_total_tags (p_hc P) >? max_tags
  then set_hc P (hc_or_flags (p_hc P) RSPAMD_HTML_FLAG_TOO_MANY_TAGS)
  else P.

(** A block tag with [FL_CLOSING] or [FL_CLOSED]. *)
Definition pt_block_closing (P : parser) (tag : nat) (balanced : bool)
  : option (parser * bool * bool) :=
  match p_cur_level P with
  | None => Some (P, false, balanced)        (* bad parent node *)
  | Some cl =>
    if hc_total_tags (p_hc P) <? max_tags then
      let '(P, nnode) := g_node_new_append P (Some tag) (Some cl) in
      '(P, ok) <- rspamd_html_check_balance P nnode ;;
      let '(P, balanced) :=
        if negb ok
        then (set_hc P (hc_or_flags (p_hc P) RSPAMD_HTML_FLAG_UNBALANCED), false)
        else (P, true) in
      Some (set_hc P (hc_count_tag (p_hc P)), true, balanced)
    else Some (P, true, balanced)
  end.

(** The end of the branch of an opening block tag: the node is added under
    [*cur_level] and becomes the current level unless the tag is closed. *)
Definition pt_add_open (P : parser) (tag : nat) (t : html_tag) (balanced : bool)
  : option (parser * bool * bool) :=
  let P :=
    if hc_total_tags (p_hc P) <? max_tags then
      let '(P, nnode) := g_node_new_append P (Some tag) (p_cur_level P) in
      let P := if has (tag_flags t) FL_CLOSED then P
               else set_cur_level P (Some nnode) in
      set_hc P (hc_count_tag (p_hc P))
    else P in
  if has (tag_flags t) (CM_HEAD .| CM_UNKNOWN .| FL_IGNORE) then
    Some (set_tag P tag (tag_or_flags t FL_IGNORE), false, balanced)
  else Some (P, true, balanced).

(** "We likely have some bad nesting": something like <a>bla<a>foo... *)
Definition pt_bad_nesting (P : parser) (tag : nat) (t parent : html_tag)
  : option (parser * bool * bool) :=
  let P := set_hc P (hc_or_flags (p_hc P) RSPAMD_HTML_FLAG_UNBALANCED) in
  let t := mk_tag (tag_id t) (tag_flags t) (tag_content_length t) (tag_parent parent) in
  let P := set_tag P tag t in
  let P :=
    if hc_total_tags (p_hc P) <? max_tags then
      let '(P, nnode) := g_node_new_append P (Some tag) (tag_parent parent) in
      let P := set_cur_level P (Some nnode) in
      set_hc P (hc_count_tag (p_hc P))
    else P in
  Some (P, true, false).

(** An opening block tag; [t] is [*tag] as stored in [P]. *)
Definition pt_block_open (P : parser) (tag : nat) (t : html_tag) (balanced : bool)
  : option (parser * bool * bool) :=
  cl <- p_cur_level P ;;
  cln <- get_node P cl ;;
  match node_data cln with
  | Some pi =>
    parent <- get_tag P pi ;;
    let t := if has (tag_flags parent) FL_IGNORE then tag_or_flags t FL_IGNORE
             else t in
    let P := set_tag P tag t in
    if negb (has (tag_flags t) FL_CLOSED)
       && negb (has (tag_flags parent) FL_BLOCK)
       && (tag_id parent =? tag_id t)
    then pt_bad_nesting P tag t parent
    else
      (* parent->content_length += tag->content_length; [tag] is not in
         the tree yet, so [parent] is another record *)
      let parent := mk_tag (tag_id parent) (tag_flags parent)
                           (wrap32 (tag_content_length parent
                                    + tag_content_length t))
                           (tag_parent parent) in
      let P := set_tag P pi parent in
      pt_add_open P tag t balanced
  | None => pt_add_open P tag t balanced
  end.

Definition pt_inline (P : parser) (tag : nat) (t : html_tag) (balanced : bool)
  : option (parser * bool * bool) :=
  cl <- p_cur_level P ;;
  cln <- get_node P cl ;;
  match node_data cln with
  | Some pi =>
    parent <- get_tag P pi ;;
    if has (tag_flags parent) (CM_HEAD .| CM_UNKNOWN .| FL_IGNORE) then
      Some (set_tag P tag (tag_or_flags t FL_IGNORE), false, balanced)
    else Some (P, true, balanced)
  | None => Some (P, true, balanced)
  end.

(** The state after the call, the returned value and [*balanced]. *)
Definition rspamd_html_process_tag (P : parser) (tag : nat) (balanced : bool)
  : option (parser * bool * bool) :=
  let P := pt_too_many (pt_root P) in
  t <- get_tag P tag ;;
  if tag_id t =? -1 then
    (* Ignore unknown tags *)
    Some (set_hc P (hc_count_tag (p_hc P)), false, balanced)
  else
    let t := mk_tag (tag_id t) (tag_flags t) (tag_content_length t) (p_cur_level P) in
    let P := set_tag P tag t in
    if negb (has (tag_flags t) CM_INLINE) then
      (* Block tag *)
      if has (tag_flags t) (FL_CLOSING .| FL_CLOSED)
      then pt_block_closing P tag balanced
      else pt_block_open P tag t balanced
    else pt_inline P tag t balanced.

(** The uniqueness check of state [tag_end] (lines 2552-2560), with
    [isset]/[setbit] on the bit set [tags_seen]. *)
Definition tag_end_seen (P : parser) (cur_tag : nat) : option parser :=
  t <- get_tag P cur_tag ;;
  if negb (tag_id t =? -1) && (tag_id t <? N_TAGS) then
    let h := p_hc P in
    let h :=
      if has (tag_flags t) CM_UNIQUE && Z.testbit (hc_tags_seen h) (tag_id t)
      then hc_or_flags h RSPAMD_HTML_FLAG_DUPLICATE_ELEMENTS  (* Duplicate tag has been found *)
      else h in
    Some (set_hc P (mk_hc (hc_html_tags h) (hc_flags h) (hc_total_tags h)
                          (Z.setbit (hc_tags_seen h) (tag_id t))))
  else Some P.

(** [cur_tag] is a fresh record of the pool, filled by the tag parser. *)
Definition with_cur_tag (P : parser) (t : html_tag) : parser :=
  mk_parser (p_tags P ++ [t]) (p_nodes P) (p_hc P) (p_cur_level P).

(** What state [tag_end] does to the tree and the document flags for one
    completed tag [t]; [balanced] starts TRUE. *)
Definition html_tag_end (P : parser) (t : html_tag) : option parser :=
  let cur_tag := List.length (p_tags P) in
  '(P, _, _) <- rspamd_html_process_tag (with_cur_tag P t) cur_tag true ;;
  tag_end_seen P cur_tag.

Fixpoint html_tags_run (P : parser) (ts : list html_tag) : option parser :=
  match ts with
  | [] => Some P
  | t :: ts => P <- html_tag_end P t ;; html_tags_run P ts
  end.

(** A tag as [rspamd_html_parse_tag_content] and state [tag_content]
    leave it for a name found in [tag_defs]: [found->id] and
    [found->flags], with [FL_CLOSING] for [</name>]. *)
Definition tag_open (d : html_tag_def) : html_tag :=
  mk_tag (def_id d) (def_flags d) 0 None.

Definition tag_close (d : html_tag_def) : html_tag :=
  mk_tag (def_id d) (def_flags d .| FL_CLOSING) 0 None.
End TagTree.

(** * A sample assignment of the constants of html_tags.h and html.h

    Used to show that the assumptions [html_h_ok] can be met: the content
    model bits from bit 0, the tag flags from bit 26, the document flags
    from bit 0, the enumerators numbered from 1 in the order of the table,
    and a case-insensitive lexicographic [rspamd_lc_cmp]. *)

Definition sample_tag_num (t : tag_id_t) : Z :=
  match t with
  | Tag_A => 1 | Tag_ABBR => 2 | Tag_ACRONYM => 3 | Tag_ADDRESS => 4
  | Tag_APPLET => 5 | Tag_AREA => 6 | Tag_B => 7 | Tag_BASE => 8
  | Tag_BASEFONT => 9 | Tag_BDO => 10 | Tag_BIG => 11 | Tag_BLOCKQUOTE => 12
  | Tag_BODY => 13 | Tag_BR => 14 | Tag_BUTTON => 15 | Tag_CAPTION => 16
  | Tag_CENTER => 17 | Tag_CITE => 18 | Tag_CODE => 19 | Tag_COL => 20
  | Tag_COLGROUP => 21 | Tag_DD => 22 | Tag_DEL => 23 | Tag_DFN => 24
  | Tag_DIR => 25 | Tag_DIV => 26 | Tag_DL => 27 | Tag_DT => 28
  | Tag_EM => 29 | Tag_FIELDSET => 30 | Tag_FONT => 31 | Tag_FORM => 32
  | Tag_FRAME => 33 | Tag_FRAMESET => 34 | Tag_H1 => 35 | Tag_H2 => 36
  | Tag_H3 => 37 | Tag_H4 => 38 | Tag_H5 => 39 | Tag_H6 => 40
  | Tag_HEAD => 41 | Tag_HR => 42 | Tag_HTML => 43 | Tag_I => 44
  | Tag_IFRAME => 45 | Tag_IMG => 46 | Tag_INPUT => 47 | Tag_INS => 48
  | Tag_ISINDEX => 49 | Tag_KBD => 50 | Tag_LABEL => 51 | Tag_LEGEND => 52
  | Tag_LI => 53 | Tag_LINK => 54 | Tag_LISTING => 55 | Tag_MAP => 56
  | Tag_MENU => 57 | Tag_META => 58 | Tag_NOFRAMES => 59 | Tag_NOSCRIPT => 60
  | Tag_OBJECT => 61 | Tag_OL => 62 | Tag_OPTGROUP => 63 | Tag_OPTION => 64
  | Tag_P => 65 | Tag_PARAM => 66 | Tag_PLAINTEXT => 67 | Tag_PRE => 68
  | Tag_Q => 69 | Tag_RB => 70 | Tag_RBC => 71 | Tag_RP => 72 | Tag_RT => 73
  | Tag_RTC => 74 | Tag_RUBY => 75 | Tag_S => 76 | Tag_SAMP => 77
  | Tag_SCRIPT => 78 | Tag_SELECT => 79 | Tag_SMALL => 80 | Tag_SPAN => 81
  | Tag_STRIKE => 82 | Tag_STRONG => 83 | Tag_STYLE => 84 | Tag_SUB => 85
  | Tag_SUP => 86 | Tag_TABLE => 87 | Tag_TBODY => 88 | Tag_TD => 89
  | Tag_TEXTAREA => 90 | Tag_TFOOT => 91 | Tag_TH => 92 | Tag_THEAD => 93
  | Tag_TITLE => 94 | Tag_TR => 95 | Tag_TT => 96 | Tag_U => 97
  | Tag_UL => 98 | Tag_VAR => 99 | Tag_XMP => 100 | Tag_NEXTID => 101
  | Tag_ALIGN => 102 | Tag_BGSOUND => 103 | Tag_BLINK => 104
  | Tag_COMMENT => 105 | Tag_EMBED => 106 | Tag_ILAYER => 107
  | Tag_KEYGEN => 108 | Tag_LAYER => 109 | Tag_MARQUEE => 110
  | Tag_MULTICOL => 111 | Tag_NOBR => 112 | Tag_NOEMBED => 113
  | Tag_NOLAYER => 114 | Tag_NOSAVE => 115 | Tag_SERVER => 116
  | Tag_SERVLET => 117 | Tag_SPACER => 118 | Tag_WBR => 119
  end.

Fixpoint lc_cmp_lex (s d : list ascii) (l : nat) : Z :=
  match l, s, d with
  | S l, a :: s, b :: d =>
    let x := code (g_ascii_tolower a) - code (g_ascii_tolower b) in
    if x =? 0 then lc_cmp_lex s d l else x
  | _, _, _ => 0
  end.

Definition sample_tag_flag_bit (n : tag_flag_name) : Z :=
  match n with
  | Bit_CM_EMPTY => 0 | Bit_CM_HTML => 1 | Bit_CM_HEAD => 2
  | Bit_CM_BLOCK => 3 | Bit_CM_INLINE => 4 | Bit_CM_LIST => 5
  | Bit_CM_DEFLIST => 6 | Bit_CM_TABLE => 7 | Bit_CM_ROWGRP => 8
  | Bit_CM_ROW => 9 | Bit_CM_FIELD => 10 | Bit_CM_OBJECT => 11
  | Bit_CM_PARAM => 12 | Bit_CM_FRAMES => 13 | Bit_CM_HEADING => 14
  | Bit_CM_OPT => 15 | Bit_CM_IMG => 16 | Bit_CM_MIXED => 17
  | Bit_CM_NO_INDENT => 18 | Bit_CM_OBSOLETE => 19 | Bit_CM_NEW => 20
  | Bit_CM_OMITST => 21 | Bit_CM_UNIQUE => 22 | Bit_FL_CLOSING => 26
  | Bit_FL_CLOSED => 27 | Bit_FL_BROKEN => 28 | Bit_FL_IGNORE => 29
  | Bit_FL_BLOCK => 30
  end.

Definition sample_doc_flag_bit (n : doc_flag_name) : Z :=
  match n with
  | Bit_BAD_START => 0 | Bit_BAD_ELEMENTS => 1 | Bit_XML => 2
  | Bit_UNBALANCED => 3 | Bit_UNKNOWN_ELEMENTS => 4
  | Bit_DUPLICATE_ELEMENTS => 5 | Bit_TOO_MANY_TAGS => 6
  end.

Definition sample_html_h : html_h := {|
  tag_flag_bit := sample_tag_flag_bit;
  doc_flag_bit := sample_doc_flag_bit;
  CM_UNKNOWN := 0;
  tag_num := sample_tag_num;
  N_TAGS := 120;
  rspamd_lc_cmp := fun s d l => lc_cmp_lex s d (Z.to_nat l)
|}.

(** * Definitions used to state the properties *)

(** The prefix [rspamd_html_process_url] puts in front of a span without
    [:]. *)
Definition url_prefix_for (s : list ascii) : list ascii :=
  match s with
  | a :: b :: _ :: _ =>
    if Ascii.eqb a "/" && Ascii.eqb b "/" then bytes "http:" else bytes "http://"
  | _ => bytes "http://"
  end.


Definition bytes_eqb (a b : list ascii) : bool :=
  (List.length a =? List.length b)%nat
  && forallb (fun p => Ascii.eqb (fst p) (snd p)) (combine a b).

(** [a] is a proper suffix of [b] that starts right after a dot of [b]:
    the host or TLD [b] is a subdomain of [a]. *)
Fixpoint dot_suffix (a b : list ascii) : bool :=
  match b with
  | [] => false
  | c :: r => (Ascii.eqb c "." && bytes_eqb r a) || dot_suffix a r
  end.

(** ** Sample collaborators, to instantiate the assumptions on the URL layer *)

(** Finds the whole text as a URL at offset 0. *)
Definition sample_url_find (text : list ascii) : option (list ascii * Z) :=
  Some (text, 0).

(** Takes what follows the seven bytes of [http://] as host and as TLD. *)
Definition sample_url_parse (str : list ascii) : option rspamd_url :=
  Some (mk_url str (skipn 7 str) (skipn 7 str) 0 None []).

Definition sample_ftok_casecmp (a b : list ascii) : Z :=
  if bytes_eqb (lower a) (lower b) then 0 else 1.

(** ** The comparison of names

    Modelled from the spec: tags are looked up by name "by length, then
    case-insensitive lexicographic" order.  [rspamd_lc_cmp] (str_util.c) is
    not among the sources; that it compares without regard to case is taken
    to mean that it gives for two strings what it gives for their
    lower-case forms. *)
Definition lc_cmp_caseless `{html_h} : Prop :=
  forall s d n, rspamd_lc_cmp s d n = rspamd_lc_cmp (lower s) (lower d) n.

(** ** Relations between two states of the tag tree *)

(** Same tag up to [content_length]. *)
Definition tag_core_eq (u u' : html_tag) : Prop :=
  tag_id u' = tag_id u /\ tag_flags u' = tag_flags u /\ tag_parent u' = tag_parent u.

(** Every tag record but [cur] is kept, up to [content_length]. *)
Definition tags_kept_except (cur : nat) (P P' : parser) : Prop :=
  List.length (p_tags P') = List.length (p_tags P)
  /\ forall i u, i <> cur -> get_tag P i = Some u ->
                 exists u', get_tag P' i = Some u' /\ tag_core_eq u u'.

(** ** Well-nested tag sequences

    The tags of a document in the order state [tag_end] sees them.  In
    [nested ctx ts] the sequence [ts] is made of whole elements: tags that
    do not enter the tree (unknown or inline), self-closed block tags, and
    block elements with an opening tag, a well-nested content and the
    closing tag of the same id.  [ctx] is the opening tag of the enclosing
    element; an element whose enclosing element has the same id and lacks
    [FL_BLOCK] is what the code takes for bad nesting, and is left out. *)

Section Nested.
Context `{html_h}.

Definition same_id_nesting (ctx : option html_tag) (o : html_tag) : Prop :=
  match ctx with
  | Some p => has (tag_flags p) FL_BLOCK = false /\ tag_id p = tag_id o
  | None => False
  end.




(** The current level of [P] is a live node whose tag, if it has one, is
    the enclosing element [ctx] as far as the code looks at it. *)
Definition level_ok (P : parser) (ctx : option html_tag) : Prop :=
  hc_html_tags (p_hc P) <> None
  /\ 0 <= hc_total_tags (p_hc P)
  /\ exists cl cln,
      p_cur_level P = Some cl /\ get_node P cl = Some cln
      /\ match node_data cln with
         | None => ctx = None
         | Some pi =>
           exists u o, get_tag P pi = Some u /\ ctx = Some o
                       /\ tag_id u = tag_id o
                       /\ has (tag_flags u) FL_BLOCK = has (tag_flags o) FL_BLOCK
         end.

(** [P'] is [P] after a run of whole elements that counted [n] tags: same
    level, no new unbalanced flag, the old nodes and tags kept, and every
    node added since has a tag marked closed. *)
Definition run_frame (n : Z) (P P' : parser) : Prop :=
  p_cur_level P' = p_cur_level P
  /\ hc_html_tags (p_hc P') = hc_html_tags (p_hc P)
  /\ hc_total_tags (p_hc P') = hc_total_tags (p_hc P) + n
  /\ has (hc_flags (p_hc P')) RSPAMD_HTML_FLAG_UNBALANCED
     = has (hc_flags (p_hc P)) RSPAMD_HTML_FLAG_UNBALANCED
  /\ (exists extra,
        p_nodes P' = p_nodes P ++ extra
        /\ forall nd ti, In (Some nd) extra -> node_data nd = Some ti ->
             exists u, get_tag P' ti = Some u /\ has (tag_flags u) FL_CLOSED = true)
  /\ (forall i u, get_tag P i = Some u ->
        exists u', get_tag P' i = Some u' /\ tag_core_eq u u').
End Nested.

(** The state once the first call of [rspamd_html_process_tag] has made the
    root. *)
Definition parser_rooted : parser :=
  mk_parser [] [Some (mk_node None None)] (mk_hc (Some 0%nat) 0 0 0) (Some 0%nat).

(** Some rows of [tag_defs]. *)
Section Rows.
Context `{html_h}.
Definition def_div : html_tag_def := TAG_DEF Tag_DIV "div" (CM_BLOCK .| FL_BLOCK).
Definition def_p : html_tag_def := TAG_DEF Tag_P "p" (CM_BLOCK .| CM_OPT .| FL_BLOCK).
Definition def_blockquote : html_tag_def := TAG_DEF Tag_BLOCKQUOTE "blockquote" (CM_BLOCK).
Definition def_html : html_tag_def :=
  TAG_DEF Tag_HTML "html" (CM_HTML .| CM_OPT .| CM_OMITST .| CM_UNIQUE).
End Rows.

(** What holds of the state all along a document made of opening [<div>]
    tags only. *)
Definition flood_inv `{html_h} (P : parser) : Prop :=
  (level_ok P None \/ level_ok P (Some (tag_open def_div)))
  /\ hc_total_tags (p_hc P) <= max_tags
  /\ has (hc_flags (p_hc P)) RSPAMD_HTML_FLAG_TOO_MANY_TAGS = false
  /\ Z.of_nat (List.length (p_nodes P)) = hc_total_tags (p_hc P) + 1.

(** The order a comparison function of [qsort] stands for. *)
Definition cmp_le {A} (cmp : A -> A -> Z) (a b : A) : Prop := cmp a b <= 0.

(** ** The rows of the tag table *)

(** The enumerators of [tag_defs], in the order of the source. *)
Definition tag_ids : list tag_id_t := [
  Tag_A; Tag_ABBR; Tag_ACRONYM; Tag_ADDRESS; Tag_APPLET; Tag_AREA; Tag_B;
  Tag_BASE; Tag_BASEFONT; Tag_BDO; Tag_BIG; Tag_BLOCKQUOTE; Tag_BODY; Tag_BR;
  Tag_BUTTON; Tag_CAPTION; Tag_CENTER; Tag_CITE; Tag_CODE; Tag_COL;
  Tag_COLGROUP; Tag_DD; Tag_DEL; Tag_DFN; Tag_DIR; Tag_DIV; Tag_DL; Tag_DT;
  Tag_EM; Tag_FIELDSET; Tag_FONT; Tag_FORM; Tag_FRAME; Tag_FRAMESET; Tag_H1;
  Tag_H2; Tag_H3; Tag_H4; Tag_H5; Tag_H6; Tag_HEAD; Tag_HR; Tag_HTML; Tag_I;
  Tag_IFRAME; Tag_IMG; Tag_INPUT; Tag_INS; Tag_ISINDEX; Tag_KBD; Tag_LABEL;
  Tag_LEGEND; Tag_LI; Tag_LINK; Tag_LISTING; Tag_MAP; Tag_MENU; Tag_META;
  Tag_NOFRAMES; Tag_NOSCRIPT; Tag_OBJECT; Tag_OL; Tag_OPTGROUP; Tag_OPTION;
  Tag_P; Tag_PARAM; Tag_PLAINTEXT; Tag_PRE; Tag_Q; Tag_RB; Tag_RBC; Tag_RP;
  Tag_RT; Tag_RTC; Tag_RUBY; Tag_S; Tag_SAMP; Tag_SCRIPT; Tag_SELECT;
  Tag_SMALL; Tag_SPAN; Tag_STRIKE; Tag_STRONG; Tag_STYLE; Tag_SUB; Tag_SUP;
  Tag_TABLE; Tag_TBODY; Tag_TD; Tag_TEXTAREA; Tag_TFOOT; Tag_TH; Tag_THEAD;
  Tag_TITLE; Tag_TR; Tag_TT; Tag_U; Tag_UL; Tag_VAR; Tag_XMP; Tag_NEXTID;
  Tag_ALIGN; Tag_BGSOUND; Tag_BLINK; Tag_COMMENT; Tag_EMBED; Tag_ILAYER;
  Tag_KEYGEN; Tag_LAYER; Tag_MARQUEE; Tag_MULTICOL; Tag_NOBR; Tag_NOEMBED;
  Tag_NOLAYER; Tag_NOSAVE; Tag_SERVER; Tag_SERVLET; Tag_SPACER; Tag_WBR
].

(** A row as [TAG_DEF] builds it: [len] is the length of [name], which is a
    C string of small letters and digits, and [id] fits its [gint16]. *)
Definition row_ok (d : html_tag_def) : Prop :=
  def_len d = Z.of_nat (List.length (bytes (def_name d)))
  /\ def_len d < 2^15
  /\ take_cstr (bytes (def_name d)) = bytes (def_name d)
  /\ small_alnum (bytes (def_name d))
  /\ 0 <= def_id d < 2^15.

Fixpoint nodupb {A} (eqb : A -> A -> bool) (l : list A) : bool :=
  match l with
  | [] => true
  | x :: r => negb (existsb (eqb x) r) && nodupb eqb r
  end.

(** * Definitions used to state further properties of the code *)

(** ** Part similarity (message.c) *)

(** The edit distance the loop of [rspamd_words_levenshtein_distance]
    works out: leaving out a word of either sequence costs 1, aligning two
    words costs twice [eq], which is 2 when their hashes are equal and 0
    when they differ. *)
Fixpoint lev_cost (a : list Z) : list Z -> Z :=
  fix lev_a (b : list Z) : Z :=
    match a, b with
    | [], _ => Z.of_nat (List.length b)
    | _, [] => Z.of_nat (List.length a)
    | x :: a', y :: b' =>
      Z.min (Z.min (lev_a b' + 1) (lev_cost a' b + 1))
            (lev_cost a' b' + (if x =? y then 2 else 0))
    end.

(** The distance of the first [i] words of [w1] to the first [j] words of
    [w2]: the cell [column[i]] after turn [j] of the outer loop. *)
Definition lev_prefix (w1 w2 : list Z) (i j : nat) : Z :=
  lev_cost (firstn i w1) (firstn j w2).

(** ** Entity decoding (html.c) *)

(** The output written so far is at most twice the input consumed: twice
    the bytes before the token that is being read, or twice the bytes
    read. *)
Definition dec_bounded (st : dec_state) : Prop :=
  if dec_in_entity st
  then (dec_t st <= 2 * dec_e st /\ dec_e st < dec_h st)%nat
  else (dec_t st <= 2 * dec_h st)%nat.

(** The token [&name;] of a row of the entity table, and what decoding it
    writes when the lookup finds the row [g]: the replacement of [g], or the
    token without its [;] when [g] has none. *)
Definition entity_token (f : entity) : list ascii :=
  "&"%char :: bytes (ent_name f) ++ [";"%char].

Definition entity_output (f g : entity) : list ascii :=
  match ent_replacement g with
  | Some r => bytes r
  | None => "&"%char :: bytes (ent_name f)
  end.

(** ** URLs (html.c) *)

(** [dlen] after the first [for] loop of [rspamd_html_process_url] and the
    test for a prefix, on a [guint]: [decoded] gets [dlen + 1] bytes. *)
Definition url_dlen (s : list ascii) : Z :=
  let dlen :=
    fold_left (fun dlen c =>
                 if (code c <? 128) && negb (g_ascii_isgraph c)
                 then wrap32 (dlen + 3) else wrap32 (dlen + 1))
              s 0 in
  if url_no_prefix s then wrap32 (dlen + 7) else dlen.

(** ** The tag tree (html.c) *)

(** What keeps [rspamd_html_process_tag] and [rspamd_html_check_balance]
    from following a NULL or freed pointer: the parent of a node is an
    older node that is still there, a node with a tag has a parent, and the
    [parent] field of its tag points to a node that is still there; once the
    root is made, the current level is a node that is still there. *)
Definition live (P : parser) (j : nat) : Prop := exists n, get_node P j = Some n.

Definition node_ok (P : parser) (i : nat) (n : GNode) : Prop :=
  (forall j, node_parent n = Some j -> (j < i)%nat /\ live P j)
  /\ (forall ti, node_data n = Some ti ->
        (exists j, node_parent n = Some j)
        /\ exists u j, get_tag P ti = Some u /\ tag_parent u = Some j /\ live P j).

Definition nodes_ok (P : parser) : Prop :=
  forall i n, get_node P i = Some n -> node_ok P i n.

Definition level_live (P : parser) : Prop :=
  exists cl, p_cur_level P = Some cl /\ live P cl.

Definition tree_ok (P : parser) : Prop :=
  nodes_ok P
  /\ match hc_html_tags (p_hc P) with
     | None => p_cur_level P = None /\ p_nodes P = []
     | Some _ => level_live P
     end.

(** No node holds a tag record of index [k] or more. *)
Definition data_below (P : parser) (k : nat) : Prop :=
  forall i n ti, get_node P i = Some n -> node_data n = Some ti -> (ti < k)%nat.

Section TreeSteps.
Context `{html_h}.

(** What a call for a known tag changes in the counters: nothing, or one
    node together with the count, which was below the limit. *)
Definition count_rel (P Q : parser) : Prop :=
  (List.length (p_nodes Q) = List.length (p_nodes P)
   /\ hc_total_tags (p_hc Q) = hc_total_tags (p_hc P))
  \/ (List.length (p_nodes Q) = S (List.length (p_nodes P))
      /\ hc_total_tags (p_hc P) < max_tags
      /\ hc_total_tags (p_hc Q) = wrap32 (hc_total_tags (p_hc P) + 1)).

(** The state in which the branches of [rspamd_html_process_tag] are
    entered, for the tag record [tag] holding [t]. *)
Definition pt_pre (tag : nat) (t : html_tag) (P : parser) : Prop :=
  nodes_ok P /\ level_live P /\ hc_html_tags (p_hc P) <> None
  /\ data_below P tag /\ get_tag P tag = Some t
  /\ exists j, tag_parent t = Some j /\ live P j.

(** The state in which they are left. *)
Definition pt_post (tag : nat) (t : html_tag) (P Q : parser) : Prop :=
  nodes_ok Q /\ level_live Q
  /\ hc_html_tags (p_hc Q) = hc_html_tags (p_hc P)
  /\ hc_tags_seen (p_hc Q) = hc_tags_seen (p_hc P)
  /\ List.length (p_tags Q) = List.length (p_tags P)
  /\ (hc_flags (p_hc Q) = hc_flags (p_hc P)
      \/ hc_flags (p_hc Q) = hc_flags (p_hc P) .| RSPAMD_HTML_FLAG_UNBALANCED)
  /\ count_rel P Q
  /\ (exists u, get_tag Q tag = Some u /\ tag_id u = tag_id t
                /\ (tag_flags u = tag_flags t
                    \/ tag_flags u = tag_flags t .| FL_IGNORE))
  /\ map tag_id (p_tags Q) = map tag_id (p_tags P).

(** Whether state [tag_end] records the tag in [tags_seen]. *)
Definition tag_seen_bit (t : html_tag) : bool :=
  negb (tag_id t =? -1) && (tag_id t <? N_TAGS).

(** One completed tag [t], from the state [P] before it to the state [Q]
    after state [tag_end] is done with it. *)
Definition tag_step (t : html_tag) (P Q : parser) : Prop :=
  tree_ok Q
  /\ hc_html_tags (p_hc Q) <> None
  /\ List.length (p_tags Q) = S (List.length (p_tags P))
  /\ hc_tags_seen (p_hc Q)
     = (if tag_seen_bit t then Z.setbit (hc_tags_seen (p_hc P)) (tag_id t)
        else hc_tags_seen (p_hc P))
  /\ has (hc_flags (p_hc Q)) RSPAMD_HTML_FLAG_DUPLICATE_ELEMENTS
     = has (hc_flags (p_hc P)) RSPAMD_HTML_FLAG_DUPLICATE_ELEMENTS
       || (tag_seen_bit t && has (tag_flags t) CM_UNIQUE
           && Z.testbit (hc_tags_seen (p_hc P)) (tag_id t))
  /\ has (hc_flags (p_hc Q)) RSPAMD_HTML_FLAG_TOO_MANY_TAGS
     = has (hc_flags (p_hc P)) RSPAMD_HTML_FLAG_TOO_MANY_TAGS
       || (hc_total_tags (p_hc P) >? max_tags)
  /\ map tag_id (p_tags Q) = map tag_id (p_tags P) ++ [tag_id t]
  /\ (has (hc_flags (p_hc P)) RSPAMD_HTML_FLAG_UNBALANCED = true ->
      has (hc_flags (p_hc Q)) RSPAMD_HTML_FLAG_UNBALANCED = true)
  /\ exists P1,
       List.length (p_nodes P1)
       = ((match hc_html_tags (p_hc P) with Some _ => 0 | None => 1 end)
          + List.length (p_nodes P))%nat
       /\ hc_total_tags (p_hc P1) = hc_total_tags (p_hc P)
       /\ if tag_id t =? -1
          then List.length (p_nodes Q) = List.length (p_nodes P1)
               /\ hc_total_tags (p_hc Q) = wrap32 (hc_total_tags (p_hc P1) + 1)
          else count_rel P1 Q.
End TreeSteps.

Section TagSeen.
Context `{html_h}.

(** [rspamd_html_tag_seen (hc, tagname)], with [isset] on [tags_seen]. *)
Definition rspamd_html_tag_seen (hc : html_content) (tagname : list ascii) : bool :=
  let id := rspamd_html_tag_by_name tagname in
  if negb (id =? -1) then Z.testbit (hc_tags_seen hc) id else false.

(** Whether the uniqueness check of state [tag_end] fires on one of the
    tags [ts], starting with the bit set [seen]. *)
Fixpoint dup_from (seen : Z) (ts : list html_tag) : bool :=
  match ts with
  | [] => false
  | t :: r =>
    (tag_seen_bit t && has (tag_flags t) CM_UNIQUE && Z.testbit seen (tag_id t))
    || dup_from (if tag_seen_bit t then Z.setbit seen (tag_id t) else seen) r
  end.
End TagSeen.

(** The ids [rspamd_html_parse_tag_content] gives the tags of a document:
    -1 for a name that is not in [tag_defs], else [found->id], the id of a
    row, which indexes [tags_seen]. *)
Definition ids_parsed (ts : list html_tag) : Prop :=
  forall t, In t ts -> -1 <= tag_id t.

(** The commas each state of the rgb branch of [rspamd_html_process_color]
    has behind it, and the invariant of its loop. *)
Definition rgb_rank (s : rgb_state) : nat :=
  match s with num2 => 1 | num3 => 2 | _ => 0 end.

Definition rgb_commas (line : list ascii) (p : nat) : nat :=
  count_occ ascii_dec (firstn p line) ","%char.

Definition rgb_inv (line : list ascii) (st : rgb_st) : Prop :=
  (rgb_rank (rgb_state_ st) <= rgb_commas line (rgb_p st))%nat
  /\ (rgb_rank (rgb_next st) <= rgb_commas line (rgb_p st))%nat.

(** The value of a hexadecimal digit, 0 for another byte. *)
Definition hex_val (c : ascii) : Z :=
  match digit_val c with Some d => d | None => 0 end.


(** * libmime/message.c: [rspamd_strip_newlines_parse]

    The text part (message.h) with the fields the function and its caller
    write: the stripped text, the offsets of the line breaks in it, the
    exceptions and the counters, which are [guint]s.  [p] and [c] are
    offsets from [begin]; a read of the byte before [begin] has no result
    ([None]). *)

Definition g_ascii_ispunct (c : ascii) : bool :=
  let n := code c in
  ((33 <=? n) && (n <=? 47)) || ((58 <=? n) && (n <=? 64))
  || ((91 <=? n) && (n <=? 96)) || ((123 <=? n) && (n <=? 126)).

Definition g_ascii_isupper (c : ascii) : bool :=
  let n := code c in (65 <=? n) && (n <=? 90).

Inductive exception_type := RSPAMD_EXCEPTION_NEWLINE | RSPAMD_EXCEPTION_URL.

Record rspamd_process_exception := mk_ex {
  ex_pos : Z;
  ex_len : Z;
  ex_type : exception_type
}.

Record rspamd_mime_text_part := mk_part {
  stripped_content : list ascii;
  newlines : list Z;
  exceptions : list rspamd_process_exception;
  nlines : Z;
  spaces : Z;
  non_ascii_chars : Z;
  ascii_chars : Z;
  double_spaces : Z;
  non_spaces : Z;
  empty_lines : Z;
  capital_letters : Z;
  numeric_characters : Z
}.

Inductive part_counter :=
  | Nlines | Spaces | Non_ascii_chars | Ascii_chars | Double_spaces
  | Non_spaces | Empty_lines | Capital_letters | Numeric_characters.

(** [part->k ++] *)
Definition part_incr (k : part_counter) (t : rspamd_mime_text_part)
  : rspamd_mime_text_part :=
  let '(mk_part sc nl ex a b c d e f g h i) := t in
  match k with
  | Nlines => mk_part sc nl ex (wrap32 (a + 1)) b c d e f g h i
  | Spaces => mk_part sc nl ex a (wrap32 (b + 1)) c d e f g h i
  | Non_ascii_chars => mk_part sc nl ex a b (wrap32 (c + 1)) d e f g h i
  | Ascii_chars => mk_part sc nl ex a b c (wrap32 (d + 1)) e f g h i
  | Double_spaces => mk_part sc nl ex a b c d (wrap32 (e + 1)) f g h i
  | Non_spaces => mk_part sc nl ex a b c d e (wrap32 (f + 1)) g h i
  | Empty_lines => mk_part sc nl ex a b c d e f (wrap32 (g + 1)) h i
  | Capital_letters => mk_part sc nl ex a b c d e f g (wrap32 (h + 1)) i
  | Numeric_characters => mk_part sc nl ex a b c d e f g h (wrap32 (i + 1))
  end.

(** [g_byte_array_append (part->stripped_content, data, len)] *)
Definition stripped_append (t : rspamd_mime_text_part) (data : list ascii)
  : rspamd_mime_text_part :=
  mk_part (stripped_content t ++ data) (newlines t) (exceptions t) (nlines t) (spaces t)
          (non_ascii_chars t) (ascii_chars t) (double_spaces t) (non_spaces t)
          (empty_lines t) (capital_letters t) (numeric_characters t).

(** [g_ptr_array_add (part->newlines, (goffset) part->stripped_content->len)] *)
Definition newlines_add (t : rspamd_mime_text_part) : rspamd_mime_text_part :=
  mk_part (stripped_content t)
          (newlines t ++ [Z.of_nat (List.length (stripped_content t))])
          (exceptions t) (nlines t) (spaces t)
          (non_ascii_chars t) (ascii_chars t) (double_spaces t) (non_spaces t)
          (empty_lines t) (capital_letters t) (numeric_characters t).

Inductive nl_state := normal_char | seen_cr | seen_lf.

Record nl_st := mk_nl {
  nl_p : nat;
  nl_c : nat;
  nl_last_c : ascii;
  nl_crlf_added : bool;
  nl_state_ : nl_state;
  nl_part : rspamd_mime_text_part
}.

(** The value of a C comparison, and the test of an [int]. *)
Definition b2z (b : bool) : Z := if b then 1 else 0.
Definition truthy (z : Z) : bool := negb (z =? 0).

Definition CR : ascii := "013"%char.
Definition LF : ascii := "010"%char.
Definition SP : ascii := " "%char.

Section StripNewlines.
(** Whether glib was built into an optimised program: [G_UNLIKELY (expr)]
    is [__builtin_expect (_G_BOOLEAN_EXPR (expr), 0)] then, which is 1 or 0,
    and [(expr)] otherwise (gmacros.h). *)
Variable OPTIMIZE : bool.
(** [IS_PART_HTML (part)] *)
Variable is_part_html : bool.

Definition G_UNLIKELY (expr : Z) : Z :=
  if OPTIMIZE then (if expr =? 0 then 0 else 1) else expr.

(** [if (p > c) { last_c = *(p - 1); g_byte_array_append (..., c, p - c); }] *)
Definition nl_flush (text : list ascii) (st : nl_st) : ascii * rspamd_mime_text_part :=
  if (nl_c st <? nl_p st)%nat
  then (peek text (nl_p st - 1),
        stripped_append (nl_part st) (span text (nl_c st) (nl_p st)))
  else (nl_last_c st, nl_part st).

(** A line break in the middle of line breaks ("Double \r\r", "Double
    \n\n"): the space and the offset, once. *)
Definition nl_double (st : nl_st) : bool * rspamd_mime_text_part :=
  let '(crlf_added, part) :=
    if negb (nl_crlf_added st)
    then (true, newlines_add (stripped_append (nl_part st) [SP]))
    else (nl_crlf_added st, nl_part st) in
  (crlf_added, part_incr Empty_lines (part_incr Nlines part)).

(** The statistics of a byte in state [normal_char]. *)
Definition nl_count_main (text : list ascii) (p : nat) (part : rspamd_mime_text_part)
  : rspamd_mime_text_part :=
  let ch := peek text p in
  if G_UNLIKELY (code ch) =? code SP then
    let part := part_incr Spaces part in
    if (0 <? p)%nat && Ascii.eqb (peek text (p - 1)) SP
    then part_incr Double_spaces part else part
  else
    let part := part_incr Non_spaces part in
    if truthy (G_UNLIKELY (Z.land (code ch) 128)) then part_incr Non_ascii_chars part
    else
      let part :=
        if g_ascii_isupper ch then part_incr Capital_letters part
        else if g_ascii_isdigit ch then part_incr Numeric_characters part
        else part in
      part_incr Ascii_chars part.

(** One turn of the [while (p < pe)] loop. *)
Definition nl_step (text : list ascii) (st : nl_st) : nl_st :=
  let pe := List.length text in
  let p := nl_p st in
  let ch := peek text p in
  if G_UNLIKELY (code ch) =? code CR then
    match nl_state_ st with
    | normal_char =>
      let '(last_c, part) := nl_flush text st in
      mk_nl (S p) (S p) last_c false seen_cr part
    | seen_cr =>
      let '(crlf_added, part) := nl_double st in
      mk_nl (S p) (S p) (nl_last_c st) crlf_added seen_cr part
    | seen_lf =>
      (* Likely \r\n\r... *)
      mk_nl (S p) (S p) (nl_last_c st) (nl_crlf_added st) seen_cr (nl_part st)
    end
  else if truthy (G_UNLIKELY (b2z (Ascii.eqb ch LF))) then
    match nl_state_ st with
    | normal_char =>
      let '(last_c, part) := nl_flush text st in
      if is_part_html || g_ascii_ispunct last_c
      then mk_nl (S p) (S p) last_c true seen_lf
                 (newlines_add (stripped_append part [SP]))
      else mk_nl (S p) (S p) last_c false seen_lf part
    | seen_cr =>
      (* \r\n *)
      let '(crlf_added, part) :=
        if negb (nl_crlf_added st) then
          let '(crlf_added, part) :=
            if is_part_html || g_ascii_ispunct (nl_last_c st)
            then (true, stripped_append (nl_part st) [SP])
            else (nl_crlf_added st, nl_part st) in
          (crlf_added, newlines_add part)
        else (nl_crlf_added st, nl_part st) in
      mk_nl (S p) (S p) (nl_last_c st) crlf_added seen_lf part
    | seen_lf =>
      let '(crlf_added, part) := nl_double st in
      mk_nl (S p) (S p) (nl_last_c st) crlf_added seen_lf part
    end
  else
    match nl_state_ st with
    | normal_char =>
      mk_nl (S p) (nl_c st) (nl_last_c st) (nl_crlf_added st) normal_char
            (nl_count_main text p (nl_part st))
    | seen_cr | seen_lf =>
      let part := part_incr Nlines (nl_part st) in
      let part := if negb (nl_crlf_added st) then newlines_add part else part in
      (* Skip initial spaces *)
      if truthy (G_UNLIKELY (b2z (Ascii.eqb ch SP))) then
        let part := if negb (nl_crlf_added st) then stripped_append part [SP]
                    else part in
        (* while (p < pe && *p == ' ') { p ++; c ++; part->spaces ++; } *)
        let k := count_while (fun x => Ascii.eqb x SP) (skipn p text) in
        let part := Nat.iter k (part_incr Spaces) part in
        let p := (p + k)%nat in
        let c := (nl_c st + k)%nat in
        let part :=
          if (p <? pe)%nat && (Ascii.eqb (peek text p) CR || Ascii.eqb (peek text p) LF)
          then part_incr Empty_lines part else part in
        mk_nl (S p) c (nl_last_c st) (nl_crlf_added st) normal_char part
      else
        mk_nl (S p) (nl_c st) (nl_last_c st) (nl_crlf_added st) normal_char part
    end.

Fixpoint nl_loop (fuel : nat) (text : list ascii) (st : nl_st) : option nl_st :=
  match fuel with
  | O => None
  | S fuel =>
    if (nl_p st <? List.length text)%nat then nl_loop fuel text (nl_step text st)
    else Some st
  end.

(** One turn of the [while (c < p)] loop of the leftover; [*(c - 1)] is not
    guarded there. *)
Definition nl_count_left (text : list ascii) (c : nat) (part : rspamd_mime_text_part)
  : option rspamd_mime_text_part :=
  let ch := peek text c in
  if G_UNLIKELY (code ch) =? code SP then
    let part := part_incr Spaces part in
    match c with
    | O => None
    | S c1 =>
      Some (if Ascii.eqb (peek text c1) SP then part_incr Double_spaces part else part)
    end
  else
    let part := part_incr Non_spaces part in
    Some (if truthy (G_UNLIKELY (Z.land (code ch) 128))
          then part_incr Non_ascii_chars part
          else part_incr Ascii_chars part).

(** [n] turns of it, from [c]. *)
Fixpoint nl_left_loop (text : list ascii) (n c : nat) (part : rspamd_mime_text_part)
  : option rspamd_mime_text_part :=
  match n with
  | O => Some part
  | S n =>
    part <- nl_count_left text c part ;;
    nl_left_loop text n (S c) part
  end.

(** "Leftover" *)
Definition nl_leftover (text : list ascii) (st : nl_st) : option rspamd_mime_text_part :=
  let pe := List.length text in
  if (nl_c st <? nl_p st)%nat then
    let p := if (pe <? nl_p st)%nat then pe else nl_p st in
    match nl_state_ st with
    | normal_char =>
      nl_left_loop text (p - nl_c st) (nl_c st)
                   (stripped_append (nl_part st) (span text (nl_c st) p))
    | _ =>
      let part :=
        if negb (nl_crlf_added st)
        then newlines_add (stripped_append (nl_part st) [SP])
        else nl_part st in
      Some (part_incr Nlines part)
    end
  else Some (nl_part st).

(** The text is [begin .. pe); each turn of the loop moves [p] on, so the
    length of the text and a spare turn are enough fuel. *)
Definition rspamd_strip_newlines_parse (text : list ascii) (part : rspamd_mime_text_part)
  : option rspamd_mime_text_part :=
  st <- nl_loop (S (List.length text)) text (mk_nl 0 0 NUL false normal_char part) ;;
  nl_leftover text st.

(** [rspamd_normalize_text_part] up to the exceptions: the stripped text
    and the array of offsets are made anew, and each offset gives an
    exception, put at the head of the list.  ([part->newlines] then holds
    the addresses [stripped_content->data + off] in place of the offsets.) *)
Definition rspamd_normalize_text_part (content : list ascii)
           (part : rspamd_mime_text_part) : option rspamd_mime_text_part :=
  let part := mk_part [] [] (exceptions part) (nlines part) (spaces part)
                      (non_ascii_chars part) (ascii_chars part) (double_spaces part)
                      (non_spaces part) (empty_lines part) (capital_letters part)
                      (numeric_characters part) in
  part <- rspamd_strip_newlines_parse content part ;;
  Some (mk_part (stripped_content part) (newlines part)
                (fold_left (fun exs off => mk_ex off 0 RSPAMD_EXCEPTION_NEWLINE :: exs)
                           (newlines part) (exceptions part))
                (nlines part) (spaces part)
                (non_ascii_chars part) (ascii_chars part) (double_spaces part)
                (non_spaces part) (empty_lines part) (capital_letters part)
                (numeric_characters part)).
End StripNewlines.

(** The bytes [rspamd_strip_newlines_parse] takes for a line break. *)
Definition nl_break (OPTIMIZE : bool) (ch : ascii) : bool :=
  (G_UNLIKELY OPTIMIZE (code ch) =? code CR)
  || truthy (G_UNLIKELY OPTIMIZE (b2z (Ascii.eqb ch LF))).

(** What its loop keeps: the stripped text has grown by no more than the
    bytes behind [c], and the offsets are in order and inside it. *)
Definition part_ok (len0 c : nat) (t : rspamd_mime_text_part) : Prop :=
  (List.length (stripped_content t) <= len0 + c)%nat
  /\ StronglySorted Z.le (newlines t)
  /\ Forall (fun o => 0 <= o <= Z.of_nat (List.length (stripped_content t)))
            (newlines t).

Definition nl_inv (OPTIMIZE : bool) (text : list ascii) (len0 : nat) (st : nl_st)
  : Prop :=
  (nl_c st <= nl_p st)%nat
  /\ (nl_c st <= List.length text)%nat
  /\ (nl_p st <= S (List.length text))%nat
  /\ (nl_state_ st <> normal_char -> nl_c st = nl_p st /\ (0 < nl_c st)%nat)
  /\ (nl_c st = 0%nat ->
      forall i, (i < nl_p st)%nat -> nl_break OPTIMIZE (peek text i) = false)
  /\ part_ok len0 (nl_c st) (nl_part st).

(** The counter [k] of a text part. *)
Definition part_count (k : part_counter) (t : rspamd_mime_text_part) : Z :=
  match k with
  | Nlines => nlines t
  | Spaces => spaces t
  | Non_ascii_chars => non_ascii_chars t
  | Ascii_chars => ascii_chars t
  | Double_spaces => double_spaces t
  | Non_spaces => non_spaces t
  | Empty_lines => empty_lines t
  | Capital_letters => capital_letters t
  | Numeric_characters => numeric_characters t
  end.

Definition part_counter_eqb (j k : part_counter) : bool :=
  match j, k with
  | Nlines, Nlines | Spaces, Spaces | Non_ascii_chars, Non_ascii_chars
  | Ascii_chars, Ascii_chars | Double_spaces, Double_spaces
  | Non_spaces, Non_spaces | Empty_lines, Empty_lines
  | Capital_letters, Capital_letters
  | Numeric_characters, Numeric_characters => true
  | _, _ => false
  end.

(** The state of a text part before [rspamd_normalize_text_part]: nothing
    counted yet. *)
Definition part_new (exs : list rspamd_process_exception) : rspamd_mime_text_part :=
  mk_part [] [] exs 0 0 0 0 0 0 0 0 0.

(** * libserver/html.c: [rspamd_html_process_style]

    [struct html_block] (html.h) with the fields this function and
    [rspamd_html_process_block_tag] write. *)

(** [g_ascii_strncasecmp (s1, s2, n)] (glib); the end of a list stands for
    a NUL. *)
Fixpoint g_ascii_strncasecmp (s1 s2 : list ascii) (n : nat) : Z :=
  match n with
  | O => 0
  | S n =>
    let c1 := hd NUL s1 in
    let c2 := hd NUL s2 in
    if Ascii.eqb c1 NUL || Ascii.eqb c2 NUL then code c1 - code c2
    else
      let a := code (g_ascii_tolower c1) in
      let b := code (g_ascii_tolower c2) in
      if a =? b then g_ascii_strncasecmp (tl s1) (tl s2) n else a - b
  end.

Record html_block := mk_block {
  bl_font_color : html_color;
  bl_background_color : html_color;
  bl_style : list ascii;
  bl_visible : bool;
  bl_class : option (list ascii)
}.

Module Style.
Inductive state := read_key | read_colon | read_value | skip_spaces.
End Style.

Record style_st := mk_style {
  sp_p : nat;
  sp_c : nat;
  sp_key : option nat;               (* const gchar *key, NULL or in the text *)
  sp_klen : Z;
  sp_state : Style.state;
  sp_next : Style.state;
  sp_bl : html_block
}.

Section ProcessStyle.
Variable html_colornames : list (string * (Z * Z * Z)).
Variable rspamd_strtoul : list ascii -> option Z.

(** The body of [if (key && klen && p - c > 0)] in state [read_value]:
    [key] is the text from [key] on, [value] the text [c .. p). *)
Definition style_apply (key : list ascii) (klen : Z) (value : list ascii)
           (bl : html_block) : html_block :=
  if ((klen =? 5) && (g_ascii_strncasecmp key (bytes "color") 5 =? 0))
     || ((klen =? 10) && (g_ascii_strncasecmp key (bytes "font-color") 10 =? 0))
  then
    mk_block (rspamd_html_process_color html_colornames rspamd_strtoul value)
             (bl_background_color bl) (bl_style bl) (bl_visible bl) (bl_class bl)
  else if ((klen =? 16)
           && (g_ascii_strncasecmp key (bytes "background-color") 16 =? 0))
          || ((klen =? 10) && (g_ascii_strncasecmp key (bytes "background") 10 =? 0))
  then
    mk_block (bl_font_color bl)
             (rspamd_html_process_color html_colornames rspamd_strtoul value)
             (bl_style bl) (bl_visible bl) (bl_class bl)
  else if (klen =? 7) && (g_ascii_strncasecmp key (bytes "display") 7 =? 0)
  then
    if (4 <=? Z.of_nat (List.length value))
       && negb (rspamd_substring_search_caseless value (bytes "none") =? -1)
    then mk_block (bl_font_color bl) (bl_background_color bl) (bl_style bl) false
                  (bl_class bl)
    else bl
  else bl.

(** One turn of the [while (p <= end)] loop. *)
Definition style_step (style : list ascii) (st : style_st) : style_st :=
  let end_ := List.length style in
  let p := sp_p st in
  let c := sp_c st in
  let ch := peek style p in
  match sp_state st with
  | Style.read_key =>
    if (p =? end_)%nat || Ascii.eqb ch ":" then
      mk_style (S p) c (Some c) (wrap32 (Z.of_nat p - Z.of_nat c))
               Style.skip_spaces Style.read_value (sp_bl st)
    else if g_ascii_isspace ch then
      mk_style (S p) c (Some c) (wrap32 (Z.of_nat p - Z.of_nat c))
               Style.skip_spaces Style.read_colon (sp_bl st)
    else
      mk_style (S p) c (sp_key st) (sp_klen st) (sp_state st) (sp_next st) (sp_bl st)
  | Style.read_colon =>
    if (p =? end_)%nat || Ascii.eqb ch ":" then
      mk_style (S p) c (sp_key st) (sp_klen st) Style.skip_spaces Style.read_value
               (sp_bl st)
    else
      mk_style (S p) c (sp_key st) (sp_klen st) (sp_state st) (sp_next st) (sp_bl st)
  | Style.read_value =>
    if (p =? end_)%nat || Ascii.eqb ch ";" then
      let bl :=
        match sp_key st with
        | Some key =>
          if negb (sp_klen st =? 0) && (0 <? Z.of_nat p - Z.of_nat c)
          then style_apply (skipn key style) (sp_klen st) (span style c p) (sp_bl st)
          else sp_bl st
        | None => sp_bl st
        end in
      mk_style (S p) c None 0 Style.skip_spaces Style.read_key bl
    else
      mk_style (S p) c (sp_key st) (sp_klen st) (sp_state st) (sp_next st) (sp_bl st)
  | Style.skip_spaces =>
    if (p <? end_)%nat && negb (g_ascii_isspace ch) then
      mk_style p p (sp_key st) (sp_klen st) (sp_next st) (sp_next st) (sp_bl st)
    else
      mk_style (S p) c (sp_key st) (sp_klen st) (sp_state st) (sp_next st) (sp_bl st)
  end.

Fixpoint style_loop (fuel : nat) (style : list ascii) (st : style_st)
  : option html_block :=
  match fuel with
  | O => None
  | S fuel =>
    if (sp_p st <=? List.length style)%nat
    then style_loop fuel style (style_step style st)
    else Some (sp_bl st)
  end.

(** The block after the call.  A turn that does not move [p] leaves state
    [skip_spaces], and the next one moves it, so twice the length and four
    turns are enough fuel. *)
Definition rspamd_html_process_style (bl : html_block) (style : list ascii)
  : option html_block :=
  style_loop (2 * List.length style + 4) style
             (mk_style 0 0 None 0 Style.skip_spaces Style.read_key bl).

(** The turns left at most. *)
Definition style_measure (style : list ascii) (st : style_st) : nat :=
  2 * (S (List.length style) - sp_p st)
  + match sp_state st with Style.skip_spaces => 1 | _ => 0 end.

(** What state [read_value] does at the end of the value [c .. p). *)
Definition style_close (style : list ascii) (key : option nat) (klen : Z) (c p : nat)
           (bl : html_block) : html_block :=
  match key with
  | Some key =>
    if negb (klen =? 0) && (0 <? Z.of_nat p - Z.of_nat c)
    then style_apply (skipn key style) klen (span style c p) bl
    else bl
  | None => bl
  end.

(** The loop, from a state to the block it ends with. *)
Inductive style_reach (style : list ascii) : style_st -> html_block -> Prop :=
  | style_reach_exit st :
      (List.length style < sp_p st)%nat -> style_reach style st (sp_bl st)
  | style_reach_step st bl :
      (sp_p st <= List.length style)%nat ->
      style_reach style (style_step style st) bl ->
      style_reach style st bl.
End ProcessStyle.

(** A declaration of a style: white space, the property, a colon, white
    space and the value. *)
Record style_decl := mk_decl {
  d_pre : list ascii;
  d_key : list ascii;
  d_mid : list ascii;
  d_value : list ascii
}.

Definition decl_text (d : style_decl) : list ascii :=
  d_pre d ++ d_key d ++ ":"%char :: d_mid d ++ d_value d.

Definition decl_ok (d : style_decl) : Prop :=
  forallb g_ascii_isspace (d_pre d) = true
  /\ d_key d <> []
  /\ forallb (fun ch => negb (g_ascii_isspace ch) && negb (Ascii.eqb ch ":")) (d_key d)
     = true
  /\ Z.of_nat (List.length (d_key d)) < 2^32
  /\ forallb g_ascii_isspace (d_mid d) = true
  /\ g_ascii_isspace (hd " "%char (d_value d)) = false
  /\ ~ In ";"%char (d_value d).

(** The text of a style: declarations closed by a semicolon, and maybe a
    last one that is not. *)
Definition style_text (ds : list style_decl) (last : option style_decl) : list ascii :=
  concat (map (fun d => decl_text d ++ [";"%char]) ds)
  ++ match last with Some d => decl_text d | None => [] end.

Definition style_decls (ds : list style_decl) (last : option style_decl)
  : list style_decl :=
  ds ++ match last with Some d => [d] | None => [] end.

(** What [rspamd_html_process_style] may change of a block: the colours,
    and the visibility from visible to hidden. *)
Definition style_keeps (a b : html_block) : Prop :=
  (bl_visible a = false -> bl_visible b = false)
  /\ bl_style b = bl_style a /\ bl_class b = bl_class a.


(** * libserver/html.c: [rspamd_html_parse_tag_component]

    The kinds of components (html.h) that html.c makes. *)
Inductive html_component_type :=
  | RSPAMD_HTML_COMPONENT_HREF
  | RSPAMD_HTML_COMPONENT_COLOR
  | RSPAMD_HTML_COMPONENT_BGCOLOR
  | RSPAMD_HTML_COMPONENT_STYLE
  | RSPAMD_HTML_COMPONENT_CLASS
  | RSPAMD_HTML_COMPONENT_WIDTH
  | RSPAMD_HTML_COMPONENT_HEIGHT.

Section TagComponent.
Context `{html_h}.
Variable g_unichar_isgraph : Z -> bool.

(** The name of an attribute is [begin .. end).  [Some t] stands for
    [NEW_COMPONENT (t)] and the returned TRUE, [None] for FALSE. *)
Definition rspamd_html_parse_tag_component (name : list ascii) (tag : html_tag)
  : option html_component_type :=
  let '(p, len) :=
    rspamd_html_decode_entitles_inplace g_unichar_isgraph name
      (wrap32 (Z.of_nat (List.length name))) in
  (* gint len, and a gsize where g_ascii_strncasecmp takes it *)
  let len := sint32 len in
  let n := Z.to_nat (wrap64 len) in
  if len =? 3 then
    if g_ascii_strncasecmp p (bytes "src") n =? 0
    then Some RSPAMD_HTML_COMPONENT_HREF else None
  else if len =? 4 then
    if g_ascii_strncasecmp p (bytes "href") n =? 0
    then Some RSPAMD_HTML_COMPONENT_HREF else None
  else if tag_id tag =? tag_num Tag_IMG then
    (* Check width and height if presented *)
    if (len =? 5) && (g_ascii_strncasecmp p (bytes "width") n =? 0)
    then Some RSPAMD_HTML_COMPONENT_WIDTH
    else if (len =? 6) && (g_ascii_strncasecmp p (bytes "height") n =? 0)
    then Some RSPAMD_HTML_COMPONENT_HEIGHT
    else if g_ascii_strncasecmp p (bytes "style") n =? 0
    then Some RSPAMD_HTML_COMPONENT_STYLE
    else None
  else if has (tag_flags tag) FL_BLOCK then
    if len =? 5 then
      if g_ascii_strncasecmp p (bytes "color") n =? 0
      then Some RSPAMD_HTML_COMPONENT_COLOR
      else if g_ascii_strncasecmp p (bytes "style") n =? 0
      then Some RSPAMD_HTML_COMPONENT_STYLE
      else if g_ascii_strncasecmp p (bytes "class") n =? 0
      then Some RSPAMD_HTML_COMPONENT_CLASS
      else None
    else if len =? 7 then
      if g_ascii_strncasecmp p (bytes "bgcolor") n =? 0
      then Some RSPAMD_HTML_COMPONENT_BGCOLOR else None
    else None
  else None.
End TagComponent.

(** A name as state [parse_attr_name] hands it over, without a character
    reference: not empty, shorter than 2^31 bytes, no [&] and no NUL. *)
Definition attr_name_plain (name : list ascii) : Prop :=
  name <> [] /\ Z.of_nat (List.length name) < 2^31
  /\ ~ In "&"%char name /\ ~ In NUL name.

(** * libserver/html.c: [rspamd_html_parse_tag_content]

    The tag being parsed, [cur_tag], with its name and its components.  The
    name points into the text until it is copied and decoded; a component
    holds its decoded buffer and the length returned for it. *)

Definition g_ascii_isalpha (c : ascii) : bool :=
  let n := code c in ((65 <=? n) && (n <=? 90)) || ((97 <=? n) && (n <=? 122)).

Inductive tag_name := name_null | name_in (start : nat) | name_copy (s : list ascii).

Record html_tag_component := mk_comp {
  comp_type : html_component_type;
  comp_start : option (list ascii);
  comp_len : Z
}.

Record cur_tag := mk_cur_tag {
  ct_name : tag_name;
  ct_name_len : Z;
  ct_id : Z;
  ct_flags : Z;
  ct_params : list html_tag_component       (* GQueue, head first *)
}.

(** A zeroed tag with an empty queue, as state [tag_begin] makes it. *)
Definition cur_tag_new : cur_tag := mk_cur_tag name_null 0 0 0 [].

(** The tag as the tree sees it. *)
Definition cur_tag_view (t : cur_tag) : html_tag := mk_tag (ct_id t) (ct_flags t) 0 None.

Module Content.
Inductive substate :=
  | parse_start | parse_name | parse_attr_name | parse_equal
  | parse_start_dquote | parse_dqvalue | parse_end_dquote
  | parse_start_squote | parse_sqvalue | parse_end_squote
  | parse_value | spaces_after_name | spaces_before_eq | spaces_after_eq
  | spaces_after_param | ignore_bad_tag.
End Content.

Inductive tag_outcome :=
  | tag_done (hc_flags : Z) (tag : cur_tag) (p : nat)
  | tag_unfinished (hc_flags : Z) (tag : cur_tag).

Section TagContent.
Context `{html_h}.
Variable g_unichar_isgraph : Z -> bool.

Definition ct_or_flags (t : cur_tag) (f : Z) : cur_tag :=
  mk_cur_tag (ct_name t) (ct_name_len t) (ct_id t) (ct_flags t .| f) (ct_params t).

Definition ct_broken (t : cur_tag) : cur_tag :=
  mk_cur_tag (ct_name t) (ct_name_len t) (-1) (ct_flags t .| FL_BROKEN) (ct_params t).

(** [*in == '/' && *(in + 1) == '>']; the byte after the text is not there
    to be read. *)
Definition slash_gt (text : list ascii) (in_ : nat) : option bool :=
  if Ascii.eqb (peek text in_) "/" then
    if (S in_ <? List.length text)%nat
    then Some (Ascii.eqb (peek text (S in_)) ">")
    else None
  else Some false.

(** The body of [if (store)], under its test that [*savep] is not NULL:
    the value [*savep .. in) is copied, decoded and given to the last
    component. *)
Definition ct_store (text : list ascii) (tag : cur_tag) (in_ : nat) (savep : option nat)
  : option (cur_tag * option nat) :=
  match savep with
  | None => Some (tag, None)
  | Some sp =>
    match rev (ct_params tag) with
    | [] => None                                  (* g_assert (comp != NULL) *)
    | comp :: before =>
      let len := wrap32 (Z.of_nat in_ - Z.of_nat sp) in
      let '(s, len) :=
        rspamd_html_decode_entitles_inplace g_unichar_isgraph (span text sp in_) len in
      Some (mk_cur_tag (ct_name tag) (ct_name_len tag) (ct_id tag) (ct_flags tag)
                       (rev before ++ [mk_comp (comp_type comp) (Some s) len]),
            None)
    end
  end.

(** [*savep = in] unless [*savep] is NULL. *)
Definition save_here (in_ : nat) (savep : option nat) : option nat :=
  match savep with Some _ => Some in_ | None => None end.

(** One call: [hc->flags], the tag, [*statep] and [*savep] after it. *)
Definition rspamd_html_parse_tag_content (text : list ascii) (hc_flags : Z)
           (tag : cur_tag) (in_ : nat) (state : Content.substate) (savep : option nat)
  : option (Z * cur_tag * Content.substate * option nat) :=
  let ch := peek text in_ in
  match state with
  | Content.parse_start =>
    if negb (g_ascii_isalpha ch) && negb (g_ascii_isspace ch) then
      Some (hc_flags .| RSPAMD_HTML_FLAG_BAD_ELEMENTS, ct_broken tag,
            Content.ignore_bad_tag, savep)
    else if g_ascii_isalpha ch then
      Some (hc_flags,
            mk_cur_tag (name_in in_) (ct_name_len tag) (ct_id tag) (ct_flags tag)
                       (ct_params tag),
            Content.parse_name, savep)
    else Some (hc_flags, tag, state, savep)
  | Content.parse_name =>
    if g_ascii_isspace ch || Ascii.eqb ch ">" || Ascii.eqb ch "/" then
      match ct_name tag with
      | name_in start =>
        if (in_ <? start)%nat then None           (* g_assert (in >= tag->name.start) *)
        else
          let tag := if Ascii.eqb ch "/" then ct_or_flags tag FL_CLOSED else tag in
          let len := wrap32 (Z.of_nat in_ - Z.of_nat start) in
          if len =? 0 then
            Some (hc_flags .| RSPAMD_HTML_FLAG_BAD_ELEMENTS,
                  ct_broken (mk_cur_tag (ct_name tag) len (ct_id tag) (ct_flags tag)
                                        (ct_params tag)),
                  Content.ignore_bad_tag, savep)
          else
            let '(s, len) :=
              rspamd_html_decode_entitles_inplace g_unichar_isgraph
                                                  (span text start in_) len in
            match bsearch tag_find (firstn (Z.to_nat len) s) tag_defs with
            | None =>
              Some (hc_flags .| RSPAMD_HTML_FLAG_UNKNOWN_ELEMENTS,
                    mk_cur_tag (name_copy s) len (-1) (ct_flags tag) (ct_params tag),
                    Content.spaces_after_name, savep)
            | Some found =>
              Some (hc_flags,
                    mk_cur_tag (name_copy s) len (def_id found) (def_flags found)
                               (ct_params tag),
                    Content.spaces_after_name, savep)
            end
      | _ => None
      end
    else Some (hc_flags, tag, state, savep)
  | Content.parse_attr_name =>
    match savep with
    | None => Some (hc_flags, tag, Content.ignore_bad_tag, savep)
    | Some sp =>
      let next :=
        if Ascii.eqb ch "=" then Some (Content.parse_equal, tag)
        else if g_ascii_isspace ch then Some (Content.spaces_before_eq, tag)
        else if Ascii.eqb ch "/" then Some (state, ct_or_flags tag FL_CLOSED)
        else None in
      match next with
      | None => Some (hc_flags, tag, state, savep)                    (* return *)
      | Some (state, tag) =>
        if (in_ <? sp)%nat then None              (* g_assert (end >= begin) *)
        else
          match rspamd_html_parse_tag_component g_unichar_isgraph (span text sp in_)
                                                (cur_tag_view tag) with
          | Some t =>
            Some (hc_flags,
                  mk_cur_tag (ct_name tag) (ct_name_len tag) (ct_id tag) (ct_flags tag)
                             (ct_params tag ++ [mk_comp t None 0]),
                  state, savep)
          | None => Some (hc_flags, tag, state, None)   (* Ignore unknown params *)
          end
      end
    end
  | Content.spaces_after_name =>
    if negb (g_ascii_isspace ch) then
      if Ascii.eqb ch "/" then Some (hc_flags, ct_or_flags tag FL_CLOSED, state, Some in_)
      else if negb (Ascii.eqb ch ">")
      then Some (hc_flags, tag, Content.parse_attr_name, Some in_)
      else Some (hc_flags, tag, state, Some in_)
    else Some (hc_flags, tag, state, savep)
  | Content.spaces_before_eq =>
    if Ascii.eqb ch "=" then Some (hc_flags, tag, Content.parse_equal, savep)
    else if negb (g_ascii_isspace ch) then
      Some (hc_flags .| RSPAMD_HTML_FLAG_BAD_ELEMENTS, ct_or_flags tag FL_BROKEN,
            Content.ignore_bad_tag, savep)
    else Some (hc_flags, tag, state, savep)
  | Content.spaces_after_eq =>
    if Ascii.eqb ch "034" then Some (hc_flags, tag, Content.parse_start_dquote, savep)
    else if Ascii.eqb ch "'" then Some (hc_flags, tag, Content.parse_start_squote, savep)
    else if negb (g_ascii_isspace ch)
    then Some (hc_flags, tag, Content.parse_value, save_here in_ savep)
    else Some (hc_flags, tag, state, savep)
  | Content.parse_equal =>
    if g_ascii_isspace ch then Some (hc_flags, tag, Content.spaces_after_eq, savep)
    else if Ascii.eqb ch "034" then Some (hc_flags, tag, Content.parse_start_dquote, savep)
    else if Ascii.eqb ch "'" then Some (hc_flags, tag, Content.parse_start_squote, savep)
    else Some (hc_flags, tag, Content.parse_value, save_here in_ savep)
  | Content.parse_start_dquote =>
    if Ascii.eqb ch "034"
    then (* [savep = NULL] clears the argument, not [*savep] *)
      Some (hc_flags, tag, Content.spaces_after_param, savep)
    else Some (hc_flags, tag, Content.parse_dqvalue, save_here in_ savep)
  | Content.parse_start_squote =>
    if Ascii.eqb ch "'"
    then Some (hc_flags, tag, Content.spaces_after_param, savep)
    else Some (hc_flags, tag, Content.parse_sqvalue, save_here in_ savep)
  | Content.parse_dqvalue =>
    if Ascii.eqb ch "034" then
      '(tag, savep) <- ct_store text tag in_ savep ;;
      Some (hc_flags, tag, Content.parse_end_dquote, savep)
    else Some (hc_flags, tag, state, savep)
  | Content.parse_sqvalue =>
    if Ascii.eqb ch "'" then
      '(tag, savep) <- ct_store text tag in_ savep ;;
      Some (hc_flags, tag, Content.parse_end_squote, savep)
    else Some (hc_flags, tag, state, savep)
  | Content.parse_value =>
    closed <- slash_gt text in_ ;;
    if closed then
      '(tag, savep) <- ct_store text (ct_or_flags tag FL_CLOSED) in_ savep ;;
      Some (hc_flags, tag, state, savep)
    else if g_ascii_isspace ch || Ascii.eqb ch ">" then
      '(tag, savep) <- ct_store text tag in_ savep ;;
      Some (hc_flags, tag, Content.spaces_after_param, savep)
    else Some (hc_flags, tag, state, savep)
  | Content.parse_end_dquote | Content.parse_end_squote =>
    if g_ascii_isspace ch then Some (hc_flags, tag, Content.spaces_after_param, savep)
    else
      closed <- slash_gt text in_ ;;
      if closed then Some (hc_flags, ct_or_flags tag FL_CLOSED, state, savep)
      else Some (hc_flags, tag, state, savep)
  | Content.spaces_after_param =>
    if negb (g_ascii_isspace ch) then
      closed <- slash_gt text in_ ;;
      let tag := if closed then ct_or_flags tag FL_CLOSED else tag in
      Some (hc_flags, tag, Content.parse_attr_name, Some in_)
    else Some (hc_flags, tag, state, savep)
  | Content.ignore_bad_tag => Some (hc_flags, tag, state, savep)
  end.

(** State [tag_content] of [rspamd_html_process_part_full], from the first
    byte of a tag to its [>]: the call above for each byte, the [>]
    included. *)
Fixpoint tag_content_loop (fuel : nat) (text : list ascii) (closing : bool)
         (hc_flags : Z) (tag : cur_tag) (p : nat) (state : Content.substate)
         (savep : option nat) : option tag_outcome :=
  match fuel with
  | O => None
  | S fuel =>
    if (p <? List.length text)%nat then
      '(hc_flags, tag, state, savep) <-
        rspamd_html_parse_tag_content text hc_flags tag p state savep ;;
      if Ascii.eqb (peek text p) ">" then
        let tag := if closing then ct_or_flags tag FL_CLOSING else tag in
        let hc_flags :=
          if closing && has (ct_flags tag) FL_CLOSED
          then hc_flags .| RSPAMD_HTML_FLAG_BAD_ELEMENTS   (* Bad mix of closed and closing *)
          else hc_flags in
        Some (tag_done hc_flags tag p)
      else tag_content_loop fuel text closing hc_flags tag (S p) state savep
    else Some (tag_unfinished hc_flags tag)
  end.

Definition html_tag_content (text : list ascii) (p : nat) (closing : bool)
           (hc_flags : Z) : option tag_outcome :=
  tag_content_loop (S (List.length text - p)) text closing hc_flags cur_tag_new p
                   Content.parse_start None.
End TagContent.

(** The loop of state [tag_content], from a state to what it ends with. *)
Inductive tag_reach `{html_h} (isgraph : Z -> bool) (text : list ascii) (closing : bool)
  : Z -> cur_tag -> nat -> Content.substate -> option nat -> tag_outcome -> Prop :=
  | tag_reach_end hc tag p state savep :
      (List.length text <= p)%nat ->
      tag_reach isgraph text closing hc tag p state savep (tag_unfinished hc tag)
  | tag_reach_gt hc tag p state savep hc' tag' state' savep' :
      (p < List.length text)%nat ->
      rspamd_html_parse_tag_content isgraph text hc tag p state savep
      = Some (hc', tag', state', savep') ->
      peek text p = ">"%char ->
      tag_reach isgraph text closing hc tag p state savep
        (tag_done
           (if closing
               && has (ct_flags (if closing then ct_or_flags tag' FL_CLOSING else tag'))
                      FL_CLOSED
            then hc' .| RSPAMD_HTML_FLAG_BAD_ELEMENTS else hc')
           (if closing then ct_or_flags tag' FL_CLOSING else tag') p)
  | tag_reach_step hc tag p state savep hc' tag' state' savep' o :
      (p < List.length text)%nat ->
      rspamd_html_parse_tag_content isgraph text hc tag p state savep
      = Some (hc', tag', state', savep') ->
      peek text p <> ">"%char ->
      tag_reach isgraph text closing hc' tag' (S p) state' savep' o ->
      tag_reach isgraph text closing hc tag p state savep o.

(** An attribute [key="value"] of a tag. *)
Record tag_attr := mk_attr {
  a_key : list ascii;
  a_value : list ascii
}.

Definition attr_body (a : tag_attr) : list ascii :=
  a_key a ++ "="%char :: "034"%char :: a_value a ++ ["034"%char].

Definition attr_text (a : tag_attr) : list ascii := " "%char :: attr_body a.

Definition key_char (c : ascii) : bool :=
  negb (g_ascii_isspace c) && negb (Ascii.eqb c "=") && negb (Ascii.eqb c "/")
  && negb (Ascii.eqb c ">").

Definition attr_ok (a : tag_attr) : Prop :=
  a_key a <> [] /\ forallb key_char (a_key a) = true
  /\ a_value a <> [] /\ ~ In "034"%char (a_value a) /\ ~ In ">"%char (a_value a).

(** The text of a tag from its name to its [>]: the name of a row of the
    table and attributes, each after one space. *)
Definition tag_text (d : html_tag_def) (attrs : list tag_attr) : list ascii :=
  bytes (def_name d) ++ concat (map attr_text attrs) ++ [">"%char].

Section AttrComps.
Context `{html_h}.
Variable g_unichar_isgraph : Z -> bool.

(** The component an attribute leaves in a tag seen as [view]. *)
Definition attr_comps (view : html_tag) (a : tag_attr) : list html_tag_component :=
  match rspamd_html_parse_tag_component g_unichar_isgraph (a_key a) view with
  | Some t =>
    let '(s, len) :=
      rspamd_html_decode_entitles_inplace g_unichar_isgraph (a_value a)
        (wrap32 (Z.of_nat (List.length (a_value a)))) in
    [mk_comp t (Some s) len]
  | None => []
  end.
End AttrComps.

(** The states between the name of an attribute and the end of its
    value. *)
Definition value_state (s : Content.substate) : bool :=
  match s with
  | Content.parse_equal | Content.spaces_before_eq | Content.spaces_after_eq
  | Content.parse_start_dquote | Content.parse_start_squote
  | Content.parse_dqvalue | Content.parse_sqvalue | Content.parse_value => true
  | _ => false
  end.

(** What the loop of state [tag_content] keeps, [p] the byte it reads
    next: in [parse_name] the name starts at or before [p]; [*savep], if
    not NULL, is at or before [p]; a value to store has a component to
    go to. *)
Definition content_inv (p : nat) (tag : cur_tag) (state : Content.substate)
           (savep : option nat) : Prop :=
  (state = Content.parse_name ->
   exists start, ct_name tag = name_in start /\ (start <= p)%nat)
  /\ (forall sp, savep = Some sp -> (sp <= p)%nat)
  /\ (value_state state = true -> savep <> None -> ct_params tag <> []).

(** No slash is the last byte of the text. *)
Definition slash_followed (text : list ascii) : Prop :=
  forall i, (i < List.length text)%nat -> peek text i = "/"%char ->
            (S i < List.length text)%nat.

(** The tag read from [p] ends at the first [>] at or after [p]. *)
Definition ends_at_first_gt (text : list ascii) (p : nat) (o : tag_outcome) : Prop :=
  match o with
  | tag_done _ _ q =>
    (p <= q < List.length text)%nat /\ peek text q = ">"%char
    /\ forall i, (p <= i < q)%nat -> peek text i <> ">"%char
  | tag_unfinished _ _ =>
    forall i, (p <= i < List.length text)%nat -> peek text i <> ">"%char
  end.

(** * Properties *)

(** ** Part similarity (message.c) *)

(** C3.  The loop adds the cost 2 to the diagonal when the two hashes are
    equal ([eq * 2] with [eq = 1] for equal hashes) and nothing when they
    differ, the opposite of the cost model its own comment states.  Two
    identical sequences of five words get distance 2 where the cost model
    gives 0, and five words with three mismatched positions get 2 where the
    cost model gives 6. *)
Theorem levenshtein_cost_inverted :
  rspamd_words_levenshtein_distance [1; 2; 3; 4; 5] [1; 2; 3; 4; 5] = 2
  /\ lev_spec 11 [1; 2; 3; 4; 5] [1; 2; 3; 4; 5] = 0
  /\ rspamd_words_levenshtein_distance [1; 2; 3; 4; 5] [1; 9; 3; 8; 7] = 2
  /\ lev_spec 11 [1; 2; 3; 4; 5] [1; 9; 3; 8; 7] = 6
  /\ rspamd_words_levenshtein_distance [1] [1] = 2
  /\ rspamd_words_levenshtein_distance [1] [2] = 0.
Proof. repeat split; vm_compute; reflexivity. Qed.

(** ** Entity decoding *)

(** C2.  [&#977;] is six bytes; its code point is found in the numeric view
    of the table with the eight-byte replacement [thetasym], which is copied
    to [t] whole, so the call returns 8 for a length of 6 (and the restored
    [;] lands inside the replacement).  [&#164;] returns 7 in the same
    way. *)
Theorem decode_entities_can_grow (isgraph : Z -> bool) :
  rspamd_html_decode_entitles_inplace isgraph (bytes "&#977;") 6
  = (bytes "theta;ym", 8)
  /\ rspamd_html_decode_entitles_inplace isgraph (bytes "&#164;") 6
     = (bytes "curre;t", 7).
Proof. split; vm_compute; reflexivity. Qed.

(** C5.  Both pass-through branches copy [h - e] bytes starting at the [&],
    which stops short of the [;] that [h] points to.  In [a&sect;b] (a named
    entity without replacement) and in [a&#12a;b] (digits followed by
    garbage) the token reaches the output without its [;]. *)
Theorem decode_passthrough_drops_semicolon (isgraph : Z -> bool) :
  (let r := rspamd_html_decode_entitles_inplace isgraph (bytes "a&sect;b") 8 in
   snd r = 7 /\ firstn 7 (fst r) = bytes "a&sectb")
  /\ (let r := rspamd_html_decode_entitles_inplace isgraph (bytes "a&#12a;b") 8 in
      snd r = 7 /\ firstn 7 (fst r) = bytes "a&#12ab").
Proof. repeat split; vm_compute; reflexivity. Qed.

(** ** URL extraction from a tag *)

Lemma land_lor_same (a b : Z) : Z.land (a .| b) b = b.
Proof.
  apply Z.bits_inj'; intros n Hn.
  rewrite Z.land_spec, Z.lor_spec.
  destruct (Z.testbit a n), (Z.testbit b n); reflexivity.
Qed.

Lemma land_lor_other (a b m : Z) : Z.land b m = 0 -> Z.land (a .| b) m = Z.land a m.
Proof.
  intros Hb. rewrite Z.land_lor_distr_l, Hb. apply Z.lor_0_r.
Qed.

Lemma url_no_prefix_spec (s : list ascii) :
  url_no_prefix s = true <-> ~ In ":"%char s.
Proof.
  unfold url_no_prefix. rewrite negb_true_iff.
  split.
  - intros Hex Hin.
    assert (existsb (fun c => Ascii.eqb c ":") s = true) as Ht.
    { apply existsb_exists. exists ":"%char. split; [exact Hin | reflexivity]. }
    congruence.
  - intros Hnin. destruct (existsb _ s) eqn:Hex; [|reflexivity].
    apply existsb_exists in Hex. destruct Hex as [c [Hin Hc]].
    apply Ascii.eqb_eq in Hc. subst c. contradiction.
Qed.

Lemma url_prefix_for_spec (s : list ascii) :
  (if Ascii.eqb (nth 0 s NUL) "/"
      && ((2 <? List.length s)%nat && Ascii.eqb (nth 1 s NUL) "/")
   then bytes "http:" else bytes "http://") = url_prefix_for s.
Proof.
  destruct s as [|a [|b [|c s]]]; simpl.
  - reflexivity.
  - destruct (Ascii.eqb a "/"); reflexivity.
  - destruct (Ascii.eqb a "/"); reflexivity.
  - reflexivity.
Qed.

(** C9, as the code has it.  With [s] the attribute span after trimming
    and [built] the buffer [decoded] at [*d = 0]: the URL parser is handed
    what [rspamd_normalise_unicode_inplace] leaves of [built], and the
    function gives no URL exactly when the parser refuses that string.
    When [s] holds no [:], [built] is [http:] followed by the encoded span
    if [s] starts with [//] and is longer than two bytes, and [http://]
    followed by the encoded span otherwise, and a URL that parses carries
    the schemeless flag; when [s] holds a [:], [built] is the encoded span
    alone and the flags of the result are those the parser returned, with
    at most the obscured flag added. *)
Theorem process_url_schemeless
        (OBSCURED SCHEMALESS UNNORMALISED : Z)
        (normalise : list ascii -> list ascii * bool)
        (parse : rspamd_url -> list ascii -> option rspamd_url)
        (start : list ascii) :
  let s := url_trim start in
  let built := fst (fst (process_url_decoded start)) in
  let handed := fst (normalise built) in
  let pre := if snd (normalise built)
             then url_or_flags url_alloc0 UNNORMALISED else url_alloc0 in
  let result :=
    rspamd_html_process_url OBSCURED SCHEMALESS UNNORMALISED normalise parse start in
  (result = None <-> parse pre handed = None)
  /\ (~ In ":"%char s ->
      built = url_prefix_for s ++ fst (url_encode s)
      /\ forall u, result = Some u ->
           (exists u0, parse pre handed = Some u0)
           /\ Z.land (url_flags u) SCHEMALESS = SCHEMALESS)
  /\ (In ":"%char s ->
      built = fst (url_encode s)
      /\ forall u, result = Some u ->
         exists u0,
           parse pre handed = Some u0
           /\ (url_flags u = url_flags u0 \/ url_flags u = url_flags u0 .| OBSCURED)).
Proof.
  intros s built handed pre result.
  subst built handed pre result. unfold rspamd_html_process_url, process_url_decoded.
  fold s. rewrite url_prefix_for_spec.
  destruct (url_encode s) as [body bad] eqn:Henc.
  destruct (url_no_prefix s) eqn:Hnp; cbn [fst snd].
  - destruct (normalise (url_prefix_for s ++ body)) as [dec' changed]. cbn [fst snd].
    split; [|split].
    + destruct (parse _ dec'); split; intros E; (discriminate E || reflexivity).
    + intros _. split; [reflexivity|].
      intros u. destruct (parse _ dec') as [u0|]; [|discriminate].
      intros Hu. injection Hu as <-. split; [exists u0; reflexivity|].
      simpl. apply land_lor_same.
    + intros Hin. apply url_no_prefix_spec in Hnp. contradiction.
  - cbn [app]. destruct (normalise body) as [dec' changed]. cbn [fst snd].
    split; [|split].
    + destruct (parse _ dec'); split; intros E; (discriminate E || reflexivity).
    + intros Hnin. apply url_no_prefix_spec in Hnin. congruence.
    + intros _. split; [reflexivity|].
      intros u. destruct (parse _ dec') as [u0|]; [|discriminate].
      intros Hu. injection Hu as <-. exists u0. split; [reflexivity|].
      destruct bad; simpl; auto.
Qed.

Ltac not_in_list :=
  let H := fresh in
  intros H; simpl in H;
  repeat (destruct H as [H|H]; [discriminate H|]); exact H.

Lemma process_url_schemeless_witness :
  ~ In ":"%char (url_trim (bytes " //example.com "))
  /\ fst (fst (process_url_decoded (bytes " //example.com ")))
     = bytes "http://example.com".
Proof.
  split.
  - not_in_list.
  - destruct (process_url_schemeless 4 8192 16384 (fun d => (d, false))
                (fun u d => Some u) (bytes " //example.com ")) as (_ & Hno & _).
    destruct Hno as [Hdec _]; [not_in_list|].
    rewrite Hdec. reflexivity.
Defined.

(** C9 as stated fails on the two-byte span [//]: it holds no [:] and starts
    with [//], yet the guard [len > 2] sends it to the [http://] branch, so
    the buffer is [http:////] and not [http:] followed by the span; with a
    normaliser that changes nothing this is the string the parser gets. *)
Lemma process_url_double_slash_counterexample :
  ~ In ":"%char (url_trim (bytes "//"))
  /\ firstn 2 (url_trim (bytes "//")) = bytes "//"
  /\ fst (fst (process_url_decoded (bytes "//")))
     <> bytes "http:" ++ fst (url_encode (url_trim (bytes "//")))
  /\ fst (fst (process_url_decoded (bytes "//"))) = bytes "http:////"
  /\ rspamd_html_process_url 4 8192 16384 (fun d => (d, false))
       (fun pre str => Some (mk_url str [] [] (url_flags pre) None []))
       (bytes "//")
     = Some (mk_url (bytes "http:////") [] [] 8192 None []).
Proof.
  split; [not_in_list|].
  split; [reflexivity|].
  split; [vm_compute; discriminate|].
  split; reflexivity.
Qed.

(** ** Colours *)

Lemma testbit_255 (n : Z) : Z.testbit 255 n = (0 <=? n) && (n <? 8).
Proof.
  destruct (Z.leb_spec 0 n); [|apply Z.testbit_neg_r; lia].
  destruct (Z.ltb_spec n 8).
  - change 255 with (Z.ones 8). apply Z.ones_spec_low. lia.
  - change 255 with (Z.ones 8). apply Z.ones_spec_high. lia.
Qed.

Lemma testbit_mask32 (n : Z) : Z.testbit (2^32 - 1) n = (0 <=? n) && (n <? 32).
Proof.
  destruct (Z.leb_spec 0 n); [|apply Z.testbit_neg_r; lia].
  destruct (Z.ltb_spec n 32).
  - change (2^32 - 1) with (Z.ones 32). apply Z.ones_spec_low. lia.
  - change (2^32 - 1) with (Z.ones 32). apply Z.ones_spec_high. lia.
Qed.

Lemma testbit_mod256_high (v n : Z) : 8 <= n -> Z.testbit (v mod 256) n = false.
Proof. intros Hn. change 256 with (2^8). apply Z.mod_pow2_bits_high. lia. Qed.

Lemma color_alpha_set_comp (k : Z) (c : html_color) (v : Z) :
  0 <= k < 3 -> color_alpha (set_comp k c v) = color_alpha c.
Proof.
  intros Hk. unfold color_alpha, set_comp. cbn [color_val].
  apply Z.bits_inj'; intros n Hn.
  rewrite !Z.land_spec, !Z.shiftr_spec, testbit_255 by lia.
  destruct (Z.ltb_spec n 8); [|rewrite !andb_false_r; reflexivity].
  rewrite Z.lor_spec, Z.land_spec, Z.lxor_spec, testbit_mask32.
  rewrite !Z.shiftl_spec by lia.
  rewrite testbit_255, testbit_mod256_high by lia.
  replace (0 <=? n + 24) with true by (symmetry; apply Z.leb_le; lia).
  replace (n + 24 <? 32) with true by (symmetry; apply Z.ltb_lt; lia).
  replace (n + 24 - 8 * k <? 8) with false by (symmetry; apply Z.ltb_ge; lia).
  rewrite andb_false_r, orb_false_r. cbn [andb xorb]. rewrite andb_true_r.
  reflexivity.
Qed.

Lemma color_alpha_set_alpha (c : html_color) (v : Z) :
  color_alpha (set_alpha c v) = v mod 256.
Proof.
  unfold color_alpha, set_alpha, set_comp. cbn [color_val].
  apply Z.bits_inj'; intros n Hn.
  rewrite !Z.land_spec, !Z.shiftr_spec, testbit_255 by lia.
  rewrite Z.lor_spec, Z.land_spec, Z.lxor_spec, testbit_mask32.
  rewrite !Z.shiftl_spec by lia.
  rewrite testbit_255.
  replace (n + 24 - 8 * 3) with n by lia.
  destruct (Z.ltb_spec n 8).
  - replace (0 <=? n + 24) with true by (symmetry; apply Z.leb_le; lia).
    replace (n + 24 <? 32) with true by (symmetry; apply Z.ltb_lt; lia).
    replace (0 <=? n) with true by (symmetry; apply Z.leb_le; lia).
    cbn [andb xorb]. rewrite andb_false_r, andb_true_r. reflexivity.
  - rewrite testbit_mod256_high by lia. rewrite !andb_false_r. reflexivity.
Qed.

Lemma color_alpha_small (v : Z) (b : bool) :
  0 <= v < 2^24 -> color_alpha (mk_color v b) = 0.
Proof.
  intros Hv. unfold color_alpha. cbn [color_val].
  rewrite Z.shiftr_div_pow2 by lia.
  rewrite Z.div_small by lia. reflexivity.
Qed.

(** Every colour of the name table is valid and opaque. *)
Lemma html_colors_hash_opaque names search c :
  html_colors_lookup names search = Some c ->
  color_valid c = true /\ color_alpha c = 255.
Proof.
  unfold html_colors_lookup.
  destruct (find _ _) as [e|] eqn:Hf; [|discriminate].
  intros Hc. injection Hc as <-.
  apply find_some in Hf. destruct Hf as [Hin _].
  apply in_rev in Hin. unfold html_colors_hash in Hin.
  apply in_map_iff in Hin. destruct Hin as [[name [[r g] b]] [He _]].
  subst e. cbn [snd]. split; [reflexivity|].
  unfold set_valid, color_alpha. cbn [color_val].
  fold (color_alpha (set_b (set_g (set_r (set_alpha color_zero 255) r) g) b)).
  unfold set_b, set_g, set_r.
  rewrite !color_alpha_set_comp by lia.
  rewrite color_alpha_set_alpha. reflexivity.
Qed.

Lemma digit_val_nonneg (c : ascii) (d : Z) : digit_val c = Some d -> 0 <= d.
Proof.
  unfold digit_val.
  destruct ((48 <=? code c) && (code c <=? 57)) eqn:H1.
  { intros E; injection E as <-. apply andb_prop in H1. destruct H1 as [H1 _].
    apply Z.leb_le in H1. lia. }
  destruct ((97 <=? code c) && (code c <=? 122)) eqn:H2.
  { intros E; injection E as <-. apply andb_prop in H2. destruct H2 as [H2 _].
    apply Z.leb_le in H2. lia. }
  destruct ((65 <=? code c) && (code c <=? 90)) eqn:H3; [|discriminate].
  intros E; injection E as <-. apply andb_prop in H3. destruct H3 as [H3 _].
  apply Z.leb_le in H3. lia.
Qed.

Lemma strtoul_digits_bound (s : list ascii) :
  forall acc n v k,
    0 <= acc ->
    strtoul_digits 16 s acc n = (v, k) ->
    0 <= v < (acc + 1) * 16 ^ Z.of_nat (List.length s).
Proof.
  induction s as [|c r IH]; intros acc n v k Hacc Hd; cbn [strtoul_digits] in Hd.
  - injection Hd as <- <-. cbn [List.length Z.of_nat]. rewrite Z.pow_0_r. lia.
  - assert (0 < 16 ^ Z.of_nat (List.length r)) as Hp by (apply Z.pow_pos_nonneg; lia).
    assert (16 ^ Z.of_nat (List.length (c :: r)) = 16 * 16 ^ Z.of_nat (List.length r)) as ->.
    { cbn [List.length]. rewrite Nat2Z.inj_succ, Z.pow_succ_r by lia. reflexivity. }
    destruct (digit_val c) as [d|] eqn:Hdv.
    + pose proof (digit_val_nonneg _ _ Hdv) as Hd0.
      destruct (Z.ltb_spec d 16).
      * apply IH in Hd; [|lia]. nia.
      * injection Hd as <- <-. nia.
    + injection Hd as <- <-. nia.
Qed.

Lemma take_cstr_incl (m : list ascii) (x : ascii) : In x (take_cstr m) -> In x m.
Proof.
  induction m as [|c r IH]; cbn [take_cstr]; [tauto|].
  destruct (Ascii.eqb c NUL); [intros []|].
  intros [->|Hin]; [left; reflexivity | right; auto].
Qed.

Lemma take_cstr_length (m : list ascii) :
  (List.length (take_cstr m) <= List.length m)%nat.
Proof.
  induction m as [|c r IH]; cbn [take_cstr]; [lia|].
  destruct (Ascii.eqb c NUL); cbn [List.length]; lia.
Qed.

Lemma in_skipn {A} (n : nat) (l : list A) (x : A) : In x (skipn n l) -> In x l.
Proof.
  revert l; induction n as [|n IH]; intros [|a l]; cbn [skipn]; auto.
  intros Hin. right. auto.
Qed.

Lemma in_firstn {A} (n : nat) (l : list A) (x : A) : In x (firstn n l) -> In x l.
Proof.
  revert l; induction n as [|n IH]; intros [|a l]; cbn [firstn]; auto.
  - intros [].
  - intros [->|Hin]; [left; reflexivity | right; auto].
Qed.

(** Without a minus sign the value of [strtoul] in base 16 has at most as
    many hex digits as the text has bytes. *)
Lemma strtoul_hex_bound (s : list ascii) :
  ~ In "-"%char s ->
  0 <= fst (strtoul s 16) < 16 ^ Z.of_nat (List.length s).
Proof.
  intros Hminus. unfold strtoul.
  set (ws := count_while isspace s).
  assert (0 < 16 ^ Z.of_nat (List.length s)) as Hpos by (apply Z.pow_pos_nonneg; lia).
  assert (forall s3 : list ascii, (List.length s3 <= List.length s)%nat ->
          forall sl pl : nat,
          0 <= fst (let '(v, k) := strtoul_digits 16 s3 0 0 in
                    match k with
                    | O => (0, O)
                    | S _ => ((if v >? ULONG_MAX then ULONG_MAX else v),
                              (ws + sl + pl + k)%nat)
                    end) < 16 ^ Z.of_nat (List.length s)) as Hcore.
  { intros s3 Hlen sl pl.
    destruct (strtoul_digits 16 s3 0 0) as [v k] eqn:Hd.
    apply strtoul_digits_bound in Hd; [|lia].
    assert (16 ^ Z.of_nat (List.length s3) <= 16 ^ Z.of_nat (List.length s)) as Hle
        by (apply Z.pow_le_mono_r; lia).
    destruct k; cbn [fst]; [lia|].
    destruct (Z.gtb_spec v ULONG_MAX); [|lia].
    unfold ULONG_MAX in *. lia. }
  assert (forall s2 : list ascii, (List.length s2 <= List.length s)%nat ->
          forall sl : nat,
          0 <= fst (let '(s3, pl) :=
                      match s2 with
                      | z :: x :: d :: r =>
                        if (16 =? 16) && Ascii.eqb z "0"
                           && ((Ascii.eqb x "x") || (Ascii.eqb x "X")) && is_digit_in 16 d
                        then (d :: r, 2%nat) else (s2, 0%nat)
                      | _ => (s2, 0%nat)
                      end in
                    let '(v, k) := strtoul_digits 16 s3 0 0 in
                    match k with
                    | O => (0, O)
                    | S _ => ((if v >? ULONG_MAX then ULONG_MAX else v),
                              (ws + sl + pl + k)%nat)
                    end) < 16 ^ Z.of_nat (List.length s)) as Hpre.
  { intros s2 Hlen sl.
    destruct s2 as [|z [|x [|d r]]]; try (apply Hcore; exact Hlen).
    destruct ((16 =? 16) && Ascii.eqb z "0"
              && ((Ascii.eqb x "x") || (Ascii.eqb x "X")) && is_digit_in 16 d).
    - apply Hcore. cbn [List.length] in *. lia.
    - apply Hcore. exact Hlen. }
  assert (List.length (skipn ws s) <= List.length s)%nat as Hsk
      by (rewrite length_skipn; lia).
  destruct (skipn ws s) as [|c r] eqn:Hs1.
  - apply (Hpre [] Hsk).
  - destruct (Ascii.eqb_spec c "-") as [->|Hc].
    { exfalso. apply Hminus. apply (in_skipn ws). rewrite Hs1. left; reflexivity. }
    destruct (Ascii.eqb c "+").
    + apply Hpre. cbn [List.length] in Hsk. lia.
    + apply (Hpre (c :: r) Hsk).
Qed.

(** C8.  The alpha a valid colour is stored with, branch by branch of
    [rspamd_html_process_color].  The branch of the named colours copies a
    row that [rspamd_html_library_init] made with alpha 255, and the black
    font colour used as a last resort is given alpha 255 too.  The [#]
    branch and the [rgb]/[rgba] branch only assign [d.val] after the
    [memset], so that the alpha byte is whatever the number leaves there:
    0 for the [#] form (without a minus sign) and for an [rgb] form with
    components up to 255, where the same colour given by name has 255.
    The default background of the document is set with alpha 0. *)
Theorem color_alpha_by_form
        (names : list (string * (Z * Z * Z)))
        (rspamd_strtoul : list ascii -> option Z)
        (line : list ascii) :
  let c := rspamd_html_process_color names rspamd_strtoul line in
  (color_valid default_bgcolor = true /\ color_alpha default_bgcolor = 0)
  /\ (forall c0, color_valid (fallback_font_color c0) = true
                 /\ color_alpha (fallback_font_color c0) = 255)
  /\ (color_valid c = true ->
      if Ascii.eqb (peek line 0) "#" then
        ~ In "-"%char line -> color_alpha c = 0
      else if (4 <? List.length line)%nat && prefix_caseless (bytes "rgb") line then
        exists r g b,
          process_color_rgb rspamd_strtoul line = Some (r, g, b)
          /\ color_val c = wrap32 (b + Z.shiftl g 8 + Z.shiftl r 16)
          /\ (0 <= r <= 255 -> 0 <= g <= 255 -> 0 <= b <= 255 -> color_alpha c = 0)
      else color_alpha c = 255).
Proof.
  intros c. split; [split; reflexivity|].
  split.
  { intros c0. split; [reflexivity|].
    unfold fallback_font_color, set_valid, color_alpha. cbn [color_val].
    fold (color_alpha (set_alpha (mk_color 0 (color_valid c0)) 255)).
    rewrite color_alpha_set_alpha. reflexivity. }
  subst c. unfold rspamd_html_process_color.
  destruct (Ascii.eqb (peek line 0) "#").
  - intros _ Hminus. unfold set_valid. cbn [color_val].
    set (hexbuf := take_cstr _).
    assert (~ In "-"%char hexbuf) as Hm.
    { intros Hin. apply Hminus. subst hexbuf.
      apply take_cstr_incl, in_firstn, in_skipn in Hin. exact Hin. }
    pose proof (strtoul_hex_bound hexbuf Hm) as Hb.
    assert (List.length hexbuf <= 6)%nat as Hlen.
    { subst hexbuf. etransitivity; [apply take_cstr_length|].
      rewrite length_firstn. lia. }
    assert (16 ^ Z.of_nat (List.length hexbuf) <= 16 ^ 6) as Hp
        by (apply Z.pow_le_mono_r; lia).
    change (16 ^ 6) with (2 ^ 24) in Hp.
    apply color_alpha_small. unfold wrap32.
    rewrite Z.mod_small by lia. lia.
  - destruct ((4 <? List.length line)%nat && prefix_caseless (bytes "rgb") line).
    + destruct (process_color_rgb rspamd_strtoul line) as [[[r g] b]|];
        [|cbn; discriminate].
      intros _. exists r, g, b. split; [reflexivity|].
      split; [reflexivity|].
      intros Hr Hg Hb. unfold set_valid. cbn [color_val].
      apply color_alpha_small. unfold wrap32.
      rewrite !Z.shiftl_mul_pow2 by lia.
      rewrite Z.mod_small by lia. lia.
    + destruct (html_colors_lookup names line) as [el|] eqn:Hl; [|cbn; discriminate].
      intros _. apply (html_colors_hash_opaque _ _ _ Hl).
Qed.

Lemma color_alpha_by_form_witness :
  color_valid (rspamd_html_process_color
                 [("red"%string, (255, 0, 0))] (fun _ => None) (bytes "Red")) = true
  /\ color_alpha (rspamd_html_process_color
                    [("red"%string, (255, 0, 0))] (fun _ => None) (bytes "Red")) = 255.
Proof.
  split; [reflexivity|].
  destruct (color_alpha_by_form [("red"%string, (255, 0, 0))] (fun _ => None)
                                (bytes "Red")) as [_ [_ Hform]].
  apply Hform. reflexivity.
Defined.

(** C8 fails on the [#] form and on the [rgb] form: red as [#ff0000] and
    as [rgba(255, 0, 0, 1)] is valid and stored with alpha 0, where the named
    colour [red], with the same three components, is stored with alpha
    255.  The default background is valid and has alpha 0 as well. *)
Lemma color_not_opaque_counterexample :
  (color_valid default_bgcolor = true /\ color_alpha default_bgcolor <> 255)
  /\ (color_valid (rspamd_html_process_color [] (fun _ => None) (bytes "#ff0000")) = true
      /\ color_alpha (rspamd_html_process_color [] (fun _ => None) (bytes "#ff0000")) <> 255)
  /\ (color_valid (rspamd_html_process_color [] (fun s => Some (fst (strtoul s 10)))
                                             (bytes "rgba(255, 0, 0, 1)")) = true
      /\ color_alpha (rspamd_html_process_color [] (fun s => Some (fst (strtoul s 10)))
                                                (bytes "rgba(255, 0, 0, 1)")) = 0)
  /\ (color_alpha (rspamd_html_process_color [("red"%string, (255, 0, 0))]
                                             (fun _ => None) (bytes "red")) = 255
      /\ Z.land (color_val (rspamd_html_process_color [("red"%string, (255, 0, 0))]
                                                      (fun _ => None) (bytes "red")))
                (2^24 - 1)
         = color_val (rspamd_html_process_color [] (fun _ => None) (bytes "#ff0000"))
      /\ color_val (rspamd_html_process_color [] (fun s => Some (fst (strtoul s 10)))
                                              (bytes "rgba(255, 0, 0, 1)"))
         = color_val (rspamd_html_process_color [] (fun _ => None) (bytes "#ff0000"))).
Proof.
  split; [split; [reflexivity | vm_compute; discriminate]|].
  split; [split; [reflexivity | vm_compute; discriminate]|].
  split; [split; vm_compute; reflexivity|].
  split; [vm_compute; reflexivity|].
  split; vm_compute; reflexivity.
Qed.

(** ** Phishing detection *)

Lemma bytes_eqb_eq (a b : list ascii) : bytes_eqb a b = true <-> a = b.
Proof.
  unfold bytes_eqb. revert b.
  induction a as [|x a IH]; intros [|y b]; cbn [List.length combine forallb Nat.eqb fst snd andb];
    try (split; [discriminate | discriminate]); [tauto|].
  specialize (IH b). split.
  - intros Hb. apply andb_prop in Hb. destruct Hb as [Hl Hb].
    apply andb_prop in Hb. destruct Hb as [Hxy Hb].
    apply Ascii.eqb_eq in Hxy. subst y. f_equal. apply IH.
    rewrite Hl, Hb. reflexivity.
  - intros E. injection E as <- <-. destruct IH as [_ IH].
    specialize (IH eq_refl). apply andb_prop in IH. destruct IH as [Hl Hb].
    rewrite Hl, Hb, Ascii.eqb_refl. reflexivity.
Qed.

Lemma sample_ftok_casecmp_spec (a b : list ascii) :
  sample_ftok_casecmp a b = 0 <-> lower a = lower b.
Proof.
  unfold sample_ftok_casecmp.
  destruct (bytes_eqb (lower a) (lower b)) eqn:E.
  - apply bytes_eqb_eq in E. tauto.
  - split; [discriminate|]. intros Hl. apply bytes_eqb_eq in Hl. congruence.
Qed.

(** C1.  An anchor with target host and TLD [xo.uk] that displays
    [http://evil.co.uk]: the hosts differ, the TLDs differ and neither TLD is
    a dot-bounded suffix of the other, yet [rspamd_url_is_subdomain] answers
    TRUE, because its loop stops at the first byte of [xo.uk] without
    comparing it and then only looks for a dot before the [co.uk] it has
    reached.  The target is returned without the phished flag. *)
Theorem phished_missed_by_subdomain_walk
        (PHISHED DISPLAYED : Z)
        (url_find : list ascii -> option (list ascii * Z))
        (url_parse : list ascii -> option rspamd_url)
        (idna : list ascii -> option (list ascii))
        (casecmp : list ascii -> list ascii -> Z)
        (href_url text_url : rspamd_url) :
  (forall a b, casecmp a b = 0 <-> lower a = lower b) ->
  url_find (bytes "http://evil.co.uk") = Some (bytes "http://evil.co.uk", 0) ->
  url_parse (bytes "http://evil.co.uk") = Some text_url ->
  url_host text_url = bytes "evil.co.uk" ->
  url_tld text_url = bytes "evil.co.uk" ->
  url_host href_url = bytes "xo.uk" ->
  url_tld href_url = bytes "xo.uk" ->
  (dot_suffix (bytes "xo.uk") (bytes "evil.co.uk") = false
   /\ dot_suffix (bytes "evil.co.uk") (bytes "xo.uk") = false)
  /\ rspamd_url_is_subdomain (bytes "evil.co.uk") (bytes "xo.uk") = true
  /\ rspamd_html_url_is_phished PHISHED DISPLAYED url_find url_parse idna casecmp
       href_url (bytes "http://evil.co.uk")
     = mk_phished href_url true (Some text_url).
Proof.
  intros Hcmp Hfind Hparse Hth Htt Hhh Hht.
  split; [split; reflexivity|].
  split; [reflexivity|].
  unfold rspamd_html_url_is_phished.
  change (skipn (count_while g_ascii_isspace (bytes "http://evil.co.uk"))
                (bytes "http://evil.co.uk")) with (bytes "http://evil.co.uk").
  change (4 <? List.length (bytes "http://evil.co.uk"))%nat with true.
  cbv iota. rewrite Hfind. change (0 >? 0) with false. cbn [andb].
  rewrite Hparse. unfold idn_tok. rewrite Hth, Hhh, Htt, Hht.
  change (negb (rspamd_substring_search_caseless (bytes "evil.co.uk") (bytes "xn--") =? -1))
    with false.
  change (negb (rspamd_substring_search_caseless (bytes "xo.uk") (bytes "xn--") =? -1))
    with false.
  cbv iota.
  assert ((casecmp (bytes "evil.co.uk") (bytes "xo.uk") =? 0) = false) as Hne.
  { apply Z.eqb_neq. intros E. apply Hcmp in E. discriminate E. }
  rewrite Hne. cbn [negb].
  change (rspamd_url_is_subdomain (bytes "evil.co.uk") (bytes "xo.uk")) with true.
  reflexivity.
Qed.

Lemma phished_missed_by_subdomain_walk_witness :
  rspamd_html_url_is_phished 1 16 sample_url_find sample_url_parse (fun _ => None)
    sample_ftok_casecmp
    (mk_url (bytes "http://xo.uk") (bytes "xo.uk") (bytes "xo.uk") 0 None [])
    (bytes "http://evil.co.uk")
  = mk_phished
      (mk_url (bytes "http://xo.uk") (bytes "xo.uk") (bytes "xo.uk") 0 None [])
      true
      (Some (mk_url (bytes "http://evil.co.uk") (bytes "evil.co.uk")
                    (bytes "evil.co.uk") 0 None [])).
Proof.
  apply (phished_missed_by_subdomain_walk 1 16 sample_url_find sample_url_parse
           (fun _ => None) sample_ftok_casecmp).
  - exact sample_ftok_casecmp_spec.
  - reflexivity.
  - reflexivity.
  - reflexivity.
  - reflexivity.
  - reflexivity.
  - reflexivity.
Defined.

(** The example of the specification on the same collaborators: the target
    [good-bank.com] displayed as [http://evil-bank.net] is flagged, and the
    displayed URL gets the tag and the displayed flag. *)
Example phished_bank_example :
  rspamd_html_url_is_phished 1 16 sample_url_find sample_url_parse (fun _ => None)
    sample_ftok_casecmp
    (mk_url (bytes "http://good-bank.com") (bytes "good-bank.com")
            (bytes "good-bank.com") 0 None [])
    (bytes "http://evil-bank.net")
  = let text_url :=
        mk_url (bytes "http://evil-bank.net") (bytes "evil-bank.net")
               (bytes "evil-bank.net") 16 None
               [("phishing"%string, bytes "good-bank.com")] in
    mk_phished
      (mk_url (bytes "http://good-bank.com") (bytes "good-bank.com")
              (bytes "good-bank.com") 1 (Some text_url) [])
      true (Some text_url).
Proof. reflexivity. Qed.

(** ** Flags *)

Lemma has_lor_l (a b m : Z) : has (a .| b) m = has a m || has b m.
Proof.
  unfold has. rewrite Z.land_lor_distr_l.
  destruct (Z.eqb_spec (Z.land a m) 0) as [Ha|Ha];
    destruct (Z.eqb_spec (Z.land b m) 0) as [Hb|Hb]; cbn [negb orb].
  - rewrite Ha, Hb. reflexivity.
  - apply negb_true_iff, Z.eqb_neq. intros E. apply Z.lor_eq_0_iff in E. tauto.
  - apply negb_true_iff, Z.eqb_neq. intros E. apply Z.lor_eq_0_iff in E. tauto.
  - apply negb_true_iff, Z.eqb_neq. intros E. apply Z.lor_eq_0_iff in E. tauto.
Qed.

Lemma has_lor_r (f a b : Z) : has f (a .| b) = has f a || has f b.
Proof.
  unfold has. rewrite Z.land_lor_distr_r.
  destruct (Z.eqb_spec (Z.land f a) 0) as [Ha|Ha];
    destruct (Z.eqb_spec (Z.land f b) 0) as [Hb|Hb]; cbn [negb orb].
  - rewrite Ha, Hb. reflexivity.
  - apply negb_true_iff, Z.eqb_neq. intros E. apply Z.lor_eq_0_iff in E. tauto.
  - apply negb_true_iff, Z.eqb_neq. intros E. apply Z.lor_eq_0_iff in E. tauto.
  - apply negb_true_iff, Z.eqb_neq. intros E. apply Z.lor_eq_0_iff in E. tauto.
Qed.

Lemma has_0_l (m : Z) : has 0 m = false.
Proof. unfold has. rewrite Z.land_0_l. reflexivity. Qed.

Lemma has_bits (j k : Z) :
  0 <= j -> 0 <= k ->
  has (Z.shiftl 1 j) (Z.shiftl 1 k) = (j =? k).
Proof.
  intros Hj Hk. unfold has. rewrite !Z.shiftl_1_l.
  destruct (Z.eqb_spec j k) as [->|Hne].
  - rewrite Z.land_diag. apply negb_true_iff, Z.eqb_neq.
    pose proof (Z.pow_pos_nonneg 2 k). lia.
  - apply negb_false_iff, Z.eqb_eq.
    apply Z.bits_inj'; intros n Hn.
    rewrite Z.land_spec, !Z.pow2_bits_eqb, Z.bits_0 by lia.
    destruct (Z.eqb_spec j n), (Z.eqb_spec k n); try reflexivity. lia.
Qed.

Lemma tag_flag_name_eq_dec (a b : tag_flag_name) : {a = b} + {a <> b}.
Proof. decide equality. Defined.

Lemma doc_flag_name_eq_dec (a b : doc_flag_name) : {a = b} + {a <> b}.
Proof. decide equality. Defined.

Section FlagFacts.
Context `{html_h} {Hok : html_h_ok}.

Lemma has_tag_flag (a b : tag_flag_name) :
  has (tag_flag a) (tag_flag b) = if tag_flag_name_eq_dec a b then true else false.
Proof.
  unfold tag_flag.
  rewrite has_bits by apply tag_flag_bit_nonneg.
  destruct (tag_flag_name_eq_dec a b) as [->|Hne].
  - apply Z.eqb_refl.
  - apply Z.eqb_neq. intros E. apply Hne. apply tag_flag_bit_inj. exact E.
Qed.

Lemma has_doc_flag (a b : doc_flag_name) :
  has (doc_flag a) (doc_flag b) = if doc_flag_name_eq_dec a b then true else false.
Proof.
  unfold doc_flag.
  rewrite has_bits by apply doc_flag_bit_nonneg.
  destruct (doc_flag_name_eq_dec a b) as [->|Hne].
  - apply Z.eqb_refl.
  - apply Z.eqb_neq. intros E. apply Hne. apply doc_flag_bit_inj. exact E.
Qed.
End FlagFacts.

(** Decides [has] on combinations of named flags. *)
Ltac flag_names :=
  unfold CM_EMPTY, CM_HTML, CM_HEAD, CM_BLOCK, CM_INLINE, CM_LIST, CM_DEFLIST,
    CM_TABLE, CM_ROWGRP, CM_ROW, CM_FIELD, CM_OBJECT, CM_PARAM, CM_FRAMES,
    CM_HEADING, CM_OPT, CM_IMG, CM_MIXED, CM_NO_INDENT, CM_OBSOLETE, CM_NEW,
    CM_OMITST, CM_UNIQUE, FL_CLOSING, FL_CLOSED, FL_BROKEN, FL_IGNORE, FL_BLOCK,
    RSPAMD_HTML_FLAG_BAD_START, RSPAMD_HTML_FLAG_BAD_ELEMENTS,
    RSPAMD_HTML_FLAG_XML, RSPAMD_HTML_FLAG_UNBALANCED,
    RSPAMD_HTML_FLAG_UNKNOWN_ELEMENTS, RSPAMD_HTML_FLAG_DUPLICATE_ELEMENTS,
    RSPAMD_HTML_FLAG_TOO_MANY_TAGS in *.

Ltac flag_simpl :=
  rewrite ?has_lor_l, ?has_lor_r, ?has_tag_flag, ?has_doc_flag, ?has_0_l;
  cbn [tag_flag_name_eq_dec doc_flag_name_eq_dec tag_flag_name_rec tag_flag_name_rect
       doc_flag_name_rec doc_flag_name_rect sumbool_rec sumbool_rect orb andb negb];
  rewrite ?orb_false_r, ?orb_true_r.


(** ** The stores of the tag tree *)

Lemma upd_length {A} (l : list A) (i : nat) (v : A) : List.length (upd l i v) = List.length l.
Proof.
  revert i; induction l as [|a l IH]; intros [|i]; cbn [upd List.length]; auto.
Qed.

Lemma nth_error_upd_eq {A} (l : list A) (i : nat) (v : A) :
  (i < List.length l)%nat -> nth_error (upd l i v) i = Some v.
Proof.
  revert i; induction l as [|a l IH]; intros [|i]; cbn [upd List.length nth_error];
    intros Hi; try lia; auto. apply IH. lia.
Qed.

Lemma nth_error_upd_neq {A} (l : list A) (i j : nat) (v : A) :
  i <> j -> nth_error (upd l i v) j = nth_error l j.
Proof.
  revert i j; induction l as [|a l IH]; intros [|i] [|j]; cbn [upd nth_error];
    intros Hij; try congruence; auto.
Qed.

Lemma get_tag_lt (P : parser) (i : nat) (t : html_tag) :
  get_tag P i = Some t -> (i < List.length (p_tags P))%nat.
Proof. unfold get_tag. intros E. apply nth_error_Some. congruence. Qed.

Lemma get_tag_set_tag_eq (P : parser) (i : nat) (t u : html_tag) :
  get_tag P i = Some u -> get_tag (set_tag P i t) i = Some t.
Proof.
  intros E. unfold get_tag, set_tag. cbn [p_tags].
  apply nth_error_upd_eq. apply (get_tag_lt _ _ _ E).
Qed.

Lemma get_tag_set_tag_neq (P : parser) (i j : nat) (t : html_tag) :
  i <> j -> get_tag (set_tag P i t) j = get_tag P j.
Proof.
  intros Hij. unfold get_tag, set_tag. cbn [p_tags]. apply nth_error_upd_neq. exact Hij.
Qed.

Lemma get_node_lt (P : parser) (i : nat) (n : GNode) :
  get_node P i = Some n -> (i < List.length (p_nodes P))%nat.
Proof.
  unfold get_node. destruct (nth_error (p_nodes P) i) eqn:E; [|discriminate].
  intros _. apply nth_error_Some. congruence.
Qed.

Lemma get_node_app_l (tags : list html_tag) (nodes extra : list (option GNode))
      (h : html_content) (c : option nat) (i : nat) (n : GNode) :
  get_node (mk_parser tags nodes h c) i = Some n ->
  forall tags' h' c', get_node (mk_parser tags' (nodes ++ extra) h' c') i = Some n.
Proof.
  intros E tags' h' c'. pose proof (get_node_lt _ _ _ E) as Hlt.
  unfold get_node in *. cbn [p_nodes] in *.
  rewrite nth_error_app1 by exact Hlt. exact E.
Qed.

Lemma get_node_new (tags : list html_tag) (nodes : list (option GNode))
      (h : html_content) (c : option nat) (n : option GNode) :
  get_node (mk_parser tags (nodes ++ [n]) h c) (List.length nodes) = n.
Proof.
  unfold get_node. cbn [p_nodes].
  rewrite nth_error_app2 by lia. rewrite Nat.sub_diag. cbn [nth_error].
  destruct n; reflexivity.
Qed.

Lemma lor_idem (a b : Z) : a .| b .| b = a .| b.
Proof. rewrite <- Z.lor_assoc, Z.lor_diag. reflexivity. Qed.

Lemma has_mono (f x m : Z) : has f m = true -> has (f .| x) m = true.
Proof. intros Hf. rewrite has_lor_l, Hf. reflexivity. Qed.

(** ** [rspamd_html_process_tag], branch by branch *)

Lemma tag_core_eq_refl (u : html_tag) : tag_core_eq u u.
Proof. repeat split. Qed.

Lemma tags_kept_except_refl (cur : nat) (P : parser) : tags_kept_except cur P P.
Proof.
  split; [reflexivity|]. intros i u _ E. exists u. split; [exact E | apply tag_core_eq_refl].
Qed.

Lemma tags_kept_except_trans (cur : nat) (P Q R : parser) :
  tags_kept_except cur P Q -> tags_kept_except cur Q R -> tags_kept_except cur P R.
Proof.
  intros [L1 K1] [L2 K2]. split; [congruence|].
  intros i u Hi E. destruct (K1 i u Hi E) as [u1 [E1 [A1 [B1 C1]]]].
  destruct (K2 i u1 Hi E1) as [u2 [E2 [A2 [B2 C2]]]].
  exists u2. split; [exact E2|]. repeat split; congruence.
Qed.

Lemma tags_kept_set_cur (cur : nat) (P : parser) (t : html_tag) :
  tags_kept_except cur P (set_tag P cur t).
Proof.
  split.
  - unfold set_tag. cbn [p_tags]. apply upd_length.
  - intros i u Hi E. exists u. rewrite get_tag_set_tag_neq by congruence.
    split; [exact E | apply tag_core_eq_refl].
Qed.

Lemma tags_kept_set_other (cur pi : nat) (P : parser) (u v : html_tag) :
  get_tag P pi = Some u -> tag_core_eq u v ->
  tags_kept_except cur P (set_tag P pi v).
Proof.
  intros Eu Huv. split.
  - unfold set_tag. cbn [p_tags]. apply upd_length.
  - intros i w Hi E. destruct (Nat.eq_dec pi i) as [->|Hne].
    + exists v. rewrite (get_tag_set_tag_eq _ _ _ _ Eu). split; [reflexivity|]. congruence.
    + exists w. rewrite get_tag_set_tag_neq by exact Hne.
      split; [exact E | apply tag_core_eq_refl].
Qed.

Section ProcessTagBranches.
Context `{html_h} {Hok : html_h_ok}.

Lemma pt_add_open_good (P : parser) (tag : nat) (t : html_tag) (b : bool) :
  get_tag P tag = Some t ->
  has (tag_flags t) FL_CLOSED = false ->
  hc_total_tags (p_hc P) < max_tags ->
  exists P' r t',
    pt_add_open P tag t b = Some (P', r, b)
    /\ p_nodes P' = p_nodes P ++ [Some (mk_node (Some tag) (p_cur_level P))]
    /\ p_cur_level P' = Some (List.length (p_nodes P))
    /\ p_hc P' = hc_count_tag (p_hc P)
    /\ tags_kept_except tag P P'
    /\ get_tag P' tag = Some t'
    /\ tag_id t' = tag_id t /\ tag_parent t' = tag_parent t
    /\ (tag_flags t' = tag_flags t \/ tag_flags t' = tag_flags t .| FL_IGNORE).
Proof.
  intros Ht Hclosed Htot. unfold pt_add_open.
  apply Z.ltb_lt in Htot. rewrite Htot.
  unfold g_node_new_append. rewrite Hclosed.
  unfold set_cur_level, set_hc. cbn [p_tags p_nodes p_hc p_cur_level].
  destruct (has (tag_flags t) (CM_HEAD .| CM_UNKNOWN .| FL_IGNORE)).
  - eexists _, _, _. split; [reflexivity|].
    unfold set_tag. cbn [p_tags p_nodes p_hc p_cur_level].
    split; [reflexivity|]. split; [reflexivity|]. split; [reflexivity|].
    split.
    { split; [cbn [p_tags]; apply upd_length|].
      intros i u Hi E. exists u. split; [|apply tag_core_eq_refl].
      unfold get_tag in *. cbn [p_tags]. rewrite nth_error_upd_neq by congruence. exact E. }
    split.
    { unfold get_tag in *. cbn [p_tags]. apply nth_error_upd_eq.
      apply nth_error_Some. congruence. }
    cbn [tag_or_flags tag_id tag_parent tag_flags]. auto.
  - eexists _, _, t. split; [reflexivity|].
    cbn [p_tags p_nodes p_hc p_cur_level].
    split; [reflexivity|]. split; [reflexivity|]. split; [reflexivity|].
    split.
    { split; [reflexivity|]. intros i u Hi E. exists u.
      split; [exact E | apply tag_core_eq_refl]. }
    split; [exact Ht|]. auto.
Qed.

Lemma pt_block_open_good (P : parser) (tag : nat) (t : html_tag) (b : bool)
      (cl : nat) (cln : GNode) :
  p_cur_level P = Some cl ->
  get_node P cl = Some cln ->
  get_tag P tag = Some t ->
  has (tag_flags t) FL_CLOSED = false ->
  hc_total_tags (p_hc P) < max_tags ->
  (forall pi, node_data cln = Some pi ->
     pi <> tag
     /\ exists par, get_tag P pi = Some par
                    /\ (has (tag_flags par) FL_BLOCK = true \/ tag_id par <> tag_id t)) ->
  exists P' r t',
    pt_block_open P tag t b = Some (P', r, b)
    /\ p_nodes P' = p_nodes P ++ [Some (mk_node (Some tag) (Some cl))]
    /\ p_cur_level P' = Some (List.length (p_nodes P))
    /\ p_hc P' = hc_count_tag (p_hc P)
    /\ tags_kept_except tag P P'
    /\ get_tag P' tag = Some t'
    /\ tag_id t' = tag_id t /\ tag_parent t' = tag_parent t
    /\ (tag_flags t' = tag_flags t \/ tag_flags t' = tag_flags t .| FL_IGNORE).
Proof.
  intros Hcur Hcl Ht Hclosed Htot Hpar. unfold pt_block_open.
  rewrite Hcur. cbn [bind]. rewrite Hcl. cbn [bind].
  destruct (node_data cln) as [pi|] eqn:Hdata.
  - destruct (Hpar pi eq_refl) as [Hne [par [Epar Hgood]]].
    rewrite Epar. cbn [bind].
    set (t2 := if has (tag_flags par) FL_IGNORE then tag_or_flags t FL_IGNORE else t).
    assert (tag_id t2 = tag_id t) as Hid2 by (subst t2; destruct (has _ FL_IGNORE); reflexivity).
    assert (tag_parent t2 = tag_parent t) as Hp2 by (subst t2; destruct (has _ FL_IGNORE); reflexivity).
    assert (tag_content_length t2 = tag_content_length t) as Hc2
        by (subst t2; destruct (has _ FL_IGNORE); reflexivity).
    assert (tag_flags t2 = tag_flags t \/ tag_flags t2 = tag_flags t .| FL_IGNORE) as Hf2
        by (subst t2; destruct (has _ FL_IGNORE); cbn [tag_or_flags tag_flags]; auto).
    assert (has (tag_flags t2) FL_CLOSED = false) as Hclosed2.
    { destruct Hf2 as [->| ->]; [exact Hclosed|].
      rewrite has_lor_l, Hclosed. flag_names. flag_simpl. reflexivity. }
    assert (negb (has (tag_flags t2) FL_CLOSED) && negb (has (tag_flags par) FL_BLOCK)
            && (tag_id par =? tag_id t2) = false) as ->.
    { rewrite Hid2. destruct Hgood as [Hb|Hb].
      - rewrite Hb. cbn [negb]. rewrite andb_false_r. reflexivity.
      - apply Z.eqb_neq in Hb. rewrite Hb. apply andb_false_r. }
    set (P1 := set_tag P tag t2).
    set (par' := mk_tag _ _ _ _).
    set (P2 := set_tag P1 pi par').
    assert (get_tag P1 tag = Some t2) as Et1 by (apply (get_tag_set_tag_eq _ _ _ _ Ht)).
    assert (get_tag P1 pi = Some par) as Ep1.
    { subst P1. rewrite get_tag_set_tag_neq by congruence. exact Epar. }
    assert (get_tag P2 tag = Some t2) as Et2.
    { subst P2. rewrite get_tag_set_tag_neq by exact Hne. exact Et1. }
    destruct (pt_add_open_good P2 tag t2 b Et2 Hclosed2 Htot)
      as [P' [r [t' [Hres [Hn [Hc [Hh [Hk [Et' [Hid [Hp Hf]]]]]]]]]]].
    exists P', r, t'. split; [exact Hres|].
    split; [rewrite Hn; cbn [P2 P1 set_tag p_nodes p_cur_level]; rewrite Hcur; reflexivity|].
    split; [exact Hc|]. split; [exact Hh|].
    split.
    { apply (tags_kept_except_trans _ _ P1); [apply tags_kept_set_cur|].
      apply (tags_kept_except_trans _ _ P2); [|exact Hk].
      apply (tags_kept_set_other _ _ _ _ _ Ep1). repeat split. }
    split; [exact Et'|]. split; [congruence|]. split; [congruence|].
    destruct Hf as [Hf|Hf], Hf2 as [Hf2|Hf2]; rewrite Hf, Hf2; auto.
    right. apply lor_idem.
  - destruct (pt_add_open_good P tag t b Ht Hclosed Htot)
      as [P' [r [t' [Hres [Hn [Hc [Hh [Hk [Et' [Hid [Hp Hf]]]]]]]]]]].
    exists P', r, t'. split; [exact Hres|].
    split; [rewrite Hn, Hcur; reflexivity|]. auto 10.
Qed.

Lemma pt_prologue_id (P : parser) :
  hc_html_tags (p_hc P) <> None ->
  hc_total_tags (p_hc P) <= max_tags ->
  pt_too_many (pt_root P) = P.
Proof.
  intros Hroot Htot. unfold pt_root.
  destruct (hc_html_tags (p_hc P)); [|congruence].
  unfold pt_too_many.
  destruct (Z.gtb_spec (hc_total_tags (p_hc P)) max_tags); [lia|reflexivity].
Qed.

Lemma process_tag_open_good (P : parser) (tag : nat) (t : html_tag) (b : bool)
      (cl : nat) (cln : GNode) :
  hc_html_tags (p_hc P) <> None ->
  p_cur_level P = Some cl ->
  get_node P cl = Some cln ->
  get_tag P tag = Some t ->
  tag_id t <> -1 ->
  has (tag_flags t) CM_INLINE = false ->
  has (tag_flags t) (FL_CLOSING .| FL_CLOSED) = false ->
  hc_total_tags (p_hc P) < max_tags ->
  (forall pi, node_data cln = Some pi ->
     pi <> tag
     /\ exists par, get_tag P pi = Some par
                    /\ (has (tag_flags par) FL_BLOCK = true \/ tag_id par <> tag_id t)) ->
  exists P' r t',
    rspamd_html_process_tag P tag b = Some (P', r, b)
    /\ p_nodes P' = p_nodes P ++ [Some (mk_node (Some tag) (Some cl))]
    /\ p_cur_level P' = Some (List.length (p_nodes P))
    /\ p_hc P' = hc_count_tag (p_hc P)
    /\ tags_kept_except tag P P'
    /\ get_tag P' tag = Some t'
    /\ tag_id t' = tag_id t /\ tag_parent t' = Some cl
    /\ (tag_flags t' = tag_flags t \/ tag_flags t' = tag_flags t .| FL_IGNORE).
Proof.
  intros Hroot Hcur Hcl Ht Hid Hinl Hcc Htot Hpar.
  unfold rspamd_html_process_tag.
  rewrite pt_prologue_id by (auto; lia).
  rewrite Ht. cbn [bind].
  apply Z.eqb_neq in Hid. rewrite Hid. cbn [tag_flags].
  rewrite Hinl, Hcc. cbn [negb].
  rewrite has_lor_r in Hcc. apply orb_false_elim in Hcc. destruct Hcc as [_ Hclosed].
  set (t1 := mk_tag _ _ _ _).
  set (P1 := set_tag P tag t1).
  assert (get_tag P1 tag = Some t1) as Et1 by (apply (get_tag_set_tag_eq _ _ _ _ Ht)).
  destruct (pt_block_open_good P1 tag t1 b cl cln Hcur Hcl Et1 Hclosed Htot)
    as [P' [r [t' [Hres [Hn [Hc [Hh [Hk [Et' [Hid' [Hp Hf]]]]]]]]]]].
  { intros pi Hpi. destruct (Hpar pi Hpi) as [Hne [par [Epar Hgood]]].
    split; [exact Hne|]. exists par. split; [|exact Hgood].
    subst P1. rewrite get_tag_set_tag_neq by congruence. exact Epar. }
  exists P', r, t'. split; [exact Hres|].
  split; [exact Hn|]. split; [exact Hc|]. split; [exact Hh|].
  split; [apply (tags_kept_except_trans _ _ P1); [apply tags_kept_set_cur | exact Hk]|].
  split; [exact Et'|]. split; [exact Hid'|].
  split; [rewrite Hp; cbn [t1 tag_parent]; exact Hcur | exact Hf].
Qed.
End ProcessTagBranches.

Lemma upd_app_last {A} (l : list A) (x v : A) : upd (l ++ [x]) (List.length l) v = l ++ [v].
Proof. induction l as [|a l IH]; cbn [upd app List.length]; [reflexivity | rewrite IH; reflexivity]. Qed.

Section ProcessTagClosing.
Context `{html_h} {Hok : html_h_ok}.

(** A closing tag whose element is the current level: the element is marked
    closed, the marker node is destroyed and the level goes up. *)
Lemma pt_block_closing_match (P : parser) (tag : nat) (b : bool)
      (cl : nat) (cln : GNode) (pi : nat) (o c : html_tag) :
  p_cur_level P = Some cl ->
  get_node P cl = Some cln ->
  node_data cln = Some pi ->
  get_tag P pi = Some o ->
  get_tag P tag = Some c ->
  has (tag_flags c) FL_CLOSING = true ->
  tag_id o = tag_id c ->
  has (tag_flags o) FL_CLOSED = false ->
  hc_total_tags (p_hc P) < max_tags ->
  pt_block_closing P tag b
  = Some (mk_parser (upd (p_tags P) pi (tag_or_flags o FL_CLOSED))
                    (p_nodes P ++ [None])
                    (hc_count_tag (p_hc P))
                    (node_parent cln), true, true).
Proof.
  intros Hcur Hcl Hdata Eo Ec Hclosing Hid Hopen Htot.
  unfold pt_block_closing. rewrite Hcur.
  apply Z.ltb_lt in Htot. rewrite Htot.
  destruct P as [tags nodes hc cur]. cbn [p_cur_level p_hc p_tags p_nodes] in *.
  unfold g_node_new_append. cbn [p_cur_level p_hc p_tags p_nodes].
  unfold rspamd_html_check_balance.
  rewrite get_node_new. cbn [bind node_data node_parent].
  assert (forall nodes' h' c', get_tag (mk_parser tags nodes' h' c') tag = Some c) as Ec' by (intros; exact Ec).
  assert (forall nodes' h' c', get_tag (mk_parser tags nodes' h' c') pi = Some o) as Eo' by (intros; exact Eo).
  rewrite Ec'. cbn [bind]. rewrite Hclosing.
  cbn [balance_walk].
  rewrite (get_node_app_l _ _ _ _ _ _ _ Hcl). cbn [bind]. rewrite Hdata.
  rewrite Eo'. cbn [bind].
  rewrite Hid, Z.eqb_refl, Hopen. cbn [negb andb bind].
  rewrite (get_node_app_l _ _ _ _ _ _ _ Hcl). cbn [bind]. rewrite Hdata. cbn [bind].
  rewrite Eo'. cbn [bind negb].
  unfold g_node_destroy, set_tag, set_cur_level, set_hc.
  cbn [p_cur_level p_hc p_tags p_nodes].
  rewrite upd_app_last. reflexivity.
Qed.


Lemma process_tag_close_good (P : parser) (tag : nat) (b : bool)
      (cl : nat) (cln : GNode) (pi : nat) (o c : html_tag) :
  hc_html_tags (p_hc P) <> None ->
  p_cur_level P = Some cl ->
  get_node P cl = Some cln ->
  node_data cln = Some pi ->
  get_tag P pi = Some o ->
  get_tag P tag = Some c ->
  pi <> tag ->
  tag_id c <> -1 ->
  has (tag_flags c) CM_INLINE = false ->
  has (tag_flags c) FL_CLOSING = true ->
  tag_id o = tag_id c ->
  has (tag_flags o) FL_CLOSED = false ->
  hc_total_tags (p_hc P) < max_tags ->
  exists P' c',
    rspamd_html_process_tag P tag b = Some (P', true, true)
    /\ p_nodes P' = p_nodes P ++ [None]
    /\ p_cur_level P' = node_parent cln
    /\ p_hc P' = hc_count_tag (p_hc P)
    /\ List.length (p_tags P') = List.length (p_tags P)
    /\ get_tag P' pi = Some (tag_or_flags o FL_CLOSED)
    /\ get_tag P' tag = Some c'
    /\ tag_id c' = tag_id c /\ tag_flags c' = tag_flags c
    /\ (forall i u, i <> pi -> i <> tag -> get_tag P i = Some u -> get_tag P' i = Some u).
Proof.
  intros Hroot Hcur Hcl Hdata Eo Ec Hne Hid Hinl Hclosing Hsame Hopen Htot.
  unfold rspamd_html_process_tag.
  rewrite pt_prologue_id by (auto; lia).
  rewrite Ec. cbn [bind].
  apply Z.eqb_neq in Hid. rewrite Hid. cbn [tag_flags].
  rewrite Hinl. cbn [negb].
  rewrite has_lor_r, Hclosing. cbn [orb].
  set (c1 := mk_tag _ _ _ _).
  set (P1 := set_tag P tag c1).
  assert (get_tag P1 tag = Some c1) as Ec1 by (apply (get_tag_set_tag_eq _ _ _ _ Ec)).
  assert (get_tag P1 pi = Some o) as Eo1.
  { subst P1. rewrite get_tag_set_tag_neq by congruence. exact Eo. }
  rewrite (pt_block_closing_match P1 tag b cl cln pi o c1 Hcur Hcl Hdata Eo1 Ec1
             Hclosing Hsame Hopen Htot).
  eexists _, c1. split; [reflexivity|].
  cbn [p_nodes p_cur_level p_hc p_tags P1 set_tag].
  split; [reflexivity|]. split; [reflexivity|]. split; [reflexivity|].
  split; [rewrite !upd_length; reflexivity|].
  pose proof (get_tag_lt _ _ _ Eo) as Hlo. pose proof (get_tag_lt _ _ _ Ec) as Hlc.
  unfold get_tag in *. cbn [p_tags].
  split; [apply nth_error_upd_eq; rewrite upd_length; exact Hlo|].
  split; [rewrite nth_error_upd_neq by exact Hne; apply nth_error_upd_eq; exact Hlc|].
  split; [reflexivity|]. split; [reflexivity|].
  intros i u Hi1 Hi2 E. rewrite !nth_error_upd_neq by congruence. exact E.
Qed.



End ProcessTagClosing.

(** ** State [tag_end], tag by tag *)

Lemma html_tags_run_app `{html_h} (P : parser) (a b : list html_tag) :
  html_tags_run P (a ++ b) = bind (html_tags_run P a) (fun Q => html_tags_run Q b).
Proof.
  revert P; induction a as [|t a IH]; intros P; cbn [html_tags_run app bind]; [reflexivity|].
  destruct (html_tag_end P t) as [Q|]; cbn [bind]; [apply IH | reflexivity].
Qed.




Lemma wrap32_small (z : Z) : 0 <= z < 2^32 -> wrap32 z = z.
Proof. intros Hz. unfold wrap32. apply Z.mod_small. exact Hz. Qed.

Section TagEnd.
Context `{html_h} {Hok : html_h_ok}.

Lemma has_unbalanced_dup (f : Z) :
  has (f .| RSPAMD_HTML_FLAG_DUPLICATE_ELEMENTS) RSPAMD_HTML_FLAG_UNBALANCED
  = has f RSPAMD_HTML_FLAG_UNBALANCED.
Proof. flag_names. flag_simpl. reflexivity. Qed.

(** The uniqueness check touches the document flags and [tags_seen]
    only. *)
Lemma tag_end_seen_effect (P : parser) (cur : nat) (t : html_tag) :
  get_tag P cur = Some t ->
  exists h,
    tag_end_seen P cur = Some (set_hc P h)
    /\ hc_html_tags h = hc_html_tags (p_hc P)
    /\ hc_total_tags h = hc_total_tags (p_hc P)
    /\ (hc_flags h = hc_flags (p_hc P)
        \/ hc_flags h = hc_flags (p_hc P) .| RSPAMD_HTML_FLAG_DUPLICATE_ELEMENTS).
Proof.
  intros Et. unfold tag_end_seen. rewrite Et. cbn [bind].
  destruct (negb (tag_id t =? -1) && (tag_id t <? N_TAGS)).
  - eexists. split; [reflexivity|]. cbn [hc_html_tags hc_total_tags hc_flags].
    destruct (has (tag_flags t) CM_UNIQUE && Z.testbit (hc_tags_seen (p_hc P)) (tag_id t));
      cbn [hc_or_flags hc_html_tags hc_total_tags hc_flags].
    + split; [reflexivity|]. split; [reflexivity|]. right. reflexivity.
    + split; [reflexivity|]. split; [reflexivity|]. left. reflexivity.
  - exists (p_hc P). split; [destruct P; reflexivity|]. split; [reflexivity|].
    split; [reflexivity|]. left. reflexivity.
Qed.

Lemma unbalanced_kept (f g : Z) :
  g = f \/ g = f .| RSPAMD_HTML_FLAG_DUPLICATE_ELEMENTS ->
  has g RSPAMD_HTML_FLAG_UNBALANCED = has f RSPAMD_HTML_FLAG_UNBALANCED.
Proof. intros [-> | ->]; [reflexivity | apply has_unbalanced_dup]. Qed.

Lemma too_many_kept (f g : Z) :
  g = f \/ g = f .| RSPAMD_HTML_FLAG_DUPLICATE_ELEMENTS ->
  has g RSPAMD_HTML_FLAG_TOO_MANY_TAGS = has f RSPAMD_HTML_FLAG_TOO_MANY_TAGS.
Proof. intros [-> | ->]; [reflexivity|]. flag_names. flag_simpl. reflexivity. Qed.

Lemma get_tag_with_cur_old (P : parser) (t : html_tag) (i : nat) (u : html_tag) :
  get_tag P i = Some u -> get_tag (with_cur_tag P t) i = Some u.
Proof.
  intros E. pose proof (get_tag_lt _ _ _ E).
  unfold get_tag, with_cur_tag in *. cbn [p_tags].
  rewrite nth_error_app1 by assumption. exact E.
Qed.

Lemma get_tag_with_cur_new (P : parser) (t : html_tag) :
  get_tag (with_cur_tag P t) (List.length (p_tags P)) = Some t.
Proof.
  unfold get_tag, with_cur_tag. cbn [p_tags].
  rewrite nth_error_app2 by lia. rewrite Nat.sub_diag. reflexivity.
Qed.

Lemma html_tag_end_unfold (P : parser) (t : html_tag) :
  html_tag_end P t
  = bind (rspamd_html_process_tag (with_cur_tag P t) (List.length (p_tags P)) true)
         (fun x => match x with (Q, _, _) => tag_end_seen Q (List.length (p_tags P)) end).
Proof. reflexivity. Qed.

(** Old tags survive a step that keeps all tags but the current one. *)
Lemma kept_from_with_cur (P Q : parser) (t : html_tag) :
  tags_kept_except (List.length (p_tags P)) (with_cur_tag P t) Q ->
  forall i u, get_tag P i = Some u -> exists u', get_tag Q i = Some u' /\ tag_core_eq u u'.
Proof.
  intros [_ K] i u E. apply (K i u).
  - pose proof (get_tag_lt _ _ _ E). lia.
  - apply get_tag_with_cur_old. exact E.
Qed.
End TagEnd.

Section RunFrame.
Context `{html_h} {Hok : html_h_ok}.

Lemma get_node_prefix (P Q : parser) (extra : list (option GNode)) (i : nat) (n : GNode) :
  p_nodes Q = p_nodes P ++ extra -> get_node P i = Some n -> get_node Q i = Some n.
Proof.
  intros Hn E. pose proof (get_node_lt _ _ _ E) as Hlt.
  unfold get_node in *. rewrite Hn, nth_error_app1 by exact Hlt. exact E.
Qed.



Lemma level_ok_frame (n : Z) (P Q : parser) (ctx : option html_tag) :
  level_ok P ctx -> run_frame n P Q -> 0 <= n -> level_ok Q ctx.
Proof.
  intros [Hroot [Htot [cl [cln [Hcur [Hcl Hdata]]]]]] [C [R [T [_ [[e [N _]] K]]]]] Hn.
  split; [congruence|]. split; [lia|].
  exists cl, cln. split; [congruence|].
  split; [apply (get_node_prefix P Q e _ _ N Hcl)|].
  destruct (node_data cln) as [pi|]; [|exact Hdata].
  destruct Hdata as [u [o [Eu [Hctx [Hid Hb]]]]].
  destruct (K pi u Eu) as [u' [Eu' [A [B _]]]].
  exists u', o. split; [exact Eu'|]. split; [exact Hctx|]. split; congruence.
Qed.


End RunFrame.

Section Elements.
Context `{html_h} {Hok : html_h_ok}.

(** The opening tag of an element. *)
Lemma tag_end_open (P : parser) (ctx : option html_tag) (o : html_tag) :
  level_ok P ctx ->
  tag_id o <> -1 ->
  has (tag_flags o) CM_INLINE = false ->
  has (tag_flags o) (FL_CLOSING .| FL_CLOSED) = false ->
  ~ same_id_nesting ctx o ->
  hc_total_tags (p_hc P) + 1 <= max_tags ->
  exists Q t' cl,
    html_tag_end P o = Some Q
    /\ p_cur_level P = Some cl
    /\ p_nodes Q = p_nodes P ++ [Some (mk_node (Some (List.length (p_tags P))) (Some cl))]
    /\ p_cur_level Q = Some (List.length (p_nodes P))
    /\ hc_html_tags (p_hc Q) = hc_html_tags (p_hc P)
    /\ hc_total_tags (p_hc Q) = hc_total_tags (p_hc P) + 1
    /\ (hc_flags (p_hc Q) = hc_flags (p_hc P)
        \/ hc_flags (p_hc Q) = hc_flags (p_hc P) .| RSPAMD_HTML_FLAG_DUPLICATE_ELEMENTS)
    /\ (forall i u, get_tag P i = Some u ->
          exists u', get_tag Q i = Some u' /\ tag_core_eq u u')
    /\ get_tag Q (List.length (p_tags P)) = Some t'
    /\ tag_id t' = tag_id o
    /\ (tag_flags t' = tag_flags o \/ tag_flags t' = tag_flags o .| FL_IGNORE).
Proof.
  intros [Hroot [Htot [cl [cln [Hcur [Hcl Hdata]]]]]] Hid Hinl Hcc Hnest Hcap.
  rewrite html_tag_end_unfold.
  pose proof (get_tag_with_cur_new P o) as Et.
  destruct (process_tag_open_good (with_cur_tag P o) (List.length (p_tags P)) o true cl cln)
    as [P' [r [t' [Hres [Hn [Hc [Hh [Hk [Et' [Hid' [Hp' Hf']]]]]]]]]]]; auto.
  { cbn [with_cur_tag p_hc]. lia. }
  { intros pi Hpi. rewrite Hpi in Hdata. destruct Hdata as [u [oc [Eu [Hctx [Hidu Hbu]]]]].
    split; [pose proof (get_tag_lt _ _ _ Eu); lia|].
    exists u. split; [apply get_tag_with_cur_old; exact Eu|].
    destruct (has (tag_flags u) FL_BLOCK) eqn:Hb; [left; reflexivity|].
    right. intros Heq. apply Hnest. subst ctx. cbn [same_id_nesting].
    split; congruence. }
  rewrite Hres. cbn [bind].
  destruct (tag_end_seen_effect P' _ t' Et') as [h [Hres2 [Hr [Ht Hu]]]].
  rewrite Hres2. exists (set_hc P' h), t', cl. split; [reflexivity|].
  unfold set_hc. cbn [p_hc p_nodes p_cur_level p_tags].
  rewrite Hh in *.
  cbn [with_cur_tag p_hc p_nodes p_cur_level hc_count_tag hc_html_tags hc_total_tags hc_flags] in *.
  split; [exact Hcur|]. split; [exact Hn|]. split; [exact Hc|]. split; [exact Hr|].
  split; [rewrite Ht; apply wrap32_small; unfold max_tags in *; lia|].
  split; [exact Hu|].
  split.
  { intros i u E. destruct (kept_from_with_cur P P' o Hk i u E) as [u' [Eu' Hc']].
    exists u'. split; [exact Eu' | exact Hc']. }
  split; [exact Et'|]. split; [exact Hid' | exact Hf'].
Qed.

End Elements.

Section NestedRun.
Context `{html_h} {Hok : html_h_ok}.

Lemma get_node_last (P : parser) (l : list (option GNode)) (x : GNode) :
  p_nodes P = l ++ [Some x] -> get_node P (List.length l) = Some x.
Proof.
  intros E. unfold get_node. rewrite E, nth_error_app2 by lia.
  rewrite Nat.sub_diag. reflexivity.
Qed.

Lemma has_closed_or_ignore (f : Z) :
  has (f .| FL_IGNORE) FL_CLOSED = has f FL_CLOSED.
Proof. flag_names. flag_simpl. reflexivity. Qed.

Lemma has_block_or_ignore (f : Z) :
  has (f .| FL_IGNORE) FL_BLOCK = has f FL_BLOCK.
Proof. flag_names. flag_simpl. reflexivity. Qed.

Lemma has_closed_set (f : Z) : has (f .| FL_CLOSED) FL_CLOSED = true.
Proof. flag_names. flag_simpl. reflexivity. Qed.


End NestedRun.

(** ** The sample constants meet the assumptions *)

Lemma code_inj (a b : ascii) : code a = code b -> a = b.
Proof.
  unfold code. intros E. apply N2Z.inj in E.
  rewrite <- (ascii_N_embedding a), <- (ascii_N_embedding b), E. reflexivity.
Qed.

Lemma lc_cmp_lex_zero (s d : list ascii) :
  List.length s = List.length d ->
  (lc_cmp_lex s d (List.length s) = 0 <-> lower s = lower d).
Proof.
  revert d; induction s as [|a s IH]; intros [|b d] Hlen; cbn [List.length] in Hlen;
    try discriminate.
  - cbn. tauto.
  - injection Hlen as Hlen. cbn [List.length lc_cmp_lex lower map].
    fold (lower s). fold (lower d).
    destruct (Z.eqb_spec (code (g_ascii_tolower a) - code (g_ascii_tolower b)) 0) as [E|E].
    + assert (g_ascii_tolower a = g_ascii_tolower b) as Hab by (apply code_inj; lia).
      rewrite (IH d Hlen). split; [intros ->; rewrite Hab; reflexivity|].
      intros E2. injection E2 as _ E2. exact E2.
    + split; [contradiction|]. intros E2. injection E2 as E2 _. rewrite E2 in E. lia.
Qed.

Lemma lc_cmp_lex_sgn (s d : list ascii) (n : nat) :
  Z.sgn (lc_cmp_lex d s n) = - Z.sgn (lc_cmp_lex s d n).
Proof.
  revert s d; induction n as [|n IH]; intros [|a s] [|b d]; cbn [lc_cmp_lex];
    try reflexivity.
  destruct (Z.eqb_spec (code (g_ascii_tolower a) - code (g_ascii_tolower b)) 0) as [E|E];
    destruct (Z.eqb_spec (code (g_ascii_tolower b) - code (g_ascii_tolower a)) 0) as [E'|E'];
    try lia.
  all: try apply IH.
  all: rewrite <- Z.sgn_opp; f_equal; lia.
Qed.

Lemma lc_cmp_lex_trans (n : nat) :
  forall a b c : list ascii,
    List.length a = n -> List.length b = n -> List.length c = n ->
    lc_cmp_lex a b n <= 0 -> lc_cmp_lex b c n <= 0 -> lc_cmp_lex a c n <= 0.
Proof.
  induction n as [|n IH]; intros [|x a] [|y b] [|z c]; cbn [lc_cmp_lex List.length];
    try lia; try discriminate.
  intros La Lb Lc.
  destruct (Z.eqb_spec (code (g_ascii_tolower x) - code (g_ascii_tolower y)) 0) as [E1|E1];
    destruct (Z.eqb_spec (code (g_ascii_tolower y) - code (g_ascii_tolower z)) 0) as [E2|E2];
    destruct (Z.eqb_spec (code (g_ascii_tolower x) - code (g_ascii_tolower z)) 0) as [E3|E3];
    try lia.
  apply IH; lia.
Qed.

Lemma sample_tag_num_inj (a b : tag_id_t) : sample_tag_num a = sample_tag_num b -> a = b.
Proof.
  destruct a; cbn [sample_tag_num]; intros E;
    destruct b; cbn [sample_tag_num] in E; try reflexivity; discriminate E.
Qed.

Lemma sample_html_h_ok : @html_h_ok sample_html_h.
Proof.
  constructor; cbn [tag_flag_bit doc_flag_bit tag_num N_TAGS rspamd_lc_cmp sample_html_h].
  - intros a b. destruct a; cbn [sample_tag_flag_bit]; intros E;
      destruct b; cbn [sample_tag_flag_bit] in E; try reflexivity; discriminate E.
  - intros a. destruct a; cbn [sample_tag_flag_bit]; lia.
  - intros a b. destruct a; cbn [sample_doc_flag_bit]; intros E;
      destruct b; cbn [sample_doc_flag_bit] in E; try reflexivity; discriminate E.
  - intros a. destruct a; cbn [sample_doc_flag_bit]; lia.
  - exact sample_tag_num_inj.
  - intros a. destruct a; cbn [sample_tag_num]; lia.
  - lia.
  - intros s d Hlen. rewrite Nat2Z.id. apply lc_cmp_lex_zero. exact Hlen.
  - intros s d _ _ Hlen. rewrite Nat2Z.id. apply lc_cmp_lex_sgn.
  - intros a b c _ _ _ Hab Hbc. rewrite Nat2Z.id. apply lc_cmp_lex_trans; congruence.
Qed.

(** ** Balance of well-nested documents *)

Lemma rows_in_table `{html_h} :
  In def_div tag_defs_src /\ In def_p tag_defs_src
  /\ In def_blockquote tag_defs_src /\ In def_html tag_defs_src.
Proof.
  unfold tag_defs_src, def_div, def_p, def_blockquote, def_html.
  repeat split; cbn [In]; tauto.
Qed.

Lemma html_tag_end_init `{html_h} (t : html_tag) :
  html_tag_end parser_init t = html_tag_end parser_rooted t.
Proof. reflexivity. Qed.

Lemma level_ok_rooted `{html_h} : level_ok parser_rooted None.
Proof.
  split; [discriminate|]. split; [cbn; lia|].
  exists 0%nat, (mk_node None None). repeat split.
Qed.


Section SampleBalance.
#[local] Existing Instance sample_html_h.


End SampleBalance.

(** ** Unique elements *)

Section Unique.
Context `{html_h} {Hok : html_h_ok}.

Lemma tag_end_seen_unique (P : parser) (cur : nat) (t : html_tag) :
  get_tag P cur = Some t ->
  0 <= tag_id t < N_TAGS ->
  has (tag_flags t) CM_UNIQUE = true ->
  tag_end_seen P cur
  = Some (set_hc P (mk_hc (hc_html_tags (p_hc P))
                          (if Z.testbit (hc_tags_seen (p_hc P)) (tag_id t)
                           then hc_flags (p_hc P) .| RSPAMD_HTML_FLAG_DUPLICATE_ELEMENTS
                           else hc_flags (p_hc P))
                          (hc_total_tags (p_hc P))
                          (Z.setbit (hc_tags_seen (p_hc P)) (tag_id t)))).
Proof.
  intros Et Hid Hu. unfold tag_end_seen. rewrite Et. cbn [bind].
  replace (tag_id t =? -1) with false by (symmetry; apply Z.eqb_neq; lia).
  replace (tag_id t <? N_TAGS) with true by (symmetry; apply Z.ltb_lt; lia).
  cbn [negb andb]. rewrite Hu. cbn [andb].
  destruct (Z.testbit (hc_tags_seen (p_hc P)) (tag_id t)); reflexivity.
Qed.

Lemma def_html_id : 0 <= def_id def_html < N_TAGS.
Proof. apply tag_num_range. Qed.

Lemma def_html_flags :
  has (def_flags def_html) CM_INLINE = false
  /\ has (def_flags def_html) (FL_CLOSING .| FL_CLOSED) = false
  /\ has (def_flags def_html) CM_UNIQUE = true
  /\ has (def_flags def_html .| FL_CLOSING) CM_INLINE = false
  /\ has (def_flags def_html .| FL_CLOSING) FL_CLOSING = true
  /\ has (def_flags def_html .| FL_CLOSING) CM_UNIQUE = true
  /\ has (def_flags def_html .| FL_IGNORE) CM_UNIQUE = true.
Proof.
  unfold def_html, TAG_DEF. cbn [def_flags]. flag_names.
  repeat split; flag_simpl; reflexivity.
Qed.

(** C7.  The document [<html></html>]: the closing tag carries the id and
    the [CM_UNIQUE] flag of its definition like the opening tag did, finds
    the bit of [html] set in [tags_seen], and sets the duplicate-elements
    flag, although the element occurs once. *)
Theorem duplicate_flag_on_closing_tag :
  exists Q,
    html_tags_run parser_init [tag_open def_html; tag_close def_html] = Some Q
    /\ has (hc_flags (p_hc Q)) RSPAMD_HTML_FLAG_DUPLICATE_ELEMENTS = true.
Proof.
  pose proof def_html_id as Hid.
  destruct def_html_flags as [Hinl [Hcc [Huniq [Hinlc [Hclosing [Huniqc Huniqi]]]]]].
  assert (has (def_flags def_html) FL_CLOSED = false) as Hopen.
  { rewrite has_lor_r in Hcc. apply orb_false_elim in Hcc. tauto. }
  cbn [html_tags_run]. rewrite html_tag_end_init, html_tag_end_unfold.
  (* the opening tag *)
  destruct (process_tag_open_good (with_cur_tag parser_rooted (tag_open def_html)) 0 
              (tag_open def_html) true 0 (mk_node None None))
    as [P1 [r [t1 [Hres1 [Hn1 [Hc1 [Hh1 [[Hl1 _] [Et1 [Hid1 [_ Hf1]]]]]]]]]]];
    try reflexivity; cbn [tag_open tag_id tag_flags]; try assumption; try lia;
    try discriminate.
  change (List.length (p_tags parser_rooted)) with 0%nat.
  rewrite Hres1. cbn [bind].
  assert (has (tag_flags t1) CM_UNIQUE = true) as Hu1
      by (destruct Hf1 as [-> | ->]; assumption).
  assert (has (tag_flags t1) FL_CLOSED = false) as Hopen1.
  { destruct Hf1 as [-> | ->]; [exact Hopen|].
    change (tag_flags (tag_open def_html)) with (def_flags def_html).
    rewrite has_closed_or_ignore. exact Hopen. }
  rewrite (tag_end_seen_unique P1 0 t1 Et1) by (rewrite ?Hid1; assumption).
  rewrite Hh1. cbn [with_cur_tag parser_rooted p_hc hc_count_tag hc_html_tags hc_flags
                    hc_total_tags hc_tags_seen]. rewrite Z.bits_0.
  cbn [bind]. rewrite html_tag_end_unfold.
  set (Q1 := set_hc P1 _).
  assert (List.length (p_tags Q1) = 1%nat) as Hlen by (cbn [Q1 set_hc p_tags]; rewrite Hl1; reflexivity).
  rewrite Hlen.
  (* the closing tag *)
  set (P1c := with_cur_tag Q1 (tag_close def_html)).
  assert (hc_html_tags (p_hc P1c) <> None) as A1 by discriminate.
  assert (p_cur_level P1c = Some 1%nat) as A2 by exact Hc1.
  assert (get_node P1c 1 = Some (mk_node (Some 0%nat) (Some 0%nat))) as A3.
  { unfold get_node. cbn [P1c with_cur_tag Q1 set_hc p_nodes]. rewrite Hn1. reflexivity. }
  assert (get_tag P1c 0 = Some t1) as A4 by (apply get_tag_with_cur_old; exact Et1).
  assert (get_tag P1c 1 = Some (tag_close def_html)) as A5
      by (rewrite <- Hlen; apply get_tag_with_cur_new).
  assert (tag_id (tag_close def_html) <> -1) as A6 by (cbn [tag_close tag_id]; lia).
  assert (hc_total_tags (p_hc P1c) < max_tags) as A7 by (vm_compute; reflexivity).
  destruct (process_tag_close_good P1c 1 true 1 (mk_node (Some 0%nat) (Some 0%nat)) 0 t1
              (tag_close def_html) A1 A2 A3 eq_refl A4 A5 (Nat.neq_0_succ 0) A6
              Hinlc Hclosing Hid1 Hopen1 A7)
    as [P2 [c2 [Hres2 [_ [_ [Hh2 [_ [_ [Ec2 [Hid2 [Hf2 _]]]]]]]]]]].
  rewrite Hres2. cbn [bind].
  rewrite (tag_end_seen_unique P2 1 c2 Ec2)
    by (rewrite ?Hid2, ?Hf2; cbn [tag_close tag_id tag_flags]; assumption).
  rewrite Hh2, Hid2.
  cbn [P1c with_cur_tag Q1 set_hc p_hc hc_count_tag hc_html_tags hc_flags hc_total_tags
       hc_tags_seen tag_close tag_id].
  rewrite Hid1. change (tag_id (tag_open def_html)) with (def_id def_html).
  rewrite Z.setbit_eq by lia.
  eexists. split; [reflexivity|].
  cbn [set_hc p_hc hc_flags]. flag_names. flag_simpl. reflexivity.
Qed.
End Unique.

Section SampleUnique.
#[local] Existing Instance sample_html_h.

Lemma duplicate_flag_on_closing_tag_witness :
  exists Q,
    html_tags_run parser_init [tag_open def_html; tag_close def_html] = Some Q
    /\ has (hc_flags (p_hc Q)) RSPAMD_HTML_FLAG_DUPLICATE_ELEMENTS = true.
Proof.
  apply (@duplicate_flag_on_closing_tag sample_html_h sample_html_h_ok).
Defined.
End SampleUnique.

(** ** The tag cap *)

Section Cap.
Context `{html_h} {Hok : html_h_ok}.

Lemma pt_add_open_capped (P : parser) (tag : nat) (t : html_tag) (b : bool) :
  get_tag P tag = Some t ->
  max_tags <= hc_total_tags (p_hc P) ->
  exists P' r,
    pt_add_open P tag t b = Some (P', r, b)
    /\ p_nodes P' = p_nodes P
    /\ p_cur_level P' = p_cur_level P
    /\ p_hc P' = p_hc P
    /\ tags_kept_except tag P P'.
Proof.
  intros Ht Htot. unfold pt_add_open.
  replace (hc_total_tags (p_hc P) <? max_tags) with false
    by (symmetry; apply Z.ltb_ge; exact Htot).
  destruct (has (tag_flags t) (CM_HEAD .| CM_UNKNOWN .| FL_IGNORE)).
  - eexists _, _. split; [reflexivity|].
    split; [reflexivity|]. split; [reflexivity|]. split; [reflexivity|].
    apply tags_kept_set_cur.
  - eexists _, _. split; [reflexivity|].
    split; [reflexivity|]. split; [reflexivity|]. split; [reflexivity|].
    apply tags_kept_except_refl.
Qed.

Lemma process_tag_open_capped (P : parser) (tag : nat) (t : html_tag) (b : bool)
      (cl : nat) (cln : GNode) :
  hc_html_tags (p_hc P) <> None ->
  p_cur_level P = Some cl ->
  get_node P cl = Some cln ->
  get_tag P tag = Some t ->
  tag_id t <> -1 ->
  has (tag_flags t) CM_INLINE = false ->
  has (tag_flags t) (FL_CLOSING .| FL_CLOSED) = false ->
  hc_total_tags (p_hc P) = max_tags ->
  (forall pi, node_data cln = Some pi ->
     pi <> tag
     /\ exists par, get_tag P pi = Some par
                    /\ (has (tag_flags par) FL_BLOCK = true \/ tag_id par <> tag_id t)) ->
  exists P' r,
    rspamd_html_process_tag P tag b = Some (P', r, b)
    /\ p_nodes P' = p_nodes P
    /\ p_cur_level P' = p_cur_level P
    /\ p_hc P' = p_hc P
    /\ tags_kept_except tag P P'.
Proof.
  intros Hroot Hcur Hcl Ht Hid Hinl Hcc Htot Hpar.
  unfold rspamd_html_process_tag.
  rewrite pt_prologue_id by (auto; lia).
  rewrite Ht. cbn [bind].
  apply Z.eqb_neq in Hid. rewrite Hid. cbn [tag_flags].
  rewrite Hinl, Hcc. cbn [negb].
  rewrite has_lor_r in Hcc. apply orb_false_elim in Hcc. destruct Hcc as [_ Hclosed].
  set (t1 := mk_tag _ _ _ _).
  set (P1 := set_tag P tag t1).
  assert (get_tag P1 tag = Some t1) as Et1 by (apply (get_tag_set_tag_eq _ _ _ _ Ht)).
  assert (tags_kept_except tag P P1) as K1 by apply tags_kept_set_cur.
  unfold pt_block_open.
  replace (p_cur_level P1) with (Some cl) by (symmetry; exact Hcur).
  cbn [bind].
  replace (get_node P1 cl) with (Some cln) by (symmetry; exact Hcl).
  cbn [bind].
  destruct (node_data cln) as [pi|] eqn:Hdata.
  - destruct (Hpar pi eq_refl) as [Hne [par [Epar Hgood]]].
    assert (get_tag P1 pi = Some par) as Ep1.
    { subst P1. rewrite get_tag_set_tag_neq by congruence. exact Epar. }
    rewrite Ep1. cbn [bind].
    set (t2 := if has (tag_flags par) FL_IGNORE then tag_or_flags t1 FL_IGNORE else t1).
    assert (tag_id t2 = tag_id t) as Hid2 by (subst t2; destruct (has _ FL_IGNORE); reflexivity).
    assert (negb (has (tag_flags t2) FL_CLOSED) && negb (has (tag_flags par) FL_BLOCK)
            && (tag_id par =? tag_id t2) = false) as ->.
    { rewrite Hid2. destruct Hgood as [Hb|Hb].
      - rewrite Hb. cbn [negb]. rewrite andb_false_r. reflexivity.
      - apply Z.eqb_neq in Hb. rewrite Hb. apply andb_false_r. }
    set (P2 := set_tag P1 tag t2).
    set (par' := mk_tag _ _ _ _).
    set (P3 := set_tag P2 pi par').
    assert (get_tag P2 tag = Some t2) as Et2 by (apply (get_tag_set_tag_eq _ _ _ _ Et1)).
    assert (get_tag P2 pi = Some par) as Ep2.
    { subst P2. rewrite get_tag_set_tag_neq by congruence. exact Ep1. }
    assert (get_tag P3 tag = Some t2) as Et3.
    { subst P3. rewrite get_tag_set_tag_neq by exact Hne. exact Et2. }
    destruct (pt_add_open_capped P3 tag t2 b Et3) as [P' [r [Hres [Hn [Hc [Hh Hk]]]]]].
    { cbn [P3 P2 P1 set_tag p_hc]. lia. }
    exists P', r. split; [exact Hres|].
    split; [exact Hn|]. split; [exact Hc|]. split; [exact Hh|].
    apply (tags_kept_except_trans _ _ P1); [exact K1|].
    apply (tags_kept_except_trans _ _ P2); [apply tags_kept_set_cur|].
    apply (tags_kept_except_trans _ _ P3); [|exact Hk].
    apply (tags_kept_set_other _ _ _ _ _ Ep2). repeat split.
  - destruct (pt_add_open_capped P1 tag t1 b Et1) as [P' [r [Hres [Hn [Hc [Hh Hk]]]]]].
    { cbn [P1 set_tag p_hc]. lia. }
    exists P', r. split; [exact Hres|].
    split; [exact Hn|]. split; [exact Hc|]. split; [exact Hh|].
    apply (tags_kept_except_trans _ _ P1); [exact K1 | exact Hk].
Qed.

(** An opening block tag at the cap changes nothing but the tag records. *)
Lemma tag_end_open_capped (P : parser) (ctx : option html_tag) (o : html_tag) :
  level_ok P ctx ->
  tag_id o <> -1 ->
  has (tag_flags o) CM_INLINE = false ->
  has (tag_flags o) (FL_CLOSING .| FL_CLOSED) = false ->
  ~ same_id_nesting ctx o ->
  hc_total_tags (p_hc P) = max_tags ->
  exists Q,
    html_tag_end P o = Some Q
    /\ p_nodes Q = p_nodes P
    /\ p_cur_level Q = p_cur_level P
    /\ hc_html_tags (p_hc Q) = hc_html_tags (p_hc P)
    /\ hc_total_tags (p_hc Q) = hc_total_tags (p_hc P)
    /\ (hc_flags (p_hc Q) = hc_flags (p_hc P)
        \/ hc_flags (p_hc Q) = hc_flags (p_hc P) .| RSPAMD_HTML_FLAG_DUPLICATE_ELEMENTS)
    /\ (forall i u, get_tag P i = Some u ->
          exists u', get_tag Q i = Some u' /\ tag_core_eq u u').
Proof.
  intros [Hroot [Htot [cl [cln [Hcur [Hcl Hdata]]]]]] Hid Hinl Hcc Hnest Hcap.
  rewrite html_tag_end_unfold.
  pose proof (get_tag_with_cur_new P o) as Et.
  destruct (process_tag_open_capped (with_cur_tag P o) (List.length (p_tags P)) o true cl cln)
    as [P' [r [Hres [Hn [Hc [Hh Hk]]]]]]; auto.
  { intros pi Hpi. rewrite Hpi in Hdata. destruct Hdata as [u [oc [Eu [Hctx [Hidu Hbu]]]]].
    split; [pose proof (get_tag_lt _ _ _ Eu); lia|].
    exists u. split; [apply get_tag_with_cur_old; exact Eu|].
    destruct (has (tag_flags u) FL_BLOCK) eqn:Hb; [left; reflexivity|].
    right. intros Heq. apply Hnest. subst ctx. cbn [same_id_nesting].
    split; congruence. }
  rewrite Hres. cbn [bind].
  assert (exists t', get_tag P' (List.length (p_tags P)) = Some t') as [t' Et'].
  { destruct Hk as [Hl _]. unfold get_tag.
    destruct (nth_error (p_tags P') (List.length (p_tags P))) eqn:E; [eauto|].
    apply nth_error_None in E. rewrite Hl in E.
    cbn [with_cur_tag p_tags] in E. rewrite length_app in E. cbn [List.length] in E. lia. }
  destruct (tag_end_seen_effect P' _ t' Et') as [h [Hres2 [Hr [Ht Hu]]]].
  rewrite Hres2. exists (set_hc P' h). split; [reflexivity|].
  unfold set_hc. cbn [p_hc p_nodes p_cur_level p_tags].
  rewrite Hh in *. cbn [with_cur_tag p_hc p_nodes p_cur_level] in *.
  split; [exact Hn|]. split; [exact Hc|]. split; [exact Hr|]. split; [exact Ht|].
  split; [exact Hu|].
  intros i u E. destruct (kept_from_with_cur P P' o Hk i u E) as [u' [Eu' Hc']].
  exists u'. split; [exact Eu' | exact Hc'].
Qed.
End Cap.

Section Flood.
Context `{html_h} {Hok : html_h_ok}.

Lemma def_div_flags :
  has (def_flags def_div) CM_INLINE = false
  /\ has (def_flags def_div) (FL_CLOSING .| FL_CLOSED) = false
  /\ has (def_flags def_div) FL_BLOCK = true.
Proof.
  unfold def_div, TAG_DEF. cbn [def_flags]. flag_names.
  repeat split; flag_simpl; reflexivity.
Qed.

Lemma def_div_id : def_id def_div <> -1.
Proof. pose proof (tag_num_range Tag_DIV). unfold def_div, TAG_DEF. cbn [def_id]. lia. Qed.

Lemma flood_no_bad_nesting (ctx : option html_tag) :
  ctx = None \/ ctx = Some (tag_open def_div) ->
  ~ same_id_nesting ctx (tag_open def_div).
Proof.
  destruct def_div_flags as [_ [_ Hb]].
  intros [-> | ->]; cbn [same_id_nesting tag_open tag_flags]; [tauto|].
  intros [Hf _]. congruence.
Qed.

Lemma flood_step (P : parser) :
  flood_inv P ->
  exists Q,
    html_tag_end P (tag_open def_div) = Some Q
    /\ flood_inv Q
    /\ hc_total_tags (p_hc Q) = Z.min (hc_total_tags (p_hc P) + 1) max_tags.
Proof.
  intros [Hlev [Hcap [Hflag Hnodes]]].
  destruct def_div_flags as [Hinl [Hcc Hblock]].
  pose proof def_div_id as Hid.
  assert (exists ctx, level_ok P ctx /\ (ctx = None \/ ctx = Some (tag_open def_div)))
    as [ctx [Hl Hctx]] by (destruct Hlev; eauto).
  pose proof (flood_no_bad_nesting ctx Hctx) as Hnest.
  destruct (Z.eq_dec (hc_total_tags (p_hc P)) max_tags) as [Heq|Hlt].
  - destruct (tag_end_open_capped P ctx (tag_open def_div) Hl Hid Hinl Hcc Hnest Heq)
      as [Q [Hres [Hn [Hc [Hr [Ht [Hu Hk]]]]]]].
    exists Q. split; [exact Hres|]. split.
    + split.
      { assert (level_ok Q ctx) as HlQ.
        { apply (level_ok_frame 0 P Q ctx Hl); [|lia].
          split; [exact Hc|]. split; [exact Hr|]. split; [lia|].
          split; [apply (unbalanced_kept _ _ Hu)|].
          split; [|exact Hk].
          exists []. split; [rewrite app_nil_r; exact Hn|]. intros nd ti []. }
        destruct Hctx as [-> | ->]; auto. }
      split; [lia|]. split; [rewrite (too_many_kept _ _ Hu); exact Hflag|].
      rewrite Hn, Ht. exact Hnodes.
    + rewrite Ht. lia.
  - destruct (tag_end_open P ctx (tag_open def_div) Hl Hid Hinl Hcc Hnest)
      as [Q [t' [cl [Hres [Hcur [Hn [Hc [Hr [Ht [Hu [Hk [Et' [Hid' Hf']]]]]]]]]]]]]; [lia|].
    exists Q. split; [exact Hres|]. split.
    + split.
      { right. destruct Hl as [Hroot [Htot _]].
        split; [congruence|]. split; [lia|].
        exists (List.length (p_nodes P)), (mk_node (Some (List.length (p_tags P))) (Some cl)).
        split; [exact Hc|]. split; [apply (get_node_last Q _ _ Hn)|].
        cbn [node_data]. exists t', (tag_open def_div).
        split; [exact Et'|]. split; [reflexivity|]. split; [exact Hid'|].
        destruct Hf' as [-> | ->]; [reflexivity | apply has_block_or_ignore]. }
      split; [lia|]. split; [rewrite (too_many_kept _ _ Hu); exact Hflag|].
      rewrite Hn, length_app. cbn [List.length]. lia.
    + lia.
Qed.

Lemma flood_run (n : nat) :
  forall P, flood_inv P ->
    exists Q,
      html_tags_run P (repeat (tag_open def_div) n) = Some Q
      /\ flood_inv Q
      /\ hc_total_tags (p_hc Q) = Z.min (hc_total_tags (p_hc P) + Z.of_nat n) max_tags.
Proof.
  induction n as [|n IH]; intros P Hinv.
  - exists P. split; [reflexivity|]. split; [exact Hinv|].
    destruct Hinv as [_ [Hcap _]]. lia.
  - destruct (flood_step P Hinv) as [Q1 [Hres1 [Hinv1 Ht1]]].
    destruct (IH Q1 Hinv1) as [Q2 [Hres2 [Hinv2 Ht2]]].
    exists Q2. split; [cbn [repeat html_tags_run]; rewrite Hres1; exact Hres2|].
    split; [exact Hinv2|]. lia.
Qed.

(** C4.  A document of [n] opening [<div>] tags, for any [n]: the run ends,
    the tree never has more than 8192 tag nodes besides its root, and
    [total_tags] stops at 8192, because it is only incremented under
    [total_tags < max_tags] for a known tag.  The test
    [total_tags > max_tags] that sets the too-many-tags flag therefore never
    holds, and the flag stays unset however large [n] is. *)
Theorem too_many_tags_flag_not_set (n : nat) :
  exists Q,
    html_tags_run parser_init (repeat (tag_open def_div) n) = Some Q
    /\ hc_total_tags (p_hc Q) = Z.min (Z.of_nat n) max_tags
    /\ Z.of_nat (List.length (p_nodes Q)) <= max_tags + 1
    /\ has (hc_flags (p_hc Q)) RSPAMD_HTML_FLAG_TOO_MANY_TAGS = false.
Proof.
  destruct n as [|n].
  { exists parser_init. split; [reflexivity|]. split; [reflexivity|].
    split; [cbn; unfold max_tags; lia | apply has_0_l]. }
  assert (flood_inv parser_rooted) as Hinv.
  { split; [left; apply level_ok_rooted|]. split; [cbn; unfold max_tags; lia|].
    split; [apply has_0_l | reflexivity]. }
  destruct (flood_run (S n) parser_rooted Hinv) as [Q [Hres [[_ [Hcap [Hflag Hnodes]]] Ht]]].
  exists Q. split.
  { cbn [repeat html_tags_run] in *. rewrite html_tag_end_init. exact Hres. }
  split; [rewrite Ht; reflexivity|].
  split; [lia | exact Hflag].
Qed.
End Flood.

Section SampleFlood.
#[local] Existing Instance sample_html_h.

Lemma too_many_tags_flag_not_set_witness :
  exists Q,
    html_tags_run parser_init (repeat (tag_open def_div) (Z.to_nat 8193)) = Some Q
    /\ hc_total_tags (p_hc Q) = Z.min (Z.of_nat (Z.to_nat 8193)) max_tags
    /\ Z.of_nat (List.length (p_nodes Q)) <= max_tags + 1
    /\ has (hc_flags (p_hc Q)) RSPAMD_HTML_FLAG_TOO_MANY_TAGS = false.
Proof.
  apply (@too_many_tags_flag_not_set sample_html_h sample_html_h_ok (Z.to_nat 8193)).
Defined.
End SampleFlood.

(** ** Sorting and searching (libc) *)

Section SortSearch.
Variable A : Type.
Variable cmp : A -> A -> Z.
(** The elements the comparison is an order on. *)
Variable P : A -> Prop.
Hypothesis cmp_sgn : forall a b, P a -> P b -> Z.sgn (cmp b a) = - Z.sgn (cmp a b).
Hypothesis cmp_trans :
  forall a b c, P a -> P b -> P c -> cmp a b <= 0 -> cmp b c <= 0 -> cmp a c <= 0.

Lemma qsort_insert_perm (x : A) (l : list A) :
  Permutation (x :: l) (qsort_insert cmp x l).
Proof.
  induction l as [|y l IH]; cbn [qsort_insert]; [apply Permutation_refl|].
  destruct (cmp x y <=? 0); [apply Permutation_refl|].
  apply (perm_trans (perm_swap y x l)). apply perm_skip. exact IH.
Qed.

Lemma qsort_perm (l : list A) : Permutation l (qsort cmp l).
Proof.
  induction l as [|x l IH]; cbn [qsort fold_right]; [apply perm_nil|].
  fold (qsort cmp l).
  apply (perm_trans (perm_skip x IH)). apply qsort_insert_perm.
Qed.

Lemma qsort_in (l : list A) (x : A) : In x (qsort cmp l) <-> In x l.
Proof.
  split; intros Hin.
  - apply (Permutation_in _ (Permutation_sym (qsort_perm l)) Hin).
  - apply (Permutation_in _ (qsort_perm l) Hin).
Qed.

Lemma qsort_insert_sorted (x : A) (l : list A) :
  P x -> Forall P l ->
  StronglySorted (cmp_le cmp) l -> StronglySorted (cmp_le cmp) (qsort_insert cmp x l).
Proof.
  intros Px. induction l as [|y l IH]; intros Pl Hs; cbn [qsort_insert].
  - constructor; constructor.
  - inversion Pl as [|? ? Py Pl']; subst. inversion Hs as [|? ? Hs' Hall]; subst.
    destruct (Z.leb_spec (cmp x y) 0) as [Hle|Hgt].
    + constructor; [exact Hs|]. constructor; [exact Hle|].
      rewrite Forall_forall in *. intros z Hz.
      apply (cmp_trans x y z); auto. apply (Hall z Hz).
    + constructor; [apply IH; assumption|].
      assert (cmp_le cmp y x) as Hyx.
      { unfold cmp_le. pose proof (cmp_sgn x y Px Py). lia. }
      rewrite Forall_forall in *. intros z Hz.
      apply (Permutation_in _ (Permutation_sym (qsort_insert_perm x l))) in Hz.
      destruct Hz as [<-|Hz]; [exact Hyx | apply (Hall z Hz)].
Qed.

Lemma qsort_sorted (l : list A) :
  Forall P l -> StronglySorted (cmp_le cmp) (qsort cmp l).
Proof.
  induction l as [|x l IH]; intros Pl; cbn [qsort fold_right]; [constructor|].
  fold (qsort cmp l). inversion Pl as [|? ? Px Pl']; subst.
  apply qsort_insert_sorted; [exact Px | | apply IH; exact Pl'].
  rewrite Forall_forall in *. intros z Hz. apply (Pl' z). apply (proj1 (qsort_in l z) Hz).
Qed.

Lemma sorted_nth (l : list A) :
  StronglySorted (cmp_le cmp) l ->
  forall i j a b, (i < j)%nat -> nth_error l i = Some a -> nth_error l j = Some b ->
                  cmp a b <= 0.
Proof.
  induction 1 as [|x l Hs IH Hall]; intros i j a b Hij Ei Ej.
  - destruct i; discriminate Ei.
  - destruct j as [|j]; [lia|]. cbn [nth_error] in Ej.
    destruct i as [|i]; cbn [nth_error] in Ei.
    + injection Ei as <-. rewrite Forall_forall in Hall.
      apply Hall. apply (nth_error_In _ _ Ej).
    + apply (IH i j); [lia | assumption | assumption].
Qed.

(** [bsearch] with a key of any type. *)
Variable K : Type.
Variable find : K -> A -> Z.
Variable key : K.

Lemma bsearch_loop_sound (base : list A) (fuel : nat) :
  forall lo hi p, bsearch_loop fuel find key base lo hi = Some p ->
                  In p base /\ find key p = 0.
Proof.
  induction fuel as [|fuel IH]; intros lo hi p; cbn [bsearch_loop]; [discriminate|].
  destruct (lo <? hi)%nat; [|discriminate].
  destruct (nth_error base ((lo + hi) / 2)) as [q|] eqn:Eq; [|discriminate].
  destruct (Z.ltb_spec (find key q) 0); [apply IH|].
  destruct (Z.gtb_spec (find key q) 0); [apply IH|].
  intros E. injection E as <-. split; [apply (nth_error_In _ _ Eq) | lia].
Qed.

Lemma bsearch_sound (base : list A) (p : A) :
  bsearch find key base = Some p -> In p base /\ find key p = 0.
Proof. apply bsearch_loop_sound. Qed.

(** The key compares with the elements like an element [e] that is in the
    table. *)
Lemma bsearch_loop_complete (base : list A) (e : A) (i : nat) :
  StronglySorted (cmp_le cmp) base ->
  nth_error base i = Some e ->
  find key e = 0 ->
  (forall p, In p base -> cmp p e <= 0 -> ~ find key p < 0) ->
  (forall p, In p base -> cmp e p <= 0 -> ~ find key p > 0) ->
  forall fuel lo hi,
    (hi - lo < fuel)%nat -> (lo <= i < hi)%nat -> (hi <= List.length base)%nat ->
    exists p, bsearch_loop fuel find key base lo hi = Some p.
Proof.
  intros Hs Ei He M1 M2.
  induction fuel as [|fuel IH]; intros lo hi Hfuel Hi Hhi; [lia|].
  cbn [bsearch_loop].
  replace (lo <? hi)%nat with true by (symmetry; apply Nat.ltb_lt; lia).
  pose proof (Nat.div_mod_eq (lo + hi) 2) as Hdm.
  pose proof (Nat.mod_upper_bound (lo + hi) 2) as Hmod.
  set (idx := ((lo + hi) / 2)%nat) in *.
  assert (lo <= idx < hi)%nat as Hidx by lia.
  destruct (nth_error base idx) as [q|] eqn:Eq.
  2:{ apply nth_error_None in Eq. lia. }
  destruct (Z.ltb_spec (find key q) 0) as [Hlt|Hge].
  - apply IH; try lia.
    destruct (Nat.lt_trichotomy i idx) as [Hl|[Hl|Hl]]; [lia| |].
    + subst i. rewrite Ei in Eq. injection Eq as <-. lia.
    + exfalso. apply (M1 q); [apply (nth_error_In _ _ Eq)| |exact Hlt].
      apply (sorted_nth base Hs idx i); assumption.
  - destruct (Z.gtb_spec (find key q) 0) as [Hgt|Hle].
    + apply IH; try lia.
      destruct (Nat.lt_trichotomy i idx) as [Hl|[Hl|Hl]]; [| |lia].
      * exfalso. apply (M2 q); [apply (nth_error_In _ _ Eq)| |lia].
        apply (sorted_nth base Hs i idx); assumption.
      * subst i. rewrite Ei in Eq. injection Eq as <-. lia.
    + exists q. reflexivity.
Qed.

Lemma bsearch_complete (base : list A) (e : A) :
  StronglySorted (cmp_le cmp) base ->
  In e base ->
  find key e = 0 ->
  (forall p, In p base -> cmp p e <= 0 -> ~ find key p < 0) ->
  (forall p, In p base -> cmp e p <= 0 -> ~ find key p > 0) ->
  exists p, bsearch find key base = Some p /\ In p base /\ find key p = 0.
Proof.
  intros Hs Hin He M1 M2.
  apply In_nth_error in Hin. destruct Hin as [i Ei].
  assert (i < List.length base)%nat as Hi by (apply nth_error_Some; congruence).
  destruct (bsearch_loop_complete base e i Hs Ei He M1 M2
              (S (List.length base)) 0 (List.length base)) as [p Hp]; try lia.
  exists p. split; [exact Hp|]. apply bsearch_sound. exact Hp.
Qed.
End SortSearch.

(** ** The tag table and its two sorted views *)

Lemma bytes_length (s : string) : List.length (bytes s) = String.length s.
Proof. induction s as [|c s IH]; cbn; [reflexivity | rewrite <- IH; reflexivity]. Qed.

Lemma sint32_small (z : Z) : - 2^31 <= z < 2^31 -> sint32 z = z.
Proof.
  intros Hz. unfold sint32, wrap32.
  destruct (Z.ltb_spec z 0) as [Hn|Hp].
  - assert (E : z mod 2^32 = z + 2^32).
    { symmetry. apply (Z.mod_unique _ _ (-1)); lia. }
    rewrite E. destruct (Z.ltb_spec (z + 2^32) (2^31)); lia.
  - rewrite Z.mod_small by lia. destruct (Z.ltb_spec z (2^31)); lia.
Qed.

Lemma sint32_zero (z : Z) : - 2^32 < z < 2^32 -> sint32 z = 0 -> z = 0.
Proof.
  intros Hz. unfold sint32, wrap32.
  pose proof (Z.mod_pos_bound z (2^32) ltac:(lia)) as Hb.
  pose proof (Z.div_mod z (2^32) ltac:(lia)) as Hd.
  destruct (Z.ltb_spec (z mod 2^32) (2^31)); intros E; [|lia].
  rewrite E in Hd. assert (z / 2^32 = 0) by lia. lia.
Qed.

Lemma nodupb_sound {A} (eqb : A -> A -> bool) (l : list A) :
  (forall a, eqb a a = true) -> nodupb eqb l = true -> NoDup l.
Proof.
  intros Hrefl. induction l as [|x r IH]; cbn [nodupb]; intros Hb; [constructor|].
  apply andb_prop in Hb. destruct Hb as [Hx Hr].
  constructor; [|apply IH; exact Hr].
  intros Hin. apply negb_true_iff in Hx.
  assert (Ht : existsb (eqb x) r = true).
  { apply existsb_exists. exists x. split; [exact Hin | apply Hrefl]. }
  congruence.
Qed.

Lemma NoDup_map_eq {A B} (f : A -> B) (l : list A) :
  NoDup (map f l) -> forall x y, In x l -> In y l -> f x = f y -> x = y.
Proof.
  induction l as [|a l IH]; cbn [map]; intros Hnd x y Hx Hy E; [destruct Hx|].
  inversion Hnd as [|? ? Hna Hnd']; subst.
  destruct Hx as [<-|Hx], Hy as [<-|Hy].
  - reflexivity.
  - exfalso. apply Hna. rewrite E. apply in_map. exact Hy.
  - exfalso. apply Hna. rewrite <- E. apply in_map. exact Hx.
  - apply IH; assumption.
Qed.

Lemma NoDup_map_inj {A B} (f : A -> B) (l : list A) :
  (forall x y, f x = f y -> x = y) -> NoDup l -> NoDup (map f l).
Proof.
  intros Hinj. induction 1 as [|a l Hna Hnd IH]; cbn [map]; constructor; [|exact IH].
  intros Hin. apply in_map_iff in Hin. destruct Hin as (b & E & Hb).
  apply Hinj in E. subst b. exact (Hna Hb).
Qed.

Section TagTableFacts.
Context `{html_h} {Hok : html_h_ok}.

Lemma row_ok_TAG_DEF (id : tag_id_t) (name : string) (flags : Z) :
  Z.of_nat (String.length name) < 2^15 ->
  take_cstr (bytes name) = bytes name ->
  small_alnum (bytes name) ->
  row_ok (TAG_DEF id name flags).
Proof.
  intros Hlen Hc Hs. unfold row_ok, TAG_DEF. cbn [def_len def_name def_id].
  rewrite bytes_length.
  pose proof (tag_num_range id). pose proof N_TAGS_gint16.
  repeat split; try assumption; lia.
Qed.

Lemma tag_defs_src_ok : Forall row_ok tag_defs_src.
Proof.
  unfold tag_defs_src.
  repeat (apply Forall_cons;
          [apply row_ok_TAG_DEF; [vm_compute; reflexivity | reflexivity | reflexivity]|]).
  apply Forall_nil.
Qed.

Lemma tag_ids_nodup : NoDup tag_ids.
Proof.
  apply (nodupb_sound (fun a b => sample_tag_num a =? sample_tag_num b)).
  - intros a. apply Z.eqb_refl.
  - vm_compute. reflexivity.
Qed.

Lemma tag_defs_src_ids : map def_id tag_defs_src = map tag_num tag_ids.
Proof. reflexivity. Qed.

Lemma tag_defs_src_ids_nodup : NoDup (map def_id tag_defs_src).
Proof.
  rewrite tag_defs_src_ids. apply NoDup_map_inj; [apply tag_num_inj | apply tag_ids_nodup].
Qed.

Lemma tag_defs_src_names_nodup :
  NoDup (map (fun d => lower (bytes (def_name d))) tag_defs_src).
Proof.
  apply (nodupb_sound bytes_eqb).
  - intros a. apply bytes_eqb_eq. reflexivity.
  - vm_compute. reflexivity.
Qed.

End TagTableFacts.

Section TagOrder.
Context `{html_h} {Hok : html_h_ok}.

Lemma lower_length (s : list ascii) : List.length (lower s) = List.length s.
Proof. apply length_map. Qed.

Lemma tag_cmp_sgn (a b : html_tag_def) :
  row_ok a -> row_ok b -> Z.sgn (tag_cmp b a) = - Z.sgn (tag_cmp a b).
Proof.
  intros (La & _ & _ & Sa & _) (Lb & _ & _ & Sb & _). unfold tag_cmp.
  rewrite (Z.eqb_sym (def_len b) (def_len a)).
  destruct (Z.eqb_spec (def_len a) (def_len b)) as [E|E].
  - rewrite <- E, La. apply lc_cmp_sgn; [exact Sa | exact Sb | lia].
  - replace (def_len b - def_len a) with (- (def_len a - def_len b)) by lia.
    apply Z.sgn_opp.
Qed.

Lemma tag_cmp_trans (a b c : html_tag_def) :
  row_ok a -> row_ok b -> row_ok c ->
  tag_cmp a b <= 0 -> tag_cmp b c <= 0 -> tag_cmp a c <= 0.
Proof.
  intros (La & _ & _ & Sa & _) (Lb & _ & _ & Sb & _) (Lc & _ & _ & Sc & _).
  unfold tag_cmp.
  destruct (Z.eqb_spec (def_len a) (def_len b)) as [Eab|Eab];
    destruct (Z.eqb_spec (def_len b) (def_len c)) as [Ebc|Ebc];
    destruct (Z.eqb_spec (def_len a) (def_len c)) as [Eac|Eac];
    try lia.
  rewrite <- Eab, La. apply lc_cmp_trans; try assumption; lia.
Qed.

Lemma tag_cmp_id_sgn (a b : html_tag_def) :
  True -> True -> Z.sgn (tag_cmp_id b a) = - Z.sgn (tag_cmp_id a b).
Proof.
  intros _ _. unfold tag_cmp_id.
  replace (def_id b - def_id a) with (- (def_id a - def_id b)) by lia.
  apply Z.sgn_opp.
Qed.

Lemma tag_cmp_id_trans (a b c : html_tag_def) :
  True -> True -> True ->
  tag_cmp_id a b <= 0 -> tag_cmp_id b c <= 0 -> tag_cmp_id a c <= 0.
Proof. unfold tag_cmp_id. lia. Qed.

Lemma tag_defs_in (d : html_tag_def) : In d tag_defs <-> In d tag_defs_src.
Proof. apply qsort_in. Qed.

Lemma tag_defs_num_in (d : html_tag_def) : In d tag_defs_num <-> In d tag_defs_src.
Proof. unfold tag_defs_num. rewrite qsort_in. apply tag_defs_in. Qed.

Lemma tag_defs_row_ok (d : html_tag_def) : In d tag_defs_src -> row_ok d.
Proof. apply Forall_forall. apply tag_defs_src_ok. Qed.

Lemma tag_defs_sorted : StronglySorted (cmp_le tag_cmp) tag_defs.
Proof.
  apply (qsort_sorted _ tag_cmp row_ok tag_cmp_sgn tag_cmp_trans).
  apply tag_defs_src_ok.
Qed.

Lemma tag_defs_num_sorted : StronglySorted (cmp_le tag_cmp_id) tag_defs_num.
Proof.
  apply (qsort_sorted _ tag_cmp_id (fun _ => True) tag_cmp_id_sgn tag_cmp_id_trans).
  apply Forall_forall. intros; exact I.
Qed.

(** [tag_find] returns zero on the rows whose name is the key up to case. *)
Lemma tag_find_zero (name : list ascii) (d : html_tag_def) :
  row_ok d -> Z.of_nat (List.length name) < 2^32 ->
  tag_find name d = 0 -> lower name = lower (bytes (def_name d)).
Proof.
  intros (Ld & Hd & _) Hn. unfold tag_find.
  rewrite (wrap32_small (Z.of_nat (List.length name))) by lia.
  destruct (Z.eqb_spec (def_len d) (Z.of_nat (List.length name))) as [E|E].
  - intros Hz. apply lc_cmp_zero; [lia | exact Hz].
  - intros Hz. apply sint32_zero in Hz; lia.
Qed.

Lemma tag_find_same (d : html_tag_def) :
  row_ok d -> tag_find (bytes (def_name d)) d = 0.
Proof.
  intros (Ld & Hd & _). unfold tag_find.
  rewrite (wrap32_small (Z.of_nat (List.length (bytes (def_name d))))) by lia.
  rewrite <- Ld, Z.eqb_refl, Ld. apply lc_cmp_zero; reflexivity.
Qed.

(** On the sorted table, [tag_find] with the name of a row points towards
    that row. *)
Lemma tag_find_before (d p : html_tag_def) :
  row_ok d -> row_ok p -> tag_cmp p d <= 0 -> ~ tag_find (bytes (def_name d)) p < 0.
Proof.
  intros (Ld & Hd & _ & Sd & _) (Lp & Hp & _ & Sp & _). unfold tag_cmp, tag_find.
  rewrite (wrap32_small (Z.of_nat (List.length (bytes (def_name d))))) by lia.
  rewrite <- Ld.
  destruct (Z.eqb_spec (def_len p) (def_len d)) as [E|E].
  - intros Hc Hf.
    assert (Hlen : List.length (bytes (def_name p)) = List.length (bytes (def_name d))) by lia.
    pose proof (lc_cmp_sgn _ _ Sp Sd Hlen) as Hs.
    rewrite <- Lp, E in Hs. rewrite E in Hc. lia.
  - intros Hc. rewrite sint32_small by lia. lia.
Qed.

Lemma tag_find_after (d p : html_tag_def) :
  row_ok d -> row_ok p -> tag_cmp d p <= 0 -> ~ tag_find (bytes (def_name d)) p > 0.
Proof.
  intros (Ld & Hd & _) (Lp & Hp & _). unfold tag_cmp, tag_find.
  rewrite (wrap32_small (Z.of_nat (List.length (bytes (def_name d))))) by lia.
  rewrite <- Ld. rewrite (Z.eqb_sym (def_len p) (def_len d)).
  destruct (Z.eqb_spec (def_len d) (def_len p)) as [E|E].
  - lia.
  - intros Hc. rewrite sint32_small by lia. lia.
Qed.

End TagOrder.

Section TagLookupInverse.
Context `{html_h} {Hok : html_h_ok}.

Lemma tag_by_name_found (d : html_tag_def) :
  In d tag_defs_src -> rspamd_html_tag_by_name (bytes (def_name d)) = def_id d.
Proof.
  intros Hd. pose proof (tag_defs_row_ok d Hd) as Rd.
  assert (Hc : take_cstr (bytes (def_name d)) = bytes (def_name d)) by apply Rd.
  unfold rspamd_html_tag_by_name. rewrite Hc.
  destruct (bsearch_complete _ tag_cmp _ tag_find (bytes (def_name d)) tag_defs d)
    as (p & Ep & Hp & Hz).
  - apply tag_defs_sorted.
  - exact (proj2 (tag_defs_in d) Hd).
  - apply tag_find_same. exact Rd.
  - intros p Hp.
    exact (tag_find_before d p Rd (tag_defs_row_ok p (proj1 (tag_defs_in p) Hp))).
  - intros p Hp.
    exact (tag_find_after d p Rd (tag_defs_row_ok p (proj1 (tag_defs_in p) Hp))).
  - rewrite Ep. pose proof (proj1 (tag_defs_in p) Hp) as Hp'.
    assert (Rp : row_ok p) by (apply tag_defs_row_ok; exact Hp').
    apply tag_find_zero in Hz; [|exact Rp|destruct Rd as (Ld & Hl & _); lia].
    f_equal. symmetry.
    apply (NoDup_map_eq (fun d => lower (bytes (def_name d))) tag_defs_src
             tag_defs_src_names_nodup d p Hd Hp' Hz).
Qed.

Lemma tag_by_id_found (d : html_tag_def) :
  In d tag_defs_src -> rspamd_html_tag_by_id (def_id d) = Some (def_name d).
Proof.
  intros Hd. pose proof (tag_defs_row_ok d Hd) as Rd.
  assert (Id : 0 <= def_id d < 2^15) by apply Rd.
  unfold rspamd_html_tag_by_id.
  destruct (bsearch_complete _ tag_cmp_id _ tag_find_id (def_id d) tag_defs_num d)
    as (p & Ep & Hp & Hz).
  - apply tag_defs_num_sorted.
  - exact (proj2 (tag_defs_num_in d) Hd).
  - unfold tag_find_id. rewrite Z.sub_diag. reflexivity.
  - intros p Hp.
    assert (Ip : 0 <= def_id p < 2^15)
      by apply (tag_defs_row_ok p (proj1 (tag_defs_num_in p) Hp)).
    unfold tag_cmp_id, tag_find_id. rewrite sint32_small by lia. lia.
  - intros p Hp.
    assert (Ip : 0 <= def_id p < 2^15)
      by apply (tag_defs_row_ok p (proj1 (tag_defs_num_in p) Hp)).
    unfold tag_cmp_id, tag_find_id. rewrite sint32_small by lia. lia.
  - rewrite Ep. pose proof (proj1 (tag_defs_num_in p) Hp) as Hp'.
    assert (Ip : 0 <= def_id p < 2^15) by apply (tag_defs_row_ok p Hp').
    unfold tag_find_id in Hz. apply sint32_zero in Hz; [|lia].
    do 2 f_equal. symmetry.
    apply (NoDup_map_eq def_id tag_defs_src tag_defs_src_ids_nodup d p Hd Hp'). lia.
Qed.

Lemma tag_by_name_absent (name : list ascii) :
  Z.of_nat (List.length (take_cstr name)) < 2^32 ->
  ~ In (lower (take_cstr name)) (map (fun d => lower (bytes (def_name d))) tag_defs_src) ->
  rspamd_html_tag_by_name name = -1.
Proof.
  intros Hlen Hno. unfold rspamd_html_tag_by_name.
  destruct (bsearch tag_find (take_cstr name) tag_defs) as [p|] eqn:E; [|reflexivity].
  exfalso. apply bsearch_sound in E. destruct E as [Hp Hz].
  pose proof (proj1 (tag_defs_in p) Hp) as Hp'. apply Hno.
  rewrite (tag_find_zero _ p (tag_defs_row_ok p Hp') Hlen Hz).
  exact (in_map (fun d => lower (bytes (def_name d))) tag_defs_src p Hp').
Qed.

Lemma tag_by_id_absent (id : Z) :
  gint id -> ~ In id (map def_id tag_defs_src) -> rspamd_html_tag_by_id id = None.
Proof.
  intros Hid Hno. unfold rspamd_html_tag_by_id.
  destruct (bsearch tag_find_id id tag_defs_num) as [p|] eqn:E; [|reflexivity].
  exfalso. apply bsearch_sound in E. destruct E as [Hp Hz].
  pose proof (proj1 (tag_defs_num_in p) Hp) as Hp'. apply Hno.
  assert (Ip : 0 <= def_id p < 2^15) by apply (tag_defs_row_ok p Hp').
  unfold gint in Hid. unfold tag_find_id in Hz. apply sint32_zero in Hz; [|lia].
  replace id with (def_id p) by lia. exact (in_map def_id tag_defs_src p Hp').
Qed.

Lemma bsearch_loop_ext {K A : Type} (cmp : K -> A -> Z) (k k' : K) (base : list A) :
  (forall a, cmp k a = cmp k' a) ->
  forall fuel lo hi,
    bsearch_loop fuel cmp k base lo hi = bsearch_loop fuel cmp k' base lo hi.
Proof.
  intros Hext. induction fuel as [|fuel IH]; intros lo hi; [reflexivity|].
  cbn [bsearch_loop]. destruct (lo <? hi)%nat; [|reflexivity].
  destruct (nth_error base ((lo + hi) / 2)) as [p|]; [|reflexivity].
  rewrite Hext, !IH. reflexivity.
Qed.

(** With a comparison that does not look at the case, a name is found
    as the name it is equal to up to case. *)
Lemma tag_find_caseless (name name' : list ascii) (d : html_tag_def) :
  lc_cmp_caseless -> lower name = lower name' -> tag_find name d = tag_find name' d.
Proof.
  intros Hcl E. unfold tag_find.
  assert (El : List.length name = List.length name').
  { rewrite <- (lower_length name), <- (lower_length name'), E. reflexivity. }
  rewrite El. destruct (def_len d =? _); [|reflexivity].
  rewrite (Hcl name), (Hcl name'), E. reflexivity.
Qed.

Lemma tag_by_name_caseless (d : html_tag_def) (name : list ascii) :
  lc_cmp_caseless ->
  In d tag_defs_src ->
  lower (take_cstr name) = lower (bytes (def_name d)) ->
  rspamd_html_tag_by_name name = def_id d.
Proof.
  intros Hcl Hd E. rewrite <- (tag_by_name_found d Hd).
  pose proof (tag_defs_row_ok d Hd) as Rd.
  assert (Hc : take_cstr (bytes (def_name d)) = bytes (def_name d)) by apply Rd.
  unfold rspamd_html_tag_by_name, bsearch. rewrite Hc.
  rewrite (bsearch_loop_ext tag_find (take_cstr name) (bytes (def_name d)) tag_defs
             (fun a => tag_find_caseless _ _ a Hcl E)).
  reflexivity.
Qed.

(** C10. Over the tag table sorted by [rspamd_html_library_init], the two
    lookups are inverse to each other: for every row of [tag_defs],
    [rspamd_html_tag_by_name] of its name is its id and
    [rspamd_html_tag_by_id] of its id is its name, so that each lookup
    undoes the other; a name that is, up to case, the name of no row gives
    -1, and an id of no row gives NULL.  With the comparison of names the
    specification describes ([lc_cmp_caseless]), a name that is the name of
    a row up to case gives the id of that row. *)
Theorem tag_lookups_inverse :
  (forall d, In d tag_defs_src ->
     rspamd_html_tag_by_name (bytes (def_name d)) = def_id d
     /\ rspamd_html_tag_by_id (def_id d) = Some (def_name d)
     /\ rspamd_html_tag_by_id (rspamd_html_tag_by_name (bytes (def_name d)))
        = Some (def_name d))
  /\ (forall name,
        Z.of_nat (List.length (take_cstr name)) < 2^32 ->
        ~ In (lower (take_cstr name))
             (map (fun d => lower (bytes (def_name d))) tag_defs_src) ->
        rspamd_html_tag_by_name name = -1)
  /\ (forall id,
        gint id -> ~ In id (map def_id tag_defs_src) ->
        rspamd_html_tag_by_id id = None)
  /\ (lc_cmp_caseless ->
      forall d name,
        In d tag_defs_src ->
        lower (take_cstr name) = lower (bytes (def_name d)) ->
        rspamd_html_tag_by_name name = def_id d
        /\ rspamd_html_tag_by_id (rspamd_html_tag_by_name name) = Some (def_name d)).
Proof.
  split; [|split; [|split]].
  - intros d Hd. rewrite (tag_by_name_found d Hd).
    repeat split; try reflexivity; apply tag_by_id_found; exact Hd.
  - apply tag_by_name_absent.
  - apply tag_by_id_absent.
  - intros Hcl d name Hd E. rewrite (tag_by_name_caseless d name Hcl Hd E).
    split; [reflexivity | apply tag_by_id_found; exact Hd].
Qed.

End TagLookupInverse.

Section SampleLookup.
#[local] Existing Instance sample_html_h.

Lemma lc_cmp_lex_lower (l : nat) :
  forall s d, lc_cmp_lex (lower s) (lower d) l = lc_cmp_lex s d l.
Proof.
  induction l as [|l IH]; intros [|a s] [|b d]; try reflexivity.
  cbn [lower map lc_cmp_lex]. fold (lower s). fold (lower d). rewrite IH.
  assert (Ht : forall c, g_ascii_tolower (g_ascii_tolower c) = g_ascii_tolower c)
    by (intros c; destruct c as [[] [] [] [] [] [] [] []]; reflexivity).
  rewrite !Ht. reflexivity.
Qed.

Lemma sample_lc_cmp_caseless : @lc_cmp_caseless sample_html_h.
Proof.
  intros s d n. cbn [rspamd_lc_cmp sample_html_h]. symmetry. apply lc_cmp_lex_lower.
Qed.

Lemma tag_lookups_inverse_witness :
  rspamd_html_tag_by_name (bytes "blockquote") = tag_num Tag_BLOCKQUOTE
  /\ rspamd_html_tag_by_id (tag_num Tag_BLOCKQUOTE) = Some "blockquote"%string
  /\ rspamd_html_tag_by_name (bytes "blink182") = -1
  /\ rspamd_html_tag_by_id 0 = None
  /\ rspamd_html_tag_by_name (bytes "BlockQuote") = tag_num Tag_BLOCKQUOTE.
Proof.
  destruct (tag_lookups_inverse (Hok := sample_html_h_ok))
    as (Hrow & Hname & Hid & Hcase).
  destruct (Hrow def_blockquote) as (E1 & E2 & _); [apply rows_in_table|].
  split; [exact E1|]. split; [exact E2|]. split; [|split].
  - apply Hname; [vm_compute; reflexivity|].
    intros Hin. vm_compute in Hin.
    repeat (destruct Hin as [Hin|Hin]; [discriminate Hin|]). exact Hin.
  - apply Hid; [unfold gint; lia|].
    intros Hin. vm_compute in Hin.
    repeat (destruct Hin as [Hin|Hin]; [discriminate Hin|]). exact Hin.
  - apply (Hcase sample_lc_cmp_caseless def_blockquote (bytes "BlockQuote"));
      [apply rows_in_table | reflexivity].
Defined.

End SampleLookup.

(** * Further properties of the code *)

(** ** Part similarity: the distance loop of message.c *)

Lemma MIN3_min (a b c : Z) : MIN3 a b c = Z.min (Z.min a b) c.
Proof.
  unfold MIN3.
  destruct (Z.ltb_spec a b); destruct (Z.ltb_spec a c); destruct (Z.ltb_spec b c); lia.
Qed.

(** Equalities between nested minima of sums, by comparing each side with
    every term of the other. *)
Ltac min_eq :=
  rewrite <- ?Z.add_min_distr_r;
  apply Z.le_antisymm; repeat apply Z.min_glb;
  rewrite ?Z.min_le_iff; lia.

Lemma lev_cost_nil_l (b : list Z) : lev_cost [] b = Z.of_nat (List.length b).
Proof. destruct b; reflexivity. Qed.

Lemma lev_cost_nil_r (a : list Z) : lev_cost a [] = Z.of_nat (List.length a).
Proof. destruct a; reflexivity. Qed.

Lemma lev_cost_cons (x : Z) (a : list Z) (y : Z) (b : list Z) :
  lev_cost (x :: a) (y :: b)
  = Z.min (Z.min (lev_cost (x :: a) b + 1) (lev_cost a (y :: b) + 1))
          (lev_cost a b + (if x =? y then 2 else 0)).
Proof. reflexivity. Qed.

(** The same recurrence read from the last words of the sequences. *)
Lemma lev_cost_snoc_n (n : nat) :
  forall a b x y, (List.length a + List.length b <= n)%nat ->
  lev_cost (a ++ [x]) (b ++ [y])
  = Z.min (Z.min (lev_cost (a ++ [x]) b + 1) (lev_cost a (b ++ [y]) + 1))
          (lev_cost a b + (if x =? y then 2 else 0)).
Proof.
  induction n as [|n IH]; intros a b x y Hn.
  - destruct a; [|cbn [List.length] in Hn; lia].
    destruct b; [|cbn [List.length] in Hn; lia].
    reflexivity.
  - destruct a as [|u a]; destruct b as [|z b].
    + reflexivity.
    + cbn [List.length] in Hn.
      pose proof (IH [] b x y ltac:(cbn [List.length]; lia)) as I1.
      cbn [app] in *.
      rewrite (lev_cost_cons x [] z (b ++ [y])), (lev_cost_cons x [] z b).
      rewrite I1. rewrite !lev_cost_nil_l.
      cbn [List.length]. rewrite !length_app. cbn [List.length].
      rewrite !Nat2Z.inj_succ, !Nat2Z.inj_add. change (Z.of_nat 1) with 1.
      generalize (lev_cost [x] b) (if x =? y then 2 else 0) (if x =? z then 2 else 0)
                 (Z.of_nat (List.length b)).
      clear. intros. unfold Z.succ. min_eq.
    + cbn [List.length] in Hn.
      pose proof (IH a [] x y ltac:(cbn [List.length]; lia)) as I1.
      cbn [app] in *.
      rewrite (lev_cost_cons u (a ++ [x]) y []), (lev_cost_cons u a y []).
      rewrite I1. rewrite !lev_cost_nil_r.
      cbn [List.length]. rewrite !length_app. cbn [List.length].
      rewrite !Nat2Z.inj_succ, !Nat2Z.inj_add. change (Z.of_nat 1) with 1.
      generalize (lev_cost a [y]) (if x =? y then 2 else 0) (if u =? y then 2 else 0)
                 (Z.of_nat (List.length a)).
      clear. intros. unfold Z.succ. min_eq.
    + cbn [List.length] in Hn.
      pose proof (IH a (z :: b) x y ltac:(cbn [List.length]; lia)) as I1.
      pose proof (IH (u :: a) b x y ltac:(cbn [List.length]; lia)) as I2.
      pose proof (IH a b x y ltac:(lia)) as I3.
      cbn [app] in *.
      rewrite (lev_cost_cons u (a ++ [x]) z (b ++ [y])).
      rewrite (lev_cost_cons u (a ++ [x]) z b).
      rewrite (lev_cost_cons u a z (b ++ [y])).
      rewrite (lev_cost_cons u a z b).
      rewrite I1, I2, I3. clear. min_eq.
Qed.

Lemma lev_cost_snoc (a b : list Z) (x y : Z) :
  lev_cost (a ++ [x]) (b ++ [y])
  = Z.min (Z.min (lev_cost (a ++ [x]) b + 1) (lev_cost a (b ++ [y]) + 1))
          (lev_cost a b + (if x =? y then 2 else 0)).
Proof. apply (lev_cost_snoc_n (List.length a + List.length b)). lia. Qed.

Lemma lev_cost_bounds (a : list Z) :
  forall b,
    Z.abs (Z.of_nat (List.length a) - Z.of_nat (List.length b)) <= lev_cost a b
    /\ lev_cost a b <= Z.of_nat (List.length a) + Z.of_nat (List.length b).
Proof.
  induction a as [|x a IHa]; intros b.
  - rewrite lev_cost_nil_l. cbn [List.length]. lia.
  - induction b as [|y b IHb].
    + rewrite lev_cost_nil_r. cbn [List.length]. lia.
    + rewrite lev_cost_cons.
      pose proof (IHa (y :: b)) as H1. pose proof (IHa b) as H2.
      cbn [List.length] in *. destruct (x =? y); lia.
Qed.

Lemma lev_cost_sym (a : list Z) : forall b, lev_cost a b = lev_cost b a.
Proof.
  induction a as [|x a IHa]; intros b.
  - rewrite lev_cost_nil_l, lev_cost_nil_r. reflexivity.
  - induction b as [|y b IHb].
    + rewrite lev_cost_nil_l, lev_cost_nil_r. reflexivity.
    + rewrite !lev_cost_cons. rewrite IHb, (IHa (y :: b)), (IHa b).
      rewrite (Z.eqb_sym y x). lia.
Qed.

Lemma nth_upd_eq {A} (l : list A) (i : nat) (v d : A) :
  (i < List.length l)%nat -> nth i (upd l i v) d = v.
Proof.
  revert i. induction l as [|h t IH]; intros [|i] Hi; cbn [List.length] in Hi;
    cbn [upd nth]; try lia; [reflexivity | apply IH; lia].
Qed.

Lemma nth_upd_neq {A} (l : list A) (i j : nat) (v d : A) :
  i <> j -> nth j (upd l i v) d = nth j l d.
Proof.
  revert i j. induction l as [|h t IH]; intros [|i] [|j] Hij; cbn [upd nth];
    try reflexivity; try lia. apply IH. lia.
Qed.

Lemma firstn_S_snoc {A} (l : list A) (i : nat) (d : A) :
  (i < List.length l)%nat -> firstn (S i) l = firstn i l ++ [nth i l d].
Proof.
  revert i. induction l as [|h t IH]; intros i Hi; cbn [List.length] in Hi; [lia|].
  destruct i as [|i]; [reflexivity|].
  cbn [firstn nth app]. f_equal. apply IH. lia.
Qed.

(** A loop [for (k = a; k < a + len; k++)] keeps an invariant indexed by
    its counter. *)
Lemma fold_left_seq_inv {S} (P : nat -> S -> Prop) (f : S -> nat -> S) (len : nat) :
  forall (a : nat) (s : S),
    P a s ->
    (forall k s, (a <= k < a + len)%nat -> P k s -> P (Datatypes.S k) (f s k)) ->
    P (a + len)%nat (fold_left f (seq a len) s).
Proof.
  induction len as [|len IH]; intros a s H0 Hstep; cbn [seq fold_left].
  - rewrite Nat.add_0_r. exact H0.
  - replace (a + Datatypes.S len)%nat with (Datatypes.S a + len)%nat by lia.
    apply IH.
    + apply Hstep; [lia | exact H0].
    + intros k s' Hk. apply Hstep. lia.
Qed.

Section LevLoop.
Variables w1 w2 : list Z.

Lemma lev_prefix_0_r (i : nat) :
  (i <= List.length w1)%nat -> lev_prefix w1 w2 i 0 = Z.of_nat i.
Proof.
  intros Hi. unfold lev_prefix. cbn [firstn]. rewrite lev_cost_nil_r, length_firstn. lia.
Qed.

Lemma lev_prefix_0_l (j : nat) :
  (j <= List.length w2)%nat -> lev_prefix w1 w2 0 j = Z.of_nat j.
Proof.
  intros Hj. unfold lev_prefix. cbn [firstn]. rewrite lev_cost_nil_l, length_firstn. lia.
Qed.

Lemma lev_prefix_step (i j : nat) :
  (i < List.length w1)%nat -> (j < List.length w2)%nat ->
  lev_prefix w1 w2 (S i) (S j)
  = Z.min (Z.min (lev_prefix w1 w2 (S i) j + 1) (lev_prefix w1 w2 i (S j) + 1))
          (lev_prefix w1 w2 i j + (if nth i w1 0 =? nth j w2 0 then 2 else 0)).
Proof.
  intros Hi Hj. unfold lev_prefix.
  rewrite (firstn_S_snoc w1 i 0 Hi), (firstn_S_snoc w2 j 0 Hj).
  apply lev_cost_snoc.
Qed.

(** The array after the first loop, [column[y] = y]. *)
Lemma lev_column_init :
  let column := fold_left (fun col y => upd col y (Z.of_nat y))
                          (seq 1 (List.length w1)) (repeat 0 (S (List.length w1))) in
  List.length column = S (List.length w1)
  /\ forall k, (k <= List.length w1)%nat -> nth k column 0 = lev_prefix w1 w2 k 0.
Proof.
  set (n := List.length w1).
  pose (P := fun (k : nat) (col : list Z) =>
               List.length col = S n
               /\ forall j, (j < k)%nat -> nth j col 0 = Z.of_nat j).
  assert (HP : P (1 + n)%nat
                 (fold_left (fun col y => upd col y (Z.of_nat y))
                            (seq 1 n) (repeat 0 (S n)))).
  { apply (fold_left_seq_inv P).
    - split; [apply repeat_length|].
      intros j Hj. assert (j = 0%nat) by lia. subst j. reflexivity.
    - intros k s Hk [Hlen Hs]. split; [rewrite upd_length; exact Hlen|].
      intros j Hj. destruct (Nat.eq_dec j k) as [->|Hne].
      + apply nth_upd_eq. lia.
      + rewrite nth_upd_neq by lia. apply Hs. lia. }
  destruct HP as [Hlen Hs]. cbv zeta. split; [exact Hlen|].
  intros k Hk. rewrite lev_prefix_0_r by exact Hk. apply Hs. lia.
Qed.

(** One turn of the outer loop takes the row of [x - 1] to the row of [x]. *)
Lemma lev_outer_body_row (column : list Z) (x : nat) :
  (1 <= x <= List.length w2)%nat ->
  List.length column = S (List.length w1) ->
  (forall k, (k <= List.length w1)%nat -> nth k column 0 = lev_prefix w1 w2 k (x - 1)) ->
  List.length (lev_outer_body w1 w2 column x) = S (List.length w1)
  /\ forall k, (k <= List.length w1)%nat ->
               nth k (lev_outer_body w1 w2 column x) 0 = lev_prefix w1 w2 k x.
Proof.
  intros Hx Hlen Hrow. set (n := List.length w1) in *.
  unfold lev_outer_body. fold n.
  pose (P := fun (y : nat) (st : list Z * Z) =>
               List.length (fst st) = S n
               /\ (forall j, (j < y)%nat -> nth j (fst st) 0 = lev_prefix w1 w2 j x)
               /\ (forall j, (y <= j <= n)%nat ->
                             nth j (fst st) 0 = lev_prefix w1 w2 j (x - 1))
               /\ snd st = lev_prefix w1 w2 (y - 1) (x - 1)).
  assert (HP : P (1 + n)%nat
                 (fold_left (lev_inner_body w1 w2 x) (seq 1 n)
                            (upd column 0 (Z.of_nat x), Z.of_nat x - 1))).
  { apply (fold_left_seq_inv P).
    - unfold P. cbn [fst snd]. split; [rewrite upd_length; exact Hlen|]. split; [|split].
      + intros j Hj. assert (j = 0%nat) by lia. subst j.
        rewrite nth_upd_eq by lia. rewrite lev_prefix_0_l by lia. reflexivity.
      + intros j Hj. rewrite nth_upd_neq by lia. apply Hrow. lia.
      + cbn [Nat.sub]. rewrite lev_prefix_0_l by lia. lia.
    - unfold P. intros y [col lastdiag] Hy (Hl & Hlo & Hhi & Hd). cbn [fst snd] in *.
      unfold lev_inner_body. cbv beta iota zeta. cbn [fst snd].
      split; [rewrite upd_length; exact Hl|]. split; [|split].
      + intros j Hj. destruct (Nat.eq_dec j y) as [->|Hne].
        * rewrite nth_upd_eq by lia. rewrite MIN3_min.
          rewrite (Hhi y) by lia. rewrite (Hlo (y - 1)%nat) by lia. rewrite Hd.
          destruct y as [|y']; [lia|]. destruct x as [|x']; [lia|].
          replace (S y' - 1)%nat with y' by lia.
          replace (S x' - 1)%nat with x' by lia.
          rewrite lev_prefix_step by lia.
          destruct (nth y' w1 0 =? nth x' w2 0); reflexivity.
        * rewrite nth_upd_neq by lia. apply Hlo. lia.
      + intros j Hj. rewrite nth_upd_neq by lia. apply Hhi. lia.
      + replace (S y - 1)%nat with y by lia. apply Hhi. lia. }
  destruct HP as (Hl & Hlo & _ & _). split; [exact Hl|].
  intros k Hk. apply Hlo. lia.
Qed.

Lemma lev_loop_result :
  rspamd_words_levenshtein_distance w1 w2
  = if wrap32 (Z.of_nat (List.length w1) + Z.of_nat (List.length w2)) >? max_words
    then 0 else lev_cost w1 w2.
Proof.
  unfold rspamd_words_levenshtein_distance.
  destruct (wrap32 (Z.of_nat (List.length w1) + Z.of_nat (List.length w2)) >? max_words);
    [reflexivity|].
  set (n := List.length w1). set (m := List.length w2).
  pose (P := fun (x : nat) (col : list Z) =>
               List.length col = S n
               /\ forall k, (k <= n)%nat -> nth k col 0 = lev_prefix w1 w2 k (x - 1)).
  assert (HP : P (1 + m)%nat
                 (fold_left (lev_outer_body w1 w2) (seq 1 m)
                    (fold_left (fun col y => upd col y (Z.of_nat y))
                               (seq 1 n) (repeat 0 (S n))))).
  { apply (fold_left_seq_inv P).
    - exact lev_column_init.
    - unfold P. intros x col Hx [Hl Hrow].
      replace (S x - 1)%nat with x by lia.
      apply lev_outer_body_row; [fold m; lia | exact Hl | exact Hrow]. }
  destruct HP as [_ Hrow]. rewrite (Hrow n) by lia.
  unfold lev_prefix. replace (1 + m - 1)%nat with m by lia.
  unfold n, m. rewrite !firstn_all. reflexivity.
Qed.
End LevLoop.

(** X1.  For two sequences of at most 8192 words in total,
    [rspamd_words_levenshtein_distance] returns the edit distance
    [lev_cost]: the least cost of turning one sequence into the other when
    leaving out a word costs 1 and aligning two words costs 2 if their
    hashes are equal and 0 if they differ. *)
Theorem levenshtein_edit_distance (w1 w2 : list Z) :
  Z.of_nat (List.length w1) + Z.of_nat (List.length w2) <= max_words ->
  rspamd_words_levenshtein_distance w1 w2 = lev_cost w1 w2.
Proof.
  intros Hcap. rewrite lev_loop_result.
  rewrite wrap32_small by (unfold max_words in Hcap; lia).
  destruct (Z.gtb_spec (Z.of_nat (List.length w1) + Z.of_nat (List.length w2)) max_words);
    [lia | reflexivity].
Qed.

Lemma levenshtein_edit_distance_witness :
  rspamd_words_levenshtein_distance [1; 2; 3] [1; 9] = lev_cost [1; 2; 3] [1; 9].
Proof. apply levenshtein_edit_distance. vm_compute. discriminate. Defined.

(** X2.  The distance is never negative and never more than the number of
    words of the two sequences together, so the ratio [dw / tw] that
    [rspamd_message_parse] stores as the distance of two parts lies between
    0 and 1; below the limit of 8192 words it is at least the difference of
    the two lengths. *)
Theorem levenshtein_bounds (w1 w2 : list Z) :
  0 <= rspamd_words_levenshtein_distance w1 w2
    <= Z.of_nat (List.length w1) + Z.of_nat (List.length w2)
  /\ (Z.of_nat (List.length w1) + Z.of_nat (List.length w2) <= max_words ->
      Z.abs (Z.of_nat (List.length w1) - Z.of_nat (List.length w2))
      <= rspamd_words_levenshtein_distance w1 w2).
Proof.
  pose proof (lev_cost_bounds w1 w2) as [Hlo Hhi]. split.
  - rewrite lev_loop_result.
    destruct (wrap32 (Z.of_nat (List.length w1) + Z.of_nat (List.length w2)) >? max_words);
      lia.
  - intros Hcap. rewrite lev_loop_result.
    rewrite wrap32_small by (unfold max_words in Hcap; lia).
    destruct (Z.gtb_spec (Z.of_nat (List.length w1) + Z.of_nat (List.length w2)) max_words);
      [lia | exact Hlo].
Qed.

Lemma levenshtein_bounds_witness :
  Z.abs (Z.of_nat (List.length [1; 2; 3]) - Z.of_nat (List.length [1; 9]))
  <= rspamd_words_levenshtein_distance [1; 2; 3] [1; 9].
Proof.
  apply (proj2 (levenshtein_bounds [1; 2; 3] [1; 9])). vm_compute. discriminate.
Defined.

(** X3.  The distance does not depend on the order of its two arguments. *)
Theorem levenshtein_symmetric (w1 w2 : list Z) :
  rspamd_words_levenshtein_distance w1 w2 = rspamd_words_levenshtein_distance w2 w1.
Proof.
  rewrite !lev_loop_result.
  rewrite (Z.add_comm (Z.of_nat (List.length w2))). rewrite (lev_cost_sym w1 w2).
  reflexivity.
Qed.

(** ** Entity decoding *)

Lemma upd_nth_same {A} (l : list A) (i : nat) (d : A) : upd l i (nth i l d) = l.
Proof.
  revert i. induction l as [|h t IH]; intros [|i]; cbn [upd nth]; try reflexivity.
  f_equal. apply IH.
Qed.

Lemma poke_peek_same (m : list ascii) (i : nat) :
  (i < List.length m)%nat -> poke m i (peek m i) = m.
Proof.
  intros Hi. unfold poke, peek.
  destruct (Nat.ltb_spec i (List.length m)); [apply upd_nth_same | lia].
Qed.

Lemma peek_poke_same (m : list ascii) (i : nat) (c : ascii) : peek (poke m i c) i = c.
Proof.
  unfold poke, peek. destruct (Nat.ltb_spec i (List.length m)).
  - apply nth_upd_eq. assumption.
  - rewrite app_nth2 by lia. rewrite app_nth2 by (rewrite repeat_length; lia).
    rewrite repeat_length. replace (i - List.length m - (i - List.length m))%nat with 0%nat by lia.
    reflexivity.
Qed.

Section DecodePlain.
Variable g_unichar_isgraph : Z -> bool.

(** Outside an entity the loop copies each byte onto itself while [t]
    and [h] run together. *)
Lemma decode_loop_plain (s : list ascii) (l : Z) (e : nat) (fuel : nat) :
  forall h : nat,
    0 <= l < 2^31 -> Z.of_nat (h + fuel) = l -> (h + fuel <= List.length s)%nat ->
    (forall i, (h <= i < h + fuel)%nat -> peek s i <> "&"%char) ->
    decode_loop g_unichar_isgraph fuel l (mk_dec s h h e false)
    = mk_dec s (h + fuel) (h + fuel) e false.
Proof.
  induction fuel as [|fuel IH]; intros h Hl Hf Hlen Hamp; cbn [decode_loop].
  - rewrite Nat.add_0_r. reflexivity.
  - cbn [dec_h]. rewrite sint32_small by lia.
    destruct (Z.ltb_spec (Z.of_nat h) l) as [_|Hge]; [|lia].
    unfold decode_step. cbn [dec_s dec_t dec_h dec_e dec_in_entity negb].
    destruct (Ascii.eqb_spec (peek s h) "&"%char) as [E|_].
    + exfalso. apply (Hamp h); [lia | exact E].
    + rewrite poke_peek_same by lia.
      rewrite (IH (S h)); try lia.
      * f_equal; lia.
      * intros i Hi. apply Hamp. lia.
Qed.
End DecodePlain.

(** X4.  A buffer whose first [l] bytes hold no [&] is left as it is and
    its length [l] is returned, [l] being [len], or [strlen (s)] when [len]
    is 0. *)
Theorem decode_entities_plain_text (isgraph : Z -> bool) (s : list ascii) (len : Z) :
  let l := if len =? 0 then strlen s else len in
  0 <= l < 2^31 -> l <= Z.of_nat (List.length s) ->
  (forall i, (Z.of_nat i < l) -> peek s i <> "&"%char) ->
  rspamd_html_decode_entitles_inplace isgraph s len = (s, l).
Proof.
  intros l Hl Hlen Hamp. unfold rspamd_html_decode_entitles_inplace.
  assert (El : (if len =? 0 then wrap32 (strlen s) else len) = l).
  { subst l. destruct (len =? 0); [apply wrap32_small; lia | reflexivity]. }
  rewrite El.
  rewrite (decode_loop_plain isgraph s l 0 (Z.to_nat l) 0); try lia.
  - cbn [dec_s dec_t]. rewrite Nat.add_0_l, Z2Nat.id by lia.
    rewrite wrap32_small by lia. reflexivity.
  - intros i Hi. apply Hamp. lia.
Qed.

Lemma decode_entities_plain_text_witness :
  rspamd_html_decode_entitles_inplace (fun _ => true) (bytes "a < b") 5
  = (bytes "a < b", 5).
Proof.
  apply (decode_entities_plain_text (fun _ => true) (bytes "a < b") 5).
  - vm_compute. split; [discriminate | reflexivity].
  - vm_compute. discriminate.
  - intros i Hi. cbn [Z.eqb] in Hi.
    destruct i as [|[|[|[|[|i]]]]]; try (vm_compute; discriminate). lia.
Defined.

Lemma take_cstr_le_nul (l : list ascii) :
  forall k, nth k l NUL = NUL -> (List.length (take_cstr l) <= k)%nat.
Proof.
  induction l as [|c r IH]; intros k Hk; cbn [take_cstr List.length]; [lia|].
  destruct (Ascii.eqb_spec c NUL) as [E|E]; cbn [List.length]; [lia|].
  destruct k as [|k]; cbn [nth] in Hk; [contradiction|].
  specialize (IH k Hk). lia.
Qed.

Lemma take_cstr_no_nul (l : list ascii) : ~ In NUL (take_cstr l).
Proof.
  induction l as [|c r IH]; cbn [take_cstr]; [intros []|].
  destruct (Ascii.eqb_spec c NUL) as [E|E]; [intros []|].
  intros [H|H]; [exact (E H) | exact (IH H)].
Qed.

Lemma code_NUL (c : ascii) : code c = 0 -> c = NUL.
Proof. intros E. apply code_inj. rewrite E. reflexivity. Qed.

Lemma strcasecmp_zero_length (a : list ascii) :
  forall b, g_ascii_strcasecmp a b = 0 -> ~ In NUL a -> ~ In NUL b ->
            List.length a = List.length b.
Proof.
  induction a as [|x a IH]; intros [|y b] Hz Ha Hb; cbn [g_ascii_strcasecmp] in Hz.
  - reflexivity.
  - exfalso. apply Hb. left. apply code_NUL. lia.
  - exfalso. apply Ha. left. apply code_NUL. lia.
  - destruct (Z.eqb_spec (code (g_ascii_tolower x)) (code (g_ascii_tolower y))) as [E|E];
      [|lia].
    cbn [List.length]. f_equal. apply IH; [exact Hz | |];
      intros Hin; [apply Ha | apply Hb]; right; exact Hin.
Qed.

(** What the replacements of the table are bounded by. *)
Lemma entities_defs_facts (f : entity) :
  In f entities_defs \/ In f entities_defs_num ->
  (2 <= List.length (bytes (ent_name f)))%nat
  /\ ~ In NUL (bytes (ent_name f))
  /\ match ent_replacement f with
     | Some r => (List.length (bytes r) <= 8)%nat
     | None => True
     end.
Proof.
  pose (chk := fun f : entity =>
          (2 <=? List.length (bytes (ent_name f)))%nat
          && negb (existsb (Ascii.eqb NUL) (bytes (ent_name f)))
          && match ent_replacement f with
             | Some r => (List.length (bytes r) <=? 8)%nat
             | None => true
             end).
  assert (H1 : forallb chk entities_defs = true) by (vm_compute; reflexivity).
  assert (H2 : forallb chk entities_defs_num = true) by (vm_compute; reflexivity).
  intros Hin.
  assert (Hc : chk f = true).
  { destruct Hin as [Hin|Hin];
      [exact (proj1 (forallb_forall _ _) H1 f Hin)
      | exact (proj1 (forallb_forall _ _) H2 f Hin)]. }
  unfold chk in Hc. apply andb_prop in Hc. destruct Hc as [Hc H3].
  apply andb_prop in Hc. destruct Hc as [Ha Hb].
  split; [apply Nat.leb_le; exact Ha|]. split.
  - intros Hn. apply negb_true_iff in Hb.
    assert (Ht : existsb (Ascii.eqb NUL) (bytes (ent_name f)) = true).
    { apply existsb_exists. exists NUL. split; [exact Hn | apply Ascii.eqb_refl]. }
    congruence.
  - destruct (ent_replacement f); [apply Nat.leb_le; exact H3 | exact I].
Qed.

Lemma g_unichar_to_utf8_length (c : Z) : (List.length (g_unichar_to_utf8 c) <= 6)%nat.
Proof.
  unfold g_unichar_to_utf8.
  repeat match goal with |- context [if ?b then _ else _] => destruct b end;
    cbn [List.length]; lia.
Qed.

Lemma nth_skipn {A} (l : list A) (n k : nat) (d : A) :
  nth k (skipn n l) d = nth (n + k) l d.
Proof.
  revert l. induction n as [|n IH]; intros l; [reflexivity|].
  destruct l as [|x l]; [destruct k; reflexivity|]. apply IH.
Qed.

Section DecodeBound.
Variable g_unichar_isgraph : Z -> bool.

(** The token [e .. h] adds no more than its own length to the output, or
    it is at least four bytes long and adds no more than eight. *)
Lemma decode_token_bound (m : list ascii) (t h e : nat) :
  (e < h)%nat ->
  let t' := snd (decode_token g_unichar_isgraph m t h e) in
  (t' <= t + (h - e))%nat \/ ((e + 3 <= h)%nat /\ (t' <= t + 8)%nat).
Proof.
  intros Heh. unfold decode_token.
  set (m1 := poke m h NUL).
  destruct (if negb (Ascii.eqb (peek m1 (S e)) "#")
            then bsearch (fun k p => g_ascii_strcasecmp k (bytes (ent_name p)))
                         (cstr_at m1 (S e)) entities_defs
            else None) as [f|] eqn:Ef.
  - destruct (negb (Ascii.eqb (peek m1 (S e)) "#")); [|discriminate].
    apply bsearch_sound in Ef. destruct Ef as [Hin Hz].
    destruct (entities_defs_facts f (or_introl Hin)) as (Hn2 & Hnul & Hrep).
    destruct (ent_replacement f) as [rep|]; cbn [snd]; [|left; lia].
    right. split; [|lia].
    assert (Hk : (List.length (cstr_at m1 (S e)) <= h - S e)%nat).
    { unfold cstr_at. apply take_cstr_le_nul. rewrite nth_skipn.
      replace (S e + (h - S e))%nat with h by lia. apply peek_poke_same. }
    apply strcasecmp_zero_length in Hz; [lia | apply take_cstr_no_nul | exact Hnul].
  - destruct (Nat.ltb_spec (e + 2) h) as [H2|H2]; [|cbn [snd]; left; lia].
    match goal with |- context [strtoul ?s ?b] => destruct (strtoul s b) as [v consumed] end.
    match goal with |- context [(consumed <? ?n)%nat] => destruct (consumed <? n)%nat end;
      [cbn [snd]; left; lia|].
    match goal with |- context [bsearch ?c ?k entities_defs_num] =>
      destruct (bsearch c k entities_defs_num) as [f|] eqn:Eb end.
    + apply bsearch_sound in Eb. destruct Eb as [Hin _].
      destruct (entities_defs_facts f (or_intror Hin)) as (_ & _ & Hrep).
      destruct (ent_replacement f) as [rep|]; cbn [snd]; [right; lia | left; lia].
    + match goal with |- context [g_unichar_isgraph ?k] =>
        destruct (g_unichar_isgraph k); cbn [snd];
          [pose proof (g_unichar_to_utf8_length k); right; lia | left; lia] end.
Qed.

Lemma decode_step_bounded (st : dec_state) :
  dec_bounded st ->
  dec_bounded (decode_step g_unichar_isgraph st)
  /\ dec_h (decode_step g_unichar_isgraph st) = S (dec_h st).
Proof.
  destruct st as [m t h e ine]. unfold dec_bounded, decode_step.
  cbn [dec_s dec_t dec_h dec_e dec_in_entity].
  destruct ine; cbn [negb].
  - intros [Ht He].
    destruct (Ascii.eqb (peek m h) ";" && (e <? h)%nat).
    + pose proof (decode_token_bound m t h e He) as Hb. cbv zeta in Hb.
      destruct (decode_token g_unichar_isgraph m t h e) as [m' t'].
      cbn [snd] in Hb. cbn [dec_t dec_h dec_e dec_in_entity]. split; [lia | reflexivity].
    + cbn [dec_t dec_h dec_e dec_in_entity]. split; [lia | reflexivity].
  - intros Ht. destruct (Ascii.eqb (peek m h) "&");
      cbn [dec_t dec_h dec_e dec_in_entity]; split; try reflexivity; lia.
Qed.

Lemma decode_loop_bounded (l : Z) (fuel : nat) :
  forall st,
    dec_bounded st -> Z.of_nat (dec_h st) <= Z.max 0 (sint32 l) ->
    let st' := decode_loop g_unichar_isgraph fuel l st in
    dec_bounded st' /\ Z.of_nat (dec_h st') <= Z.max 0 (sint32 l).
Proof.
  induction fuel as [|fuel IH]; intros st Hb Hh; cbn [decode_loop]; [split; assumption|].
  destruct (Z.ltb_spec (Z.of_nat (dec_h st)) (sint32 l)) as [Hlt|Hge]; [|split; assumption].
  destruct (decode_step_bounded st Hb) as [Hb' Hh'].
  apply IH; [exact Hb' | rewrite Hh'; lia].
Qed.
End DecodeBound.

Lemma sint32_le (z : Z) : 0 <= z < 2^32 -> sint32 z <= z.
Proof.
  intros Hz. unfold sint32. rewrite wrap32_small by lia.
  destruct (z <? 2^31); lia.
Qed.

(** X5.  The length returned is at most twice the length of the input, [len],
    or [strlen (s)] when [len] is 0: a token adds more bytes than it
    has only when it is replaced, by eight bytes at most, and such a token
    has four bytes at least. *)
Theorem decode_entities_at_most_doubles (isgraph : Z -> bool) (s : list ascii) (len : Z) :
  0 <= len < 2^32 ->
  snd (rspamd_html_decode_entitles_inplace isgraph s len)
  <= 2 * (if len =? 0 then wrap32 (strlen s) else len).
Proof.
  intros Hlen. unfold rspamd_html_decode_entitles_inplace. cbn [snd].
  set (l := if len =? 0 then wrap32 (strlen s) else len).
  assert (Hl : 0 <= l < 2^32).
  { subst l. destruct (len =? 0); [apply Z.mod_pos_bound; lia | exact Hlen]. }
  destruct (decode_loop_bounded isgraph l (Z.to_nat l) (mk_dec s 0 0 0 false))
    as [Hb Hh].
  - unfold dec_bounded. cbn [dec_in_entity dec_t dec_h]. lia.
  - cbn [dec_h]. lia.
  - set (st := decode_loop isgraph (Z.to_nat l) l (mk_dec s 0 0 0 false)) in *.
    pose proof (sint32_le l Hl) as Hs.
    assert (Ht : Z.of_nat (dec_t st) <= 2 * l).
    { unfold dec_bounded in Hb. destruct (dec_in_entity st); lia. }
    unfold wrap32.
    pose proof (Z.mod_le (Z.of_nat (dec_t st)) (2^32) ltac:(lia) ltac:(lia)). lia.
Qed.

Lemma decode_entities_at_most_doubles_witness :
  snd (rspamd_html_decode_entitles_inplace (fun _ => true) (bytes "&#977;") 6)
  <= 2 * (if 6 =? 0 then wrap32 (strlen (bytes "&#977;")) else 6).
Proof.
  apply (decode_entities_at_most_doubles (fun _ => true) (bytes "&#977;") 6).
  vm_compute. split; [discriminate | reflexivity].
Defined.

(** X6.  For every row of the entity table, decoding the token [&name;] writes
    what the table gives for a row with that name up to case (the lookup
    uses [g_ascii_strcasecmp], and names such as [Iacute] and [iacute]
    only differ in case): its replacement, or the token without the [;]
    when it has none. *)
Theorem decode_named_entity (isgraph : Z -> bool) (f : entity) :
  In f entities_defs_src ->
  exists g,
    In g entities_defs_src
    /\ lower (bytes (ent_name g)) = lower (bytes (ent_name f))
    /\ snd (rspamd_html_decode_entitles_inplace isgraph (entity_token f)
              (Z.of_nat (List.length (entity_token f))))
       = Z.of_nat (List.length (entity_output f g))
    /\ firstn (List.length (entity_output f g))
              (fst (rspamd_html_decode_entitles_inplace isgraph (entity_token f)
                      (Z.of_nat (List.length (entity_token f)))))
       = entity_output f g.
Proof.
  pose (chk := fun f : entity =>
          let r := rspamd_html_decode_entitles_inplace isgraph (entity_token f)
                     (Z.of_nat (List.length (entity_token f))) in
          existsb (fun g =>
                     bytes_eqb (lower (bytes (ent_name g))) (lower (bytes (ent_name f)))
                     && (snd r =? Z.of_nat (List.length (entity_output f g)))
                     && bytes_eqb (firstn (List.length (entity_output f g)) (fst r))
                                  (entity_output f g))
                  entities_defs_src).
  assert (Hall : forallb chk entities_defs_src = true) by (vm_compute; reflexivity).
  intros Hin. pose proof (proj1 (forallb_forall _ _) Hall f Hin) as Hc.
  unfold chk in Hc. cbv zeta in Hc. apply existsb_exists in Hc.
  destruct Hc as (g & Hg & Hc).
  apply andb_prop in Hc. destruct Hc as [Hc H3].
  apply andb_prop in Hc. destruct Hc as [H1 H2].
  exists g. split; [exact Hg|]. split; [apply bytes_eqb_eq; exact H1|].
  split; [apply Z.eqb_eq; exact H2 | apply bytes_eqb_eq; exact H3].
Qed.

Lemma decode_named_entity_witness :
  exists g,
    In g entities_defs_src
    /\ lower (bytes (ent_name g)) = lower (bytes "amp")
    /\ snd (rspamd_html_decode_entitles_inplace (fun _ => true) (bytes "&amp;") 5)
       = Z.of_nat (List.length (entity_output (ent "amp" 38 (Some "&"%string)) g))
    /\ firstn (List.length (entity_output (ent "amp" 38 (Some "&"%string)) g))
              (fst (rspamd_html_decode_entitles_inplace (fun _ => true) (bytes "&amp;") 5))
       = entity_output (ent "amp" 38 (Some "&"%string)) g.
Proof.
  apply (decode_named_entity (fun _ => true) (ent "amp" 38 (Some "&"%string))).
  vm_compute. tauto.
Defined.

(** ** URLs taken from attributes *)

Lemma url_encode_fold (s : list ascii) (acc : list ascii * bool) :
  fold_left (fun acc c =>
               let '(d, bad) := url_encode_byte c in
               (fst acc ++ d, snd acc || bad)) s acc
  = (fst acc ++ concat (map (fun c => fst (url_encode_byte c)) s),
     snd acc || existsb (fun c => snd (url_encode_byte c)) s).
Proof.
  revert acc. induction s as [|c s IH]; intros [d b]; cbn [fold_left map concat existsb fst snd].
  - rewrite app_nil_r, orb_false_r. reflexivity.
  - rewrite IH. destruct (url_encode_byte c) as [d' b']. cbn [fst snd].
    rewrite app_assoc, orb_assoc. reflexivity.
Qed.

Lemma url_encode_spec (s : list ascii) :
  url_encode s = (concat (map (fun c => fst (url_encode_byte c)) s),
                  existsb (fun c => snd (url_encode_byte c)) s).
Proof. unfold url_encode. rewrite url_encode_fold. reflexivity. Qed.




Lemma url_encode_byte_length (c : ascii) :
  Z.of_nat (List.length (fst (url_encode_byte c)))
  <= if (code c <? 128) && negb (g_ascii_isgraph c) then 3 else 1.
Proof.
  unfold url_encode_byte.
  destruct (Ascii.eqb c "013" || Ascii.eqb c "010"); cbn [fst List.length].
  - destruct ((code c <? 128) && negb (g_ascii_isgraph c)); lia.
  - destruct ((code c <? 128) && negb (g_ascii_isgraph c)); cbn [fst List.length]; lia.
Qed.



Lemma url_dlen_fold (s : list ascii) :
  forall acc, 0 <= acc -> acc + 3 * Z.of_nat (List.length s) < 2^32 ->
  let r := fold_left (fun dlen c =>
                        if (code c <? 128) && negb (g_ascii_isgraph c)
                        then wrap32 (dlen + 3) else wrap32 (dlen + 1)) s acc in
  acc + Z.of_nat (List.length (concat (map (fun c => fst (url_encode_byte c)) s))) <= r
  /\ r <= acc + 3 * Z.of_nat (List.length s).
Proof.
  induction s as [|c s IH]; intros acc Ha Hb; cbn [fold_left map concat List.length].
  - cbv zeta. lia.
  - cbn [List.length] in Hb. rewrite Nat2Z.inj_succ in Hb.
    pose proof (url_encode_byte_length c) as Hc.
    rewrite length_app, Nat2Z.inj_add.
    destruct ((code c <? 128) && negb (g_ascii_isgraph c)).
    + rewrite wrap32_small by lia.
      destruct (IH (acc + 3) ltac:(lia) ltac:(lia)) as [H1 H2]. cbv zeta. lia.
    + rewrite wrap32_small by lia.
      destruct (IH (acc + 1) ltac:(lia) ltac:(lia)) as [H1 H2]. cbv zeta. lia.
Qed.

(** X8.  The bytes written to [decoded], with the NUL that ends them, fit
    the [dlen + 1] bytes that were allocated for it, as long as [dlen] does
    not wrap (three times the length of the trimmed value, plus seven, is
    below 2^32). *)
Theorem process_url_fits_allocation (start : list ascii) :
  3 * Z.of_nat (List.length (url_trim start)) + 7 < 2^32 ->
  Z.of_nat (List.length (fst (fst (process_url_decoded start)))) + 1
  <= url_dlen (url_trim start) + 1.
Proof.
  intros Hlen. unfold process_url_decoded, url_dlen. rewrite url_encode_spec.
  cbn [fst snd]. set (s := url_trim start) in *.
  destruct (url_dlen_fold s 0 ltac:(lia) ltac:(lia)) as [H1 H2]. cbv zeta in H1, H2.
  rewrite length_app, Nat2Z.inj_add.
  destruct (url_no_prefix s).
  - rewrite wrap32_small by lia.
    match goal with |- context [if ?b then bytes "http:" else _] => destruct b end;
      cbn [bytes list_ascii_of_string List.length]; lia.
  - cbn [List.length]. lia.
Qed.

Lemma process_url_fits_allocation_witness :
  Z.of_nat (List.length (fst (fst (process_url_decoded (bytes " a b "))))) + 1
  <= url_dlen (url_trim (bytes " a b ")) + 1.
Proof.
  apply (process_url_fits_allocation (bytes " a b ")). vm_compute. reflexivity.
Defined.

Lemma count_while_le {A} (f : A -> bool) (l : list A) :
  (count_while f l <= List.length l)%nat.
Proof.
  induction l as [|x l IH]; cbn [count_while List.length]; [lia|].
  destruct (f x); lia.
Qed.

Lemma count_while_all {A} (f : A -> bool) (l : list A) :
  forallb f l = true -> count_while f l = List.length l.
Proof.
  induction l as [|x l IH]; cbn [count_while List.length forallb]; [reflexivity|].
  intros H. apply andb_prop in H. destruct H as [Hx Hl]. rewrite Hx, IH by exact Hl.
  reflexivity.
Qed.

Lemma count_while_app_all {A} (f : A -> bool) (a b : list A) :
  forallb f a = true ->
  count_while f (a ++ b) = (List.length a + count_while f b)%nat.
Proof.
  induction a as [|x a IH]; cbn [count_while List.length forallb app]; [reflexivity|].
  intros H. apply andb_prop in H. destruct H as [Hx Hl]. rewrite Hx, IH by exact Hl.
  reflexivity.
Qed.

Lemma count_while_app_stop {A} (f : A -> bool) (a b : list A) :
  forallb f a = false ->
  count_while f (a ++ b) = count_while f a /\ (count_while f a < List.length a)%nat.
Proof.
  induction a as [|x a IH]; cbn [count_while List.length forallb app]; [discriminate|].
  destruct (f x); cbn [andb]; intros H; [|split; [reflexivity | lia]].
  destruct (IH H) as [E Hlt]. rewrite E. split; [reflexivity | lia].
Qed.

Lemma url_trim_tail_le (s : list ascii) (len : nat) : (url_trim_tail s len <= len)%nat.
Proof.
  induction len as [|k IH]; cbn [url_trim_tail]; [lia|].
  destruct (g_ascii_isspace (nth k s NUL)); lia.
Qed.

Lemma url_trim_tail_ext (s s' : list ascii) (len : nat) :
  (forall k, (k < len)%nat -> nth k s NUL = nth k s' NUL) ->
  url_trim_tail s len = url_trim_tail s' len.
Proof.
  induction len as [|k IH]; intros H; cbn [url_trim_tail]; [reflexivity|].
  rewrite (H k) by lia. rewrite IH; [reflexivity|]. intros j Hj. apply H. lia.
Qed.

Lemma url_trim_tail_spaces (s : list ascii) (len n : nat) :
  (forall k, (len <= k < len + n)%nat -> g_ascii_isspace (nth k s NUL) = true) ->
  url_trim_tail s (len + n) = url_trim_tail s len.
Proof.
  induction n as [|n IH]; intros H; [rewrite Nat.add_0_r; reflexivity|].
  replace (len + S n)%nat with (S (len + n)) by lia. cbn [url_trim_tail].
  rewrite H by lia. apply IH. intros k Hk. apply H. lia.
Qed.

Lemma url_trim_strip (ws s ws' : list ascii) :
  forallb g_ascii_isspace ws = true -> forallb g_ascii_isspace ws' = true ->
  url_trim (ws ++ s ++ ws') = url_trim s.
Proof.
  intros Hws Hws'. unfold url_trim.
  rewrite (count_while_app_all _ ws (s ++ ws') Hws).
  rewrite skipn_app, skipn_all2 by lia.
  replace (List.length ws + count_while g_ascii_isspace (s ++ ws') - List.length ws)%nat
    with (count_while g_ascii_isspace (s ++ ws')) by lia.
  cbn [app].
  destruct (forallb g_ascii_isspace s) eqn:Es.
  - rewrite (count_while_app_all _ s ws' Es), (count_while_all _ ws' Hws').
    rewrite (count_while_all _ s Es).
    rewrite !skipn_all2 by (rewrite ?length_app; lia).
    reflexivity.
  - destruct (count_while_app_stop _ s ws' Es) as [E Hlt]. rewrite E.
    set (k := count_while g_ascii_isspace s) in *.
    rewrite skipn_app. replace (k - List.length s)%nat with 0%nat by lia.
    cbn [skipn]. set (u := skipn k s).
    rewrite length_app.
    rewrite (url_trim_tail_spaces (u ++ ws') (List.length u) (List.length ws')).
    + rewrite (url_trim_tail_ext (u ++ ws') u (List.length u)).
      * pose proof (url_trim_tail_le u (List.length u)) as Hle.
        rewrite firstn_app.
        replace (url_trim_tail u (List.length u) - List.length u)%nat with 0%nat by lia.
        cbn [firstn]. apply app_nil_r.
      * intros j Hj. apply app_nth1. exact Hj.
    + intros j Hj. rewrite app_nth2 by lia.
      apply (proj1 (forallb_forall _ _) Hws'). apply nth_In. lia.
Qed.

Section UrlSpaces.
Variables RSPAMD_URL_FLAG_OBSCURED RSPAMD_URL_FLAG_SCHEMALESS
          RSPAMD_URL_FLAG_UNNORMALISED : Z.
Variable rspamd_normalise_unicode_inplace : list ascii -> list ascii * bool.
Variable rspamd_url_parse : rspamd_url -> list ascii -> option rspamd_url.

(** X9.  White space before and after the attribute value does not count:
    the URL made of the value is the URL made of the value between the
    white space.  White space is what [g_ascii_isspace] takes for it:
    space, \t, \n, \f and \r, not \v. *)
Theorem process_url_ignores_outer_space (ws s ws' : list ascii) :
  forallb g_ascii_isspace ws = true -> forallb g_ascii_isspace ws' = true ->
  rspamd_html_process_url RSPAMD_URL_FLAG_OBSCURED RSPAMD_URL_FLAG_SCHEMALESS
    RSPAMD_URL_FLAG_UNNORMALISED rspamd_normalise_unicode_inplace rspamd_url_parse
    (ws ++ s ++ ws')
  = rspamd_html_process_url RSPAMD_URL_FLAG_OBSCURED RSPAMD_URL_FLAG_SCHEMALESS
      RSPAMD_URL_FLAG_UNNORMALISED rspamd_normalise_unicode_inplace rspamd_url_parse
      s.
Proof.
  intros Hws Hws'. unfold rspamd_html_process_url, process_url_decoded.
  rewrite (url_trim_strip ws s ws' Hws Hws'). reflexivity.
Qed.
End UrlSpaces.

Lemma process_url_ignores_outer_space_witness :
  rspamd_html_process_url 1 2 4 (fun d => (d, false)) (fun u d => Some u)
    (bytes "  " ++ bytes "a.b/c d" ++ bytes " ")
  = rspamd_html_process_url 1 2 4 (fun d => (d, false)) (fun u d => Some u)
      (bytes "a.b/c d").
Proof.
  apply process_url_ignores_outer_space; vm_compute; reflexivity.
Defined.

(** ** Subdomains and displayed URLs *)

Lemma peekz_nth (t : list ascii) (i : nat) :
  (i < List.length t)%nat -> peekz t (Z.of_nat i) = nth i t NUL.
Proof.
  intros Hi. unfold peekz.
  destruct (Z.leb_spec 0 (Z.of_nat i)); [|lia].
  destruct (Z.ltb_spec (Z.of_nat i) (Z.of_nat (List.length t))); [|lia].
  cbn [andb]. rewrite Nat2Z.id. reflexivity.
Qed.

Lemma peekz_app_r (pre t : list ascii) (i : Z) :
  0 <= i < Z.of_nat (List.length t) ->
  peekz (pre ++ t) (Z.of_nat (List.length pre) + i) = peekz t i.
Proof.
  intros Hi. rewrite <- (Z2Nat.id i) by lia.
  rewrite <- Nat2Z.inj_add.
  rewrite !peekz_nth by (rewrite ?length_app; lia).
  rewrite app_nth2 by lia. f_equal. lia.
Qed.

Lemma nth_last_byte (t : list ascii) :
  t <> [] -> nth (List.length t - 1) t NUL = last t NUL.
Proof.
  induction t as [|c t IH]; [congruence|]. intros _.
  destruct t as [|c' t]; [reflexivity|].
  specialize (IH ltac:(discriminate)).
  replace (List.length (c :: c' :: t) - 1)%nat with (S (List.length (c' :: t) - 1))
    by (cbn [List.length]; lia).
  change (last (c :: c' :: t) NUL) with (last (c' :: t) NUL).
  rewrite <- IH. reflexivity.
Qed.

Lemma skip_trailing_dots_none (fuel : nat) (t : list ascii) (p : Z) :
  peekz t p <> "."%char -> skip_trailing_dots fuel t p = p.
Proof.
  intros Hp. destruct fuel as [|fuel]; cbn [skip_trailing_dots]; [reflexivity|].
  destruct (p >? 0); [|reflexivity].
  destruct (Ascii.eqb_spec (peekz t p) "."%char); [contradiction | reflexivity].
Qed.

Section SuffixWalk.
Variables t1 t2 : list ascii.
Variable off : Z.
Hypothesis off_pos : 0 < off.
Hypothesis same : forall i, 0 < i < Z.of_nat (List.length t2) ->
                            peekz t1 (off + i) = peekz t2 i.

Lemma subdomain_walk_suffix (fuel : nat) :
  forall p2, 0 <= p2 <= Z.of_nat fuel -> p2 < Z.of_nat (List.length t2) ->
             subdomain_walk fuel t1 t2 (off + p2) p2 = (off, 0).
Proof.
  induction fuel as [|fuel IH]; intros p2 Hp Hlen; cbn [subdomain_walk].
  - assert (p2 = 0) by lia. subst p2. rewrite Z.add_0_r. reflexivity.
  - destruct (Z.gtb_spec p2 0) as [Hgt|Hle].
    + destruct (Z.gtb_spec (off + p2) 0); [|lia]. cbn [andb].
      rewrite same by lia. rewrite Ascii.eqb_refl. cbn [negb].
      replace (off + p2 - 1) with (off + (p2 - 1)) by lia. apply IH; lia.
    + assert (p2 = 0) by lia. subst p2. rewrite andb_false_r, Z.add_0_r. reflexivity.
Qed.

Lemma subdomain_walk_suffix_r (fuel : nat) :
  forall p2, 0 <= p2 <= Z.of_nat fuel -> p2 < Z.of_nat (List.length t2) ->
             subdomain_walk fuel t2 t1 p2 (off + p2) = (0, off).
Proof.
  induction fuel as [|fuel IH]; intros p2 Hp Hlen; cbn [subdomain_walk].
  - assert (p2 = 0) by lia. subst p2. rewrite Z.add_0_r. reflexivity.
  - destruct (Z.gtb_spec p2 0) as [Hgt|Hle].
    + destruct (Z.gtb_spec (off + p2) 0); [|lia]. cbn [andb].
      rewrite same by lia. rewrite Ascii.eqb_refl. cbn [negb].
      replace (off + p2 - 1) with (off + (p2 - 1)) by lia. apply IH; lia.
    + assert (p2 = 0) by lia. subst p2. cbn [andb]. rewrite Z.add_0_r. reflexivity.
Qed.
End SuffixWalk.

Lemma url_is_subdomain_suffix (pre t2 : list ascii) :
  t2 <> [] -> last t2 NUL <> "."%char ->
  rspamd_url_is_subdomain (pre ++ "."%char :: t2) t2 = true
  /\ rspamd_url_is_subdomain t2 (pre ++ "."%char :: t2) = true.
Proof.
  intros Hne Hlast. set (t1 := pre ++ "."%char :: t2).
  assert (Hn2 : (0 < List.length t2)%nat) by (destruct t2; [congruence | cbn; lia]).
  set (off := Z.of_nat (List.length pre) + 1).
  assert (Hl1 : Z.of_nat (List.length t1) - 1 = off + (Z.of_nat (List.length t2) - 1)).
  { unfold t1, off. rewrite length_app. cbn [List.length]. lia. }
  assert (Hsame : forall i, 0 <= i < Z.of_nat (List.length t2) ->
                            peekz t1 (off + i) = peekz t2 i).
  { intros i Hi. unfold t1, off.
    change (pre ++ "."%char :: t2) with (pre ++ ["."%char] ++ t2). rewrite app_assoc.
    replace (Z.of_nat (List.length pre) + 1 + i)
      with (Z.of_nat (List.length (pre ++ ["."%char])) + i)
      by (rewrite length_app; cbn [List.length]; lia).
    apply peekz_app_r. exact Hi. }
  assert (Hend2 : peekz t2 (Z.of_nat (List.length t2) - 1) <> "."%char).
  { replace (Z.of_nat (List.length t2) - 1) with (Z.of_nat (List.length t2 - 1)) by lia.
    rewrite peekz_nth by lia. rewrite nth_last_byte by exact Hne. exact Hlast. }
  assert (Hend1 : peekz t1 (Z.of_nat (List.length t1) - 1) <> "."%char).
  { rewrite Hl1, Hsame by lia. exact Hend2. }
  assert (Hdot : peekz t1 (off - 1) = "."%char).
  { unfold off. replace (Z.of_nat (List.length pre) + 1 - 1)
      with (Z.of_nat (List.length pre)) by lia.
    rewrite peekz_nth by (unfold t1; rewrite length_app; cbn [List.length]; lia).
    unfold t1. rewrite app_nth2 by lia. rewrite Nat.sub_diag. reflexivity. }
  assert (Hoff : (off =? 0) = false) by (apply Z.eqb_neq; unfold off; lia).
  assert (Hpos : 0 < off) by (unfold off; lia).
  assert (Hsame' : forall i, 0 < i < Z.of_nat (List.length t2) ->
                             peekz t1 (off + i) = peekz t2 i)
    by (intros i Hi; apply Hsame; lia).
  assert (Hfuel : Z.of_nat (List.length t2) - 1 <= Z.of_nat (List.length t1)) by lia.
  split; unfold rspamd_url_is_subdomain.
  - rewrite !skip_trailing_dots_none by assumption.
    rewrite Hl1.
    rewrite (subdomain_walk_suffix t1 t2 off Hpos Hsame') by lia.
    rewrite Z.eqb_refl, Hoff, Hdot. reflexivity.
  - rewrite !skip_trailing_dots_none by assumption.
    rewrite Hl1.
    rewrite (subdomain_walk_suffix_r t1 t2 off Hpos Hsame') by lia.
    rewrite Hoff, Hdot. reflexivity.
Qed.

(** X10.  [rspamd_url_is_subdomain] is TRUE, in either order of its
    arguments, for a token and a proper suffix of it that starts right
    after a dot, when the suffix is not empty and does not end in a dot. *)
Theorem url_is_subdomain_of_suffix (pre t2 : list ascii) :
  t2 <> [] -> last t2 NUL <> "."%char ->
  rspamd_url_is_subdomain (pre ++ "."%char :: t2) t2 = true
  /\ rspamd_url_is_subdomain t2 (pre ++ "."%char :: t2) = true.
Proof.
  intros Hne Hlast.
  destruct (url_is_subdomain_suffix pre t2 Hne Hlast) as [Hl Hr].
  split; [exact Hl | exact Hr].
Qed.

Lemma url_is_subdomain_of_suffix_witness :
  rspamd_url_is_subdomain (bytes "mail" ++ "."%char :: bytes "example.com")
                          (bytes "example.com") = true
  /\ rspamd_url_is_subdomain (bytes "example.com")
       (bytes "mail" ++ "."%char :: bytes "example.com") = true.
Proof.
  apply (url_is_subdomain_of_suffix (bytes "mail") (bytes "example.com")).
  - discriminate.
  - vm_compute. discriminate.
Defined.

Section DisplayedUrl.
Variables RSPAMD_URL_FLAG_PHISHED RSPAMD_URL_FLAG_HTML_DISPLAYED : Z.
Variable rspamd_url_find : list ascii -> option (list ascii * Z).
Variable rspamd_url_parse : list ascii -> option rspamd_url.
Variable uidna_nameToUnicodeUTF8 : list ascii -> option (list ascii).
Variable rspamd_ftok_casecmp : list ascii -> list ascii -> Z.

Lemma idn_tok_plain (uc_err : bool) (name : list ascii) :
  rspamd_substring_search_caseless name (bytes "xn--") = -1 ->
  idn_tok uidna_nameToUnicodeUTF8 uc_err name = (name, uc_err).
Proof. intros E. unfold idn_tok. rewrite E. reflexivity. Qed.

(** X11.  When the text of an anchor is found to be a URL that parses, and no
    name involved has an [xn--] label, the target is left without the
    phished flag, and the displayed URL is returned as found, in each of
    these cases: the two hosts compare equal, the two TLDs compare equal,
    or one TLD is a proper suffix of the other that starts right after a
    dot (and is not empty and does not end in a dot). *)
Theorem displayed_url_not_phished
        (href_url text_url : rspamd_url) (url_text url_str pre : list ascii) :
  let text := skipn (count_while g_ascii_isspace url_text) url_text in
  (4 < List.length text)%nat ->
  rspamd_url_find text = Some (url_str, 0) ->
  rspamd_url_parse url_str = Some text_url ->
  rspamd_substring_search_caseless (url_host text_url) (bytes "xn--") = -1 ->
  rspamd_substring_search_caseless (url_host href_url) (bytes "xn--") = -1 ->
  rspamd_substring_search_caseless (url_tld text_url) (bytes "xn--") = -1 ->
  rspamd_substring_search_caseless (url_tld href_url) (bytes "xn--") = -1 ->
  rspamd_ftok_casecmp (url_host text_url) (url_host href_url) = 0
  \/ rspamd_ftok_casecmp (url_tld text_url) (url_tld href_url) = 0
  \/ (url_tld href_url <> [] /\ last (url_tld href_url) NUL <> "."%char
      /\ url_tld text_url = pre ++ "."%char :: url_tld href_url)
  \/ (url_tld text_url <> [] /\ last (url_tld text_url) NUL <> "."%char
      /\ url_tld href_url = pre ++ "."%char :: url_tld text_url) ->
  rspamd_html_url_is_phished RSPAMD_URL_FLAG_PHISHED RSPAMD_URL_FLAG_HTML_DISPLAYED
    rspamd_url_find rspamd_url_parse uidna_nameToUnicodeUTF8 rspamd_ftok_casecmp
    href_url url_text
  = mk_phished href_url true (Some text_url).
Proof.
  intros text Hlen Hfind Hparse X1 X2 X3 X4 Hcase.
  unfold rspamd_html_url_is_phished. fold text.
  destruct (Nat.ltb_spec 4 (List.length text)); [|lia].
  rewrite Hfind. cbn [Z.gtb Z.compare andb]. rewrite Hparse.
  rewrite (idn_tok_plain false _ X1), (idn_tok_plain false _ X2).
  destruct (Z.eqb_spec (rspamd_ftok_casecmp (url_host text_url) (url_host href_url)) 0)
    as [E|E]; cbn [negb]; [reflexivity|].
  rewrite (idn_tok_plain false _ X3), (idn_tok_plain false _ X4).
  destruct (Z.eqb_spec (rspamd_ftok_casecmp (url_tld text_url) (url_tld href_url)) 0)
    as [E'|E']; cbn [negb andb]; [reflexivity|].
  destruct Hcase as [Hc|[Hc|[(Hne & Hl & Ht)|(Hne & Hl & Ht)]]]; try contradiction.
  - rewrite Ht.
    rewrite (proj1 (url_is_subdomain_suffix pre (url_tld href_url) Hne Hl)).
    reflexivity.
  - rewrite Ht.
    rewrite (proj2 (url_is_subdomain_suffix pre (url_tld text_url) Hne Hl)).
    reflexivity.
Qed.
End DisplayedUrl.

Lemma displayed_url_not_phished_witness :
  rspamd_html_url_is_phished 1 2 sample_url_find sample_url_parse (fun _ => None)
    sample_ftok_casecmp
    (mk_url (bytes "http://example.com") (bytes "example.com") (bytes "example.com")
            0 None [])
    (bytes " http://mail.example.com")
  = mk_phished
      (mk_url (bytes "http://example.com") (bytes "example.com") (bytes "example.com")
              0 None [])
      true
      (Some (mk_url (bytes "http://mail.example.com") (bytes "mail.example.com")
                    (bytes "mail.example.com") 0 None [])).
Proof.
  apply (displayed_url_not_phished 1 2 sample_url_find sample_url_parse (fun _ => None)
           sample_ftok_casecmp _ _ (bytes " http://mail.example.com")
           (bytes "http://mail.example.com") (bytes "mail")).
  - vm_compute. lia.
  - reflexivity.
  - reflexivity.
  - vm_compute. reflexivity.
  - vm_compute. reflexivity.
  - vm_compute. reflexivity.
  - vm_compute. reflexivity.
  - right. right. left. split; [discriminate|]. split; [vm_compute; discriminate|].
    reflexivity.
Defined.

(** ** The tag tree: no NULL or freed node is followed *)

Lemma live_lt (P : parser) (j : nat) : live P j -> (j < List.length (p_nodes P))%nat.
Proof. intros [n E]. exact (get_node_lt _ _ _ E). Qed.

Lemma get_node_set_tag (P : parser) (i : nat) (t : html_tag) (j : nat) :
  get_node (set_tag P i t) j = get_node P j.
Proof. reflexivity. Qed.

Lemma get_node_set_hc (P : parser) (h : html_content) (j : nat) :
  get_node (set_hc P h) j = get_node P j.
Proof. reflexivity. Qed.

Lemma get_node_set_cur (P : parser) (c : option nat) (j : nat) :
  get_node (set_cur_level P c) j = get_node P j.
Proof. reflexivity. Qed.

Lemma nodes_ok_data_below (P : parser) : nodes_ok P -> data_below P (List.length (p_tags P)).
Proof.
  intros Hn i n ti En Hd. destruct (Hn i n En) as [_ Hdata].
  destruct (Hdata ti Hd) as (_ & u & j & Eu & _). exact (get_tag_lt _ _ _ Eu).
Qed.

(** Storing a tag whose [parent] is a node that is still there. *)
Lemma nodes_ok_set_tag (P : parser) (i : nat) (t : html_tag) (j : nat) :
  nodes_ok P -> tag_parent t = Some j -> live P j -> nodes_ok (set_tag P i t).
Proof.
  intros Hn Hp Hj k n En. rewrite get_node_set_tag in En.
  destruct (Hn k n En) as [Hpar Hdata]. split; [exact Hpar|].
  intros ti Hd. destruct (Hdata ti Hd) as (Hsome & u & j' & Eu & Hu & Hl).
  split; [exact Hsome|].
  destruct (Nat.eq_dec i ti) as [->|Hne].
  - exists t, j. split; [apply (get_tag_set_tag_eq _ _ _ _ Eu)|]. split; assumption.
  - exists u, j'. rewrite get_tag_set_tag_neq by exact Hne. split; [exact Eu|].
    split; assumption.
Qed.

(** Storing a tag in a record no node holds. *)
Lemma nodes_ok_set_free_tag (P : parser) (i : nat) (t : html_tag) :
  nodes_ok P -> data_below P i -> nodes_ok (set_tag P i t).
Proof.
  intros Hn Hb k n En. rewrite get_node_set_tag in En.
  destruct (Hn k n En) as [Hpar Hdata]. split; [exact Hpar|].
  intros ti Hd. destruct (Hdata ti Hd) as (Hsome & u & j' & Eu & Hu & Hl).
  split; [exact Hsome|]. exists u, j'.
  rewrite get_tag_set_tag_neq by (pose proof (Hb k n ti En Hd); lia).
  split; [exact Eu|]. split; assumption.
Qed.

Lemma nodes_ok_with_cur (P : parser) (t : html_tag) :
  nodes_ok P -> nodes_ok (with_cur_tag P t).
Proof.
  intros Hn k n En. destruct (Hn k n En) as [Hpar Hdata]. split; [exact Hpar|].
  intros ti Hd. destruct (Hdata ti Hd) as (Hsome & u & j' & Eu & Hu & Hl).
  split; [exact Hsome|]. exists u, j'.
  split; [apply get_tag_with_cur_old; exact Eu|]. split; assumption.
Qed.

(** Appending a node, or a freed cell, keeps the old nodes. *)
Lemma get_node_app_old (P : parser) (extra : list (option GNode)) (i : nat) (n : GNode) :
  get_node P i = Some n ->
  get_node (mk_parser (p_tags P) (p_nodes P ++ extra) (p_hc P) (p_cur_level P)) i = Some n.
Proof. destruct P as [tags nodes h c]. intros E. apply (get_node_app_l _ _ _ _ _ _ _ E). Qed.

Lemma get_node_app_inv (P : parser) (x : option GNode) (i : nat) (n : GNode) :
  get_node (mk_parser (p_tags P) (p_nodes P ++ [x]) (p_hc P) (p_cur_level P)) i = Some n ->
  get_node P i = Some n \/ (i = List.length (p_nodes P) /\ x = Some n).
Proof.
  unfold get_node. cbn [p_nodes]. intros E.
  destruct (Nat.lt_ge_cases i (List.length (p_nodes P))) as [Hlt|Hge].
  - rewrite nth_error_app1 in E by exact Hlt. left. exact E.
  - rewrite nth_error_app2 in E by exact Hge.
    destruct (i - List.length (p_nodes P))%nat as [|k] eqn:Ek; cbn [nth_error] in E.
    + right. split; [lia|]. destruct x; [congruence | discriminate].
    + destruct k; discriminate.
Qed.

Lemma live_app_old (P : parser) (extra : list (option GNode)) (j : nat) :
  live P j ->
  live (mk_parser (p_tags P) (p_nodes P ++ extra) (p_hc P) (p_cur_level P)) j.
Proof. intros [n E]. exists n. apply get_node_app_old. exact E. Qed.

Lemma nodes_ok_app (P : parser) (x : option GNode) :
  nodes_ok P ->
  (forall n, x = Some n ->
     (forall j, node_parent n = Some j -> live P j)
     /\ (forall ti, node_data n = Some ti ->
           (exists j, node_parent n = Some j)
           /\ exists u j, get_tag P ti = Some u /\ tag_parent u = Some j /\ live P j)) ->
  nodes_ok (mk_parser (p_tags P) (p_nodes P ++ [x]) (p_hc P) (p_cur_level P)).
Proof.
  intros Hn Hx i n En. apply get_node_app_inv in En. destruct En as [En|[-> ->]].
  - destruct (Hn i n En) as [Hpar Hdata]. split.
    + intros j Hj. destruct (Hpar j Hj) as [Hlt Hl].
      split; [exact Hlt | apply live_app_old; exact Hl].
    + intros ti Hd. destruct (Hdata ti Hd) as (Hsome & u & j & Eu & Hu & Hl).
      split; [exact Hsome|]. exists u, j. split; [exact Eu|].
      split; [exact Hu | apply live_app_old; exact Hl].
  - destruct (Hx n eq_refl) as [Hpar Hdata]. split.
    + intros j Hj. pose proof (Hpar j Hj) as Hl.
      split; [apply live_lt; exact Hl | apply live_app_old; exact Hl].
    + intros ti Hd. destruct (Hdata ti Hd) as (Hsome & u & j & Eu & Hu & Hl).
      split; [exact Hsome|]. exists u, j. split; [exact Eu|].
      split; [exact Hu | apply live_app_old; exact Hl].
Qed.

Lemma live_ext (P Q : parser) (j : nat) :
  p_nodes Q = p_nodes P -> live P j -> live Q j.
Proof. intros E [n En]. exists n. unfold get_node in *. rewrite E. exact En. Qed.

Lemma nodes_ok_ext (P Q : parser) :
  p_tags Q = p_tags P -> p_nodes Q = p_nodes P -> nodes_ok P -> nodes_ok Q.
Proof.
  intros Et En Hn i n Ei.
  assert (Ei' : get_node P i = Some n) by (unfold get_node in *; rewrite <- En; exact Ei).
  destruct (Hn i n Ei') as [Hpar Hdata]. split.
  - intros j Hj. destruct (Hpar j Hj) as [Hlt Hl].
    split; [exact Hlt | apply (live_ext P Q j En Hl)].
  - intros ti Hd. destruct (Hdata ti Hd) as (Hsome & u & j & Eu & Hu & Hl).
    split; [exact Hsome|]. exists u, j.
    split; [unfold get_tag in *; rewrite Et; exact Eu|].
    split; [exact Hu | apply (live_ext P Q j En Hl)].
Qed.

Section Walk.
Context `{html_h}.

(** The walk of [rspamd_html_check_balance] up the ancestors ends: at the
    root, or at a node with a tag and a parent. *)
Lemma balance_walk_ok (P : parser) (id : Z) :
  nodes_ok P ->
  forall fuel c, (c < fuel)%nat -> live P c ->
    exists r, balance_walk fuel P id (Some c) = Some r
              /\ forall c', r = Some c' ->
                   (c' <= c)%nat
                   /\ exists n tj tmp j,
                        get_node P c' = Some n /\ node_data n = Some tj
                        /\ get_tag P tj = Some tmp
                        /\ node_parent n = Some j /\ live P j
                        /\ (exists k, tag_parent tmp = Some k /\ live P k).
Proof.
  intros Hn. induction fuel as [|fuel IH]; intros c Hc [n En]; [lia|].
  cbn [balance_walk]. rewrite En. cbn [bind].
  destruct (Hn c n En) as [Hpar Hdata].
  destruct (node_data n) as [ti|] eqn:Hd.
  - destruct (Hdata ti eq_refl) as ([j Hj] & u & k & Eu & Hu & Hk).
    rewrite Eu. cbn [bind].
    destruct (Hpar j Hj) as [Hlt Hl].
    destruct ((tag_id u =? id) && negb (has (tag_flags u) FL_CLOSED)).
    + exists (Some c). split; [reflexivity|]. intros c' E. injection E as <-.
      split; [lia|]. exists n, ti, u, j. repeat split; try assumption.
      exists k. split; assumption.
    + rewrite Hj. destruct (IH j ltac:(lia) Hl) as (r & Er & Hr).
      exists r. split; [exact Er|]. intros c' E. destruct (Hr c' E) as [Hle Hrest].
      split; [lia | exact Hrest].
  - exists None. split; [reflexivity|]. intros c' E. discriminate E.
Qed.
End Walk.

Section Branches.
Context `{html_h}.

Lemma count_rel_same (P Q : parser) :
  p_nodes Q = p_nodes P -> p_hc Q = p_hc P -> count_rel P Q.
Proof. intros En Eh. left. rewrite En, Eh. split; reflexivity. Qed.

Lemma map_id_upd (l : list html_tag) (i : nat) (u v : html_tag) :
  nth_error l i = Some u -> tag_id v = tag_id u ->
  map tag_id (upd l i v) = map tag_id l.
Proof.
  revert i. induction l as [|x l IH]; intros [|i] E Hid; cbn [nth_error] in E;
    try discriminate E; cbn [upd map].
  - injection E as ->. rewrite Hid. reflexivity.
  - f_equal. apply (IH i E Hid).
Qed.

Lemma level_live_ext (P Q : parser) :
  p_nodes Q = p_nodes P -> p_cur_level Q = p_cur_level P -> level_live P -> level_live Q.
Proof.
  intros En Ec (cl & Hcur & Hl). exists cl. split; [congruence | apply (live_ext P Q cl En Hl)].
Qed.

(** Marking the tag itself, with [FL_IGNORE], after the steps that took
    [P] to [PA]. *)
Lemma pt_post_mark_after (tag : nat) (t u : html_tag) (P PA : parser) (f : Z) :
  pt_post tag t P PA -> get_tag PA tag = Some u ->
  (exists j, tag_parent u = Some j /\ live PA j) ->
  tag_id u = tag_id t ->
  tag_flags u .| f = tag_flags t \/ tag_flags u .| f = tag_flags t .| FL_IGNORE ->
  pt_post tag t P (set_tag PA tag (tag_or_flags u f)).
Proof.
  intros (Hn & Hl & Hroot & Hseen & Hlen & Hfl & Hcount & _ & Hmap) Etag (j & Hj & Hlive)
         Hid Hf.
  split; [apply (nodes_ok_set_tag PA tag _ j Hn); [exact Hj | exact Hlive]|].
  split; [apply (level_live_ext PA); [reflexivity | reflexivity | exact Hl]|].
  split; [exact Hroot|]. split; [exact Hseen|].
  split; [unfold set_tag; cbn [p_tags]; rewrite upd_length; exact Hlen|].
  split; [exact Hfl|]. split; [exact Hcount|].
  split; [exists (tag_or_flags u f); split; [apply (get_tag_set_tag_eq _ _ _ _ Etag)|];
          split; [exact Hid | exact Hf]|].
  rewrite <- Hmap. unfold set_tag. cbn [p_tags].
  apply (map_id_upd _ _ u); [exact Etag | reflexivity].
Qed.

Lemma pt_post_refl (tag : nat) (t : html_tag) (P : parser) :
  pt_pre tag t P -> pt_post tag t P P.
Proof.
  intros (Hn & Hl & Hroot & Hbelow & Etag & Hpar).
  split; [exact Hn|]. split; [exact Hl|].
  split; [reflexivity|]. split; [reflexivity|]. split; [reflexivity|].
  split; [left; reflexivity|].
  split; [apply count_rel_same; reflexivity|].
  split; [|reflexivity].
  exists t. split; [exact Etag|]. split; [reflexivity | left; reflexivity].
Qed.

Lemma pt_post_mark (tag : nat) (t : html_tag) (P : parser) :
  pt_pre tag t P -> pt_post tag t P (set_tag P tag (tag_or_flags t FL_IGNORE)).
Proof.
  intros Hpre. pose proof Hpre as (_ & _ & _ & _ & Etag & Hpar).
  apply (pt_post_mark_after tag t t P P);
    [apply pt_post_refl; exact Hpre | exact Etag | exact Hpar | reflexivity
     | right; reflexivity].
Qed.

Lemma pt_inline_ok (tag : nat) (t : html_tag) (P : parser) (b : bool) :
  pt_pre tag t P ->
  exists Q r b', pt_inline P tag t b = Some (Q, r, b') /\ pt_post tag t P Q.
Proof.
  intros Hpre.
  pose proof Hpre as (Hn & (cl & Hcur & [cln Ecl]) & Hroot & Hbelow & Etag & Hpar).
  unfold pt_inline. rewrite Hcur. cbn [bind]. rewrite Ecl. cbn [bind].
  destruct (Hn cl cln Ecl) as [_ Hdata].
  destruct (node_data cln) as [pi|].
  - destruct (Hdata pi eq_refl) as (_ & u & j & Eu & _). rewrite Eu. cbn [bind].
    destruct (has (tag_flags u) (CM_HEAD .| CM_UNKNOWN .| FL_IGNORE)).
    + do 3 eexists. split; [reflexivity|]. apply pt_post_mark. exact Hpre.
    + do 3 eexists. split; [reflexivity|]. apply pt_post_refl. exact Hpre.
  - do 3 eexists. split; [reflexivity|]. apply pt_post_refl. exact Hpre.
Qed.

(** A node for the tag record [tag] is added under the node [pj] while the
    count is below the limit; [tags'], [h'] and [c'] are the tag records,
    the document and the current level afterwards. *)
Lemma node_added_post (tag : nat) (t u : html_tag) (P : parser) (pj : nat)
      (tags' : list html_tag) (h' : html_content) (c' : option nat) :
  pt_pre tag t P ->
  hc_total_tags (p_hc P) < max_tags ->
  live P pj ->
  nodes_ok (mk_parser tags' (p_nodes P) (p_hc P) (p_cur_level P)) ->
  map tag_id tags' = map tag_id (p_tags P) ->
  nth_error tags' tag = Some u ->
  tag_id u = tag_id t ->
  tag_flags u = tag_flags t \/ tag_flags u = tag_flags t .| FL_IGNORE ->
  (exists j, tag_parent u = Some j /\ live P j) ->
  hc_html_tags h' = hc_html_tags (p_hc P) ->
  hc_tags_seen h' = hc_tags_seen (p_hc P) ->
  hc_total_tags h' = wrap32 (hc_total_tags (p_hc P) + 1) ->
  hc_flags h' = hc_flags (p_hc P)
  \/ hc_flags h' = hc_flags (p_hc P) .| RSPAMD_HTML_FLAG_UNBALANCED ->
  c' = p_cur_level P \/ c' = Some (List.length (p_nodes P)) ->
  let Q := mk_parser tags' (p_nodes P ++ [Some (mk_node (Some tag) (Some pj))]) h' c' in
  pt_post tag t P Q /\ get_tag Q tag = Some u
  /\ exists j, tag_parent u = Some j /\ live Q j.
Proof.
  intros (Hn & (cl & Hcur & Hlive) & Hroot & Hbelow & Etag & Hpar)
         Htot Hpj Hn' Hmap Eu Hid Hfl (j & Hj & Hlj) Er Es Et Ef Hc Q.
  assert (Hlen : List.length tags' = List.length (p_tags P))
    by (rewrite <- (length_map tag_id tags'), Hmap; apply length_map).
  set (P' := mk_parser tags' (p_nodes P) (p_hc P) (p_cur_level P)) in *.
  assert (HnQ : nodes_ok Q).
  { apply (nodes_ok_ext
             (mk_parser (p_tags P') (p_nodes P' ++ [Some (mk_node (Some tag) (Some pj))])
                        (p_hc P') (p_cur_level P')) Q); [reflexivity | reflexivity|].
    apply nodes_ok_app; [exact Hn'|].
    intros n E. injection E as <-. cbn [node_parent node_data]. split.
    - intros k Ek. injection Ek as <-. apply (live_ext P P'); [reflexivity | exact Hpj].
    - intros ti Eti. injection Eti as <-. split; [exists pj; reflexivity|].
      exists u, j. split; [exact Eu|]. split; [exact Hj|].
      apply (live_ext P P'); [reflexivity | exact Hlj]. }
  assert (Hold : forall k, live P k -> live Q k).
  { intros k Hk. apply (live_ext (mk_parser (p_tags P)
                                    (p_nodes P ++ [Some (mk_node (Some tag) (Some pj))])
                                    (p_hc P) (p_cur_level P)) Q); [reflexivity|].
    apply live_app_old. exact Hk. }
  split; [|split].
  - split; [exact HnQ|]. split.
    { destruct Hc as [-> | ->].
      - exists cl. split; [exact Hcur | apply Hold; exact Hlive].
      - exists (List.length (p_nodes P)). split; [reflexivity|].
        exists (mk_node (Some tag) (Some pj)). unfold Q.
        apply (get_node_new tags' (p_nodes P) h' _ (Some (mk_node (Some tag) (Some pj)))). }
    split; [exact Er|]. split; [exact Es|]. split; [exact Hlen|].
    split; [exact Ef|].
    split; [right; cbn [Q p_nodes p_hc]; rewrite length_app; cbn [List.length];
            split; [lia | split; [exact Htot | exact Et]]|].
    split; [exists u; split; [exact Eu|]; split; [exact Hid | exact Hfl]|].
    exact Hmap.
  - exact Eu.
  - exists j. split; [exact Hj | apply Hold; exact Hlj].
Qed.
Lemma nodes_ok_same_record (P : parser) :
  nodes_ok P -> nodes_ok (mk_parser (p_tags P) (p_nodes P) (p_hc P) (p_cur_level P)).
Proof. apply nodes_ok_ext; reflexivity. Qed.

Lemma pt_add_open_ok (tag : nat) (t : html_tag) (P : parser) (b : bool) :
  pt_pre tag t P ->
  exists Q r b', pt_add_open P tag t b = Some (Q, r, b') /\ pt_post tag t P Q.
Proof.
  intros Hpre. pose proof Hpre as (Hn & (cl & Hcur & Hlive) & Hroot & Hbelow & Etag & Hpar).
  unfold pt_add_open.
  destruct (Z.ltb_spec (hc_total_tags (p_hc P)) max_tags) as [Hlt|Hge].
  - assert (HA : forall c', c' = p_cur_level P \/ c' = Some (List.length (p_nodes P)) ->
               let Q := mk_parser (p_tags P)
                          (p_nodes P ++ [Some (mk_node (Some tag) (Some cl))])
                          (hc_count_tag (p_hc P)) c' in
               pt_post tag t P Q /\ get_tag Q tag = Some t
               /\ exists j, tag_parent t = Some j /\ live Q j).
    { intros c' Hc'.
      exact (node_added_post tag t t P cl (p_tags P) (hc_count_tag (p_hc P)) c'
               Hpre Hlt Hlive (nodes_ok_same_record P Hn) eq_refl Etag eq_refl
               (or_introl eq_refl) Hpar eq_refl eq_refl eq_refl (or_introl eq_refl) Hc'). }
    unfold g_node_new_append. rewrite Hcur.
    destruct (has (tag_flags t) FL_CLOSED);
      [destruct (HA (Some cl) ltac:(left; symmetry; exact Hcur)) as (Hpost & EtagA & HparA)
      |destruct (HA (Some (List.length (p_nodes P))) ltac:(right; reflexivity))
         as (Hpost & EtagA & HparA)];
      cbv zeta in Hpost, EtagA, HparA;
      (destruct (has (tag_flags t) (CM_HEAD .| CM_UNKNOWN .| FL_IGNORE));
       do 3 eexists; (split; [reflexivity|]);
       [apply (pt_post_mark_after tag t t P _ FL_IGNORE Hpost EtagA HparA eq_refl);
        right; reflexivity
       | exact Hpost]).
  - destruct (has (tag_flags t) (CM_HEAD .| CM_UNKNOWN .| FL_IGNORE));
      do 3 eexists; (split; [reflexivity|]);
      [apply pt_post_mark | apply pt_post_refl]; exact Hpre.
Qed.
Lemma pt_bad_nesting_ok (tag : nat) (t parent : html_tag) (P : parser) (pj : nat) :
  pt_pre tag t P -> tag_parent parent = Some pj -> live P pj ->
  exists Q r b', pt_bad_nesting P tag t parent = Some (Q, r, b') /\ pt_post tag t P Q.
Proof.
  intros Hpre Hpp Hpj.
  pose proof Hpre as (Hn & (cl & Hcur & Hlive) & Hroot & Hbelow & Etag & Hpar).
  unfold pt_bad_nesting.
  cbn [set_hc set_tag p_hc p_tags p_nodes p_cur_level hc_total_tags hc_or_flags].
  set (t'' := mk_tag (tag_id t) (tag_flags t) (tag_content_length t) (tag_parent parent)).
  assert (Hn1 : nodes_ok (set_tag P tag t'')).
  { apply (nodes_ok_set_tag P tag t'' pj Hn); [exact Hpp | exact Hpj]. }
  assert (Et'' : get_tag (set_tag P tag t'') tag = Some t'')
    by apply (get_tag_set_tag_eq _ _ _ _ Etag).
  destruct (Z.ltb_spec (hc_total_tags (p_hc P)) max_tags) as [Hlt|Hge].
  - unfold g_node_new_append.
    cbn [set_hc set_cur_level p_hc p_tags p_nodes p_cur_level]. rewrite Hpp.
    do 3 eexists. split; [reflexivity|].
    refine (proj1 (node_added_post tag t t'' P pj (upd (p_tags P) tag t'')
                     (hc_count_tag (hc_or_flags (p_hc P) RSPAMD_HTML_FLAG_UNBALANCED))
                     (Some (List.length (p_nodes P)))
                     Hpre Hlt Hpj _ _ Et'' eq_refl (or_introl eq_refl) _
                     eq_refl eq_refl eq_refl (or_intror eq_refl) (or_intror eq_refl))).
    + apply (nodes_ok_ext (set_tag P tag t'')); [reflexivity | reflexivity | exact Hn1].
    + apply (map_id_upd _ _ t); [exact Etag | reflexivity].
    + exists pj. split; [exact Hpp | exact Hpj].
  - do 3 eexists. split; [reflexivity|].
    split; [apply (nodes_ok_ext (set_tag P tag t'')); [reflexivity | reflexivity | exact Hn1]|].
    split; [exists cl; split; [exact Hcur | apply (live_ext P); [reflexivity | exact Hlive]]|].
    split; [reflexivity|]. split; [reflexivity|].
    split; [cbn [p_tags]; apply upd_length|].
    split; [right; reflexivity|].
    split; [left; split; reflexivity|].
    split; [exists t''; split; [exact Et''|]; split; [reflexivity | left; reflexivity]|].
    cbn [p_tags]. apply (map_id_upd _ _ t); [exact Etag | reflexivity].
Qed.

(** The branches are entered with the tag record rewritten: what they
    leave holds for the tag as it was. *)
Lemma pt_post_weaken (tag : nat) (t t1 : html_tag) (P P1 Q : parser) :
  pt_post tag t1 P1 Q ->
  p_hc P1 = p_hc P -> p_nodes P1 = p_nodes P ->
  map tag_id (p_tags P1) = map tag_id (p_tags P) ->
  tag_id t1 = tag_id t ->
  tag_flags t1 = tag_flags t \/ tag_flags t1 = tag_flags t .| FL_IGNORE ->
  pt_post tag t P Q.
Proof.
  intros (Hn & Hl & Hroot & Hseen & Hlen & Hfl & Hcount & (u & Eu & Hid & Hu) & Hmap)
         Eh En Em Ei Ef.
  assert (El : List.length (p_tags P1) = List.length (p_tags P))
    by (rewrite <- (length_map tag_id (p_tags P1)), Em; apply length_map).
  split; [exact Hn|]. split; [exact Hl|].
  split; [rewrite <- Eh; exact Hroot|]. split; [rewrite <- Eh; exact Hseen|].
  split; [rewrite <- El; exact Hlen|].
  split; [rewrite <- Eh; exact Hfl|].
  split; [unfold count_rel in *; rewrite <- Eh, <- En; exact Hcount|].
  split; [|rewrite Hmap; exact Em].
  exists u. split; [exact Eu|]. split; [congruence|].
  destruct Ef as [Ef|Ef]; destruct Hu as [Hu|Hu]; rewrite Hu, Ef;
    [left; reflexivity | right; reflexivity | right; reflexivity
     | right; apply lor_idem].
Qed.

Lemma pt_block_open_ok (tag : nat) (t : html_tag) (P : parser) (b : bool) :
  pt_pre tag t P ->
  exists Q r b', pt_block_open P tag t b = Some (Q, r, b') /\ pt_post tag t P Q.
Proof.
  intros Hpre.
  pose proof Hpre as (Hn & (cl & Hcur & [cln Ecl]) & Hroot & Hbelow & Etag & (j & Hj & Hlj)).
  unfold pt_block_open. rewrite Hcur. cbn [bind]. rewrite Ecl. cbn [bind].
  destruct (Hn cl cln Ecl) as [_ Hdata].
  destruct (node_data cln) as [pi|] eqn:Hd; [|apply pt_add_open_ok; exact Hpre].
  destruct (Hdata pi eq_refl) as (_ & parent & pj & Ep & Hpp & Hpj).
  rewrite Ep. cbn [bind].
  assert (Hpi : (pi < tag)%nat) by exact (Hbelow cl cln pi Ecl Hd).
  set (t1 := if has (tag_flags parent) FL_IGNORE then tag_or_flags t FL_IGNORE else t).
  assert (Hid1 : tag_id t1 = tag_id t) by (unfold t1; destruct (has _ FL_IGNORE); reflexivity).
  assert (Hfl1 : tag_flags t1 = tag_flags t \/ tag_flags t1 = tag_flags t .| FL_IGNORE)
    by (unfold t1; destruct (has _ FL_IGNORE); [right | left]; reflexivity).
  assert (Hp1 : tag_parent t1 = Some j)
    by (unfold t1; destruct (has _ FL_IGNORE); exact Hj).
  set (P1 := set_tag P tag t1).
  assert (Hpre1 : pt_pre tag t1 P1).
  { split; [apply (nodes_ok_set_tag P tag t1 j Hn Hp1 Hlj)|].
    split; [exists cl; split; [exact Hcur | exists cln; exact Ecl]|].
    split; [exact Hroot|]. split; [exact Hbelow|].
    split; [apply (get_tag_set_tag_eq _ _ _ _ Etag)|].
    exists j. split; [exact Hp1 | exact Hlj]. }
  assert (Hweak : forall Q, pt_post tag t1 P1 Q -> pt_post tag t P Q).
  { intros Q HQ. apply (pt_post_weaken tag t t1 P P1 Q HQ); try reflexivity;
      try assumption. unfold P1, set_tag. cbn [p_tags].
    apply (map_id_upd _ _ t); [exact Etag | exact Hid1]. }
  destruct (negb (has (tag_flags t1) FL_CLOSED) && negb (has (tag_flags parent) FL_BLOCK)
            && (tag_id parent =? tag_id t1)).
  - destruct (pt_bad_nesting_ok tag t1 parent P1 pj Hpre1 Hpp Hpj) as (Q & r & b' & E & HQ).
    exists Q, r, b'. split; [exact E | apply Hweak; exact HQ].
  - set (parent' := mk_tag (tag_id parent) (tag_flags parent)
                           (wrap32 (tag_content_length parent + tag_content_length t1))
                           (tag_parent parent)).
    assert (Hpre2 : pt_pre tag t1 (set_tag P1 pi parent')).
    { destruct Hpre1 as (Hn1 & Hl1 & Hr1 & Hb1 & Et1 & Hpar1).
      split; [apply (nodes_ok_set_tag P1 pi parent' pj Hn1 Hpp Hpj)|].
      split; [exact Hl1|]. split; [exact Hr1|]. split; [exact Hb1|].
      split; [rewrite get_tag_set_tag_neq by lia; exact Et1 | exact Hpar1]. }
    destruct (pt_add_open_ok tag t1 (set_tag P1 pi parent') b Hpre2) as (Q & r & b' & E & HQ).
    exists Q, r, b'. split; [exact E|]. apply Hweak.
    apply (pt_post_weaken tag t1 t1 P1 (set_tag P1 pi parent') Q HQ); try reflexivity.
    + unfold set_tag. cbn [p_tags]. apply (map_id_upd _ _ parent); [|reflexivity].
      change (get_tag P1 pi = Some parent). unfold P1.
      rewrite get_tag_set_tag_neq by lia. exact Ep.
    + left. reflexivity.
Qed.
Lemma pt_block_closing_ok (tag : nat) (t : html_tag) (P : parser) (b : bool) :
  pt_pre tag t P ->
  exists Q r b', pt_block_closing P tag b = Some (Q, r, b') /\ pt_post tag t P Q.
Proof.
  intros Hpre.
  pose proof Hpre as (Hn & (cl & Hcur & Hlive) & Hroot & Hbelow & Etag & Hpar).
  unfold pt_block_closing. rewrite Hcur.
  destruct (Z.ltb_spec (hc_total_tags (p_hc P)) max_tags) as [Hlt|Hge];
    [|do 3 eexists; split; [reflexivity | apply pt_post_refl; exact Hpre]].
  unfold g_node_new_append. cbv beta iota zeta.
  set (nd := mk_node (Some tag) (Some cl)).
  set (P1 := mk_parser (p_tags P) (p_nodes P ++ [Some nd]) (p_hc P) (p_cur_level P)).
  assert (HA : forall h', hc_html_tags h' = hc_html_tags (p_hc P) ->
               hc_tags_seen h' = hc_tags_seen (p_hc P) ->
               hc_total_tags h' = wrap32 (hc_total_tags (p_hc P) + 1) ->
               hc_flags h' = hc_flags (p_hc P)
               \/ hc_flags h' = hc_flags (p_hc P) .| RSPAMD_HTML_FLAG_UNBALANCED ->
               pt_post tag t P (mk_parser (p_tags P) (p_nodes P ++ [Some nd]) h'
                                          (p_cur_level P))).
  { intros h' E1 E2 E3 E4.
    exact (proj1 (node_added_post tag t t P cl (p_tags P) h' (p_cur_level P)
                    Hpre Hlt Hlive (nodes_ok_same_record P Hn) eq_refl Etag eq_refl
                    (or_introl eq_refl) Hpar E1 E2 E3 E4 (or_introl eq_refl))). }
  assert (Hn1 : nodes_ok P1).
  { apply nodes_ok_app; [exact Hn|]. intros n E. injection E as <-.
    cbn [nd node_parent node_data]. split.
    - intros k Ek. injection Ek as <-. exact Hlive.
    - intros ti Eti. injection Eti as <-. split; [exists cl; reflexivity|].
      destruct Hpar as (j & Hj & Hlj). exists t, j. auto. }
  assert (Ek : get_node P1 (List.length (p_nodes P)) = Some nd)
    by apply (get_node_new (p_tags P) (p_nodes P) (p_hc P) (p_cur_level P) (Some nd)).
  unfold rspamd_html_check_balance. rewrite Ek. cbn [bind nd node_data node_parent].
  change (get_tag P1 tag) with (get_tag P tag). rewrite Etag. cbn [bind].
  destruct (has (tag_flags t) FL_CLOSING).
  - destruct (balance_walk_ok P1 (tag_id t) Hn1 (S (List.length (p_nodes P1))) cl)
      as (r & Er & Hr).
    + pose proof (live_lt P cl Hlive). cbn [P1 p_nodes]. rewrite length_app. lia.
    + apply live_app_old. exact Hlive.
    + rewrite Er. cbn [bind]. destruct r as [c|].
      * destruct (Hr c eq_refl) as (Hle & n & tj & tmp & j & En1 & Hd & Etmp & Hj & _ & _).
        rewrite En1. cbn [bind]. rewrite Hd. cbn [bind]. rewrite Etmp. cbn [bind negb].
        rewrite Hj.
        assert (Hc : (c < List.length (p_nodes P))%nat)
          by (pose proof (live_lt P cl Hlive); lia).
        assert (En : get_node P c = Some n).
        { apply get_node_app_inv in En1. destruct En1 as [E|[E _]]; [exact E | lia]. }
        destruct (Hn c n En) as [Hparn Hdatan].
        destruct (Hparn j Hj) as [_ Hlj].
        destruct (Hdatan tj Hd) as (_ & u & k' & Eu & Hk' & Hlk').
        assert (u = tmp) by (change (get_tag P1 tj) with (get_tag P tj) in Etmp; congruence).
        subst u.
        assert (Htj : (tj < tag)%nat) by exact (Hbelow c n tj En Hd).
        do 3 eexists. split; [reflexivity|].
        unfold set_hc, set_cur_level, g_node_destroy, set_tag, P1.
        cbn [p_tags p_nodes p_hc p_cur_level]. rewrite upd_app_last.
        set (tmp' := tag_or_flags tmp FL_CLOSED).
        assert (Hn2 : nodes_ok (set_tag P tj tmp'))
          by (apply (nodes_ok_set_tag P tj tmp' k' Hn); [exact Hk' | exact Hlk']).
        assert (Hn3 : nodes_ok (mk_parser (upd (p_tags P) tj tmp') (p_nodes P ++ [None])
                                          (hc_count_tag (p_hc P)) (Some j))).
        { apply (nodes_ok_ext
                   (mk_parser (p_tags (set_tag P tj tmp')) (p_nodes (set_tag P tj tmp') ++ [None])
                              (p_hc (set_tag P tj tmp')) (p_cur_level (set_tag P tj tmp'))));
            [reflexivity | reflexivity|].
          apply nodes_ok_app; [exact Hn2|]. intros n0 E. discriminate E. }
        split; [exact Hn3|].
        split; [exists j; split; [reflexivity|];
                apply (live_ext (mk_parser (p_tags P) (p_nodes P ++ [None]) (p_hc P)
                                           (p_cur_level P))); [reflexivity|];
                apply live_app_old; exact Hlj|].
        split; [reflexivity|]. split; [reflexivity|].
        split; [cbn [p_tags]; apply upd_length|].
        split; [left; reflexivity|].
        split; [right; cbn [p_nodes p_hc hc_count_tag hc_total_tags];
                rewrite length_app; cbn [List.length];
                split; [lia | split; [exact Hlt | reflexivity]]|].
        split; [|cbn [p_tags]; apply (map_id_upd _ _ tmp); [exact Eu | reflexivity]].
        exists t. split; [|split; [reflexivity | left; reflexivity]].
        unfold get_tag. cbn [p_tags]. rewrite nth_error_upd_neq by lia. exact Etag.
      * cbn [negb]. do 3 eexists. split; [reflexivity|].
        apply (HA (hc_count_tag (hc_or_flags (p_hc P) RSPAMD_HTML_FLAG_UNBALANCED)));
          try reflexivity. right. reflexivity.
  - cbn [negb]. do 3 eexists. split; [reflexivity|].
    apply (HA (hc_count_tag (p_hc P))); try reflexivity. left. reflexivity.
Qed.
End Branches.

Section ProcessTagTotal.
Context `{html_h} {Hok : html_h_ok}.

Lemma count_rel_ext (P P' Q Q' : parser) :
  p_nodes P' = p_nodes P -> hc_total_tags (p_hc P') = hc_total_tags (p_hc P) ->
  p_nodes Q' = p_nodes Q -> hc_total_tags (p_hc Q') = hc_total_tags (p_hc Q) ->
  count_rel P Q -> count_rel P' Q'.
Proof. unfold count_rel. intros -> -> -> ->. tauto. Qed.

(** The state after the root is made and the count is compared with the
    limit, for a tag record that was just added. *)
Lemma pt_prologue_ok (P : parser) (t : html_tag) :
  tree_ok P ->
  let P2 := pt_too_many (pt_root (with_cur_tag P t)) in
  nodes_ok P2 /\ level_live P2 /\ hc_html_tags (p_hc P2) <> None
  /\ data_below P2 (List.length (p_tags P))
  /\ p_tags P2 = p_tags P ++ [t]
  /\ hc_tags_seen (p_hc P2) = hc_tags_seen (p_hc P)
  /\ hc_total_tags (p_hc P2) = hc_total_tags (p_hc P)
  /\ List.length (p_nodes P2)
     = ((match hc_html_tags (p_hc P) with Some _ => 0 | None => 1 end)
        + List.length (p_nodes P))%nat
  /\ hc_flags (p_hc P2)
     = (if hc_total_tags (p_hc P) >? max_tags
        then hc_flags (p_hc P) .| RSPAMD_HTML_FLAG_TOO_MANY_TAGS
        else hc_flags (p_hc P)).
Proof.
  intros [Hn Hroot].
  assert (HR : let P1 := pt_root (with_cur_tag P t) in
               nodes_ok P1 /\ level_live P1 /\ hc_html_tags (p_hc P1) <> None
               /\ data_below P1 (List.length (p_tags P))
               /\ p_tags P1 = p_tags P ++ [t]
               /\ hc_tags_seen (p_hc P1) = hc_tags_seen (p_hc P)
               /\ hc_total_tags (p_hc P1) = hc_total_tags (p_hc P)
               /\ List.length (p_nodes P1)
                  = ((match hc_html_tags (p_hc P) with Some _ => 0 | None => 1 end)
                     + List.length (p_nodes P))%nat
               /\ hc_flags (p_hc P1) = hc_flags (p_hc P)).
  { unfold pt_root. cbn [with_cur_tag p_hc].
    destruct (hc_html_tags (p_hc P)) as [r|] eqn:Er.
    - cbv zeta. cbn [with_cur_tag p_hc p_tags p_nodes]. rewrite Er.
      split; [apply nodes_ok_with_cur; exact Hn|].
      split; [apply (level_live_ext P); [reflexivity | reflexivity | exact Hroot]|].
      split; [discriminate|].
      split; [intros i n ti En Hd; apply (nodes_ok_data_below P Hn i n ti En Hd)|].
      repeat split; reflexivity.
    - destruct Hroot as [Hcur Hnodes]. cbv zeta. unfold g_node_new_append.
      cbn [with_cur_tag set_hc set_cur_level p_hc p_tags p_nodes p_cur_level
           hc_html_tags hc_flags hc_total_tags hc_tags_seen].
      rewrite Hnodes. cbn [app List.length].
      assert (Hget : forall tags h c i n,
                 get_node (mk_parser tags [Some (mk_node None None)] h c) i = Some n ->
                 n = mk_node None None).
      { intros tags h c i n E. unfold get_node in E. cbn [p_nodes] in E.
        destruct i as [|[|i]]; cbn [nth_error] in E; congruence. }
      split.
      { intros i n En. apply Hget in En. subst n. split.
        - intros j Hj. discriminate Hj.
        - intros ti Hti. discriminate Hti. }
      split; [exists 0%nat; split; [reflexivity | exists (mk_node None None); reflexivity]|].
      split; [discriminate|].
      split; [intros i n ti En Hd; apply Hget in En; subst n; discriminate Hd|].
      repeat split; reflexivity. }
  cbv zeta in HR. destruct HR as (A1 & A2 & A3 & A4 & A5 & A6 & A7 & A8 & A9).
  cbv zeta. unfold pt_too_many. rewrite A7.
  destruct (hc_total_tags (p_hc P) >? max_tags).
  - split; [apply (nodes_ok_ext (pt_root (with_cur_tag P t))); [reflexivity | reflexivity
                                                                | exact A1]|].
    split; [apply (level_live_ext (pt_root (with_cur_tag P t)));
            [reflexivity | reflexivity | exact A2]|].
    split; [exact A3|]. split; [exact A4|]. split; [exact A5|].
    split; [exact A6|]. split; [exact A7|]. split; [exact A8|].
    cbn [set_hc p_hc hc_or_flags hc_flags]. rewrite A9. reflexivity.
  - exact (conj A1 (conj A2 (conj A3 (conj A4 (conj A5 (conj A6 (conj A7 (conj A8 A9)))))))).
Qed.
Lemma has_unique_ignore (f : Z) : has (f .| FL_IGNORE) CM_UNIQUE = has f CM_UNIQUE.
Proof. flag_names. flag_simpl. reflexivity. Qed.

Lemma has_dup_other (f : Z) :
  has (f .| RSPAMD_HTML_FLAG_TOO_MANY_TAGS) RSPAMD_HTML_FLAG_DUPLICATE_ELEMENTS
  = has f RSPAMD_HTML_FLAG_DUPLICATE_ELEMENTS
  /\ has (f .| RSPAMD_HTML_FLAG_UNBALANCED) RSPAMD_HTML_FLAG_DUPLICATE_ELEMENTS
     = has f RSPAMD_HTML_FLAG_DUPLICATE_ELEMENTS
  /\ has (f .| RSPAMD_HTML_FLAG_DUPLICATE_ELEMENTS) RSPAMD_HTML_FLAG_DUPLICATE_ELEMENTS
     = true.
Proof. flag_names. repeat split; flag_simpl; reflexivity. Qed.

Lemma has_too_many_other (f : Z) :
  has (f .| RSPAMD_HTML_FLAG_TOO_MANY_TAGS) RSPAMD_HTML_FLAG_TOO_MANY_TAGS = true
  /\ has (f .| RSPAMD_HTML_FLAG_UNBALANCED) RSPAMD_HTML_FLAG_TOO_MANY_TAGS
     = has f RSPAMD_HTML_FLAG_TOO_MANY_TAGS
  /\ has (f .| RSPAMD_HTML_FLAG_DUPLICATE_ELEMENTS) RSPAMD_HTML_FLAG_TOO_MANY_TAGS
     = has f RSPAMD_HTML_FLAG_TOO_MANY_TAGS.
Proof. flag_names. repeat split; flag_simpl; reflexivity. Qed.

(** State [tag_end] after the call: the uniqueness check on the state [Q1]
    the call left, for the tag record [tag] holding [u]. *)
Lemma tag_end_seen_step (t u : html_tag) (P P2 Q1 : parser) (tag : nat) :
  nodes_ok Q1 -> level_live Q1 -> hc_html_tags (p_hc Q1) <> None ->
  get_tag Q1 tag = Some u -> tag_id u = tag_id t ->
  tag_flags u = tag_flags t \/ tag_flags u = tag_flags t .| FL_IGNORE ->
  List.length (p_tags Q1) = S (List.length (p_tags P)) ->
  hc_tags_seen (p_hc Q1) = hc_tags_seen (p_hc P) ->
  hc_flags (p_hc Q1) = hc_flags (p_hc P2)
  \/ hc_flags (p_hc Q1) = hc_flags (p_hc P2) .| RSPAMD_HTML_FLAG_UNBALANCED ->
  hc_flags (p_hc P2)
  = (if hc_total_tags (p_hc P) >? max_tags
     then hc_flags (p_hc P) .| RSPAMD_HTML_FLAG_TOO_MANY_TAGS
     else hc_flags (p_hc P)) ->
  List.length (p_nodes P2)
  = ((match hc_html_tags (p_hc P) with Some _ => 0 | None => 1 end)
     + List.length (p_nodes P))%nat ->
  hc_total_tags (p_hc P2) = hc_total_tags (p_hc P) ->
  (if tag_id t =? -1
   then List.length (p_nodes Q1) = List.length (p_nodes P2)
        /\ hc_total_tags (p_hc Q1) = wrap32 (hc_total_tags (p_hc P2) + 1)
   else count_rel P2 Q1) ->
  map tag_id (p_tags Q1) = map tag_id (p_tags P) ++ [tag_id t] ->
  exists Q, tag_end_seen Q1 tag = Some Q /\ tag_step t P Q.
Proof.
  intros Hn Hl Hroot Eu Hid Hfl Hlen Hseen HfQ Hf2 Hnodes Htot Hcount Hmap.
  unfold tag_end_seen. rewrite Eu. cbn [bind].
  assert (Hbit : negb (tag_id u =? -1) && (tag_id u <? N_TAGS) = tag_seen_bit t)
    by (unfold tag_seen_bit; rewrite Hid; reflexivity).
  assert (Huniq : has (tag_flags u) CM_UNIQUE = has (tag_flags t) CM_UNIQUE)
    by (destruct Hfl as [-> | ->]; [reflexivity | apply has_unique_ignore]).
  rewrite Hbit, Huniq, Hid, Hseen.
  assert (Hdup0 : has (hc_flags (p_hc Q1)) RSPAMD_HTML_FLAG_DUPLICATE_ELEMENTS
                  = has (hc_flags (p_hc P)) RSPAMD_HTML_FLAG_DUPLICATE_ELEMENTS).
  { destruct HfQ as [-> | ->]; rewrite Hf2;
      destruct (hc_total_tags (p_hc P) >? max_tags);
      rewrite ?(proj1 (proj2 (has_dup_other _))), ?(proj1 (has_dup_other _)); reflexivity. }
  assert (Htm0 : has (hc_flags (p_hc Q1)) RSPAMD_HTML_FLAG_TOO_MANY_TAGS
                 = has (hc_flags (p_hc P)) RSPAMD_HTML_FLAG_TOO_MANY_TAGS
                   || (hc_total_tags (p_hc P) >? max_tags)).
  { destruct HfQ as [-> | ->]; rewrite Hf2;
      destruct (hc_total_tags (p_hc P) >? max_tags);
      rewrite ?(proj1 (proj2 (has_too_many_other _))), ?(proj1 (has_too_many_other _)),
        ?orb_true_r, ?orb_false_r; reflexivity. }
  assert (Hunb0 : has (hc_flags (p_hc P)) RSPAMD_HTML_FLAG_UNBALANCED = true ->
                  has (hc_flags (p_hc Q1)) RSPAMD_HTML_FLAG_UNBALANCED = true).
  { intros Hu. destruct HfQ as [-> | ->]; rewrite Hf2;
      destruct (hc_total_tags (p_hc P) >? max_tags);
      repeat apply has_mono; exact Hu. }
  assert (Hfin : forall h,
             hc_html_tags h = hc_html_tags (p_hc Q1) ->
             hc_total_tags h = hc_total_tags (p_hc Q1) ->
             hc_tags_seen h
             = (if tag_seen_bit t then Z.setbit (hc_tags_seen (p_hc P)) (tag_id t)
                else hc_tags_seen (p_hc P)) ->
             has (hc_flags h) RSPAMD_HTML_FLAG_DUPLICATE_ELEMENTS
             = has (hc_flags (p_hc P)) RSPAMD_HTML_FLAG_DUPLICATE_ELEMENTS
               || (tag_seen_bit t && has (tag_flags t) CM_UNIQUE
                   && Z.testbit (hc_tags_seen (p_hc P)) (tag_id t)) ->
             has (hc_flags h) RSPAMD_HTML_FLAG_TOO_MANY_TAGS
             = has (hc_flags (p_hc Q1)) RSPAMD_HTML_FLAG_TOO_MANY_TAGS ->
             (has (hc_flags (p_hc Q1)) RSPAMD_HTML_FLAG_UNBALANCED = true ->
              has (hc_flags h) RSPAMD_HTML_FLAG_UNBALANCED = true) ->
             tag_step t P (set_hc Q1 h)).
  { intros h E1 E2 E3 E4 E5 E6.
    split; [split; [apply (nodes_ok_ext Q1); [reflexivity | reflexivity | exact Hn]|];
            cbn [set_hc p_hc]; rewrite E1;
            destruct (hc_html_tags (p_hc Q1)); [|congruence];
            apply (level_live_ext Q1); [reflexivity | reflexivity | exact Hl]|].
    split; [cbn [set_hc p_hc]; rewrite E1; exact Hroot|].
    split; [exact Hlen|]. split; [exact E3|]. split; [exact E4|].
    split; [rewrite <- Htm0; exact E5|].
    split; [exact Hmap|].
    split; [intros Hu; apply E6, Hunb0; exact Hu|].
    exists P2. split; [exact Hnodes|]. split; [exact Htot|].
    destruct (tag_id t =? -1).
    - cbn [set_hc p_nodes p_hc]. rewrite E2. exact Hcount.
    - apply (count_rel_ext P2 P2 Q1 (set_hc Q1 h) eq_refl eq_refl eq_refl E2 Hcount). }
  destruct (tag_seen_bit t) eqn:Eb.
  - eexists. split; [reflexivity|].
    apply Hfin; cbn [hc_html_tags hc_total_tags hc_tags_seen hc_flags].
    + destruct (has (tag_flags t) CM_UNIQUE && _); reflexivity.
    + destruct (has (tag_flags t) CM_UNIQUE && _); reflexivity.
    + destruct (has (tag_flags t) CM_UNIQUE && _); cbn [hc_or_flags hc_tags_seen];
        rewrite Hseen; reflexivity.
    + destruct (has (tag_flags t) CM_UNIQUE && Z.testbit (hc_tags_seen (p_hc P)) (tag_id t))
        eqn:Ec; cbn [hc_or_flags hc_flags andb].
      * rewrite (proj2 (proj2 (has_dup_other _))). rewrite Ec, orb_true_r. reflexivity.
      * rewrite Hdup0, Ec, orb_false_r. reflexivity.
    + destruct (has (tag_flags t) CM_UNIQUE && _); cbn [hc_or_flags hc_flags];
        [apply (proj2 (proj2 (has_too_many_other _))) | reflexivity].
    + intros Hu. destruct (has (tag_flags t) CM_UNIQUE && _); cbn [hc_or_flags hc_flags];
        [apply has_mono; exact Hu | exact Hu].
  - exists Q1. split; [reflexivity|].
    replace Q1 with (set_hc Q1 (p_hc Q1)) by (destruct Q1; reflexivity).
    apply Hfin; cbn [set_hc p_hc]; try reflexivity.
    + exact Hseen.
    + rewrite Hdup0. cbn [andb]. rewrite orb_false_r. reflexivity.
    + tauto.
Qed.
(** One completed tag never stops the parser, and leaves the state
    [tag_step] describes. *)
Lemma html_tag_end_total (P : parser) (t : html_tag) :
  tree_ok P -> exists Q, html_tag_end P t = Some Q /\ tag_step t P Q.
Proof.
  intros Hok0.
  destruct (pt_prologue_ok P t Hok0)
    as (Hn2 & Hl2 & Hr2 & Hb2 & Et2 & Hs2 & Ht2 & Hno2 & Hf2).
  rewrite html_tag_end_unfold. unfold rspamd_html_process_tag.
  set (tag := List.length (p_tags P)) in *.
  set (P2 := pt_too_many (pt_root (with_cur_tag P t))) in *.
  cbv zeta.
  assert (Etag2 : get_tag P2 tag = Some t).
  { unfold get_tag. rewrite Et2. rewrite nth_error_app2 by (unfold tag; lia).
    unfold tag. rewrite Nat.sub_diag. reflexivity. }
  assert (Hlen2 : List.length (p_tags P2) = S (List.length (p_tags P)))
    by (rewrite Et2, length_app; cbn [List.length]; lia).
  rewrite Etag2. cbn [bind].
  destruct (tag_id t =? -1) eqn:Eid.
  - cbn [bind].
    apply (tag_end_seen_step t t P P2 (set_hc P2 (hc_count_tag (p_hc P2))) tag
             (nodes_ok_ext P2 _ eq_refl eq_refl Hn2)
             (level_live_ext P2 _ eq_refl eq_refl Hl2)
             Hr2 Etag2 eq_refl (or_introl eq_refl) Hlen2 Hs2 (or_introl eq_refl)
             Hf2 Hno2 Ht2).
    + rewrite Eid. split; reflexivity.
    + cbn [set_hc p_tags]. rewrite Et2, map_app. reflexivity.
  - destruct Hl2 as (cl & Hcur2 & Hlive2).
    set (t1 := mk_tag (tag_id t) (tag_flags t) (tag_content_length t) (p_cur_level P2)).
    assert (Hpre : pt_pre tag t1 (set_tag P2 tag t1)).
    { split; [apply nodes_ok_set_free_tag; [exact Hn2 | exact Hb2]|].
      split; [exists cl; split; [exact Hcur2 | exact Hlive2]|].
      split; [exact Hr2|]. split; [exact Hb2|].
      split; [apply (get_tag_set_tag_eq _ _ _ _ Etag2)|].
      exists cl. split; [exact Hcur2 | exact Hlive2]. }
    assert (Hbranch : forall o : option (parser * bool * bool),
               (exists Q r b', o = Some (Q, r, b') /\ pt_post tag t1 (set_tag P2 tag t1) Q) ->
               exists Q, bind o (fun x => match x with (Q, _, _) => tag_end_seen Q tag end)
                         = Some Q /\ tag_step t P Q).
    { intros o (Q1 & r & b' & -> & HQ1). cbn [bind].
      destruct HQ1 as (A1 & A2 & A3 & A4 & A5 & A6 & A7 & (u & Eu & Hu1 & Hu2) & A8).
      assert (B3 : hc_html_tags (p_hc Q1) <> None) by (rewrite A3; exact Hr2).
      assert (B5 : List.length (p_tags Q1) = S (List.length (p_tags P)))
        by (rewrite A5; unfold set_tag; cbn [p_tags]; rewrite upd_length; exact Hlen2).
      assert (B4 : hc_tags_seen (p_hc Q1) = hc_tags_seen (p_hc P))
        by (rewrite A4; exact Hs2).
      apply (tag_end_seen_step t u P P2 Q1 tag A1 A2 B3 Eu Hu1 Hu2 B5 B4 A6 Hf2 Hno2 Ht2).
      - rewrite Eid.
        exact (count_rel_ext (set_tag P2 tag t1) P2 Q1 Q1 eq_refl eq_refl eq_refl eq_refl A7).
      - rewrite A8. unfold set_tag. cbn [p_tags].
        rewrite (map_id_upd _ _ t t1 Etag2 eq_refl). rewrite Et2, map_app. reflexivity. }
    apply Hbranch.
    change (tag_flags {| tag_id := tag_id t; tag_flags := tag_flags t;
                         tag_content_length := tag_content_length t;
                         tag_parent := p_cur_level P2 |}) with (tag_flags t1).
    destruct (negb (has (tag_flags t1) CM_INLINE)).
    + destruct (has (tag_flags t1) (FL_CLOSING .| FL_CLOSED)).
      * apply (pt_block_closing_ok tag t1 _ true Hpre).
      * apply (pt_block_open_ok tag t1 _ true Hpre).
    + apply (pt_inline_ok tag t1 _ true Hpre).
Qed.

Lemma tree_ok_init : tree_ok parser_init.
Proof.
  split.
  - intros i n E. unfold get_node, parser_init in E. cbn [p_nodes] in E.
    destruct i; discriminate E.
  - cbn. split; reflexivity.
Qed.

(** A run of tags never stops the parser. *)
Lemma html_tags_run_total (ts : list html_tag) :
  forall P, tree_ok P -> exists Q, html_tags_run P ts = Some Q /\ tree_ok Q.
Proof.
  induction ts as [|t ts IH]; intros P HP; cbn [html_tags_run].
  - exists P. split; [reflexivity | exact HP].
  - destruct (html_tag_end_total P t HP) as (Q1 & E1 & HQ1). rewrite E1. cbn [bind].
    apply IH. apply HQ1.
Qed.

(** X12.  Whatever tags a document is made of, known or not, opening, closing
    or self-closed, in whatever order, with the ids the tag parser gives,
    [rspamd_html_process_tag] and
    [rspamd_html_check_balance] never follow a NULL pointer or a node that
    was freed: state [tag_end] gets through every tag. *)
Theorem html_tags_never_fault (ts : list html_tag) :
  ids_parsed ts ->
  exists Q, html_tags_run parser_init ts = Some Q /\ tree_ok Q.
Proof. intros _. apply html_tags_run_total. apply tree_ok_init. Qed.
End ProcessTagTotal.

(** ** The tag tree: what a whole document leaves *)

Lemma testbit_setbit_any (a n m : Z) :
  Z.testbit (Z.setbit a n) m = ((0 <=? n) && (n =? m)) || Z.testbit a m.
Proof.
  destruct (Z.leb_spec 0 n) as [Hn|Hn]; cbn [andb].
  - apply Z.setbit_eqb. exact Hn.
  - cbn [orb]. destruct (Z.ltb_spec m 0) as [Hm|Hm].
    + rewrite !Z.testbit_neg_r by exact Hm. reflexivity.
    + rewrite Z.setbit_spec', Z.lor_spec, Z.pow_neg_r by exact Hn.
      rewrite Z.testbit_0_l. apply orb_false_r.
Qed.

Section RunFacts.
Context `{html_h} {Hok : html_h_ok}.

Lemma tag_seen_bit_range (t : html_tag) (id : Z) :
  0 <= id < N_TAGS -> tag_id t = id -> tag_seen_bit t = true.
Proof.
  intros Hid <-. unfold tag_seen_bit.
  destruct (Z.eqb_spec (tag_id t) (-1)); [lia|].
  destruct (Z.ltb_spec (tag_id t) N_TAGS); [reflexivity | lia].
Qed.

(** The bits of [tags_seen] after a run are the ids of its tags. *)
Lemma run_tags_seen (ts : list html_tag) :
  forall P, tree_ok P ->
    exists Q, html_tags_run P ts = Some Q /\ tree_ok Q
              /\ forall id, 0 <= id < N_TAGS ->
                   Z.testbit (hc_tags_seen (p_hc Q)) id
                   = Z.testbit (hc_tags_seen (p_hc P)) id
                     || existsb (fun t => tag_id t =? id) ts.
Proof.
  induction ts as [|t ts IH]; intros P HP; cbn [html_tags_run existsb].
  - exists P. split; [reflexivity|]. split; [exact HP|].
    intros id _. rewrite orb_false_r. reflexivity.
  - destruct (html_tag_end_total P t HP) as (Q1 & E1 & HQ1). rewrite E1. cbn [bind].
    destruct HQ1 as (T1 & _ & _ & Hseen & _).
    destruct (IH Q1 T1) as (Q & EQ & TQ & Hbits).
    exists Q. split; [exact EQ|]. split; [exact TQ|].
    intros id Hid. rewrite (Hbits id Hid), Hseen.
    destruct (Z.eqb_spec (tag_id t) id) as [E|E].
    + rewrite (tag_seen_bit_range t id Hid E), testbit_setbit_any.
      subst id. destruct (Z.leb_spec 0 (tag_id t)); [|lia].
      rewrite Z.eqb_refl. cbn [andb orb]. rewrite !orb_true_r. reflexivity.
    + destruct (tag_seen_bit t); [|reflexivity].
      rewrite testbit_setbit_any.
      destruct (Z.eqb_spec (tag_id t) id); [contradiction|].
      rewrite andb_false_r. reflexivity.
Qed.

(** X13.  After any document, [rspamd_html_tag_seen] with the name of a row
    of the tag table tells whether a tag with the id of that row occurred,
    be it as an opening, a closing or a self-closed tag. *)
Theorem tag_seen_after_document (ts : list html_tag) (d : html_tag_def) :
  ids_parsed ts ->
  In d tag_defs_src ->
  exists Q, html_tags_run parser_init ts = Some Q
            /\ rspamd_html_tag_seen (p_hc Q) (bytes (def_name d))
               = existsb (fun t => tag_id t =? def_id d) ts.
Proof.
  intros _ Hd.
  destruct (run_tags_seen ts parser_init tree_ok_init) as (Q & EQ & _ & Hbits).
  exists Q. split; [exact EQ|].
  unfold rspamd_html_tag_seen. rewrite (tag_by_name_found d Hd).
  assert (Hid : 0 <= def_id d < N_TAGS).
  { pose proof (tag_defs_src_ids) as Hm.
    assert (Hin : In (def_id d) (map tag_num tag_ids))
      by (rewrite <- Hm; apply in_map; exact Hd).
    apply in_map_iff in Hin. destruct Hin as (x & <- & _). apply tag_num_range. }
  destruct (Z.eqb_spec (def_id d) (-1)); [lia|]. cbn [negb].
  rewrite (Hbits _ Hid). cbn [parser_init p_hc hc_tags_seen].
  rewrite Z.testbit_0_l. reflexivity.
Qed.
Lemma tag_seen_bit_id (a b : html_tag) :
  tag_id a = tag_id b -> tag_seen_bit a = tag_seen_bit b.
Proof. intros E. unfold tag_seen_bit. rewrite E. reflexivity. Qed.

Lemma run_dup (ts : list html_tag) :
  forall P, tree_ok P ->
    exists Q, html_tags_run P ts = Some Q
              /\ has (hc_flags (p_hc Q)) RSPAMD_HTML_FLAG_DUPLICATE_ELEMENTS
                 = has (hc_flags (p_hc P)) RSPAMD_HTML_FLAG_DUPLICATE_ELEMENTS
                   || dup_from (hc_tags_seen (p_hc P)) ts.
Proof.
  induction ts as [|t ts IH]; intros P HP; cbn [html_tags_run dup_from].
  - exists P. split; [reflexivity | rewrite orb_false_r; reflexivity].
  - destruct (html_tag_end_total P t HP) as (Q1 & E1 & HQ1). rewrite E1. cbn [bind].
    destruct HQ1 as (T1 & _ & _ & Hseen & Hdup & _).
    destruct (IH Q1 T1) as (Q & EQ & HQ).
    exists Q. split; [exact EQ|]. rewrite HQ, Hdup, Hseen, orb_assoc. reflexivity.
Qed.

(** The check fires on a tag that is recorded and unique and whose bit is
    set: at the start, or by a tag before it. *)
Lemma dup_from_iff (ts : list html_tag) :
  forall seen,
    dup_from seen ts = true
    <-> exists l1 b l2,
          ts = l1 ++ b :: l2 /\ tag_seen_bit b = true
          /\ has (tag_flags b) CM_UNIQUE = true
          /\ (Z.testbit seen (tag_id b) = true
              \/ (0 <= tag_id b /\ exists a, In a l1 /\ tag_id a = tag_id b)).
Proof.
  induction ts as [|t r IH]; intros seen; cbn [dup_from].
  - split; [discriminate|]. intros (l1 & b & l2 & E & _). destruct l1; discriminate E.
  - split.
    + intros Hd. apply orb_prop in Hd. destruct Hd as [Hd|Hd].
      * apply andb_prop in Hd. destruct Hd as [Hd H3]. apply andb_prop in Hd.
        destruct Hd as [H1 H2]. exists [], t, r. auto.
      * apply IH in Hd. destruct Hd as (l1 & b & l2 & E & H1 & H2 & H3).
        exists (t :: l1), b, l2. split; [rewrite E; reflexivity|].
        split; [exact H1|]. split; [exact H2|].
        destruct H3 as [H3|(Hpos & a & Ha & Hab)].
        -- destruct (tag_seen_bit t); [|left; exact H3].
           rewrite testbit_setbit_any in H3. apply orb_prop in H3.
           destruct H3 as [H3|H3]; [|left; exact H3].
           apply andb_prop in H3. destruct H3 as [Hp He].
           apply Z.leb_le in Hp. apply Z.eqb_eq in He.
           right. split; [lia|]. exists t. split; [left; reflexivity | exact He].
        -- right. split; [exact Hpos|]. exists a. split; [right; exact Ha | exact Hab].
    + intros (l1 & b & l2 & E & H1 & H2 & H3).
      destruct l1 as [|t' l1]; cbn [app] in E; injection E as -> ->.
      * destruct H3 as [H3|(_ & a & [] & _)]. rewrite H1, H2, H3. reflexivity.
      * apply orb_true_intro. right. apply IH.
        exists l1, b, l2. split; [reflexivity|]. split; [exact H1|]. split; [exact H2|].
        destruct H3 as [H3|(Hpos & a & [<-|Ha] & Hab)].
        -- left. destruct (tag_seen_bit t'); [|exact H3].
           rewrite testbit_setbit_any, H3. apply orb_true_r.
        -- left. rewrite (tag_seen_bit_id t' b Hab), H1, testbit_setbit_any.
           rewrite Hab. destruct (Z.leb_spec 0 (tag_id b)); [|lia].
           rewrite Z.eqb_refl. reflexivity.
        -- right. split; [exact Hpos|]. exists a. split; [exact Ha | exact Hab].
Qed.

(** X14.  The duplicate-elements flag is set after a document exactly when
    some tag whose flags hold [CM_UNIQUE] comes after a tag with the same
    id (an id from 0 to [N_TAGS] - 1), whether the two are opening or
    closing tags. *)
Theorem duplicate_flag_iff (ts : list html_tag) :
  ids_parsed ts ->
  exists Q,
    html_tags_run parser_init ts = Some Q
    /\ (has (hc_flags (p_hc Q)) RSPAMD_HTML_FLAG_DUPLICATE_ELEMENTS = true
        <-> exists l1 a l2 b l3,
              ts = l1 ++ a :: l2 ++ b :: l3
              /\ tag_id a = tag_id b
              /\ 0 <= tag_id b < N_TAGS
              /\ has (tag_flags b) CM_UNIQUE = true).
Proof.
  intros _. destruct (run_dup ts parser_init tree_ok_init) as (Q & EQ & HQ).
  exists Q. split; [exact EQ|]. rewrite HQ.
  cbn [parser_init p_hc hc_flags hc_tags_seen]. rewrite has_0_l. cbn [orb].
  rewrite dup_from_iff. split.
  - intros (l1' & b & l3 & E & H1 & H2 & H3).
    destruct H3 as [H3|(Hpos & a & Ha & Hab)];
      [rewrite Z.testbit_0_l in H3; discriminate H3|].
    apply in_split in Ha. destruct Ha as (l1 & l2 & ->).
    exists l1, a, l2, b, l3. split; [rewrite E, <- app_assoc; reflexivity|].
    split; [exact Hab|]. split; [|exact H2].
    unfold tag_seen_bit in H1. apply andb_prop in H1. destruct H1 as [_ Hlt].
    apply Z.ltb_lt in Hlt. lia.
  - intros (l1 & a & l2 & b & l3 & E & Hab & Hr & Hu).
    exists (l1 ++ a :: l2), b, l3. split; [rewrite E, <- app_assoc; reflexivity|].
    split; [apply (tag_seen_bit_range b (tag_id b) Hr eq_refl)|]. split; [exact Hu|].
    right. split; [lia|]. exists a. split; [|exact Hab].
    apply in_or_app. right. left. reflexivity.
Qed.
(** The count of tags does not wrap before 2^32 tags, and the nodes ever
    made, the root among them, are one more than the count at most, and one
    more than the limit at most. *)
Lemma run_counts (ts : list html_tag) :
  forall P k,
    tree_ok P -> 0 <= hc_total_tags (p_hc P) <= k ->
    k + Z.of_nat (List.length ts) < 2^32 ->
    Z.of_nat (List.length (p_nodes P))
    <= (match hc_html_tags (p_hc P) with Some _ => 1 | None => 0 end)
       + Z.min (hc_total_tags (p_hc P)) max_tags ->
    exists Q, html_tags_run P ts = Some Q /\ tree_ok Q
              /\ 0 <= hc_total_tags (p_hc Q) <= k + Z.of_nat (List.length ts)
              /\ Z.of_nat (List.length (p_nodes Q))
                 <= 1 + Z.min (hc_total_tags (p_hc Q)) max_tags
              /\ map tag_id (p_tags Q) = map tag_id (p_tags P) ++ map tag_id ts.
Proof.
  induction ts as [|t ts IH]; intros P k HP Hk Hlen Hnodes; cbn [html_tags_run map].
  - exists P. split; [reflexivity|]. split; [exact HP|]. cbn [List.length].
    split; [lia|]. rewrite app_nil_r. split; [|reflexivity].
    destruct (hc_html_tags (p_hc P)); lia.
  - cbn [List.length] in Hlen. rewrite Nat2Z.inj_succ in Hlen.
    destruct (html_tag_end_total P t HP) as (Q1 & E1 & HQ1). rewrite E1. cbn [bind].
    destruct HQ1 as (T1 & Hroot & _ & _ & _ & _ & Hmap & _ & P1 & Hn1 & Ht1 & Hc).
    assert (Hn1' : Z.of_nat (List.length (p_nodes P1))
                   <= 1 + Z.min (hc_total_tags (p_hc P)) max_tags).
    { rewrite Hn1. destruct (hc_html_tags (p_hc P)); lia. }
    assert (Hstep : 0 <= hc_total_tags (p_hc Q1) <= k + 1
                    /\ Z.of_nat (List.length (p_nodes Q1))
                       <= 1 + Z.min (hc_total_tags (p_hc Q1)) max_tags).
    { destruct (tag_id t =? -1).
      - destruct Hc as [Hcn Hct]. rewrite Hcn, Hct, Ht1.
        rewrite wrap32_small by lia. lia.
      - destruct Hc as [[Hcn Hct]|(Hcn & Hlt & Hct)].
        + rewrite Hcn, Hct, Ht1. lia.
        + rewrite Hcn, Hct, Ht1 in *. rewrite wrap32_small by lia.
          rewrite Nat2Z.inj_succ. lia. }
    destruct Hstep as [Hk1 Hnodes1].
    destruct (IH Q1 (k + 1) T1 Hk1 ltac:(lia)) as (Q & EQ & TQ & HkQ & HnQ & HmQ).
    + destruct (hc_html_tags (p_hc Q1)); [exact Hnodes1 | congruence].
    + exists Q. split; [exact EQ|]. split; [exact TQ|].
      split; [cbn [List.length]; rewrite Nat2Z.inj_succ; lia|].
      split; [exact HnQ|]. rewrite HmQ, Hmap, <- app_assoc. reflexivity.
Qed.

(** X15.  For a document of fewer than 2^32 tags, no more than 8192 nodes
    are ever made for tags, besides the root, freed nodes included. *)
Theorem tag_nodes_capped (ts : list html_tag) :
  ids_parsed ts ->
  Z.of_nat (List.length ts) < 2^32 ->
  exists Q, html_tags_run parser_init ts = Some Q
            /\ Z.of_nat (List.length (p_nodes Q)) <= max_tags + 1.
Proof.
  intros _ Hlen.
  assert (H0 : 0 <= hc_total_tags (p_hc parser_init) <= 0) by (cbn; lia).
  assert (Hn0 : Z.of_nat (List.length (p_nodes parser_init))
                <= (match hc_html_tags (p_hc parser_init) with
                    | Some _ => 1 | None => 0 end)
                   + Z.min (hc_total_tags (p_hc parser_init)) max_tags)
    by (cbn; lia).
  destruct (run_counts ts parser_init 0 tree_ok_init H0 ltac:(lia) Hn0)
    as (Q & EQ & _ & _ & Hn & _).
  exists Q. split; [exact EQ | lia].
Qed.

Lemma run_known_tags (ts : list html_tag) :
  forall P,
    tree_ok P -> 0 <= hc_total_tags (p_hc P) <= max_tags ->
    (forall t, In t ts -> tag_id t <> -1) ->
    exists Q, html_tags_run P ts = Some Q
              /\ has (hc_flags (p_hc Q)) RSPAMD_HTML_FLAG_TOO_MANY_TAGS
                 = has (hc_flags (p_hc P)) RSPAMD_HTML_FLAG_TOO_MANY_TAGS.
Proof.
  induction ts as [|t ts IH]; intros P HP Hk Hknown; cbn [html_tags_run].
  - exists P. split; reflexivity.
  - destruct (html_tag_end_total P t HP) as (Q1 & E1 & HQ1). rewrite E1. cbn [bind].
    destruct HQ1 as (T1 & _ & _ & _ & _ & Htm & _ & _ & P1 & Hn1 & Ht1 & Hc).
    pose proof (Hknown t (or_introl eq_refl)) as Hid.
    destruct (Z.eqb_spec (tag_id t) (-1)); [contradiction|].
    assert (Hk1 : 0 <= hc_total_tags (p_hc Q1) <= max_tags).
    { destruct Hc as [[_ Hct]|(_ & Hlt & Hct)]; rewrite Hct, Ht1;
        [exact Hk | rewrite wrap32_small by (unfold max_tags in *; lia); lia]. }
    destruct (IH Q1 T1 Hk1) as (Q & EQ & HQ).
    + intros t' Ht'. apply Hknown. right. exact Ht'.
    + exists Q. split; [exact EQ|]. rewrite HQ, Htm.
      destruct (Z.gtb_spec (hc_total_tags (p_hc P)) max_tags); [lia|].
      apply orb_false_r.
Qed.

(** X16.  A document without unknown tags never gets the too-many-tags flag,
    however many tags it has: the count of a known tag stops at the limit,
    and the flag asks for more than the limit. *)
Theorem known_tags_never_too_many (ts : list html_tag) :
  ids_parsed ts ->
  (forall t, In t ts -> tag_id t <> -1) ->
  exists Q, html_tags_run parser_init ts = Some Q
            /\ has (hc_flags (p_hc Q)) RSPAMD_HTML_FLAG_TOO_MANY_TAGS = false.
Proof.
  intros _ Hknown.
  assert (H0 : 0 <= hc_total_tags (p_hc parser_init) <= max_tags)
    by (cbn; unfold max_tags; lia).
  destruct (run_known_tags ts parser_init tree_ok_init H0 Hknown) as (Q & EQ & HQ).
  exists Q. split; [exact EQ|]. rewrite HQ. apply has_0_l.
Qed.
End RunFacts.
(** ** A closing tag that closes nothing *)

Section Stray.
Context `{html_h} {Hok : html_h_ok}.

(** The walk of [rspamd_html_check_balance] stops at no node when no tag on
    the way has the id it looks for. *)
Lemma balance_walk_no_match (P : parser) (id : Z) (m : nat) :
  nodes_ok P ->
  (forall c n ti u, (c < m)%nat -> get_node P c = Some n -> node_data n = Some ti ->
     get_tag P ti = Some u -> tag_id u <> id) ->
  forall fuel c, (c < fuel)%nat -> (c < m)%nat -> live P c ->
    balance_walk fuel P id (Some c) = Some None.
Proof.
  intros Hn Hno. induction fuel as [|fuel IH]; intros c Hc Hm [n En]; [lia|].
  cbn [balance_walk]. rewrite En. cbn [bind].
  destruct (Hn c n En) as [Hpar Hdata].
  destruct (node_data n) as [ti|] eqn:Hd; [|reflexivity].
  destruct (Hdata ti eq_refl) as ([j Hj] & u & k & Eu & Hu & Hk).
  rewrite Eu. cbn [bind].
  destruct (Hpar j Hj) as [Hlt Hl].
  destruct (Z.eqb_spec (tag_id u) id) as [E|_];
    [exfalso; exact (Hno c n ti u Hm En Hd Eu E)|].
  cbn [andb]. rewrite Hj. apply IH; [lia | lia | exact Hl].
Qed.

Lemma has_unbalanced_set (f : Z) :
  has (f .| RSPAMD_HTML_FLAG_UNBALANCED) RSPAMD_HTML_FLAG_UNBALANCED = true
  /\ has (f .| RSPAMD_HTML_FLAG_UNBALANCED .| RSPAMD_HTML_FLAG_DUPLICATE_ELEMENTS)
         RSPAMD_HTML_FLAG_UNBALANCED = true.
Proof. flag_names. split; flag_simpl; reflexivity. Qed.

(** A closing block tag whose id no earlier tag has, met below the limit of
    tags: the walk finds nothing to close and the document is unbalanced. *)
Lemma html_tag_end_stray (P : parser) (t : html_tag) :
  tree_ok P -> tag_id t <> -1 ->
  has (tag_flags t) CM_INLINE = false -> has (tag_flags t) FL_CLOSING = true ->
  ~ In (tag_id t) (map tag_id (p_tags P)) ->
  hc_total_tags (p_hc P) < max_tags ->
  exists Q, html_tag_end P t = Some Q
            /\ has (hc_flags (p_hc Q)) RSPAMD_HTML_FLAG_UNBALANCED = true.
Proof.
  intros Hok0 Hid Hinl Hcl Hnew Hlt.
  destruct (pt_prologue_ok P t Hok0)
    as (Hn2 & Hl2 & Hr2 & Hb2 & Et2 & Hs2 & Ht2 & Hno2 & Hf2).
  rewrite html_tag_end_unfold. unfold rspamd_html_process_tag.
  set (tag := List.length (p_tags P)) in *.
  set (P2 := pt_too_many (pt_root (with_cur_tag P t))) in *.
  cbv zeta.
  assert (Etag2 : get_tag P2 tag = Some t).
  { unfold get_tag. rewrite Et2. rewrite nth_error_app2 by (unfold tag; lia).
    unfold tag. rewrite Nat.sub_diag. reflexivity. }
  rewrite Etag2. cbn [bind].
  destruct (Z.eqb_spec (tag_id t) (-1)); [contradiction|].
  destruct Hl2 as (cl & Hcur2 & Hlive2).
  cbn [tag_flags]. rewrite Hinl. cbn [negb]. rewrite has_lor_r, Hcl. cbn [orb].
  set (t1 := mk_tag (tag_id t) (tag_flags t) (tag_content_length t) (p_cur_level P2)).
  set (S2 := set_tag P2 tag t1).
  assert (Hcur3 : p_cur_level S2 = Some cl) by exact Hcur2.
  assert (Htot3 : hc_total_tags (p_hc S2) = hc_total_tags (p_hc P)) by exact Ht2.
  unfold pt_block_closing. rewrite Hcur3, Htot3.
  destruct (Z.ltb_spec (hc_total_tags (p_hc P)) max_tags); [|lia].
  unfold g_node_new_append. cbv beta iota zeta.
  set (nd := mk_node (Some tag) (Some cl)).
  set (P3 := mk_parser (p_tags S2) (p_nodes S2 ++ [Some nd]) (p_hc S2) (p_cur_level S2)).
  assert (HnS : nodes_ok S2) by (apply nodes_ok_set_free_tag; [exact Hn2 | exact Hb2]).
  assert (EtS : get_tag S2 tag = Some t1) by apply (get_tag_set_tag_eq _ _ _ _ Etag2).
  assert (HlS : live S2 cl) by exact Hlive2.
  assert (Hn3 : nodes_ok P3).
  { apply nodes_ok_app; [exact HnS|]. intros n0 E. injection E as <-.
    cbn [nd node_parent node_data]. split.
    - intros k Ek. injection Ek as <-. exact HlS.
    - intros ti Eti. injection Eti as <-. split; [exists cl; reflexivity|].
      exists t1, cl. split; [exact EtS|]. split; [exact Hcur2 | exact HlS]. }
  assert (Ek : get_node P3 (List.length (p_nodes S2)) = Some nd)
    by apply (get_node_new (p_tags S2) (p_nodes S2) (p_hc S2) (p_cur_level S2) (Some nd)).
  assert (Hwalk : balance_walk (S (List.length (p_nodes P3))) P3 (tag_id t1) (Some cl)
                  = Some None).
  { pose proof (live_lt S2 cl HlS) as Hcl3.
    apply (balance_walk_no_match P3 (tag_id t1) (List.length (p_nodes S2)) Hn3).
    - intros c n0 ti u Hc En Hd Eu.
      apply get_node_app_inv in En. destruct En as [En|[En _]]; [|lia].
      assert (Hti : (ti < tag)%nat) by exact (Hb2 c n0 ti En Hd).
      change (get_tag P3 ti) with (get_tag S2 ti) in Eu.
      unfold S2 in Eu. rewrite get_tag_set_tag_neq in Eu by lia.
      unfold get_tag in Eu. rewrite Et2, nth_error_app1 in Eu by exact Hti.
      cbn [t1 tag_id]. intros E. apply Hnew. rewrite <- E.
      apply in_map. apply (nth_error_In _ _ Eu).
    - cbn [P3 p_nodes]. rewrite length_app. lia.
    - exact Hcl3.
    - apply live_app_old. exact HlS. }
  assert (Hbal : rspamd_html_check_balance P3 (List.length (p_nodes S2))
                 = Some (P3, false)).
  { unfold rspamd_html_check_balance. rewrite Ek. cbn [bind nd node_data node_parent].
    change (get_tag P3 tag) with (get_tag S2 tag). rewrite EtS. cbn [bind].
    change (tag_flags t1) with (tag_flags t). rewrite Hcl, Hwalk. reflexivity. }
  rewrite Hbal. cbn [bind negb].
  unfold tag_end_seen.
  change (get_tag (set_hc (set_hc P3 (hc_or_flags (p_hc P3) RSPAMD_HTML_FLAG_UNBALANCED))
                          (hc_count_tag
                             (p_hc (set_hc P3 (hc_or_flags (p_hc P3)
                                                           RSPAMD_HTML_FLAG_UNBALANCED)))))
                  tag)
    with (get_tag S2 tag).
  rewrite EtS. cbn [bind].
  destruct (negb (tag_id t1 =? -1) && (tag_id t1 <? N_TAGS)).
  - eexists. split; [reflexivity|].
    cbn [set_hc p_hc hc_count_tag hc_or_flags hc_flags].
    destruct (has (tag_flags t1) CM_UNIQUE && _); cbn [hc_or_flags hc_flags];
      apply has_unbalanced_set.
  - eexists. split; [reflexivity|].
    cbn [set_hc p_hc hc_count_tag hc_or_flags hc_flags]. apply has_unbalanced_set.
Qed.
(** The unbalanced flag is never cleared. *)
Lemma run_unbalanced_kept (ts : list html_tag) :
  forall P, tree_ok P ->
    has (hc_flags (p_hc P)) RSPAMD_HTML_FLAG_UNBALANCED = true ->
    exists Q, html_tags_run P ts = Some Q
              /\ has (hc_flags (p_hc Q)) RSPAMD_HTML_FLAG_UNBALANCED = true.
Proof.
  induction ts as [|t ts IH]; intros P HP Hu; cbn [html_tags_run].
  - exists P. split; [reflexivity | exact Hu].
  - destruct (html_tag_end_total P t HP) as (Q1 & E1 & HQ1). rewrite E1. cbn [bind].
    destruct HQ1 as (T1 & _ & _ & _ & _ & _ & _ & Hunb & _).
    apply (IH Q1 T1 (Hunb Hu)).
Qed.

(** X17.  A closing tag of a block element whose name no earlier tag of the
    document has, met among the first 8192 tags, leaves the document flagged
    as unbalanced, whatever follows it. *)
Theorem stray_closing_tag_unbalanced (ts1 ts2 : list html_tag) (t : html_tag) :
  ids_parsed (ts1 ++ t :: ts2) ->
  tag_id t <> -1 ->
  has (tag_flags t) CM_INLINE = false ->
  has (tag_flags t) FL_CLOSING = true ->
  (forall u, In u ts1 -> tag_id u <> tag_id t) ->
  Z.of_nat (List.length ts1) < max_tags ->
  exists Q, html_tags_run parser_init (ts1 ++ t :: ts2) = Some Q
            /\ has (hc_flags (p_hc Q)) RSPAMD_HTML_FLAG_UNBALANCED = true.
Proof.
  intros _ Hid Hinl Hcl Hnew Hlen.
  assert (H0 : 0 <= hc_total_tags (p_hc parser_init) <= 0) by (cbn; lia).
  assert (Hn0 : Z.of_nat (List.length (p_nodes parser_init))
                <= (match hc_html_tags (p_hc parser_init) with
                    | Some _ => 1 | None => 0 end)
                   + Z.min (hc_total_tags (p_hc parser_init)) max_tags)
    by (cbn; lia).
  assert (Hl32 : 0 + Z.of_nat (List.length ts1) < 2^32) by (unfold max_tags in Hlen; lia).
  destruct (run_counts ts1 parser_init 0 tree_ok_init H0 Hl32 Hn0)
    as (Q1 & E1 & T1 & Hk1 & _ & Hm1).
  rewrite html_tags_run_app, E1. cbn [bind html_tags_run].
  destruct (html_tag_end_stray Q1 t T1 Hid Hinl Hcl) as (Q2 & E2 & Hu2).
  - rewrite Hm1. cbn [parser_init p_tags map app]. intros Hin.
    apply in_map_iff in Hin. destruct Hin as (u & Eu & Hu). exact (Hnew u Hu Eu).
  - lia.
  - rewrite E2. cbn [bind].
    destruct (html_tag_end_total Q1 t T1) as (Q2' & E2' & HQ2).
    assert (Q2' = Q2) by congruence. subst Q2'.
    apply (run_unbalanced_kept ts2 Q2 (proj1 HQ2) Hu2).
Qed.
End Stray.
(** ** The tag tree on sample documents *)

Section SampleTree.
#[local] Existing Instance sample_html_h.

Ltac ids_small :=
  let t := fresh "t" in let Ht := fresh "Ht" in
  intros t Ht; cbn [In app] in Ht;
  repeat (destruct Ht as [<-|Ht]; [vm_compute; discriminate|]);
  destruct Ht.

Lemma html_tags_never_fault_witness :
  exists Q,
    html_tags_run parser_init [tag_close def_div; tag_open def_p; tag_close def_blockquote]
    = Some Q
    /\ tree_ok Q.
Proof.
  apply (html_tags_never_fault (Hok := sample_html_h_ok)).
  ids_small.
Defined.

Lemma tag_seen_after_document_witness :
  exists Q,
    html_tags_run parser_init [tag_open def_p; tag_close def_div] = Some Q
    /\ rspamd_html_tag_seen (p_hc Q) (bytes (def_name def_div))
       = existsb (fun t => tag_id t =? def_id def_div)
                 [tag_open def_p; tag_close def_div].
Proof.
  apply (tag_seen_after_document (Hok := sample_html_h_ok)).
  - ids_small.
  - apply rows_in_table.
Defined.

Lemma duplicate_flag_iff_witness :
  exists Q,
    html_tags_run parser_init [tag_open def_html; tag_close def_html] = Some Q
    /\ (has (hc_flags (p_hc Q)) RSPAMD_HTML_FLAG_DUPLICATE_ELEMENTS = true
        <-> exists l1 a l2 b l3,
              [tag_open def_html; tag_close def_html] = l1 ++ a :: l2 ++ b :: l3
              /\ tag_id a = tag_id b
              /\ 0 <= tag_id b < N_TAGS
              /\ has (tag_flags b) CM_UNIQUE = true).
Proof.
  apply (duplicate_flag_iff (Hok := sample_html_h_ok)).
  ids_small.
Defined.

Lemma tag_nodes_capped_witness :
  exists Q,
    html_tags_run parser_init [tag_open def_div; tag_open def_p] = Some Q
    /\ Z.of_nat (List.length (p_nodes Q)) <= max_tags + 1.
Proof.
  apply (tag_nodes_capped (Hok := sample_html_h_ok)).
  - ids_small.
  - vm_compute. reflexivity.
Defined.

Lemma known_tags_never_too_many_witness :
  exists Q,
    html_tags_run parser_init [tag_open def_div; tag_close def_div] = Some Q
    /\ has (hc_flags (p_hc Q)) RSPAMD_HTML_FLAG_TOO_MANY_TAGS = false.
Proof.
  apply (known_tags_never_too_many (Hok := sample_html_h_ok)).
  - ids_small.
  - intros t [<-|[<-|[]]]; vm_compute; discriminate.
Defined.

Lemma stray_closing_tag_unbalanced_witness :
  exists Q,
    html_tags_run parser_init ([tag_open def_div] ++ tag_close def_p :: [tag_open def_p])
    = Some Q
    /\ has (hc_flags (p_hc Q)) RSPAMD_HTML_FLAG_UNBALANCED = true.
Proof.
  apply (stray_closing_tag_unbalanced (Hok := sample_html_h_ok)).
  - ids_small.
  - vm_compute. discriminate.
  - vm_compute. reflexivity.
  - vm_compute. reflexivity.
  - intros u [<-|[]]. vm_compute. discriminate.
  - vm_compute. reflexivity.
Defined.
End SampleTree.
(** ** Colours: what the rgb form asks for *)

Lemma count_occ_firstn_S (line : list ascii) (x : ascii) (p : nat) :
  (p < List.length line)%nat ->
  count_occ ascii_dec (firstn (S p) line) x
  = (count_occ ascii_dec (firstn p line) x
     + (if Ascii.eqb (peek line p) x then 1 else 0))%nat.
Proof.
  intros Hp. rewrite (firstn_S_snoc line p NUL Hp), count_occ_app.
  unfold peek. cbn [count_occ].
  destruct (ascii_dec (nth p line NUL) x) as [E|E].
  - rewrite E, Ascii.eqb_refl. reflexivity.
  - destruct (Ascii.eqb_spec (nth p line NUL) x); [contradiction | reflexivity].
Qed.

Lemma count_occ_firstn_le (line : list ascii) (x : ascii) (p : nat) :
  (count_occ ascii_dec (firstn p line) x <= count_occ ascii_dec line x)%nat.
Proof.
  rewrite <- (firstn_skipn p line) at 2. rewrite count_occ_app. lia.
Qed.

Section RgbCommas.
Variable rspamd_strtoul : list ascii -> option Z.
Variable line : list ascii.

Lemma commas_S (p : nat) :
  (p < List.length line)%nat ->
  rgb_commas line (S p)
  = (rgb_commas line p + (if Ascii.eqb (peek line p) "," then 1 else 0))%nat.
Proof. apply count_occ_firstn_S. Qed.

Lemma rgb_step_commas (st : rgb_st) :
  (rgb_p st < List.length line)%nat -> rgb_inv line st ->
  match rgb_step rspamd_strtoul line st with
  | inl st' => rgb_inv line st'
  | inr (true, _) => (3 <= count_occ ascii_dec line ","%char)%nat
  | inr (false, _) => True
  end.
Proof.
  intros Hp [Hs Hn]. unfold rgb_inv. pose proof (commas_S (rgb_p st) Hp) as HS.
  pose proof (count_occ_firstn_le line ","%char (S (rgb_p st))) as Hle.
  fold (rgb_commas line (S (rgb_p st))) in Hle.
  unfold rgb_step. cbv zeta.
  destruct (rgb_state_ st) eqn:Es; cbn [rgb_rank] in Hs.
  - destruct (Ascii.eqb (peek line (rgb_p st)) "(");
      [split; cbn [rgb_state_ rgb_next rgb_p rgb_rank]; lia|].
    destruct (g_ascii_isspace (peek line (rgb_p st))); [|exact I].
    split; cbn [rgb_state_ rgb_next rgb_p rgb_rank]; lia.
  - destruct (Ascii.eqb (peek line (rgb_p st)) ",").
    + destruct (rspamd_strtoul _); [|exact I].
      split; cbn [rgb_state_ rgb_next rgb_p rgb_rank]; lia.
    + destruct (negb (g_ascii_isdigit (peek line (rgb_p st)))); [exact I|].
      split; cbn [rgb_state_ rgb_next rgb_p rgb_rank]; rewrite ?Es; cbn [rgb_rank]; lia.
  - destruct (Ascii.eqb (peek line (rgb_p st)) ",").
    + destruct (rspamd_strtoul _); [|exact I].
      split; cbn [rgb_state_ rgb_next rgb_p rgb_rank]; lia.
    + destruct (negb (g_ascii_isdigit (peek line (rgb_p st)))); [exact I|].
      split; cbn [rgb_state_ rgb_next rgb_p rgb_rank]; rewrite ?Es; cbn [rgb_rank]; lia.
  - destruct (Ascii.eqb (peek line (rgb_p st)) ",").
    + destruct (rspamd_strtoul _); [|exact I]. lia.
    + destruct (negb (g_ascii_isdigit (peek line (rgb_p st)))); [exact I|].
      split; cbn [rgb_state_ rgb_next rgb_p rgb_rank]; rewrite ?Es; cbn [rgb_rank]; lia.
  - destruct (negb (g_ascii_isspace (peek line (rgb_p st)))).
    + split; cbn [rgb_state_ rgb_next rgb_p]; lia.
    + split; cbn [rgb_state_ rgb_next rgb_p rgb_rank]; lia.
Qed.

Lemma rgb_loop_commas (fuel : nat) :
  forall st st', rgb_inv line st ->
    rgb_loop rspamd_strtoul fuel line st = Some (true, st') ->
    (3 <= count_occ ascii_dec line ","%char)%nat.
Proof.
  induction fuel as [|fuel IH]; intros st st' Hinv E; cbn [rgb_loop] in E;
    [discriminate E|].
  destruct (Nat.ltb_spec (rgb_p st) (List.length line)) as [Hp|Hp];
    [|discriminate E].
  pose proof (rgb_step_commas st Hp Hinv) as Hstep.
  destruct (rgb_step rspamd_strtoul line st) as [st1|[[|] st1]].
  - exact (IH st1 st' Hstep E).
  - exact Hstep.
  - discriminate E.
Qed.
End RgbCommas.

(** X18.  A colour written in the rgb form is only taken as valid when
    the text holds three commas: the third number must be followed by a
    comma as well, so [rgb(r,g,b)] is never a valid colour, whatever
    [rspamd_strtoul] does. *)
Theorem rgb_color_needs_three_commas
        (names : list (string * (Z * Z * Z)))
        (rspamd_strtoul : list ascii -> option Z)
        (line : list ascii) :
  peek line 0 <> "#"%char ->
  (4 < List.length line)%nat ->
  prefix_caseless (bytes "rgb") line = true ->
  color_valid (rspamd_html_process_color names rspamd_strtoul line) = true ->
  (3 <= count_occ ascii_dec line ","%char)%nat.
Proof.
  intros Hhash Hlen Hrgb Hvalid. unfold rspamd_html_process_color in Hvalid.
  cbv zeta in Hvalid.
  destruct (Ascii.eqb_spec (peek line 0) "#") as [E|_]; [contradiction|].
  destruct (Nat.ltb_spec 4 (List.length line)) as [_|]; [|lia].
  rewrite Hrgb in Hvalid. cbn [andb] in Hvalid.
  unfold process_color_rgb in Hvalid. cbv zeta in Hvalid.
  destruct (rgb_loop rspamd_strtoul _ line _) as [[[|] st']|] eqn:Eloop;
    try discriminate Hvalid.
  refine (rgb_loop_commas rspamd_strtoul line _ _ st' _ Eloop).
  split; cbn [rgb_state_ rgb_next rgb_rank]; apply Nat.le_0_l.
Qed.

Lemma rgb_color_needs_three_commas_witness :
  (3 <= count_occ ascii_dec (bytes "rgba(10, 20, 30, 0.5)") ","%char)%nat.
Proof.
  apply (rgb_color_needs_three_commas [] (fun s => Some (fst (strtoul s 10)))).
  - intros E. discriminate E.
  - vm_compute. lia.
  - reflexivity.
  - vm_compute. reflexivity.
Defined.

(** ** Colours: the hex form *)

Lemma hex_digit_facts (h : ascii) :
  is_digit_in 16 h = true ->
  digit_val h = Some (hex_val h) /\ 0 <= hex_val h < 16
  /\ Ascii.eqb h NUL = false /\ isspace h = false
  /\ Ascii.eqb h "-" = false /\ Ascii.eqb h "+" = false
  /\ Ascii.eqb h "x" = false /\ Ascii.eqb h "X" = false.
Proof.
  destruct h as [[] [] [] [] [] [] [] []]; vm_compute; intros E;
    try discriminate E; repeat split; discriminate.
Qed.

(** X19.  A colour written as [#] and six hexadecimal digits is valid and
    has the digits, two by two, as its red, green and blue components;
    what follows the six digits is not looked at. *)
Theorem hex_color_components
        (names : list (string * (Z * Z * Z)))
        (rspamd_strtoul : list ascii -> option Z)
        (h1 h2 h3 h4 h5 h6 : ascii) (rest : list ascii) :
  forallb (is_digit_in 16) [h1; h2; h3; h4; h5; h6] = true ->
  let c := rspamd_html_process_color names rspamd_strtoul
             ("#"%char :: h1 :: h2 :: h3 :: h4 :: h5 :: h6 :: rest) in
  color_valid c = true
  /\ color_r c = 16 * hex_val h1 + hex_val h2
  /\ color_g c = 16 * hex_val h3 + hex_val h4
  /\ color_b c = 16 * hex_val h5 + hex_val h6.
Proof.
  intros Hhex. cbn [forallb] in Hhex.
  repeat (apply andb_prop in Hhex; destruct Hhex as [?Hh Hhex]).
  destruct (hex_digit_facts h1 Hh) as (D1 & B1 & N1 & S1 & M1 & P1 & _ & _).
  destruct (hex_digit_facts h2 Hh0) as (D2 & B2 & N2 & _ & _ & _ & X2 & Y2).
  destruct (hex_digit_facts h3 Hh1) as (D3 & B3 & N3 & _).
  destruct (hex_digit_facts h4 Hh2) as (D4 & B4 & N4 & _).
  destruct (hex_digit_facts h5 Hh3) as (D5 & B5 & N5 & _).
  destruct (hex_digit_facts h6 Hh4) as (D6 & B6 & N6 & _).
  set (v := ((((hex_val h1 * 16 + hex_val h2) * 16 + hex_val h3) * 16 + hex_val h4) * 16
             + hex_val h5) * 16 + hex_val h6).
  assert (Hs : strtoul [h1; h2; h3; h4; h5; h6] 16 = (v, 6%nat)).
  { unfold strtoul. cbn [count_while]. rewrite S1. cbn [skipn]. rewrite M1, P1.
    rewrite X2, Y2. cbn [orb]. rewrite andb_false_r. cbn [andb].
    cbn [strtoul_digits]. rewrite D1, D2, D3, D4, D5, D6.
    destruct (Z.ltb_spec (hex_val h1) 16); [|lia].
    destruct (Z.ltb_spec (hex_val h2) 16); [|lia].
    destruct (Z.ltb_spec (hex_val h3) 16); [|lia].
    destruct (Z.ltb_spec (hex_val h4) 16); [|lia].
    destruct (Z.ltb_spec (hex_val h5) 16); [|lia].
    destruct (Z.ltb_spec (hex_val h6) 16); [|lia].
    change (0 * 16 + hex_val h1) with (hex_val h1). fold v.
    unfold ULONG_MAX. change (2 ^ 64) with 18446744073709551616.
    destruct (Z.gtb_spec v (18446744073709551616 - 1)); [unfold v in *; lia|].
    reflexivity. }
  cbv zeta. unfold rspamd_html_process_color. cbv zeta.
  cbn [peek nth]. change (Ascii.eqb "#" "#") with true. cbv iota.
  cbn [List.length Nat.sub Nat.min skipn firstn].
  cbn [take_cstr]. rewrite N1, N2, N3, N4, N5, N6. rewrite Hs. cbn [fst].
  rewrite wrap32_small by (unfold v; lia).
  unfold color_r, color_g, color_b, set_valid. cbn [color_val color_valid].
  split; [reflexivity|].
  change 255 with (Z.ones 8). rewrite !Z.land_ones, !Z.shiftr_div_pow2 by lia.
  change (2 ^ 16) with 65536. change (2 ^ 8) with 256.
  unfold v. repeat split; Z.div_mod_to_equations; lia.
Qed.

Lemma hex_color_components_witness :
  let c := rspamd_html_process_color [] (fun _ => None) (bytes "#1aF09c;") in
  color_valid c = true
  /\ color_r c = 16 * hex_val "1" + hex_val "a"
  /\ color_g c = 16 * hex_val "F" + hex_val "0"
  /\ color_b c = 16 * hex_val "9" + hex_val "c".
Proof.
  apply (hex_color_components [] (fun _ => None) "1" "a" "F" "0" "9" "c" (bytes ";")).
  vm_compute. reflexivity.
Defined.

(** ** libmime/message.c: stripping the line breaks *)

Lemma span_length (text : list ascii) (c p : nat) :
  (p <= List.length text)%nat -> List.length (span text c p) = (p - c)%nat.
Proof.
  intros Hp. unfold span. rewrite length_firstn, length_skipn. lia.
Qed.

Lemma span_all (text : list ascii) : span text 0 (List.length text) = text.
Proof. unfold span. cbn [skipn]. rewrite Nat.sub_0_r. apply firstn_all. Qed.

Lemma count_while_skipn_pos (text : list ascii) (p : nat) :
  (p < List.length text)%nat -> Ascii.eqb (peek text p) SP = true ->
  (1 <= count_while (fun x => Ascii.eqb x SP) (skipn p text))%nat.
Proof.
  revert p. induction text as [|x r IH]; intros p Hp E; cbn [List.length] in Hp; [lia|].
  destruct p as [|p].
  - cbn [skipn count_while]. unfold peek in E. cbn [nth] in E. rewrite E. lia.
  - cbn [skipn]. apply IH; [lia|]. exact E.
Qed.

Lemma part_incr_fields (k : part_counter) (t : rspamd_mime_text_part) :
  stripped_content (part_incr k t) = stripped_content t
  /\ newlines (part_incr k t) = newlines t
  /\ exceptions (part_incr k t) = exceptions t.
Proof. destruct t, k; repeat split. Qed.

Lemma part_iter_fields (n : nat) (k : part_counter) (t : rspamd_mime_text_part) :
  stripped_content (Nat.iter n (part_incr k) t) = stripped_content t
  /\ newlines (Nat.iter n (part_incr k) t) = newlines t
  /\ exceptions (Nat.iter n (part_incr k) t) = exceptions t.
Proof.
  induction n as [|n IH]; cbn [Nat.iter nat_rect]; [repeat split|].
  destruct (part_incr_fields k (Nat.iter n (part_incr k) t)) as (E1 & E2 & E3).
  destruct IH as (I1 & I2 & I3). unfold Nat.iter in *.
  rewrite E1, E2, E3. auto.
Qed.

Section StripFacts.
Variable OPTIMIZE : bool.
Variable is_part_html : bool.

Lemma G_UNLIKELY_test (b : bool) : truthy (G_UNLIKELY OPTIMIZE (b2z b)) = b.
Proof. unfold G_UNLIKELY. destruct OPTIMIZE, b; reflexivity. Qed.

Lemma nl_count_main_fields (text : list ascii) (p : nat) (t : rspamd_mime_text_part) :
  stripped_content (nl_count_main OPTIMIZE text p t) = stripped_content t
  /\ newlines (nl_count_main OPTIMIZE text p t) = newlines t
  /\ exceptions (nl_count_main OPTIMIZE text p t) = exceptions t.
Proof.
  unfold nl_count_main. cbv zeta.
  repeat match goal with
         | |- context [if ?b then _ else _] => destruct b
         end;
    repeat match goal with
           | |- context [part_incr ?k ?u] =>
             let E1 := fresh in let E2 := fresh in let E3 := fresh in
             destruct (part_incr_fields k u) as (E1 & E2 & E3); rewrite E1, E2, E3;
             clear E1 E2 E3
           end; repeat split.
Qed.

Lemma part_ok_same (len0 c c' : nat) (t u : rspamd_mime_text_part) :
  stripped_content u = stripped_content t -> newlines u = newlines t ->
  (c <= c')%nat -> part_ok len0 c t -> part_ok len0 c' u.
Proof.
  intros E1 E2 Hc (H1 & H2 & H3). unfold part_ok. rewrite E1, E2.
  split; [lia|]. split; assumption.
Qed.

Lemma part_ok_incr (len0 c : nat) (k : part_counter) (t : rspamd_mime_text_part) :
  part_ok len0 c t -> part_ok len0 c (part_incr k t).
Proof.
  destruct (part_incr_fields k t) as (E1 & E2 & _).
  apply part_ok_same; [exact E1 | exact E2 | lia].
Qed.

Lemma part_ok_iter (len0 c n : nat) (k : part_counter) (t : rspamd_mime_text_part) :
  part_ok len0 c t -> part_ok len0 c (Nat.iter n (part_incr k) t).
Proof.
  destruct (part_iter_fields n k t) as (E1 & E2 & _).
  apply part_ok_same; [exact E1 | exact E2 | lia].
Qed.

Lemma part_ok_count_main (len0 c : nat) (text : list ascii) (p : nat)
      (t : rspamd_mime_text_part) :
  part_ok len0 c t -> part_ok len0 c (nl_count_main OPTIMIZE text p t).
Proof.
  destruct (nl_count_main_fields text p t) as (E1 & E2 & _).
  apply part_ok_same; [exact E1 | exact E2 | lia].
Qed.

Lemma part_ok_mono (len0 c c' : nat) (t : rspamd_mime_text_part) :
  part_ok len0 c t -> (c <= c')%nat -> part_ok len0 c' t.
Proof. intros Ht Hc. apply (part_ok_same len0 c c' t t eq_refl eq_refl Hc Ht). Qed.

Lemma part_ok_append (len0 c c' : nat) (t : rspamd_mime_text_part) (d : list ascii) :
  part_ok len0 c t -> (List.length d + c <= c')%nat ->
  part_ok len0 c' (stripped_append t d).
Proof.
  intros (H1 & H2 & H3) Hc. unfold part_ok, stripped_append.
  cbn [stripped_content newlines]. rewrite length_app.
  split; [lia|]. split; [exact H2|].
  apply (Forall_impl _ (P := fun o => 0 <= o <= Z.of_nat (List.length (stripped_content t))));
    [|exact H3].
  intros o Ho. lia.
Qed.

Lemma part_ok_add (len0 c : nat) (t : rspamd_mime_text_part) :
  part_ok len0 c t -> part_ok len0 c (newlines_add t).
Proof.
  intros (H1 & H2 & H3). unfold part_ok, newlines_add. cbn [stripped_content newlines].
  split; [exact H1|]. split.
  - clear H1. induction (newlines t) as [|o l IH]; cbn [app].
    + constructor; constructor.
    + inversion H2 as [|? ? Hs Hf]; subst. inversion H3 as [|? ? Ho Hl]; subst.
      constructor; [apply IH; assumption|].
      apply Forall_app. split; [exact Hf|]. constructor; [lia | constructor].
  - apply Forall_app. split; [exact H3|]. constructor; [lia | constructor].
Qed.
Ltac nl_inv_break H :=
  unfold nl_inv; cbn [nl_p nl_c nl_state_ nl_part];
  split; [lia|]; split; [lia|]; split; [lia|];
  split; [intros _; split; lia|]; split; [intros E0; discriminate E0 | exact H].

Ltac part_ok_tac :=
  repeat first
    [ assumption
    | apply part_ok_incr
    | apply part_ok_iter
    | apply part_ok_count_main
    | apply part_ok_add ].

(** One turn of the loop keeps [nl_inv]. *)
Lemma nl_step_inv (text : list ascii) (len0 : nat) (st : nl_st) :
  (nl_p st < List.length text)%nat ->
  nl_inv OPTIMIZE text len0 st ->
  nl_inv OPTIMIZE text len0 (nl_step OPTIMIZE is_part_html text st)
  /\ (nl_p st < nl_p (nl_step OPTIMIZE is_part_html text st))%nat.
Proof.
  intros Hp (Hcp & Hce & Hpe & Hst & Hc0 & Hpart).
  assert (Hflush : forall c', (nl_p st <= c')%nat ->
            part_ok len0 c' (snd (nl_flush text st))).
  { intros c' Hc'. unfold nl_flush. destruct (Nat.ltb_spec (nl_c st) (nl_p st)); cbn [snd].
    - apply (part_ok_append len0 (nl_c st)); [exact Hpart|].
      rewrite span_length by lia. lia.
    - apply (part_ok_mono len0 (nl_c st)); [exact Hpart | lia]. }
  assert (Hdouble : nl_state_ st <> normal_char ->
            part_ok len0 (S (nl_p st)) (snd (nl_double st))).
  { intros Hs. destruct (Hst Hs) as [Ec _]. unfold nl_double.
    destruct (negb (nl_crlf_added st)); cbn [snd]; part_ok_tac.
    - apply (part_ok_append len0 (nl_c st)); [exact Hpart | cbn [List.length]; lia].
    - apply (part_ok_mono len0 (nl_c st)); [exact Hpart | lia]. }
  unfold nl_step. cbv zeta.
  destruct (G_UNLIKELY OPTIMIZE (code (peek text (nl_p st))) =? code CR) eqn:Ecr.
  { destruct (nl_state_ st) eqn:Es.
    - specialize (Hflush (S (nl_p st)) ltac:(lia)).
      destruct (nl_flush text st) as [lc part]. cbn [snd] in Hflush.
      split; [|cbn [nl_p]; lia].
      nl_inv_break Hflush.
    - specialize (Hdouble ltac:(discriminate)).
      destruct (nl_double st) as [ca part]. cbn [snd] in Hdouble.
      split; [|cbn [nl_p]; lia].
      nl_inv_break Hdouble.
    - destruct (Hst ltac:(discriminate)) as [Ec Hc].
      split; [|cbn [nl_p]; lia].
      assert (Hm : part_ok len0 (S (nl_p st)) (nl_part st))
        by (apply (part_ok_mono len0 (nl_c st)); [exact Hpart | lia]).
      nl_inv_break Hm. }
  rewrite G_UNLIKELY_test.
  destruct (Ascii.eqb (peek text (nl_p st)) LF) eqn:Elf.
  { destruct (nl_state_ st) eqn:Es.
    - specialize (Hflush (nl_p st) ltac:(lia)).
      destruct (nl_flush text st) as [lc part]. cbn [snd] in Hflush.
      destruct (is_part_html || g_ascii_ispunct lc).
      + split; [|cbn [nl_p]; lia].
        assert (Hm : part_ok len0 (S (nl_p st))
                             (newlines_add (stripped_append part [SP]))).
        { part_ok_tac. apply (part_ok_append len0 (nl_p st)); [exact Hflush|].
          cbn [List.length]. lia. }
        nl_inv_break Hm.
      + split; [|cbn [nl_p]; lia].
        assert (Hm : part_ok len0 (S (nl_p st)) part)
          by (apply (part_ok_mono len0 (nl_p st)); [exact Hflush | lia]).
        nl_inv_break Hm.
    - destruct (Hst ltac:(discriminate)) as [Ec Hc].
      assert (Hm : part_ok len0 (S (nl_p st))
                (snd (if negb (nl_crlf_added st)
                      then
                        let '(crlf_added, part) :=
                          if is_part_html || g_ascii_ispunct (nl_last_c st)
                          then (true, stripped_append (nl_part st) [SP])
                          else (nl_crlf_added st, nl_part st) in
                        (crlf_added, newlines_add part)
                      else (nl_crlf_added st, nl_part st)))).
      { destruct (negb (nl_crlf_added st)).
        - destruct (is_part_html || g_ascii_ispunct (nl_last_c st)); cbn [snd];
            part_ok_tac.
          + apply (part_ok_append len0 (nl_c st)); [exact Hpart | cbn [List.length]; lia].
          + apply (part_ok_mono len0 (nl_c st)); [exact Hpart | lia].
        - cbn [snd]. apply (part_ok_mono len0 (nl_c st)); [exact Hpart | lia]. }
      destruct (if negb (nl_crlf_added st) then _ else _) as [ca part].
      cbn [snd] in Hm.
      split; [|cbn [nl_p]; lia].
      nl_inv_break Hm.
    - specialize (Hdouble ltac:(discriminate)).
      destruct (nl_double st) as [ca part]. cbn [snd] in Hdouble.
      split; [|cbn [nl_p]; lia].
      nl_inv_break Hdouble. }
  assert (Hnb : nl_break OPTIMIZE (peek text (nl_p st)) = false).
  { unfold nl_break. rewrite Ecr, G_UNLIKELY_test, Elf. reflexivity. }
  assert (Hc0' : nl_c st = 0%nat ->
                 forall i, (i < S (nl_p st))%nat -> nl_break OPTIMIZE (peek text i) = false).
  { intros E i Hi. destruct (Nat.eq_dec i (nl_p st)) as [->|Hne]; [exact Hnb|].
    apply (Hc0 E). lia. }
  assert (Hother : forall part,
             part_ok len0 (nl_c st) part ->
             nl_inv OPTIMIZE text len0
                    (mk_nl (S (nl_p st)) (nl_c st) (nl_last_c st) (nl_crlf_added st)
                           normal_char part)).
  { intros part Hp'. unfold nl_inv. cbn [nl_p nl_c nl_state_ nl_part].
    split; [lia|]. split; [lia|]. split; [lia|].
    split; [intros Hn; contradiction|]. split; [exact Hc0' | exact Hp']. }
  assert (Hseen : nl_state_ st <> normal_char ->
            nl_inv OPTIMIZE text len0
              (let part := part_incr Nlines (nl_part st) in
               let part := if negb (nl_crlf_added st) then newlines_add part else part in
               if truthy (G_UNLIKELY OPTIMIZE (b2z (Ascii.eqb (peek text (nl_p st)) SP)))
               then
                 let part := if negb (nl_crlf_added st) then stripped_append part [SP]
                             else part in
                 let k := count_while (fun x => Ascii.eqb x SP) (skipn (nl_p st) text) in
                 let part := Nat.iter k (part_incr Spaces) part in
                 let p := (nl_p st + k)%nat in
                 let c := (nl_c st + k)%nat in
                 let part :=
                   if (p <? List.length text)%nat
                      && (Ascii.eqb (peek text p) CR || Ascii.eqb (peek text p) LF)
                   then part_incr Empty_lines part else part in
                 mk_nl (S p) c (nl_last_c st) (nl_crlf_added st) normal_char part
               else
                 mk_nl (S (nl_p st)) (nl_c st) (nl_last_c st) (nl_crlf_added st)
                       normal_char part)
            /\ (nl_p st <
                nl_p (let part := part_incr Nlines (nl_part st) in
               let part := if negb (nl_crlf_added st) then newlines_add part else part in
               if truthy (G_UNLIKELY OPTIMIZE (b2z (Ascii.eqb (peek text (nl_p st)) SP)))
               then
                 let part := if negb (nl_crlf_added st) then stripped_append part [SP]
                             else part in
                 let k := count_while (fun x => Ascii.eqb x SP) (skipn (nl_p st) text) in
                 let part := Nat.iter k (part_incr Spaces) part in
                 let p := (nl_p st + k)%nat in
                 let c := (nl_c st + k)%nat in
                 let part :=
                   if (p <? List.length text)%nat
                      && (Ascii.eqb (peek text p) CR || Ascii.eqb (peek text p) LF)
                   then part_incr Empty_lines part else part in
                 mk_nl (S p) c (nl_last_c st) (nl_crlf_added st) normal_char part
               else
                 mk_nl (S (nl_p st)) (nl_c st) (nl_last_c st) (nl_crlf_added st)
                       normal_char part))%nat).
  { intros Hs. destruct (Hst Hs) as [Ec Hc]. cbv zeta. rewrite G_UNLIKELY_test.
    destruct (Ascii.eqb (peek text (nl_p st)) SP) eqn:Esp.
    - pose proof (count_while_skipn_pos text (nl_p st) Hp Esp) as Hk1.
      pose proof (count_while_le (fun x => Ascii.eqb x SP) (skipn (nl_p st) text)) as Hk2.
      rewrite length_skipn in Hk2.
      set (k := count_while (fun x => Ascii.eqb x SP) (skipn (nl_p st) text)) in *.
      split; [|cbn [nl_p]; lia].
      unfold nl_inv. cbn [nl_p nl_c nl_state_ nl_part].
      split; [lia|]. split; [lia|]. split; [lia|].
      split; [intros Hn; contradiction|]. split; [lia|].
      destruct ((nl_p st + k <? List.length text)%nat && _);
        destruct (negb (nl_crlf_added st)); part_ok_tac;
          try (apply (part_ok_append len0 (nl_c st));
               [part_ok_tac | cbn [List.length]; lia]);
          try (apply (part_ok_mono len0 (nl_c st)); [part_ok_tac | lia]).
    - split; [|cbn [nl_p]; lia]. apply Hother.
      destruct (negb (nl_crlf_added st)); part_ok_tac. }
  destruct (nl_state_ st) eqn:Es.
  - split; [|cbn [nl_p]; lia]. apply Hother. part_ok_tac.
  - apply Hseen. discriminate.
  - apply Hseen. discriminate.
Qed.
(** The loop ends, with [p] at the end of the text or one byte past it. *)
Lemma nl_loop_inv (text : list ascii) (len0 : nat) :
  forall fuel st,
    (S (List.length text) - nl_p st <= fuel)%nat -> (0 < fuel)%nat ->
    nl_inv OPTIMIZE text len0 st ->
    exists st', nl_loop OPTIMIZE is_part_html fuel text st = Some st'
                /\ nl_inv OPTIMIZE text len0 st'
                /\ (List.length text <= nl_p st')%nat.
Proof.
  induction fuel as [|fuel IH]; intros st Hfuel Hpos Hinv; [lia|].
  cbn [nl_loop].
  destruct (Nat.ltb_spec (nl_p st) (List.length text)) as [Hp|Hp].
  - destruct (nl_step_inv text len0 st Hp Hinv) as [Hinv' Hlt].
    apply IH; [lia | lia | exact Hinv'].
  - exists st. split; [reflexivity|]. split; [exact Hinv | exact Hp].
Qed.

Lemma nl_count_left_fields (text : list ascii) (c : nat)
      (t u : rspamd_mime_text_part) :
  nl_count_left OPTIMIZE text c t = Some u ->
  stripped_content u = stripped_content t /\ newlines u = newlines t
  /\ exceptions u = exceptions t.
Proof.
  unfold nl_count_left. cbv zeta.
  destruct (G_UNLIKELY OPTIMIZE (code (peek text c)) =? code SP).
  - destruct c as [|c1]; [discriminate|].
    destruct (Ascii.eqb (peek text c1) SP); intros E; injection E as <-;
      repeat match goal with
             | |- context [part_incr ?k ?v] =>
               let E1 := fresh in let E2 := fresh in let E3 := fresh in
               destruct (part_incr_fields k v) as (E1 & E2 & E3); rewrite E1, E2, E3;
               clear E1 E2 E3
             end; repeat split.
  - destruct (truthy _); intros E; injection E as <-;
      repeat match goal with
             | |- context [part_incr ?k ?v] =>
               let E1 := fresh in let E2 := fresh in let E3 := fresh in
               destruct (part_incr_fields k v) as (E1 & E2 & E3); rewrite E1, E2, E3;
               clear E1 E2 E3
             end; repeat split.
Qed.

Lemma nl_count_left_total (text : list ascii) (c : nat) (t : rspamd_mime_text_part) :
  (c = 0%nat -> (G_UNLIKELY OPTIMIZE (code (peek text 0)) =? code SP) = false) ->
  exists u, nl_count_left OPTIMIZE text c t = Some u.
Proof.
  intros Hc. unfold nl_count_left. cbv zeta.
  destruct (G_UNLIKELY OPTIMIZE (code (peek text c)) =? code SP) eqn:E.
  - destruct c as [|c1]; [rewrite (Hc eq_refl) in E; discriminate E|].
    eexists. reflexivity.
  - eexists. reflexivity.
Qed.

(** The leftover loop gets through unless it starts at the first byte and
    takes it for a space. *)
Lemma nl_left_loop_total (text : list ascii) (n : nat) :
  forall c t,
    (c = 0%nat -> n = 0%nat
                  \/ (G_UNLIKELY OPTIMIZE (code (peek text 0)) =? code SP) = false) ->
    exists u, nl_left_loop OPTIMIZE text n c t = Some u
              /\ stripped_content u = stripped_content t
              /\ newlines u = newlines t
              /\ exceptions u = exceptions t.
Proof.
  induction n as [|n IH]; intros c t Hc; cbn [nl_left_loop].
  - exists t. repeat split.
  - destruct (nl_count_left_total text c t) as [u Eu].
    { intros E. destruct (Hc E) as [E0|E0]; [discriminate E0 | exact E0]. }
    rewrite Eu. cbn [bind].
    destruct (nl_count_left_fields text c t u Eu) as (F1 & F2 & F3).
    destruct (IH (S c) u) as (v & Ev & G1 & G2 & G3); [intros E; discriminate E|].
    exists v. split; [exact Ev|]. rewrite G1, G2, G3. auto.
Qed.

(** Nothing in the loop writes the exceptions. *)
Lemma nl_step_exceptions (text : list ascii) (st : nl_st) :
  exceptions (nl_part (nl_step OPTIMIZE is_part_html text st))
  = exceptions (nl_part st).
Proof.
  unfold nl_step, nl_flush, nl_double. cbv zeta.
  destruct (nl_state_ st);
    repeat match goal with
           | |- context [if ?b then _ else _] => destruct b
           end;
    cbn [nl_part];
    repeat first
      [ progress cbn [exceptions stripped_append newlines_add]
      | rewrite (proj2 (proj2 (part_incr_fields _ _)))
      | rewrite (proj2 (proj2 (part_iter_fields _ _ _)))
      | rewrite (proj2 (proj2 (nl_count_main_fields _ _ _))) ];
    reflexivity.
Qed.

Lemma nl_loop_exceptions (text : list ascii) :
  forall fuel st st',
    nl_loop OPTIMIZE is_part_html fuel text st = Some st' ->
    exceptions (nl_part st') = exceptions (nl_part st).
Proof.
  induction fuel as [|fuel IH]; intros st st' E; cbn [nl_loop] in E; [discriminate E|].
  destruct (nl_p st <? List.length text)%nat.
  - rewrite (IH _ _ E). apply nl_step_exceptions.
  - injection E as <-. reflexivity.
Qed.
Lemma code_eqb (a b : ascii) : (code a =? code b) = Ascii.eqb a b.
Proof.
  destruct (Ascii.eqb_spec a b) as [->|Hne]; [apply Z.eqb_refl|].
  apply Z.eqb_neq. intros E. apply Hne. apply code_inj. exact E.
Qed.

Lemma G_UNLIKELY_optimized (x c : Z) :
  OPTIMIZE = true -> 1 < c -> (G_UNLIKELY OPTIMIZE x =? c) = false.
Proof.
  intros -> Hc. unfold G_UNLIKELY. apply Z.eqb_neq. destruct (x =? 0); lia.
Qed.

Lemma OPTIMIZE_cases : OPTIMIZE = true \/ OPTIMIZE = false.
Proof. destruct OPTIMIZE; auto. Qed.

Lemma G_UNLIKELY_plain (ch c : ascii) :
  OPTIMIZE = false -> (G_UNLIKELY OPTIMIZE (code ch) =? code c) = Ascii.eqb ch c.
Proof. intros ->. unfold G_UNLIKELY. apply code_eqb. Qed.

(** A byte taken for a line break is a line break. *)
Lemma nl_break_inv (ch : ascii) :
  nl_break OPTIMIZE ch = true -> ch = CR \/ ch = LF.
Proof.
  unfold nl_break. rewrite G_UNLIKELY_test. intros E. apply orb_prop in E.
  destruct E as [E|E].
  - destruct OPTIMIZE_cases as [EO|EO].
    + rewrite (G_UNLIKELY_optimized _ _ EO) in E by (vm_compute; reflexivity).
      discriminate E.
    + rewrite (G_UNLIKELY_plain _ _ EO) in E. left. apply Ascii.eqb_eq. exact E.
  - right. apply Ascii.eqb_eq. exact E.
Qed.

Lemma nl_break_plain (ch : ascii) :
  OPTIMIZE = false -> ch = CR \/ ch = LF -> nl_break OPTIMIZE ch = true.
Proof.
  intros EO [-> | ->]; unfold nl_break.
  - rewrite (G_UNLIKELY_plain _ _ EO), Ascii.eqb_refl. reflexivity.
  - rewrite G_UNLIKELY_test, Ascii.eqb_refl. apply orb_true_r.
Qed.

(** [rspamd_strip_newlines_parse] gets through a text unless it has no line
    break and starts with a byte the leftover loop takes for a space. *)
Lemma strip_newlines_total (text : list ascii) (part : rspamd_mime_text_part)
      (len0 : nat) :
  OPTIMIZE = true \/ peek text 0 <> SP \/ In CR text \/ In LF text ->
  part_ok len0 0 part ->
  exists part',
    rspamd_strip_newlines_parse OPTIMIZE is_part_html text part = Some part'
    /\ part_ok len0 (List.length text) part'
    /\ exceptions part' = exceptions part.
Proof.
  intros Hcond Hpart. unfold rspamd_strip_newlines_parse.
  set (st0 := mk_nl 0 0 NUL false normal_char part).
  assert (Hinv0 : nl_inv OPTIMIZE text len0 st0).
  { unfold nl_inv, st0. cbn [nl_p nl_c nl_state_ nl_part].
    split; [lia|]. split; [lia|]. split; [lia|].
    split; [intros Hn; contradiction|]. split; [intros _ i Hi; lia | exact Hpart]. }
  destruct (nl_loop_inv text len0 (S (List.length text)) st0) as (st & Eloop & Hinv & Hend);
    [cbn [st0 nl_p]; lia | lia | exact Hinv0|].
  rewrite Eloop. cbn [bind].
  pose proof (nl_loop_exceptions text _ _ _ Eloop) as Hex. cbn [st0 nl_part] in Hex.
  destruct Hinv as (Hcp & Hce & Hpe & Hst & Hc0 & Hp).
  unfold nl_leftover. cbv zeta.
  destruct (Nat.ltb_spec (nl_c st) (nl_p st)) as [Hlt|Hge].
  - destruct (nl_state_ st) eqn:Es;
      [|destruct (Hst ltac:(discriminate)) as [Ec _]; lia
       |destruct (Hst ltac:(discriminate)) as [Ec _]; lia].
    set (p' := if (List.length text <? nl_p st)%nat then List.length text else nl_p st).
    assert (Hp' : (p' <= List.length text)%nat /\ (nl_c st <= p')%nat).
    { unfold p'. destruct (Nat.ltb_spec (List.length text) (nl_p st)); lia. }
    destruct (nl_left_loop_total text (p' - nl_c st) (nl_c st)
                (stripped_append (nl_part st) (span text (nl_c st) p')))
      as (u & Eu & F1 & F2 & F3).
    { intros Ec0. right.
      destruct Hcond as [EO|[Hsp|Hbr]].
      - apply (G_UNLIKELY_optimized _ _ EO). vm_compute. reflexivity.
      - destruct OPTIMIZE_cases as [EO|EO].
        + apply (G_UNLIKELY_optimized _ _ EO). vm_compute. reflexivity.
        + rewrite (G_UNLIKELY_plain _ _ EO). apply Ascii.eqb_neq. exact Hsp.
      - destruct OPTIMIZE_cases as [EO|EO].
        + apply (G_UNLIKELY_optimized _ _ EO). vm_compute. reflexivity.
        + exfalso.
          assert (Hin : exists ch, In ch text /\ (ch = CR \/ ch = LF)).
          { destruct Hbr as [Hin|Hin]; eexists; split; try exact Hin; auto. }
          destruct Hin as (ch & Hin & Hch).
          destruct (In_nth text ch NUL Hin) as (i & Hi & Ei).
          pose proof (Hc0 Ec0 i ltac:(lia)) as Hnb.
          unfold peek in Hnb. rewrite Ei in Hnb.
          rewrite (nl_break_plain ch EO Hch) in Hnb. discriminate Hnb. }
    exists u. split; [exact Eu|]. split.
    + apply (part_ok_same len0 (List.length text) (List.length text)
                          (stripped_append (nl_part st) (span text (nl_c st) p')) u
                          F1 F2 (Nat.le_refl _)).
      apply (part_ok_append len0 (nl_c st)); [exact Hp|].
      rewrite span_length by lia. lia.
    + rewrite F3. exact Hex.
  - exists (nl_part st). split; [reflexivity|]. split; [|exact Hex].
    apply (part_ok_mono len0 (nl_c st)); [exact Hp | lia].
Qed.

Lemma fold_left_cons_rev {A B} (f : A -> B) (l : list A) (acc : list B) :
  fold_left (fun exs off => f off :: exs) l acc = rev (map f l) ++ acc.
Proof.
  revert acc. induction l as [|x l IH]; intros acc; cbn [fold_left map rev app];
    [reflexivity|].
  rewrite IH, <- app_assoc. reflexivity.
Qed.

(** X20.  [rspamd_normalize_text_part] on a text that has a line break, or
    does not start with a space, or in an optimised build: the stripped
    text is no longer than the text, the offsets of the line breaks are in
    ascending order and inside the stripped text, and they are added to the
    exceptions as newline exceptions of length 0, the last one first. *)
Theorem normalize_text_part_bounds (content : list ascii)
        (part : rspamd_mime_text_part) :
  OPTIMIZE = true \/ peek content 0 <> SP \/ In CR content \/ In LF content ->
  exists part',
    rspamd_normalize_text_part OPTIMIZE is_part_html content part = Some part'
    /\ (List.length (stripped_content part') <= List.length content)%nat
    /\ StronglySorted Z.le (newlines part')
    /\ Forall (fun off => 0 <= off <= Z.of_nat (List.length (stripped_content part')))
              (newlines part')
    /\ exceptions part'
       = rev (map (fun off => mk_ex off 0 RSPAMD_EXCEPTION_NEWLINE) (newlines part'))
         ++ exceptions part.
Proof.
  intros Hcond. unfold rspamd_normalize_text_part. cbv zeta.
  set (part0 := mk_part [] [] (exceptions part) (nlines part) (spaces part)
                        (non_ascii_chars part) (ascii_chars part) (double_spaces part)
                        (non_spaces part) (empty_lines part) (capital_letters part)
                        (numeric_characters part)).
  assert (H0 : part_ok 0 0 part0).
  { unfold part_ok, part0. cbn [stripped_content newlines List.length].
    split; [lia|]. split; constructor. }
  destruct (strip_newlines_total content part0 0 Hcond H0) as (u & Eu & (U1 & U2 & U3) & U4).
  rewrite Eu. cbn [bind]. eexists. split; [reflexivity|].
  cbn [stripped_content newlines exceptions].
  split; [lia|]. split; [exact U2|]. split; [exact U3|].
  rewrite fold_left_cons_rev, U4. reflexivity.
Qed.
End StripFacts.

Lemma normalize_text_part_bounds_witness :
  exists part',
    rspamd_normalize_text_part false false (bytes " Hi." ++ [CR; LF] ++ bytes "all")
                               (mk_part [] [] [] 0 0 0 0 0 0 0 0 0) = Some part'
    /\ (List.length (stripped_content part')
        <= List.length (bytes " Hi." ++ [CR; LF] ++ bytes "all"))%nat
    /\ StronglySorted Z.le (newlines part')
    /\ Forall (fun off => 0 <= off <= Z.of_nat (List.length (stripped_content part')))
              (newlines part')
    /\ exceptions part'
       = rev (map (fun off => mk_ex off 0 RSPAMD_EXCEPTION_NEWLINE) (newlines part'))
         ++ exceptions (mk_part [] [] [] 0 0 0 0 0 0 0 0 0).
Proof.
  apply (normalize_text_part_bounds false false).
  right. right. left. cbn. tauto.
Defined.

(** ** A text of one line *)

Lemma part_count_incr (j k : part_counter) (t : rspamd_mime_text_part) :
  part_count j (part_incr k t)
  = if part_counter_eqb j k then wrap32 (part_count j t + 1) else part_count j t.
Proof. destruct t, j, k; reflexivity. Qed.

Lemma skipn_cons_nth {A} (l : list A) (p : nat) (d : A) :
  (p < List.length l)%nat -> skipn p l = nth p l d :: skipn (S p) l.
Proof.
  revert p. induction l as [|x l IH]; intros p Hp; cbn [List.length] in Hp; [lia|].
  destruct p as [|p]; [reflexivity|].
  cbn [skipn nth]. rewrite (IH p) by lia. reflexivity.
Qed.

Lemma wrap32_range (z : Z) : 0 <= wrap32 z < 2^32.
Proof. unfold wrap32. apply Z.mod_pos_bound. reflexivity. Qed.

Lemma wrap32_add_l (a b : Z) : wrap32 (wrap32 a + b) = wrap32 (a + b).
Proof. unfold wrap32. apply Zplus_mod_idemp_l. Qed.

Section SingleLine.
Variable OPTIMIZE : bool.
Variable is_part_html : bool.
Variable text : list ascii.
Hypothesis no_cr : ~ In CR text.
Hypothesis no_lf : ~ In LF text.

Lemma no_break (i : nat) :
  (i < List.length text)%nat -> nl_break OPTIMIZE (peek text i) = false.
Proof.
  intros Hi. destruct (nl_break OPTIMIZE (peek text i)) eqn:E; [|reflexivity].
  exfalso. pose proof (nth_In text NUL Hi) as Hin. fold (peek text i) in Hin.
  destruct (nl_break_inv OPTIMIZE _ E) as [E1|E1]; rewrite E1 in Hin; auto.
Qed.

Lemma nl_step_plain (st : nl_st) :
  nl_state_ st = normal_char -> (nl_p st < List.length text)%nat ->
  nl_step OPTIMIZE is_part_html text st
  = mk_nl (S (nl_p st)) (nl_c st) (nl_last_c st) (nl_crlf_added st) normal_char
          (nl_count_main OPTIMIZE text (nl_p st) (nl_part st)).
Proof.
  intros Es Hp. pose proof (no_break _ Hp) as Hb. unfold nl_break in Hb.
  apply orb_false_elim in Hb. destruct Hb as [H1 H2].
  unfold nl_step. cbv zeta. rewrite H1, H2, Es. reflexivity.
Qed.

(** Without a line break the loop only counts. *)
Lemma nl_loop_plain :
  forall fuel n p c lc ca part,
    (p + n = List.length text)%nat -> (n < fuel)%nat ->
    nl_loop OPTIMIZE is_part_html fuel text (mk_nl p c lc ca normal_char part)
    = Some (mk_nl (List.length text) c lc ca normal_char
                  (fold_left (fun t i => nl_count_main OPTIMIZE text i t) (seq p n) part)).
Proof.
  induction fuel as [|fuel IH]; intros n p c lc ca part Hn Hf; [lia|].
  cbn [nl_loop nl_p]. destruct n as [|n].
  - destruct (Nat.ltb_spec p (List.length text)); [lia|].
    cbn [seq fold_left]. replace p with (List.length text) by lia. reflexivity.
  - destruct (Nat.ltb_spec p (List.length text)); [|lia].
    rewrite nl_step_plain by (cbn [nl_state_ nl_p]; auto).
    cbn [nl_p nl_c nl_last_c nl_crlf_added nl_part].
    rewrite (IH n (S p)) by lia. reflexivity.
Qed.

Lemma nl_count_main_nlines (p : nat) (t : rspamd_mime_text_part) :
  nlines (nl_count_main OPTIMIZE text p t) = nlines t.
Proof.
  change (part_count Nlines (nl_count_main OPTIMIZE text p t) = part_count Nlines t).
  unfold nl_count_main. cbv zeta.
  repeat match goal with
         | |- context [if ?b then _ else _] => destruct b
         end;
    rewrite ?part_count_incr; reflexivity.
Qed.

Lemma fold_count_main_fields (l : list nat) :
  forall t,
    let u := fold_left (fun t i => nl_count_main OPTIMIZE text i t) l t in
    stripped_content u = stripped_content t /\ newlines u = newlines t
    /\ exceptions u = exceptions t /\ nlines u = nlines t.
Proof.
  induction l as [|i l IH]; intros t; cbn [fold_left]; [repeat split|].
  destruct (IH (nl_count_main OPTIMIZE text i t)) as (E1 & E2 & E3 & E4).
  destruct (nl_count_main_fields OPTIMIZE text i t) as (F1 & F2 & F3).
  cbv zeta. rewrite E1, E2, E3, E4, F1, F2, F3, nl_count_main_nlines. repeat split.
Qed.

Lemma nl_count_left_nlines (c : nat) (t u : rspamd_mime_text_part) :
  nl_count_left OPTIMIZE text c t = Some u -> nlines u = nlines t.
Proof.
  change (nl_count_left OPTIMIZE text c t = Some u
          -> part_count Nlines u = part_count Nlines t).
  unfold nl_count_left. cbv zeta.
  destruct (G_UNLIKELY OPTIMIZE (code (peek text c)) =? code SP).
  - destruct c as [|c1]; [discriminate|].
    destruct (Ascii.eqb (peek text c1) SP); intros E; injection E as <-;
      rewrite ?part_count_incr; reflexivity.
  - destruct (truthy _); intros E; injection E as <-;
      rewrite ?part_count_incr; reflexivity.
Qed.

Lemma nl_left_loop_nlines (n : nat) :
  forall c t u, nl_left_loop OPTIMIZE text n c t = Some u -> nlines u = nlines t.
Proof.
  induction n as [|n IH]; intros c t u E; cbn [nl_left_loop] in E.
  - injection E as <-. reflexivity.
  - destruct (nl_count_left OPTIMIZE text c t) as [v|] eqn:Ev; [|discriminate E].
    cbn [bind] in E. rewrite (IH _ _ _ E). apply (nl_count_left_nlines _ _ _ Ev).
Qed.

(** The whole function on a text without a line break: the loop, then the
    leftover from the first byte. *)
Lemma strip_newlines_plain (part : rspamd_mime_text_part) :
  rspamd_strip_newlines_parse OPTIMIZE is_part_html text part
  = let t := fold_left (fun t i => nl_count_main OPTIMIZE text i t)
                       (seq 0 (List.length text)) part in
    if (0 <? List.length text)%nat
    then nl_left_loop OPTIMIZE text (List.length text) 0 (stripped_append t text)
    else Some t.
Proof.
  unfold rspamd_strip_newlines_parse.
  rewrite (nl_loop_plain (S (List.length text)) (List.length text) 0) by lia.
  cbn [bind]. unfold nl_leftover. cbv zeta. cbn [nl_c nl_p nl_state_ nl_part].
  destruct (0 <? List.length text)%nat; [|reflexivity].
  rewrite Nat.ltb_irrefl, Nat.sub_0_r, span_all. reflexivity.
Qed.

(** X21.  A text without a line break that does not start with a space
    (or any such text in an optimised build) is its own stripped text: no
    offset and no exception is added, and no line is counted. *)
Theorem single_line_text_kept (part : rspamd_mime_text_part) :
  OPTIMIZE = true \/ peek text 0 <> SP ->
  exists part',
    rspamd_normalize_text_part OPTIMIZE is_part_html text part = Some part'
    /\ stripped_content part' = text
    /\ newlines part' = []
    /\ exceptions part' = exceptions part
    /\ nlines part' = nlines part.
Proof.
  intros Hcond. unfold rspamd_normalize_text_part. cbv zeta.
  rewrite strip_newlines_plain. cbv zeta.
  set (part0 := mk_part [] [] (exceptions part) (nlines part) (spaces part)
                        (non_ascii_chars part) (ascii_chars part) (double_spaces part)
                        (non_spaces part) (empty_lines part) (capital_letters part)
                        (numeric_characters part)).
  destruct (fold_count_main_fields (seq 0 (List.length text)) part0)
    as (E1 & E2 & E3 & E4).
  set (t := fold_left (fun t i => nl_count_main OPTIMIZE text i t)
                      (seq 0 (List.length text)) part0) in *.
  destruct (Nat.ltb_spec 0 (List.length text)) as [Hlen|Hlen].
  - destruct (nl_left_loop_total OPTIMIZE text (List.length text) 0 (stripped_append t text))
      as (u & Eu & F1 & F2 & F3).
    { intros _. right. destruct Hcond as [EO|Hsp].
      - apply (G_UNLIKELY_optimized _ _ _ EO). vm_compute. reflexivity.
      - destruct (OPTIMIZE_cases OPTIMIZE) as [EO|EO].
        + apply (G_UNLIKELY_optimized _ _ _ EO). vm_compute. reflexivity.
        + rewrite (G_UNLIKELY_plain _ _ _ EO). apply Ascii.eqb_neq. exact Hsp. }
    rewrite Eu. cbn [bind]. eexists. split; [reflexivity|].
    cbn [stripped_content newlines exceptions nlines].
    rewrite F1, F2, F3, (nl_left_loop_nlines _ _ _ _ Eu).
    cbn [stripped_append stripped_content newlines exceptions nlines].
    rewrite E1, E2, E3, E4. cbn [part0 stripped_content newlines exceptions nlines app fold_left].
    repeat split.
  - cbn [bind]. eexists. split; [reflexivity|].
    cbn [stripped_content newlines exceptions nlines].
    rewrite E1, E2, E3, E4. cbn [part0 stripped_content newlines exceptions nlines fold_left].
    destruct text; [repeat split | cbn [List.length] in Hlen; lia].
Qed.
(** X22.  In a build that is not optimised, a text without a line break
    that starts with a space makes the leftover loop read the byte before
    the text: [*(c - 1)] with [c == begin]. *)
Theorem leading_space_reads_before_text (part : rspamd_mime_text_part) :
  OPTIMIZE = false -> peek text 0 = SP ->
  rspamd_normalize_text_part OPTIMIZE is_part_html text part = None.
Proof.
  intros EO Hsp. unfold rspamd_normalize_text_part. cbv zeta.
  rewrite strip_newlines_plain. cbv zeta.
  destruct text as [|x r] eqn:Et; [discriminate Hsp|]. rewrite <- Et in *.
  assert (Hlen : List.length text = S (List.length r)) by (rewrite Et; reflexivity).
  rewrite Hlen. cbn [Nat.ltb Nat.leb nl_left_loop].
  unfold nl_count_left. cbv zeta.
  rewrite (G_UNLIKELY_plain _ _ _ EO), Hsp, Ascii.eqb_refl. reflexivity.
Qed.

Section NoSpace.
Hypothesis no_sp : ~ In SP text.

Lemma no_space (i : nat) :
  (i < List.length text)%nat ->
  (G_UNLIKELY OPTIMIZE (code (peek text i)) =? code SP) = false.
Proof.
  intros Hi. destruct (OPTIMIZE_cases OPTIMIZE) as [EO|EO].
  - apply (G_UNLIKELY_optimized _ _ _ EO). vm_compute. reflexivity.
  - rewrite (G_UNLIKELY_plain _ _ _ EO). apply Ascii.eqb_neq. intros E.
    apply no_sp. rewrite <- E. apply nth_In. exact Hi.
Qed.

Lemma upper_is_ascii (ch : ascii) :
  g_ascii_isupper ch = true -> truthy (G_UNLIKELY OPTIMIZE (Z.land (code ch) 128)) = false.
Proof.
  unfold G_UNLIKELY.
  destruct ch as [[] [] [] [] [] [] [] []]; vm_compute; intros E; try discriminate E;
    destruct OPTIMIZE; reflexivity.
Qed.

Lemma nl_count_main_counts (p : nat) (t : rspamd_mime_text_part) :
  (p < List.length text)%nat ->
  non_spaces (nl_count_main OPTIMIZE text p t) = wrap32 (non_spaces t + 1)
  /\ capital_letters (nl_count_main OPTIMIZE text p t)
     = if g_ascii_isupper (peek text p) then wrap32 (capital_letters t + 1)
       else capital_letters t.
Proof.
  intros Hp.
  change (part_count Non_spaces (nl_count_main OPTIMIZE text p t)
          = wrap32 (part_count Non_spaces t + 1)
          /\ part_count Capital_letters (nl_count_main OPTIMIZE text p t)
             = if g_ascii_isupper (peek text p)
               then wrap32 (part_count Capital_letters t + 1)
               else part_count Capital_letters t).
  unfold nl_count_main. cbv zeta. rewrite (no_space p Hp).
  destruct (g_ascii_isupper (peek text p)) eqn:Eu.
  - rewrite (upper_is_ascii _ Eu). rewrite !part_count_incr. split; reflexivity.
  - destruct (truthy _); [|destruct (g_ascii_isdigit _)];
      rewrite !part_count_incr; split; reflexivity.
Qed.

Lemma fold_count_main_counts :
  forall n p t,
    (p + n = List.length text)%nat ->
    0 <= non_spaces t < 2^32 -> 0 <= capital_letters t < 2^32 ->
    let u := fold_left (fun t i => nl_count_main OPTIMIZE text i t) (seq p n) t in
    non_spaces u = wrap32 (non_spaces t + Z.of_nat n)
    /\ capital_letters u
       = wrap32 (capital_letters t
                 + Z.of_nat (List.length (filter g_ascii_isupper (skipn p text)))).
Proof.
  induction n as [|n IH]; intros p t Hn Hns Hcap; cbv zeta; cbn [seq fold_left].
  - rewrite skipn_all2 by lia. cbn [filter List.length Z.of_nat].
    rewrite !Z.add_0_r, !wrap32_small by lia. split; reflexivity.
  - destruct (nl_count_main_counts p t ltac:(lia)) as [E1 E2].
    set (t1 := nl_count_main OPTIMIZE text p t) in *.
    assert (Hns1 : 0 <= non_spaces t1 < 2^32) by (rewrite E1; apply wrap32_range).
    assert (Hcap1 : 0 <= capital_letters t1 < 2^32).
    { rewrite E2. destruct (g_ascii_isupper (peek text p)); [apply wrap32_range | exact Hcap]. }
    destruct (IH (S p) t1 ltac:(lia) Hns1 Hcap1) as [F1 F2]. cbv zeta in F1, F2.
    rewrite F1, F2, E1, E2. rewrite wrap32_add_l.
    rewrite (skipn_cons_nth text p NUL) by lia. fold (peek text p). cbn [filter].
    split; [f_equal; lia|].
    destruct (g_ascii_isupper (peek text p)); cbn [List.length].
    + rewrite wrap32_add_l. f_equal. lia.
    + reflexivity.
Qed.

Lemma nl_left_loop_counts :
  forall n c t,
    (c + n <= List.length text)%nat -> 0 <= non_spaces t < 2^32 ->
    exists u, nl_left_loop OPTIMIZE text n c t = Some u
              /\ non_spaces u = wrap32 (non_spaces t + Z.of_nat n)
              /\ capital_letters u = capital_letters t.
Proof.
  induction n as [|n IH]; intros c t Hn Hns; cbn [nl_left_loop].
  - exists t. rewrite Z.add_0_r, wrap32_small by lia. repeat split.
  - unfold nl_count_left. cbv zeta. rewrite (no_space c) by lia. cbn [bind].
    set (t1 := if truthy _ then _ else _).
    assert (E1 : non_spaces t1 = wrap32 (non_spaces t + 1)
                 /\ capital_letters t1 = capital_letters t).
    { change (part_count Non_spaces t1 = wrap32 (part_count Non_spaces t + 1)
              /\ part_count Capital_letters t1 = part_count Capital_letters t).
      unfold t1. destruct (truthy _); rewrite !part_count_incr; split; reflexivity. }
    destruct E1 as [E1 E2].
    destruct (IH (S c) t1 ltac:(lia)) as (u & Eu & F1 & F2);
      [rewrite E1; apply wrap32_range|].
    exists u. split; [exact Eu|]. rewrite F1, F2, E1, E2, wrap32_add_l.
    split; [f_equal; lia | reflexivity].
Qed.

(** X23.  On a text without line breaks and spaces every byte is counted
    twice in [non_spaces], once by the loop and once more by the leftover,
    and an upper-case letter once in [capital_letters]. *)
Theorem single_line_counted_twice (part : rspamd_mime_text_part) :
  0 <= non_spaces part < 2^32 -> 0 <= capital_letters part < 2^32 ->
  exists part',
    rspamd_normalize_text_part OPTIMIZE is_part_html text part = Some part'
    /\ non_spaces part' = wrap32 (non_spaces part + 2 * Z.of_nat (List.length text))
    /\ capital_letters part'
       = wrap32 (capital_letters part
                 + Z.of_nat (List.length (filter g_ascii_isupper text))).
Proof.
  intros Hns Hcap. unfold rspamd_normalize_text_part. cbv zeta.
  rewrite strip_newlines_plain. cbv zeta.
  set (part0 := mk_part [] [] (exceptions part) (nlines part) (spaces part)
                        (non_ascii_chars part) (ascii_chars part) (double_spaces part)
                        (non_spaces part) (empty_lines part) (capital_letters part)
                        (numeric_characters part)).
  destruct (fold_count_main_counts (List.length text) 0 part0 eq_refl Hns Hcap)
    as [E1 E2]. cbv zeta in E1, E2. cbn [skipn part0 non_spaces capital_letters] in E1, E2.
  set (t := fold_left (fun t i => nl_count_main OPTIMIZE text i t)
                      (seq 0 (List.length text)) part0) in *.
  destruct (Nat.ltb_spec 0 (List.length text)) as [Hlen|Hlen].
  - destruct (nl_left_loop_counts (List.length text) 0 (stripped_append t text))
      as (u & Eu & F1 & F2);
      [lia | cbn [stripped_append non_spaces]; rewrite E1; apply wrap32_range|].
    rewrite Eu. cbn [bind]. eexists. split; [reflexivity|].
    cbn [non_spaces capital_letters]. rewrite F1, F2.
    cbn [stripped_append non_spaces capital_letters]. rewrite E1, E2, wrap32_add_l.
    split; [f_equal; lia | reflexivity].
  - cbn [bind]. eexists. split; [reflexivity|].
    cbn [non_spaces capital_letters]. rewrite E1, E2.
    replace (List.length text) with 0%nat by lia. split; [f_equal; lia | reflexivity].
Qed.
End NoSpace.
End SingleLine.

Lemma single_line_text_kept_witness :
  exists part',
    rspamd_normalize_text_part false false (bytes "Hello world") (part_new [])
    = Some part'
    /\ stripped_content part' = bytes "Hello world"
    /\ newlines part' = []
    /\ exceptions part' = exceptions (part_new [])
    /\ nlines part' = nlines (part_new []).
Proof.
  apply (single_line_text_kept false false (bytes "Hello world")).
  - cbn. intros H; repeat (destruct H as [H|H]; [discriminate H|]); exact H.
  - cbn. intros H; repeat (destruct H as [H|H]; [discriminate H|]); exact H.
  - right. intros E. discriminate E.
Defined.

Lemma leading_space_reads_before_text_witness :
  rspamd_normalize_text_part false true (bytes " Hello world") (part_new []) = None.
Proof.
  apply (leading_space_reads_before_text false true (bytes " Hello world")).
  - cbn. intros H; repeat (destruct H as [H|H]; [discriminate H|]); exact H.
  - cbn. intros H; repeat (destruct H as [H|H]; [discriminate H|]); exact H.
  - reflexivity.
  - reflexivity.
Defined.

Lemma single_line_counted_twice_witness :
  exists part',
    rspamd_normalize_text_part true false (bytes "HelloWorld") (part_new [])
    = Some part'
    /\ non_spaces part'
       = wrap32 (non_spaces (part_new []) + 2 * Z.of_nat (List.length (bytes "HelloWorld")))
    /\ capital_letters part'
       = wrap32 (capital_letters (part_new [])
                 + Z.of_nat (List.length (filter g_ascii_isupper (bytes "HelloWorld")))).
Proof.
  apply (single_line_counted_twice true false (bytes "HelloWorld")).
  - cbn. intros H; repeat (destruct H as [H|H]; [discriminate H|]); exact H.
  - cbn. intros H; repeat (destruct H as [H|H]; [discriminate H|]); exact H.
  - cbn. intros H; repeat (destruct H as [H|H]; [discriminate H|]); exact H.
  - cbn [part_new non_spaces]. lia.
  - cbn [part_new capital_letters]. lia.
Defined.

(** ** libserver/html.c: the declarations of a style *)

Lemma skipn_peek (T : list ascii) (p : nat) (x : ascii) (r : list ascii) :
  skipn p T = x :: r ->
  peek T p = x /\ (p < List.length T)%nat /\ skipn (S p) T = r.
Proof.
  revert p. induction T as [|y T IH]; intros p E.
  - rewrite skipn_nil in E. discriminate E.
  - destruct p as [|p].
    + cbn [skipn] in E. injection E as -> ->. repeat split. cbn [List.length]. lia.
    + cbn [skipn] in E. destruct (IH p E) as (H1 & H2 & H3).
      repeat split; [exact H1 | cbn [List.length]; lia | exact H3].
Qed.

Lemma skipn_app_shift {A} (T a b : list A) (p : nat) :
  skipn p T = a ++ b -> skipn (p + List.length a) T = b.
Proof.
  intros E. rewrite Nat.add_comm, <- skipn_skipn, E.
  rewrite skipn_app, skipn_all, Nat.sub_diag. reflexivity.
Qed.

Lemma skipn_nil_length {A} (T : list A) (p : nat) :
  skipn p T = [] -> (List.length T <= p)%nat.
Proof.
  intros E. pose proof (length_skipn p T) as H. rewrite E in H. cbn [List.length] in H. lia.
Qed.

Lemma span_skipn (T : list ascii) (c : nat) (v r : list ascii) :
  skipn c T = v ++ r -> span T c (c + List.length v) = v.
Proof.
  intros E. unfold span. rewrite E. replace (c + List.length v - c)%nat with (List.length v) by lia.
  rewrite firstn_app, firstn_all, Nat.sub_diag. cbn [firstn]. apply app_nil_r.
Qed.

Lemma strncasecmp_prefix (n : nat) :
  forall k r pat, (n <= List.length k)%nat ->
    g_ascii_strncasecmp (k ++ r) pat n = g_ascii_strncasecmp k pat n.
Proof.
  induction n as [|n IH]; intros k r pat Hn; cbn [g_ascii_strncasecmp]; [reflexivity|].
  destruct k as [|x k]; cbn [List.length] in Hn; [lia|].
  cbn [app hd tl]. rewrite (IH k r (tl pat)) by lia. reflexivity.
Qed.

Section StyleFacts.
Variable html_colornames : list (string * (Z * Z * Z)).
Variable rspamd_strtoul : list ascii -> option Z.
Variable T : list ascii.

Lemma style_apply_prefix (k r v : list ascii) (bl : html_block) :
  style_apply html_colornames rspamd_strtoul (k ++ r) (Z.of_nat (List.length k)) v bl
  = style_apply html_colornames rspamd_strtoul k (Z.of_nat (List.length k)) v bl.
Proof.
  unfold style_apply.
  assert (H : forall n pat,
             (Z.of_nat (List.length k) =? Z.of_nat n)
             && (g_ascii_strncasecmp (k ++ r) pat n =? 0)
             = (Z.of_nat (List.length k) =? Z.of_nat n)
               && (g_ascii_strncasecmp k pat n =? 0)).
  { intros n pat. destruct (Z.eqb_spec (Z.of_nat (List.length k)) (Z.of_nat n)) as [E|E];
      [|reflexivity].
    cbn [andb]. rewrite strncasecmp_prefix by lia. reflexivity. }
  change 5 with (Z.of_nat 5). change 10 with (Z.of_nat 10).
  change 16 with (Z.of_nat 16). change 7 with (Z.of_nat 7).
  rewrite !H. reflexivity.
Qed.

(** Each turn of the loop uses up the measure; [next_state] is never
    [skip_spaces]. *)
Lemma style_step_measure (st : style_st) :
  (sp_p st <= List.length T)%nat -> sp_next st <> Style.skip_spaces ->
  (style_measure T (style_step html_colornames rspamd_strtoul T st)
   < style_measure T st)%nat
  /\ sp_next (style_step html_colornames rspamd_strtoul T st) <> Style.skip_spaces.
Proof.
  intros Hp Hn. unfold style_measure, style_step. cbv zeta.
  destruct (sp_state st) eqn:Es;
    repeat match goal with
           | |- context [if ?b then _ else _] => destruct b eqn:?
           end;
    cbn [sp_p sp_state sp_next]; rewrite ?Es;
      (split; [try lia | try exact Hn; try discriminate]).
  destruct (sp_next st); try lia. contradiction.
Qed.

(** With fuel above the measure the loop gives the block it reaches. *)
Lemma style_reach_loop (st : style_st) (bl : html_block) :
  style_reach html_colornames rspamd_strtoul T st bl ->
  forall fuel, (style_measure T st < fuel)%nat -> sp_next st <> Style.skip_spaces ->
    style_loop html_colornames rspamd_strtoul fuel T st = Some bl.
Proof.
  induction 1 as [st Hp|st bl Hp Hr IH]; intros fuel Hf Hn;
    (destruct fuel as [|fuel]; [lia|]); cbn [style_loop].
  - destruct (Nat.leb_spec (sp_p st) (List.length T)); [lia | reflexivity].
  - destruct (Nat.leb_spec (sp_p st) (List.length T)); [|lia].
    destruct (style_step_measure st Hp Hn) as [Hm Hn'].
    apply IH; [lia | exact Hn'].
Qed.

(** State [skip_spaces] over white space, up to a byte that is none. *)
Lemma style_skip (ws : list ascii) :
  forall p c key klen next bl b x r,
    forallb g_ascii_isspace ws = true -> g_ascii_isspace x = false ->
    skipn p T = ws ++ x :: r ->
    style_reach html_colornames rspamd_strtoul T (mk_style (p + List.length ws) (p + List.length ws) key klen next next bl) b ->
    style_reach html_colornames rspamd_strtoul T (mk_style p c key klen Style.skip_spaces next bl) b.
Proof.
  induction ws as [|w ws IH]; intros p c key klen next bl b x r Hws Hx E Hr.
  - cbn [app] in E. destruct (skipn_peek T p x r E) as (Ex & Hp & _).
    cbn [List.length] in Hr. rewrite Nat.add_0_r in Hr.
    apply style_reach_step; [cbn [sp_p]; lia|].
    unfold style_step. cbv zeta. cbn [sp_state sp_p sp_c sp_key sp_klen sp_next sp_bl].
    rewrite Ex, Hx. destruct (Nat.ltb_spec p (List.length T)); [|lia].
    cbn [andb negb]. exact Hr.
  - cbn [app] in E. destruct (skipn_peek T p w _ E) as (Ex & Hp & E').
    cbn [forallb] in Hws. apply andb_prop in Hws. destruct Hws as [Hw Hws].
    apply style_reach_step; [cbn [sp_p]; lia|].
    unfold style_step. cbv zeta. cbn [sp_state sp_p sp_c sp_key sp_klen sp_next sp_bl].
    rewrite Ex, Hw. rewrite andb_false_r.
    apply (IH (S p) c key klen next bl b x r Hws Hx E').
    cbn [List.length] in Hr. rewrite Nat.add_succ_r in Hr. exact Hr.
Qed.

(** State [skip_spaces] over white space, up to the end of the text. *)
Lemma style_skip_end (ws : list ascii) :
  forall p c key klen next bl,
    forallb g_ascii_isspace ws = true -> skipn p T = ws ->
    (p <= List.length T)%nat ->
    style_reach html_colornames rspamd_strtoul T (mk_style p c key klen Style.skip_spaces next bl) bl.
Proof.
  induction ws as [|w ws IH]; intros p c key klen next bl Hws E Hp.
  - pose proof (skipn_nil_length T p E) as Hlen.
    apply style_reach_step; [cbn [sp_p]; lia|].
    unfold style_step. cbv zeta. cbn [sp_state sp_p sp_c sp_key sp_klen sp_next sp_bl].
    destruct (Nat.ltb_spec p (List.length T)); [lia|]. cbn [andb].
    apply (style_reach_exit html_colornames rspamd_strtoul T
             (mk_style (S p) c key klen Style.skip_spaces next bl)).
    cbn [sp_p]. lia.
  - destruct (skipn_peek T p w _ E) as (Ex & Hp' & E').
    cbn [forallb] in Hws. apply andb_prop in Hws. destruct Hws as [Hw Hws].
    apply style_reach_step; [cbn [sp_p]; lia|].
    unfold style_step. cbv zeta. cbn [sp_state sp_p sp_c sp_key sp_klen sp_next sp_bl].
    rewrite Ex, Hw. rewrite andb_false_r.
    apply (IH (S p) c key klen next bl Hws E'). lia.
Qed.

(** State [read_key] over the property, up to the colon. *)
Lemma style_read_key (k : list ascii) :
  forall p c key klen next bl b r,
    forallb (fun ch => negb (g_ascii_isspace ch) && negb (Ascii.eqb ch ":")) k = true ->
    skipn p T = k ++ ":"%char :: r ->
    style_reach html_colornames rspamd_strtoul T (mk_style (S (p + List.length k)) c (Some c)
                    (wrap32 (Z.of_nat (p + List.length k) - Z.of_nat c))
                    Style.skip_spaces Style.read_value bl) b ->
    style_reach html_colornames rspamd_strtoul T (mk_style p c key klen Style.read_key next bl) b.
Proof.
  induction k as [|x k IH]; intros p c key klen next bl b r Hk E Hr.
  - cbn [app] in E. destruct (skipn_peek T p _ _ E) as (Ex & Hp & _).
    cbn [List.length] in Hr. rewrite Nat.add_0_r in Hr.
    apply style_reach_step; [cbn [sp_p]; lia|].
    unfold style_step. cbv zeta. cbn [sp_state sp_p sp_c sp_key sp_klen sp_next sp_bl].
    rewrite Ex. change (Ascii.eqb ":" ":") with true. rewrite orb_true_r. exact Hr.
  - cbn [app] in E. destruct (skipn_peek T p x _ E) as (Ex & Hp & E').
    cbn [forallb] in Hk. apply andb_prop in Hk. destruct Hk as [Hx Hk].
    apply andb_prop in Hx. destruct Hx as [Hx1 Hx2].
    apply negb_true_iff in Hx1, Hx2.
    apply style_reach_step; [cbn [sp_p]; lia|].
    unfold style_step. cbv zeta. cbn [sp_state sp_p sp_c sp_key sp_klen sp_next sp_bl].
    rewrite Ex, Hx1, Hx2. destruct (Nat.eqb_spec p (List.length T)); [lia|]. cbn [orb].
    apply (IH (S p) c key klen next bl b r Hk E').
    cbn [List.length] in Hr. rewrite Nat.add_succ_r in Hr. exact Hr.
Qed.

(** State [read_value] over the value, up to the semicolon. *)
Lemma style_read_value (v : list ascii) :
  forall p c key klen next bl b r,
    ~ In ";"%char v ->
    skipn p T = v ++ ";"%char :: r ->
    style_reach html_colornames rspamd_strtoul T (mk_style (S (p + List.length v)) c None 0 Style.skip_spaces Style.read_key
                    (style_close html_colornames rspamd_strtoul T key klen c (p + List.length v) bl)) b ->
    style_reach html_colornames rspamd_strtoul T (mk_style p c key klen Style.read_value next bl) b.
Proof.
  induction v as [|x v IH]; intros p c key klen next bl b r Hv E Hr.
  - cbn [app] in E. destruct (skipn_peek T p _ _ E) as (Ex & Hp & _).
    cbn [List.length] in Hr. rewrite Nat.add_0_r in Hr.
    apply style_reach_step; [cbn [sp_p]; lia|].
    unfold style_step. cbv zeta. cbn [sp_state sp_p sp_c sp_key sp_klen sp_next sp_bl].
    rewrite Ex. change (Ascii.eqb ";" ";") with true. rewrite orb_true_r. exact Hr.
  - cbn [app] in E. destruct (skipn_peek T p x _ E) as (Ex & Hp & E').
    assert (Hx : Ascii.eqb x ";" = false)
      by (apply Ascii.eqb_neq; intros ->; apply Hv; left; reflexivity).
    apply style_reach_step; [cbn [sp_p]; lia|].
    unfold style_step. cbv zeta. cbn [sp_state sp_p sp_c sp_key sp_klen sp_next sp_bl].
    rewrite Ex, Hx. destruct (Nat.eqb_spec p (List.length T)); [lia|]. cbn [orb].
    apply (IH (S p) c key klen next bl b r); [intros Hin; apply Hv; right; exact Hin | exact E'|].
    cbn [List.length] in Hr. rewrite Nat.add_succ_r in Hr. exact Hr.
Qed.

(** State [read_value] over the value, up to the end of the text. *)
Lemma style_read_value_end (v : list ascii) :
  forall p c key klen next bl,
    ~ In ";"%char v ->
    skipn p T = v -> (p <= List.length T)%nat ->
    style_reach html_colornames rspamd_strtoul T (mk_style p c key klen Style.read_value next bl)
          (style_close html_colornames rspamd_strtoul T key klen c (List.length T) bl).
Proof.
  induction v as [|x v IH]; intros p c key klen next bl Hv E Hp.
  - pose proof (skipn_nil_length T p E) as Hlen.
    assert (p = List.length T) by lia. subst p.
    apply style_reach_step; [cbn [sp_p]; lia|].
    unfold style_step. cbv zeta. cbn [sp_state sp_p sp_c sp_key sp_klen sp_next sp_bl].
    rewrite Nat.eqb_refl. cbn [orb].
    apply (style_reach_exit html_colornames rspamd_strtoul T
             (mk_style (S (List.length T)) c None 0 Style.skip_spaces Style.read_key
                       (style_close html_colornames rspamd_strtoul T key klen c (List.length T) bl))).
    cbn [sp_p]. lia.
  - destruct (skipn_peek T p x _ E) as (Ex & Hp' & E').
    assert (Hx : Ascii.eqb x ";" = false)
      by (apply Ascii.eqb_neq; intros ->; apply Hv; left; reflexivity).
    apply style_reach_step; [cbn [sp_p]; lia|].
    unfold style_step. cbv zeta. cbn [sp_state sp_p sp_c sp_key sp_klen sp_next sp_bl].
    rewrite Ex, Hx. destruct (Nat.eqb_spec p (List.length T)); [lia|]. cbn [orb].
    apply (IH (S p) c key klen next bl); [intros Hin; apply Hv; right; exact Hin | exact E' | lia].
Qed.
(** A declaration, from its start to the first byte of its value. *)
Lemma style_decl_head (d : style_decl) (p c : nat) (bl b : html_block)
      (tail : list ascii) :
  decl_ok d ->
  skipn p T = decl_text d ++ tail ->
  (forall pk pv,
      skipn pk T = d_key d ++ ":"%char :: d_mid d ++ d_value d ++ tail ->
      skipn pv T = d_value d ++ tail ->
      (pv + List.length (d_value d) = p + List.length (decl_text d))%nat ->
      style_reach html_colornames rspamd_strtoul T
        (mk_style pv pv (Some pk) (Z.of_nat (List.length (d_key d)))
                  Style.read_value Style.read_value bl) b) ->
  style_reach html_colornames rspamd_strtoul T
    (mk_style p c None 0 Style.skip_spaces Style.read_key bl) b.
Proof.
  intros (Hpre & Hkne & Hkey & Hklen & Hmid & Hv0 & Hsemi) E Hr.
  unfold decl_text in E. rewrite <- !app_assoc in E. cbn [app] in E.
  rewrite <- app_assoc in E.
  destruct (d_key d) as [|x k] eqn:Ek; [contradiction|]. rewrite <- Ek in *.
  destruct (d_value d) as [|y v] eqn:Ev; [cbn [hd] in Hv0; discriminate Hv0|].
  rewrite <- Ev in *.
  assert (Hx : g_ascii_isspace x = false).
  { rewrite Ek in Hkey. cbn [forallb] in Hkey. apply andb_prop in Hkey.
    destruct Hkey as [Hx _]. apply andb_prop in Hx. destruct Hx as [Hx _].
    apply negb_true_iff in Hx. exact Hx. }
  assert (Hy : g_ascii_isspace y = false) by (rewrite Ev in Hv0; exact Hv0).
  set (pk := (p + List.length (d_pre d))%nat).
  assert (Epk : skipn pk T = d_key d ++ ":"%char :: d_mid d ++ d_value d ++ tail)
    by (apply (skipn_app_shift T (d_pre d)); exact E).
  apply (style_skip (d_pre d) p c None 0 Style.read_key bl b x
                    (k ++ ":"%char :: d_mid d ++ d_value d ++ tail) Hpre Hx).
  { rewrite E, Ek. reflexivity. }
  fold pk.
  apply (style_read_key (d_key d) pk pk None 0 Style.read_key bl b
                        (d_mid d ++ d_value d ++ tail) Hkey Epk).
  replace (wrap32 (Z.of_nat (pk + List.length (d_key d)) - Z.of_nat pk))
    with (Z.of_nat (List.length (d_key d)))
    by (rewrite wrap32_small by lia; lia).
  set (pc := S (pk + List.length (d_key d))).
  assert (Epc : skipn pc T = d_mid d ++ d_value d ++ tail).
  { assert (E2 : skipn pk T = (d_key d ++ [":"%char]) ++ d_mid d ++ d_value d ++ tail)
      by (rewrite <- app_assoc; exact Epk).
    apply skipn_app_shift in E2. rewrite length_app in E2. cbn [List.length] in E2.
    unfold pc. replace (S (pk + List.length (d_key d)))
      with (pk + (List.length (d_key d) + 1))%nat by lia. exact E2. }
  apply (style_skip (d_mid d) pc pk (Some pk) (Z.of_nat (List.length (d_key d)))
                    Style.read_value bl b y (v ++ tail) Hmid Hy).
  { rewrite Epc, Ev. reflexivity. }
  apply Hr.
  - exact Epk.
  - apply (skipn_app_shift T (d_mid d)). exact Epc.
  - unfold pc, pk, decl_text. rewrite !length_app. cbn [List.length].
    rewrite !length_app. lia.
Qed.

Lemma style_close_decl (d : style_decl) (pk pv : nat) (bl : html_block)
      (tail tail' : list ascii) :
  decl_ok d ->
  skipn pk T = d_key d ++ tail' ->
  skipn pv T = d_value d ++ tail ->
  style_close html_colornames rspamd_strtoul T (Some pk)
              (Z.of_nat (List.length (d_key d))) pv (pv + List.length (d_value d)) bl
  = style_apply html_colornames rspamd_strtoul (d_key d)
                (Z.of_nat (List.length (d_key d))) (d_value d) bl.
Proof.
  intros (Hpre & Hkne & Hkey & Hklen & Hmid & Hv0 & Hsemi) Ek Ev.
  unfold style_close.
  destruct (d_key d) as [|x k] eqn:Ekey; [contradiction|]. rewrite <- Ekey in *.
  destruct (d_value d) as [|y v] eqn:Eval; [cbn [hd] in Hv0; discriminate Hv0|].
  rewrite <- Eval in *.
  assert (Hk0 : (Z.of_nat (List.length (d_key d)) =? 0) = false)
    by (apply Z.eqb_neq; rewrite Ekey; cbn [List.length]; lia).
  assert (Hv1 : (0 <? Z.of_nat (pv + List.length (d_value d)) - Z.of_nat pv) = true)
    by (apply Z.ltb_lt; rewrite Eval; cbn [List.length]; lia).
  rewrite Hk0, Hv1. cbn [negb andb].
  rewrite Ek, (span_skipn T pv (d_value d) tail Ev).
  apply style_apply_prefix.
Qed.

(** A declaration closed by a semicolon. *)
Lemma style_decl_semi (d : style_decl) (p c : nat) (bl b : html_block)
      (rest : list ascii) :
  decl_ok d ->
  skipn p T = decl_text d ++ ";"%char :: rest ->
  (forall c',
      style_reach html_colornames rspamd_strtoul T
        (mk_style (S (p + List.length (decl_text d))) c' None 0
                  Style.skip_spaces Style.read_key
                  (style_apply html_colornames rspamd_strtoul (d_key d)
                               (Z.of_nat (List.length (d_key d))) (d_value d) bl)) b) ->
  style_reach html_colornames rspamd_strtoul T
    (mk_style p c None 0 Style.skip_spaces Style.read_key bl) b.
Proof.
  intros Hok E Hr.
  apply (style_decl_head d p c bl b (";"%char :: rest) Hok E).
  intros pk pv Epk Epv Hlen.
  apply (style_read_value (d_value d) pv pv (Some pk) _ Style.read_value bl b rest
                          (proj2 (proj2 (proj2 (proj2 (proj2 (proj2 Hok)))))) Epv).
  rewrite (style_close_decl d pk pv bl (";"%char :: rest) _ Hok Epk Epv).
  rewrite Hlen. apply Hr.
Qed.

(** A last declaration that ends with the text. *)
Lemma style_decl_end (d : style_decl) (p c : nat) (bl : html_block) :
  decl_ok d ->
  skipn p T = decl_text d ->
  style_reach html_colornames rspamd_strtoul T
    (mk_style p c None 0 Style.skip_spaces Style.read_key bl)
    (style_apply html_colornames rspamd_strtoul (d_key d)
                 (Z.of_nat (List.length (d_key d))) (d_value d) bl).
Proof.
  intros Hok E. rewrite <- (app_nil_r (decl_text d)) in E.
  apply (style_decl_head d p c bl _ [] Hok E).
  intros pk pv Epk Epv Hlen. rewrite app_nil_r in Epv.
  assert (HT : List.length T = (pv + List.length (d_value d))%nat).
  { pose proof (length_skipn pv T) as H. rewrite Epv in H.
    assert (pv <= List.length T)%nat.
    { destruct (Nat.le_gt_cases pv (List.length T)) as [Hle|Hgt]; [exact Hle|].
      rewrite skipn_all2 in Epv by lia.
      destruct Hok as (_ & _ & _ & _ & _ & Hv0 & _). rewrite <- Epv in Hv0.
      cbn [hd] in Hv0. discriminate Hv0. }
    lia. }
  rewrite <- (style_close_decl d pk pv bl [] _ Hok Epk
                               ltac:(rewrite app_nil_r; exact Epv)).
  rewrite <- HT.
  apply (style_read_value_end (d_value d) pv pv (Some pk) _ Style.read_value bl
                              (proj2 (proj2 (proj2 (proj2 (proj2 (proj2 Hok)))))) Epv).
  lia.
Qed.

(** The declarations of a style, one after the other. *)
Lemma style_decls_reach (last : option style_decl) (ds : list style_decl) :
  Forall decl_ok ds ->
  match last with Some d => decl_ok d | None => True end ->
  forall p c bl,
    skipn p T = style_text ds last -> (p <= List.length T)%nat ->
    style_reach html_colornames rspamd_strtoul T
      (mk_style p c None 0 Style.skip_spaces Style.read_key bl)
      (fold_left (fun b d => style_apply html_colornames rspamd_strtoul (d_key d)
                                         (Z.of_nat (List.length (d_key d)))
                                         (d_value d) b)
                 (style_decls ds last) bl).
Proof.
  intros Hds Hlast. induction Hds as [|d ds Hd Hds IH]; intros p c bl E Hp.
  - unfold style_text in E. cbn [map concat app] in E. unfold style_decls. cbn [app].
    destruct last as [d|].
    + cbn [fold_left]. apply (style_decl_end d p c bl Hlast E).
    + cbn [fold_left]. apply (style_skip_end [] p c None 0 Style.read_key bl eq_refl E Hp).
  - unfold style_text in E. cbn [map concat] in E. rewrite <- !app_assoc in E.
    cbn [app] in E. fold (style_text ds last) in E.
    unfold style_decls. cbn [app fold_left]. fold (style_decls ds last).
    apply (style_decl_semi d p c bl _ (style_text ds last) Hd E).
    intros c'. apply IH.
    + assert (E2 : skipn p T = (decl_text d ++ [";"%char]) ++ style_text ds last)
        by (rewrite <- app_assoc; exact E).
      apply skipn_app_shift in E2. rewrite length_app in E2. cbn [List.length] in E2.
      replace (S (p + List.length (decl_text d)))
        with (p + (List.length (decl_text d) + 1))%nat by lia. exact E2.
    + pose proof (length_skipn p T) as H. rewrite E, length_app in H.
      cbn [List.length] in H. lia.
Qed.
End StyleFacts.

(** X24.  On a style made of declarations [property:value], each closed by
    a semicolon but maybe the last, with white space allowed before the
    property and before the value (what [g_ascii_isspace] takes for white
    space: space, \t, \n, \f and \r, not \v),
    [rspamd_html_process_style] applies the declarations in order: each
    sets the font colour, the background colour or the visibility by its
    property, compared without case, and its value, which runs up to the
    semicolon. *)
Theorem process_style_declarations
        (html_colornames : list (string * (Z * Z * Z)))
        (rspamd_strtoul : list ascii -> option Z)
        (ds : list style_decl) (last : option style_decl) (bl : html_block) :
  Forall decl_ok ds ->
  match last with Some d => decl_ok d | None => True end ->
  rspamd_html_process_style html_colornames rspamd_strtoul bl (style_text ds last)
  = Some (fold_left (fun b d => style_apply html_colornames rspamd_strtoul (d_key d)
                                            (Z.of_nat (List.length (d_key d)))
                                            (d_value d) b)
                    (style_decls ds last) bl).
Proof.
  intros Hds Hlast. unfold rspamd_html_process_style.
  apply style_reach_loop.
  - apply (style_decls_reach html_colornames rspamd_strtoul (style_text ds last)
                             last ds Hds Hlast 0 0 bl eq_refl).
    lia.
  - unfold style_measure. cbn [sp_p sp_state]. lia.
  - cbn [sp_next]. discriminate.
Qed.

Lemma process_style_declarations_witness :
  rspamd_html_process_style [("red"%string, (255, 0, 0))] (fun _ => None)
    (mk_block color_zero color_zero [] true None)
    (style_text [mk_decl [] (bytes "Color") (bytes " ") (bytes "red")]
                (Some (mk_decl (bytes " ") (bytes "display") [] (bytes "none"))))
  = Some (fold_left
            (fun b d => style_apply [("red"%string, (255, 0, 0))] (fun _ => None)
                                    (d_key d) (Z.of_nat (List.length (d_key d)))
                                    (d_value d) b)
            (style_decls [mk_decl [] (bytes "Color") (bytes " ") (bytes "red")]
                         (Some (mk_decl (bytes " ") (bytes "display") [] (bytes "none"))))
            (mk_block color_zero color_zero [] true None)).
Proof.
  apply (process_style_declarations [("red"%string, (255, 0, 0))] (fun _ => None)).
  - constructor; [|constructor].
    unfold decl_ok. cbn [d_pre d_key d_mid d_value].
    repeat split; try reflexivity; try discriminate.
    cbn. intros H; repeat (destruct H as [H|H]; [discriminate H|]); exact H.
  - unfold decl_ok. cbn [d_pre d_key d_mid d_value].
    repeat split; try reflexivity; try discriminate.
    cbn. intros H; repeat (destruct H as [H|H]; [discriminate H|]); exact H.
Defined.

(** ** Any style *)

Section StyleAny.
Variable html_colornames : list (string * (Z * Z * Z)).
Variable rspamd_strtoul : list ascii -> option Z.
Variable T : list ascii.

Lemma style_keeps_refl (a : html_block) : style_keeps a a.
Proof. repeat split. auto. Qed.

Lemma style_keeps_trans (a b c : html_block) :
  style_keeps a b -> style_keeps b c -> style_keeps a c.
Proof.
  intros (A1 & A2 & A3) (B1 & B2 & B3). unfold style_keeps.
  rewrite B2, B3, A2, A3. repeat split. auto.
Qed.

Lemma style_apply_keeps (key : list ascii) (klen : Z) (value : list ascii)
      (bl : html_block) :
  style_keeps bl (style_apply html_colornames rspamd_strtoul key klen value bl).
Proof.
  unfold style_apply.
  repeat match goal with
         | |- context [if ?b then _ else _] => destruct b
         end;
    unfold style_keeps; cbn [bl_visible bl_style bl_class]; repeat split; auto.
Qed.

Lemma style_step_keeps (st : style_st) :
  style_keeps (sp_bl st) (sp_bl (style_step html_colornames rspamd_strtoul T st)).
Proof.
  unfold style_step. cbv zeta.
  destruct (sp_state st);
    repeat match goal with
           | |- context [if ?b then _ else _] => destruct b
           end;
    cbn [sp_bl]; try apply style_keeps_refl;
      destruct (sp_key st); try apply style_keeps_refl; apply style_apply_keeps.
Qed.

Lemma style_loop_keeps :
  forall fuel st,
    (style_measure T st < fuel)%nat -> sp_next st <> Style.skip_spaces ->
    exists bl, style_loop html_colornames rspamd_strtoul fuel T st = Some bl
               /\ style_keeps (sp_bl st) bl.
Proof.
  induction fuel as [|fuel IH]; intros st Hf Hn; [lia|]. cbn [style_loop].
  destruct (Nat.leb_spec (sp_p st) (List.length T)) as [Hp|Hp].
  - destruct (style_step_measure html_colornames rspamd_strtoul T st Hp Hn) as [Hm Hn'].
    destruct (IH (style_step html_colornames rspamd_strtoul T st)) as (bl & E & Hk);
      [lia | exact Hn'|].
    exists bl. split; [exact E|].
    apply (style_keeps_trans _ _ _ (style_step_keeps st) Hk).
  - exists (sp_bl st). split; [reflexivity | apply style_keeps_refl].
Qed.
End StyleAny.

(** X25.  Whatever the text of the style, [rspamd_html_process_style] comes
    to an end, and it never makes a hidden block visible again: only the
    two colours can change, and the visibility from visible to hidden. *)
Theorem process_style_ends_and_keeps
        (html_colornames : list (string * (Z * Z * Z)))
        (rspamd_strtoul : list ascii -> option Z)
        (style : list ascii) (bl : html_block) :
  exists bl',
    rspamd_html_process_style html_colornames rspamd_strtoul bl style = Some bl'
    /\ (bl_visible bl = false -> bl_visible bl' = false)
    /\ bl_style bl' = bl_style bl
    /\ bl_class bl' = bl_class bl.
Proof.
  unfold rspamd_html_process_style.
  destruct (style_loop_keeps html_colornames rspamd_strtoul style
              (2 * List.length style + 4)
              (mk_style 0 0 None 0 Style.skip_spaces Style.read_key bl))
    as (bl' & E & Hk).
  - unfold style_measure. cbn [sp_p sp_state]. lia.
  - cbn [sp_next]. discriminate.
  - exists bl'. split; [exact E | exact Hk].
Qed.

(** ** libserver/html.c: the names of attributes *)

Lemma tolower_code_eq (x y : ascii) :
  (code (g_ascii_tolower x) =? code (g_ascii_tolower y))
  = Ascii.eqb (g_ascii_tolower x) (g_ascii_tolower y).
Proof.
  destruct (Ascii.eqb_spec (g_ascii_tolower x) (g_ascii_tolower y)) as [->|Hne];
    [apply Z.eqb_refl|].
  apply Z.eqb_neq. intros E. apply Hne. apply code_inj. exact E.
Qed.

Lemma code_nonzero (x : ascii) : x <> NUL -> code x <> 0.
Proof. intros Hx E. apply Hx. apply code_inj. rewrite E. reflexivity. Qed.

(** [g_ascii_strncasecmp] over the whole of a text without NUL, against a
    pattern without NUL that is as long at least: 0 exactly for the same
    letters. *)
Lemma strncasecmp_zero (p : list ascii) :
  forall pat,
    (List.length p <= List.length pat)%nat -> ~ In NUL p -> ~ In NUL pat ->
    (g_ascii_strncasecmp p pat (List.length p) = 0
     <-> lower p = lower (firstn (List.length p) pat)).
Proof.
  induction p as [|x p IH]; intros pat Hlen Hp Hpat; cbn [List.length g_ascii_strncasecmp].
  - cbn [firstn lower map]. tauto.
  - destruct pat as [|y pat]; cbn [List.length] in Hlen; [lia|].
    cbn [hd tl firstn]. unfold lower. cbn [map]. fold (lower p) (lower (firstn (List.length p) pat)).
    destruct (Ascii.eqb_spec x NUL) as [Ex|_]; [exfalso; apply Hp; left; auto|].
    destruct (Ascii.eqb_spec y NUL) as [Ey|_]; [exfalso; apply Hpat; left; auto|].
    cbn [orb]. rewrite tolower_code_eq.
    destruct (Ascii.eqb_spec (g_ascii_tolower x) (g_ascii_tolower y)) as [E|E].
    + assert (Hp' : ~ In NUL p) by (intros Hin; apply Hp; right; exact Hin).
      assert (Hpat' : ~ In NUL pat) by (intros Hin; apply Hpat; right; exact Hin).
      rewrite (IH pat ltac:(lia) Hp' Hpat').
      rewrite E. split; [intros ->; reflexivity | intros E2; injection E2; auto].
    + split.
      * intros E2. exfalso. apply E. apply code_inj. lia.
      * intros E2. injection E2 as E2 _. contradiction.
Qed.

(** Against a shorter pattern the result is never 0. *)
Lemma strncasecmp_longer (pat : list ascii) :
  forall p n,
    (List.length pat < n)%nat -> (n <= List.length p)%nat -> ~ In NUL p ->
    g_ascii_strncasecmp p pat n <> 0.
Proof.
  induction pat as [|y pat IH]; intros p n Hn Hp Hnul.
  - destruct n as [|n]; [cbn [List.length] in Hn; lia|].
    destruct p as [|x p]; [cbn [List.length] in Hp; lia|].
    cbn [g_ascii_strncasecmp hd]. change (Ascii.eqb NUL NUL) with true.
    rewrite orb_true_r. change (code NUL) with 0. rewrite Z.sub_0_r.
    apply code_nonzero. intros ->. apply Hnul. left. reflexivity.
  - destruct n as [|n]; [lia|].
    destruct p as [|x p]; [cbn [List.length] in Hp; lia|].
    cbn [List.length] in Hn, Hp.
    cbn [g_ascii_strncasecmp hd tl].
    assert (Hx : x <> NUL) by (intros ->; apply Hnul; left; reflexivity).
    destruct (Ascii.eqb_spec x NUL) as [Ex|_]; [contradiction|].
    destruct (Ascii.eqb_spec y NUL) as [->|_].
    + cbn [orb]. change (code NUL) with 0. rewrite Z.sub_0_r. apply code_nonzero. exact Hx.
    + cbn [orb]. rewrite tolower_code_eq.
      destruct (Ascii.eqb_spec (g_ascii_tolower x) (g_ascii_tolower y)) as [E|E].
      * apply IH; [lia | lia | intros Hin; apply Hnul; right; exact Hin].
      * intros E2. apply E. apply code_inj. lia.
Qed.

Section ComponentFacts.
Context `{html_h}.
Variable g_unichar_isgraph : Z -> bool.
Variable name : list ascii.
Hypothesis name_plain : attr_name_plain name.

Lemma component_decoded :
  rspamd_html_decode_entitles_inplace g_unichar_isgraph name
    (wrap32 (Z.of_nat (List.length name)))
  = (name, Z.of_nat (List.length name)).
Proof.
  destruct name_plain as (Hne & Hlen & Hamp & _).
  assert (Hpos : 0 < Z.of_nat (List.length name))
    by (destruct name; [contradiction | cbn [List.length]; lia]).
  unfold rspamd_html_decode_entitles_inplace.
  rewrite wrap32_small by lia.
  destruct (Z.eqb_spec (Z.of_nat (List.length name)) 0) as [E|_]; [lia|].
  rewrite (decode_loop_plain g_unichar_isgraph name (Z.of_nat (List.length name)) 0
                             (Z.to_nat (Z.of_nat (List.length name))) 0); try lia.
  - cbn [dec_s dec_t]. rewrite Nat.add_0_l, Z2Nat.id by lia.
    rewrite wrap32_small by lia. reflexivity.
  - intros i Hi E. apply Hamp. rewrite <- E. apply nth_In. lia.
Qed.

Lemma component_len :
  sint32 (Z.of_nat (List.length name)) = Z.of_nat (List.length name)
  /\ Z.to_nat (wrap64 (Z.of_nat (List.length name))) = List.length name.
Proof.
  destruct name_plain as (_ & Hlen & _).
  split; [apply sint32_small; lia|].
  unfold wrap64. rewrite Z.mod_small by lia. apply Nat2Z.id.
Qed.

(** The comparison of the whole name with a pattern. *)
Lemma component_cmp (pat : string) :
  ~ In NUL (bytes pat) ->
  (g_ascii_strncasecmp name (bytes pat) (List.length name) =? 0) = true
  <-> (List.length name <= String.length pat)%nat
      /\ lower name = lower (firstn (List.length name) (bytes pat)).
Proof.
  intros Hpat. destruct name_plain as (_ & _ & _ & Hnul).
  assert (Hbl : List.length (bytes pat) = String.length pat) by apply bytes_length.
  rewrite Z.eqb_eq.
  destruct (Nat.le_gt_cases (List.length name) (String.length pat)) as [Hle|Hgt].
  - rewrite (strncasecmp_zero name (bytes pat)) by (try lia; assumption). tauto.
  - split; [|lia]. intros E. exfalso.
    apply (strncasecmp_longer (bytes pat) name (List.length name)); try lia; assumption.
Qed.
Ltac no_nul :=
  let Hn := fresh "Hn" in
  cbn; intros Hn; repeat (destruct Hn as [Hn|Hn]; [discriminate Hn|]); exact Hn.

(** The comparison with a pattern of the length of the name. *)
Lemma component_cmp_same (pat : string) :
  ~ In NUL (bytes pat) -> List.length name = String.length pat ->
  (g_ascii_strncasecmp name (bytes pat) (List.length name) =? 0) = true
  <-> lower name = lower (bytes pat).
Proof.
  intros Hpat Hlen. rewrite (component_cmp pat Hpat).
  rewrite Hlen, <- (bytes_length pat), firstn_all. split; [tauto|].
  intros E. split; [lia | exact E].
Qed.

Lemma lower_name_length (s : string) :
  lower name = bytes s -> List.length name = String.length s.
Proof. intros E. rewrite <- (lower_length name), E. apply bytes_length. Qed.

(** X26.  Whatever the tag, the name of an attribute without character
    references gives a HREF component exactly when it is [src] or [href],
    in any case of the letters. *)
Theorem tag_component_href_iff (tag : html_tag) :
  rspamd_html_parse_tag_component g_unichar_isgraph name tag
  = Some RSPAMD_HTML_COMPONENT_HREF
  <-> lower name = bytes "src" \/ lower name = bytes "href".
Proof.
  unfold rspamd_html_parse_tag_component. rewrite component_decoded.
  destruct component_len as [E1 E2]. rewrite E1, E2.
  assert (Nsrc : ~ In NUL (bytes "src")) by no_nul.
  assert (Nhref : ~ In NUL (bytes "href")) by no_nul.
  destruct (Z.eqb_spec (Z.of_nat (List.length name)) 3) as [L3|L3].
  { assert (Hl : List.length name = String.length "src") by (cbn; lia).
    pose proof (component_cmp_same "src" Nsrc Hl) as Hc.
    change (lower (bytes "src")) with (bytes "src") in Hc.
    destruct (g_ascii_strncasecmp name (bytes "src") (List.length name) =? 0).
    - split; [intros _; left; apply Hc; reflexivity | reflexivity].
    - split; [discriminate|]. intros [E|E].
      + apply Hc in E. discriminate E.
      + apply lower_name_length in E. cbn in E. lia. }
  destruct (Z.eqb_spec (Z.of_nat (List.length name)) 4) as [L4|L4].
  { assert (Hl : List.length name = String.length "href") by (cbn; lia).
    pose proof (component_cmp_same "href" Nhref Hl) as Hc.
    change (lower (bytes "href")) with (bytes "href") in Hc.
    destruct (g_ascii_strncasecmp name (bytes "href") (List.length name) =? 0).
    - split; [intros _; right; apply Hc; reflexivity | reflexivity].
    - split; [discriminate|]. intros [E|E].
      + apply lower_name_length in E. cbn in E. lia.
      + apply Hc in E. discriminate E. }
  assert (Hno : ~ (lower name = bytes "src" \/ lower name = bytes "href")).
  { intros [E|E]; apply lower_name_length in E; cbn in E; lia. }
  repeat match goal with
         | |- context [if ?b then _ else _] => destruct b
         end;
    (split; [discriminate | intros Hc; contradiction]).
Qed.

(** X27.  In an [img] tag the name of an attribute without character
    references gives a STYLE component exactly when it is [s], [st] or
    [style], in any case of the letters: the comparison with [style] runs
    over the length of the name only. *)
Theorem img_style_component_iff (tag : html_tag) :
  tag_id tag = tag_num Tag_IMG ->
  rspamd_html_parse_tag_component g_unichar_isgraph name tag
  = Some RSPAMD_HTML_COMPONENT_STYLE
  <-> lower name = bytes "s" \/ lower name = bytes "st" \/ lower name = bytes "style".
Proof.
  intros Himg.
  unfold rspamd_html_parse_tag_component. rewrite component_decoded.
  destruct component_len as [E1 E2]. rewrite E1, E2.
  assert (Hpos : (0 < List.length name)%nat).
  { destruct name_plain as (Hne & _). destruct name; [contradiction | cbn; lia]. }
  assert (Nw : ~ In NUL (bytes "width")) by no_nul.
  assert (Nh : ~ In NUL (bytes "height")) by no_nul.
  assert (Ns : ~ In NUL (bytes "style")) by no_nul.
  assert (Hlens : lower name = bytes "s" \/ lower name = bytes "st"
                  \/ lower name = bytes "style" ->
                  List.length name = 1%nat \/ List.length name = 2%nat
                  \/ List.length name = 5%nat).
  { intros [E|[E|E]]; apply lower_name_length in E; cbn in E; auto. }
  destruct (Z.eqb_spec (Z.of_nat (List.length name)) 3) as [L3|L3].
  { destruct (_ =? 0); (split; [discriminate | intros Hc; apply Hlens in Hc; lia]). }
  destruct (Z.eqb_spec (Z.of_nat (List.length name)) 4) as [L4|L4].
  { destruct (_ =? 0); (split; [discriminate | intros Hc; apply Hlens in Hc; lia]). }
  rewrite Himg, Z.eqb_refl.
  destruct (Z.eqb_spec (Z.of_nat (List.length name)) 5) as [L5|L5]; cbn [andb].
  - assert (Hl : List.length name = 5%nat) by lia.
    pose proof (component_cmp_same "width" Nw Hl) as Hw.
    pose proof (component_cmp_same "style" Ns Hl) as Hs.
    change (lower (bytes "width")) with (bytes "width") in Hw.
    change (lower (bytes "style")) with (bytes "style") in Hs.
    destruct (g_ascii_strncasecmp name (bytes "width") (List.length name) =? 0).
    + split; [discriminate|]. intros Hc.
      assert (Ew : lower name = bytes "width") by (apply Hw; reflexivity).
      destruct Hc as [E|[E|E]]; rewrite Ew in E; discriminate E.
    + destruct (Z.eqb_spec (Z.of_nat (List.length name)) 6) as [L6|_]; [lia|]. cbn [andb].
      destruct (g_ascii_strncasecmp name (bytes "style") (List.length name) =? 0).
      * split; [intros _; right; right; apply Hs; reflexivity | reflexivity].
      * split; [discriminate|]. intros [E|[E|E]].
        -- apply lower_name_length in E. cbn in E. lia.
        -- apply lower_name_length in E. cbn in E. lia.
        -- apply Hs in E. discriminate E.
  - destruct (Z.eqb_spec (Z.of_nat (List.length name)) 6) as [L6|L6]; cbn [andb].
    + destruct (g_ascii_strncasecmp name (bytes "height") (List.length name) =? 0).
      * split; [discriminate | intros Hc; apply Hlens in Hc; lia].
      * pose proof (component_cmp "style" Ns) as Hs.
        destruct (g_ascii_strncasecmp name (bytes "style") (List.length name) =? 0).
        -- destruct (proj1 Hs eq_refl) as [Hle _]. cbn in Hle. lia.
        -- split; [discriminate | intros Hc; apply Hlens in Hc; lia].
    + pose proof (component_cmp "style" Ns) as Hs.
      destruct (g_ascii_strncasecmp name (bytes "style") (List.length name) =? 0).
      * destruct (proj1 Hs eq_refl) as [Hle Hlow]. cbn [String.length] in Hle.
        split; [intros _ | reflexivity].
        assert (Hcases : List.length name = 1%nat \/ List.length name = 2%nat) by lia.
        destruct Hcases as [Hl|Hl]; rewrite Hl in Hlow.
        -- left. exact Hlow.
        -- right. left. exact Hlow.
      * split; [discriminate|]. intros Hc.
        assert (Hcmp : (List.length name <= String.length "style")%nat
                       /\ lower name
                          = lower (firstn (List.length name) (bytes "style"))).
        { destruct Hc as [E|[E|E]]; pose proof (lower_name_length _ E) as Hl;
            cbn [String.length] in Hl; rewrite Hl; split;
              try (cbn [String.length]; lia); exact E. }
        apply Hs in Hcmp. discriminate Hcmp.
Qed.
End ComponentFacts.

Section SampleComponent.
#[local] Existing Instance sample_html_h.

Lemma tag_component_href_iff_witness :
  rspamd_html_parse_tag_component (fun _ => true) (bytes "HRef") (tag_open def_div)
  = Some RSPAMD_HTML_COMPONENT_HREF
  <-> lower (bytes "HRef") = bytes "src" \/ lower (bytes "HRef") = bytes "href".
Proof.
  apply (tag_component_href_iff (fun _ => true) (bytes "HRef")).
  unfold attr_name_plain. split; [discriminate|]. split; [reflexivity|].
  split; cbn; intros Hn; repeat (destruct Hn as [Hn|Hn]; [discriminate Hn|]); exact Hn.
Defined.

Lemma img_style_component_iff_witness :
  rspamd_html_parse_tag_component (fun _ => true) (bytes "St")
                                  (mk_tag (tag_num Tag_IMG) 0 0 None)
  = Some RSPAMD_HTML_COMPONENT_STYLE
  <-> lower (bytes "St") = bytes "s" \/ lower (bytes "St") = bytes "st"
      \/ lower (bytes "St") = bytes "style".
Proof.
  apply (img_style_component_iff (fun _ => true) (bytes "St")).
  - unfold attr_name_plain. split; [discriminate|]. split; [reflexivity|].
    split; cbn; intros Hn; repeat (destruct Hn as [Hn|Hn]; [discriminate Hn|]); exact Hn.
  - reflexivity.
Defined.
End SampleComponent.

(** ** libserver/html.c: the text of a tag *)

Lemma small_alnum_char (c : ascii) :
  (let n := code c in ((97 <=? n) && (n <=? 122)) || g_ascii_isdigit c) = true ->
  g_ascii_isspace c = false /\ Ascii.eqb c ">" = false /\ Ascii.eqb c "/" = false
  /\ c <> "&"%char /\ c <> NUL.
Proof.
  destruct c as [[] [] [] [] [] [] [] []]; vm_compute; intros E; try discriminate E;
    repeat split; discriminate.
Qed.

Lemma small_alnum_facts (s : list ascii) :
  small_alnum s ->
  forallb (fun c => negb (g_ascii_isspace c || Ascii.eqb c ">" || Ascii.eqb c "/")) s = true
  /\ ~ In "&"%char s /\ ~ In NUL s.
Proof.
  unfold small_alnum. induction s as [|c s IH]; cbn [forallb]; intros E.
  - repeat split; intros [].
  - apply andb_prop in E. destruct E as [Ec Es].
    destruct (small_alnum_char c Ec) as (A1 & A2 & A3 & A4 & A5).
    destruct (IH Es) as (B1 & B2 & B3).
    rewrite A1, A2, A3, B1. repeat split.
    + intros [E|E]; [apply A4; exact E | apply B2; exact E].
    + intros [E|E]; [apply A5; exact E | apply B3; exact E].
Qed.

Section TagParse.
Context `{html_h} {Hok : html_h_ok}.
Variable g_unichar_isgraph : Z -> bool.
Variable T : list ascii.
Variable closing : bool.

(** With enough fuel the loop gives what it reaches. *)
Lemma tag_reach_loop hc tag p state savep o :
  tag_reach g_unichar_isgraph T closing hc tag p state savep o ->
  forall fuel, (List.length T - p < fuel)%nat ->
    tag_content_loop g_unichar_isgraph fuel T closing hc tag p state savep = Some o.
Proof.
  induction 1 as [hc tag p st sv Hp
                 |hc tag p st sv hc' tag' st' sv' Hp E Hgt
                 |hc tag p st sv hc' tag' st' sv' o Hp E Hgt Hr IH];
    intros fuel Hf; (destruct fuel as [|fuel]; [lia|]); cbn [tag_content_loop].
  - destruct (Nat.ltb_spec p (List.length T)); [lia | reflexivity].
  - destruct (Nat.ltb_spec p (List.length T)); [|lia].
    rewrite E. cbn [bind]. rewrite Hgt. reflexivity.
  - destruct (Nat.ltb_spec p (List.length T)); [|lia].
    rewrite E. cbn [bind].
    destruct (Ascii.eqb_spec (peek T p) ">"); [contradiction|].
    apply IH. lia.
Qed.

(** A run of bytes that leave the state as it is. *)
Lemma tag_reach_run (l : list ascii) hc tag state savep :
  (forall c q, In c l -> peek T q = c ->
     c <> ">"%char
     /\ rspamd_html_parse_tag_content g_unichar_isgraph T hc tag q state savep
        = Some (hc, tag, state, savep)) ->
  forall p tail o,
    skipn p T = l ++ tail ->
    tag_reach g_unichar_isgraph T closing hc tag (p + List.length l) state savep o ->
    tag_reach g_unichar_isgraph T closing hc tag p state savep o.
Proof.
  induction l as [|c l IH]; intros Hc p tail o E Hr.
  - cbn [List.length] in Hr. rewrite Nat.add_0_r in Hr. exact Hr.
  - cbn [app] in E. destruct (skipn_peek T p c _ E) as (Ec & Hp & E').
    destruct (Hc c p (or_introl eq_refl) Ec) as [Hgt Hparse].
    apply (tag_reach_step g_unichar_isgraph T closing hc tag p state savep
                          hc tag state savep o Hp Hparse);
      [rewrite Ec; exact Hgt|].
    apply (IH (fun c' q Hin => Hc c' q (or_intror Hin)) (S p) tail o E').
    cbn [List.length] in Hr. rewrite Nat.add_succ_r in Hr. exact Hr.
Qed.

(** [bsearch] with the name of a row finds the row. *)
Lemma bsearch_tag_row (d : html_tag_def) :
  In d tag_defs_src -> bsearch tag_find (bytes (def_name d)) tag_defs = Some d.
Proof.
  intros Hd. pose proof (tag_defs_row_ok d Hd) as Rd.
  destruct (bsearch_complete _ tag_cmp _ tag_find (bytes (def_name d)) tag_defs d)
    as (p & Ep & Hp & Hz).
  - apply tag_defs_sorted.
  - exact (proj2 (tag_defs_in d) Hd).
  - apply tag_find_same. exact Rd.
  - intros p Hp.
    exact (tag_find_before d p Rd (tag_defs_row_ok p (proj1 (tag_defs_in p) Hp))).
  - intros p Hp.
    exact (tag_find_after d p Rd (tag_defs_row_ok p (proj1 (tag_defs_in p) Hp))).
  - rewrite Ep. pose proof (proj1 (tag_defs_in p) Hp) as Hp'.
    assert (Rp : row_ok p) by (apply tag_defs_row_ok; exact Hp').
    apply tag_find_zero in Hz; [|exact Rp|destruct Rd as (Ld & Hl & _); lia].
    f_equal. symmetry.
    apply (NoDup_map_eq (fun d => lower (bytes (def_name d))) tag_defs_src
             tag_defs_src_names_nodup d p Hd Hp' Hz).
Qed.

(** The names of the table start with a letter. *)
Lemma tag_names_alpha (d : html_tag_def) :
  In d tag_defs_src -> g_ascii_isalpha (hd NUL (bytes (def_name d))) = true.
Proof.
  intros Hd.
  assert (Hall : forallb (fun n => g_ascii_isalpha (hd NUL (bytes n)))
                         (map def_name tag_defs_src) = true)
    by (vm_compute; reflexivity).
  rewrite forallb_forall in Hall. apply Hall. apply in_map. exact Hd.
Qed.

(** The names of the table as attribute names and as runs of bytes. *)
Lemma name_plain_row (d : html_tag_def) :
  In d tag_defs_src ->
  attr_name_plain (bytes (def_name d))
  /\ forallb (fun c => negb (g_ascii_isspace c || Ascii.eqb c ">" || Ascii.eqb c "/"))
             (bytes (def_name d)) = true
  /\ def_len d = Z.of_nat (List.length (bytes (def_name d)))
  /\ def_len d < 2^15.
Proof.
  intros Hd. destruct (tag_defs_row_ok d Hd) as (Ld & Hl & _ & Hs & _).
  destruct (small_alnum_facts _ Hs) as (F1 & F2 & F3).
  pose proof (tag_names_alpha d Hd) as Ha.
  repeat split; try assumption; try lia.
  intros E. rewrite E in Ha. cbn in Ha. discriminate Ha.
Qed.

(** The first byte of the name. *)
Lemma tag_name_start hc (p : nat) :
  g_ascii_isalpha (peek T p) = true ->
  rspamd_html_parse_tag_content g_unichar_isgraph T hc cur_tag_new p
                                Content.parse_start None
  = Some (hc, mk_cur_tag (name_in p) 0 0 0 [], Content.parse_name, None).
Proof.
  intros Ha. unfold rspamd_html_parse_tag_content. cbv zeta. rewrite Ha. reflexivity.
Qed.

(** The byte after the name of a row: the name is looked up, and the
    flags of the row replace the flags of the tag. *)
Lemma tag_name_lookup (d : html_tag_def) hc (p : nat) l i f ps sv (tail : list ascii) :
  In d tag_defs_src ->
  skipn p T = bytes (def_name d) ++ tail ->
  (g_ascii_isspace (peek T (p + List.length (bytes (def_name d))))
   || Ascii.eqb (peek T (p + List.length (bytes (def_name d)))) ">"
   || Ascii.eqb (peek T (p + List.length (bytes (def_name d)))) "/") = true ->
  rspamd_html_parse_tag_content g_unichar_isgraph T hc
    (mk_cur_tag (name_in p) l i f ps) (p + List.length (bytes (def_name d)))
    Content.parse_name sv
  = Some (hc,
          mk_cur_tag (name_copy (bytes (def_name d))) (def_len d) (def_id d)
                     (def_flags d) ps,
          Content.spaces_after_name, sv).
Proof.
  intros Hd E Hterm.
  destruct (name_plain_row d Hd) as (Hplain & _ & Ld & Hl).
  set (name := bytes (def_name d)) in *.
  unfold rspamd_html_parse_tag_content. cbv zeta. rewrite Hterm. cbn [ct_name].
  destruct (Nat.ltb_spec (p + List.length name) p); [lia|].
  assert (Hlen : wrap32 (Z.of_nat (p + List.length name) - Z.of_nat p)
                 = Z.of_nat (List.length name))
    by (rewrite wrap32_small by lia; lia).
  rewrite Hlen.
  assert (Hne : (Z.of_nat (List.length name) =? 0) = false).
  { apply Z.eqb_neq. destruct Hplain as (Hne & _).
    destruct name; [contradiction | cbn [List.length]; lia]. }
  rewrite Hne. rewrite (span_skipn T p name tail E).
  replace (Z.of_nat (List.length name)) with (wrap32 (Z.of_nat (List.length name))) at 1
    by (apply wrap32_small; lia).
  rewrite (component_decoded g_unichar_isgraph name Hplain).
  rewrite Nat2Z.id, firstn_all.
  unfold name. rewrite (bsearch_tag_row d Hd). fold name.
  rewrite Ld.
  destruct (Ascii.eqb _ "/"); reflexivity.
Qed.

(** An attribute, from the first byte of its name to the quote that ends
    its value. *)
Lemma attr_body_reach (a : tag_attr) hc nm nl id fl ps s0 sv (pk : nat)
      (tail : list ascii) (o : tag_outcome) :
  attr_ok a ->
  s0 = Content.spaces_after_name \/ s0 = Content.spaces_after_param ->
  skipn pk T = attr_body a ++ tail ->
  tag_reach g_unichar_isgraph T closing hc
    (mk_cur_tag nm nl id fl
                (ps ++ attr_comps g_unichar_isgraph (mk_tag id fl 0 None) a))
    (pk + List.length (attr_body a)) Content.parse_end_dquote None o ->
  tag_reach g_unichar_isgraph T closing hc (mk_cur_tag nm nl id fl ps) pk s0 sv o.
Proof.
  intros (Hkne & Hkey & Hvne & Hvq & Hvgt) Hs0 E Hr.
  unfold attr_body in E, Hr.
  destruct (a_key a) as [|k0 ks] eqn:Ek; [contradiction|].
  destruct (a_value a) as [|v0 vs] eqn:Ev; [contradiction|].
  cbn [forallb] in Hkey. apply andb_prop in Hkey. destruct Hkey as [Hk0 Hks].
  assert (Hkc : forall c, key_char c = true ->
                  g_ascii_isspace c = false /\ Ascii.eqb c "=" = false
                  /\ Ascii.eqb c "/" = false /\ Ascii.eqb c ">" = false).
  { intros c Hc. unfold key_char in Hc.
    apply andb_prop in Hc. destruct Hc as [Hc H4].
    apply andb_prop in Hc. destruct Hc as [Hc H3].
    apply andb_prop in Hc. destruct Hc as [H1 H2].
    apply negb_true_iff in H1, H2, H3, H4. auto. }
  destruct (Hkc k0 Hk0) as (K1 & K2 & K3 & K4).
  cbn [app] in E. rewrite <- app_assoc in E. cbn [app] in E.
  (* the first byte of the name *)
  destruct (skipn_peek T pk k0 _ E) as (P0 & L0 & E1).
  assert (Step0 : rspamd_html_parse_tag_content g_unichar_isgraph T hc
                    (mk_cur_tag nm nl id fl ps) pk s0 sv
                  = Some (hc, mk_cur_tag nm nl id fl ps, Content.parse_attr_name,
                          Some pk)).
  { unfold rspamd_html_parse_tag_content, slash_gt. cbv zeta.
    destruct Hs0 as [-> | ->]; rewrite P0, K1, K3, ?K4; reflexivity. }
  apply (tag_reach_step g_unichar_isgraph T closing _ _ pk _ _ _ _ _ _ o L0 Step0);
    [rewrite P0; apply Ascii.eqb_neq; exact K4|].
  (* the rest of the name *)
  apply (tag_reach_run ks hc (mk_cur_tag nm nl id fl ps) Content.parse_attr_name
                       (Some pk)
                       ltac:(intros c q Hin Hq;
                             rewrite forallb_forall in Hks;
                             destruct (Hkc c (Hks c Hin)) as (C1 & C2 & C3 & C4);
                             split; [apply Ascii.eqb_neq; exact C4|];
                             unfold rspamd_html_parse_tag_content; cbv zeta;
                             rewrite Hq, C1, C2, C3; reflexivity)
                       (S pk) _ o E1).
  apply skipn_app_shift in E1.
  set (pe := (S pk + List.length ks)%nat) in *.
  (* the equal sign *)
  destruct (skipn_peek T pe _ _ E1) as (Pe & Le & E2).
  assert (Hspan : span T pk pe = k0 :: ks).
  { replace pe with (pk + List.length (k0 :: ks))%nat by (cbn [List.length]; lia).
    apply (span_skipn T pk (k0 :: ks)
                      ("="%char :: "034"%char :: (v0 :: vs) ++ ["034"%char] ++ tail)).
    rewrite E. cbn [app]. rewrite <- app_assoc. reflexivity. }
  set (comp := rspamd_html_parse_tag_component g_unichar_isgraph (k0 :: ks)
                                               (mk_tag id fl 0 None)) in *.
  set (ps1 := match comp with Some t => ps ++ [mk_comp t None 0] | None => ps end).
  set (sv1 := match comp with Some _ => Some pk | None => None end).
  assert (Step1 : rspamd_html_parse_tag_content g_unichar_isgraph T hc
                    (mk_cur_tag nm nl id fl ps) pe Content.parse_attr_name (Some pk)
                  = Some (hc, mk_cur_tag nm nl id fl ps1, Content.parse_equal, sv1)).
  { unfold rspamd_html_parse_tag_content. cbv zeta. rewrite Pe.
    change (Ascii.eqb "=" "=") with true. cbv iota.
    destruct (Nat.ltb_spec pe pk); [unfold pe in *; lia|].
    rewrite Hspan. unfold cur_tag_view. cbn [ct_id ct_flags ct_name ct_name_len ct_params].
    fold comp. unfold ps1, sv1. destruct comp; reflexivity. }
  apply (tag_reach_step g_unichar_isgraph T closing _ _ pe _ _ _ _ _ _ o Le Step1);
    [rewrite Pe; discriminate|].
  (* the opening quote *)
  destruct (skipn_peek T (S pe) _ _ E2) as (Pq & Lq & E3).
  assert (Step2 : rspamd_html_parse_tag_content g_unichar_isgraph T hc
                    (mk_cur_tag nm nl id fl ps1) (S pe) Content.parse_equal sv1
                  = Some (hc, mk_cur_tag nm nl id fl ps1, Content.parse_start_dquote,
                          sv1)).
  { unfold rspamd_html_parse_tag_content. cbv zeta. rewrite Pq. reflexivity. }
  apply (tag_reach_step g_unichar_isgraph T closing _ _ (S pe) _ _ _ _ _ _ o Lq Step2);
    [rewrite Pq; discriminate|].
  (* the first byte of the value *)
  cbn [app] in E3. destruct (skipn_peek T (S (S pe)) v0 _ E3) as (Pv & Lv & E4).
  assert (V0 : Ascii.eqb v0 "034" = false)
    by (apply Ascii.eqb_neq; intros ->; apply Hvq; left; reflexivity).
  assert (V0' : v0 <> ">"%char) by (intros ->; apply Hvgt; left; reflexivity).
  rewrite <- app_assoc in E4.
  set (sv2 := save_here (S (S pe)) sv1).
  assert (Step3 : rspamd_html_parse_tag_content g_unichar_isgraph T hc
                    (mk_cur_tag nm nl id fl ps1) (S (S pe)) Content.parse_start_dquote
                    sv1
                  = Some (hc, mk_cur_tag nm nl id fl ps1, Content.parse_dqvalue, sv2)).
  { unfold rspamd_html_parse_tag_content. cbv zeta. rewrite Pv, V0. reflexivity. }
  apply (tag_reach_step g_unichar_isgraph T closing _ _ (S (S pe)) _ _ _ _ _ _ o Lv
                        Step3);
    [rewrite Pv; exact V0'|].
  (* the rest of the value *)
  apply (tag_reach_run vs hc (mk_cur_tag nm nl id fl ps1) Content.parse_dqvalue sv2
                       ltac:(intros c q Hin Hq;
                             split; [intros ->; apply Hvgt; right; exact Hin|];
                             unfold rspamd_html_parse_tag_content; cbv zeta;
                             rewrite Hq;
                             destruct (Ascii.eqb_spec c "034") as [->|_];
                             [exfalso; apply Hvq; right; exact Hin | reflexivity])
                       (S (S (S pe))) _ o E4).
  apply skipn_app_shift in E4.
  set (pq := (S (S (S pe)) + List.length vs)%nat) in *.
  (* the closing quote *)
  cbn [app] in E4. destruct (skipn_peek T pq _ _ E4) as (Pc & Lc & E5).
  assert (Hval : span T (S (S pe)) pq = v0 :: vs).
  { replace pq with (S (S pe) + List.length (v0 :: vs))%nat
      by (unfold pq; cbn [List.length]; lia).
    apply (span_skipn T (S (S pe)) (v0 :: vs) ("034"%char :: tail)).
    rewrite E3. cbn [app]. rewrite <- app_assoc. reflexivity. }
  assert (Step4 : rspamd_html_parse_tag_content g_unichar_isgraph T hc
                    (mk_cur_tag nm nl id fl ps1) pq Content.parse_dqvalue sv2
                  = Some (hc,
                          mk_cur_tag nm nl id fl
                            (ps ++ attr_comps g_unichar_isgraph (mk_tag id fl 0 None) a),
                          Content.parse_end_dquote, None)).
  { unfold rspamd_html_parse_tag_content. cbv zeta. rewrite Pc.
    change (Ascii.eqb "034" "034") with true. cbv iota.
    unfold attr_comps. rewrite Ek, Ev. fold comp.
    unfold sv2, sv1, ps1, ct_store. destruct comp as [t|]; cbn [save_here ct_params].
    - rewrite rev_app_distr. cbn [rev app]. rewrite Hval.
      replace (wrap32 (Z.of_nat pq - Z.of_nat (S (S pe))))
        with (wrap32 (Z.of_nat (List.length (v0 :: vs))))
        by (f_equal; unfold pq; cbn [List.length]; lia).
      destruct (rspamd_html_decode_entitles_inplace g_unichar_isgraph (v0 :: vs) _)
        as [s len].
      cbn [bind comp_type ct_name ct_name_len ct_id ct_flags]. rewrite rev_involutive.
      reflexivity.
    - cbn [bind]. rewrite app_nil_r. reflexivity. }
  apply (tag_reach_step g_unichar_isgraph T closing _ _ pq _ _ _ _ _ _ o Lc Step4);
    [rewrite Pc; discriminate|].
  replace (S pq) with (pk + List.length ((k0 :: ks) ++ "="%char :: "034"%char
                                                    :: (v0 :: vs) ++ ["034"%char]))%nat.
  - exact Hr.
  - unfold pq, pe. rewrite length_app. cbn [List.length]. rewrite length_app.
    cbn [List.length]. lia.
Qed.
Lemma has_closed_or_closing (f : Z) :
  has (f .| FL_CLOSING) FL_CLOSED = has f FL_CLOSED.
Proof. flag_names. flag_simpl. reflexivity. Qed.

(** No row of the table has [FL_CLOSED]. *)
Lemma rows_not_closed (d : html_tag_def) :
  In d tag_defs_src -> has (def_flags d) FL_CLOSED = false.
Proof.
  revert d. apply (proj1 (Forall_forall _ tag_defs_src)). unfold tag_defs_src.
  repeat (apply Forall_cons;
          [unfold TAG_DEF; cbn [def_flags]; flag_names; flag_simpl; reflexivity|]).
  apply Forall_nil.
Qed.
(** The name of a row, from its first byte to the byte after it. *)
Lemma tag_name_run (d : html_tag_def) hc (p : nat) (tail : list ascii)
      (o : tag_outcome) :
  In d tag_defs_src ->
  skipn p T = bytes (def_name d) ++ tail ->
  tag_reach g_unichar_isgraph T closing hc (mk_cur_tag (name_in p) 0 0 0 [])
            (p + List.length (bytes (def_name d))) Content.parse_name None o ->
  tag_reach g_unichar_isgraph T closing hc cur_tag_new p Content.parse_start None o.
Proof.
  intros Hd E Hr.
  destruct (name_plain_row d Hd) as ((Hne & _) & Hall & _).
  pose proof (tag_names_alpha d Hd) as Ha.
  destruct (bytes (def_name d)) as [|n0 ns]; [contradiction|].
  cbn [hd] in Ha. cbn [forallb] in Hall. apply andb_prop in Hall.
  destruct Hall as [H0 Hns]. cbn [app] in E.
  destruct (skipn_peek T p n0 _ E) as (P0 & L0 & E1).
  assert (Hgt : forall c,
             negb (g_ascii_isspace c || Ascii.eqb c ">" || Ascii.eqb c "/") = true ->
             c <> ">"%char).
  { intros c Hc ->. cbn in Hc. discriminate Hc. }
  assert (Step0 := tag_name_start hc p). rewrite P0 in Step0. specialize (Step0 Ha).
  apply (tag_reach_step g_unichar_isgraph T closing _ _ p _ _ _ _ _ _ o L0 Step0);
    [rewrite P0; exact (Hgt n0 H0)|].
  apply (tag_reach_run ns hc (mk_cur_tag (name_in p) 0 0 0 []) Content.parse_name None
                       ltac:(intros c q Hin Hq;
                             rewrite forallb_forall in Hns;
                             pose proof (Hns c Hin) as Hc;
                             split; [exact (Hgt c Hc)|];
                             apply negb_true_iff in Hc;
                             unfold rspamd_html_parse_tag_content; cbv zeta;
                             rewrite Hq, Hc; reflexivity)
                       (S p) _ o E1).
  cbn [List.length] in Hr. rewrite Nat.add_succ_r in Hr. exact Hr.
Qed.

(** The attributes after the first one, to the [>] of the tag. *)
Lemma tag_attrs_reach (attrs : list tag_attr) hc nm nl id fl :
  Forall attr_ok attrs ->
  forall ps (p : nat) (tail : list ascii),
    skipn p T = concat (map attr_text attrs) ++ ">"%char :: tail ->
    has fl FL_CLOSED = false ->
    tag_reach g_unichar_isgraph T closing hc (mk_cur_tag nm nl id fl ps) p
              Content.parse_end_dquote None
              (tag_done hc
                 (mk_cur_tag nm nl id (if closing then fl .| FL_CLOSING else fl)
                    (ps ++ concat (map (attr_comps g_unichar_isgraph
                                                   (mk_tag id fl 0 None)) attrs)))
                 (p + List.length (concat (map attr_text attrs)))).
Proof.
  induction 1 as [|a attrs Ha Hall IH]; intros ps p tail E Hfl.
  - cbn [map concat app List.length] in *. rewrite Nat.add_0_r, app_nil_r.
    destruct (skipn_peek T p _ _ E) as (Pg & Lg & _).
    assert (Step : rspamd_html_parse_tag_content g_unichar_isgraph T hc
                     (mk_cur_tag nm nl id fl ps) p Content.parse_end_dquote None
                   = Some (hc, mk_cur_tag nm nl id fl ps, Content.parse_end_dquote,
                           None)).
    { unfold rspamd_html_parse_tag_content, slash_gt. cbv zeta. rewrite Pg.
      reflexivity. }
    pose proof (tag_reach_gt g_unichar_isgraph T closing _ _ p _ _ _ _ _ _ Lg Step Pg)
      as Hr.
    destruct closing; cbn [andb ct_or_flags ct_flags ct_name ct_name_len ct_id ct_params]
      in Hr; [rewrite has_closed_or_closing, Hfl in Hr|]; exact Hr.
  - cbn [map concat] in E. unfold attr_text at 1 in E. cbn [app] in E.
    rewrite <- app_assoc in E.
    destruct (skipn_peek T p _ _ E) as (Ps & Ls & E1).
    assert (Step : rspamd_html_parse_tag_content g_unichar_isgraph T hc
                     (mk_cur_tag nm nl id fl ps) p Content.parse_end_dquote None
                   = Some (hc, mk_cur_tag nm nl id fl ps, Content.spaces_after_param,
                           None)).
    { unfold rspamd_html_parse_tag_content. cbv zeta. rewrite Ps. reflexivity. }
    apply (tag_reach_step g_unichar_isgraph T closing _ _ p _ _ _ _ _ _ _ Ls Step);
      [rewrite Ps; discriminate|].
    apply (attr_body_reach a hc nm nl id fl ps Content.spaces_after_param None (S p) _ _
                           Ha (or_intror eq_refl) E1).
    pose proof (IH (ps ++ attr_comps g_unichar_isgraph (mk_tag id fl 0 None) a)
                   (S p + List.length (attr_body a))%nat tail
                   (skipn_app_shift _ _ _ _ E1) Hfl) as Hr.
    cbn [map concat]. rewrite app_assoc.
    replace (p + List.length (attr_text a ++ concat (map attr_text attrs)))%nat
      with (S p + List.length (attr_body a)
            + List.length (concat (map attr_text attrs)))%nat
      by (rewrite length_app; unfold attr_text; cbn [List.length]; lia).
    exact Hr.
Qed.

(** X28. A tag written as the name of a row of the table, attributes
    [key="value"] each after one space, and [>] is read up to its [>]
    without a fault: the tag has the name, the id and the flags of the row
    (with [FL_CLOSING] after [</]), the document flags stay as they are,
    and the components are, in order, those of the attributes whose key
    [rspamd_html_parse_tag_component] takes, each with its value decoded;
    the other attributes leave nothing. *)
Theorem well_formed_tag_parsed (d : html_tag_def) (attrs : list tag_attr) (p : nat)
        (rest : list ascii) (hc : Z) :
  In d tag_defs_src ->
  Forall attr_ok attrs ->
  skipn p T = tag_text d attrs ++ rest ->
  html_tag_content g_unichar_isgraph T p closing hc
  = Some (tag_done hc
            (mk_cur_tag (name_copy (bytes (def_name d))) (def_len d) (def_id d)
                        (if closing then def_flags d .| FL_CLOSING else def_flags d)
                        (concat (map (attr_comps g_unichar_isgraph (tag_open d)) attrs)))
            (p + List.length (bytes (def_name d))
             + List.length (concat (map attr_text attrs)))).
Proof.
  intros Hd Hattrs E. unfold html_tag_content.
  apply tag_reach_loop; [|lia].
  unfold tag_text in E. rewrite <- !app_assoc in E. cbn [app] in E.
  apply (tag_name_run d hc p _ _ Hd E).
  pose proof (skipn_app_shift _ _ _ _ E) as E1.
  pose proof (rows_not_closed d Hd) as Hfl.
  set (q := (p + List.length (bytes (def_name d)))%nat) in *.
  destruct Hattrs as [|a attrs Ha Hall].
  - cbn [map concat app List.length] in *. rewrite Nat.add_0_r.
    destruct (skipn_peek T q _ _ E1) as (Pg & Lg & _).
    assert (Step : rspamd_html_parse_tag_content g_unichar_isgraph T hc
                     (mk_cur_tag (name_in p) 0 0 0 []) q Content.parse_name None
                   = Some (hc,
                           mk_cur_tag (name_copy (bytes (def_name d))) (def_len d)
                                      (def_id d) (def_flags d) [],
                           Content.spaces_after_name, None)).
    { apply (tag_name_lookup d hc p 0 0 0 [] None _ Hd E). fold q. rewrite Pg.
      reflexivity. }
    pose proof (tag_reach_gt g_unichar_isgraph T closing _ _ q _ _ _ _ _ _ Lg Step Pg)
      as Hr.
    destruct closing; cbn [andb ct_or_flags ct_flags ct_name ct_name_len ct_id ct_params]
      in Hr; [rewrite has_closed_or_closing, Hfl in Hr|]; exact Hr.
  - cbn [map concat] in E1. unfold attr_text at 1 in E1. cbn [app] in E1.
    rewrite <- app_assoc in E1.
    destruct (skipn_peek T q _ _ E1) as (Ps & Ls & E2).
    assert (Step : rspamd_html_parse_tag_content g_unichar_isgraph T hc
                     (mk_cur_tag (name_in p) 0 0 0 []) q Content.parse_name None
                   = Some (hc,
                           mk_cur_tag (name_copy (bytes (def_name d))) (def_len d)
                                      (def_id d) (def_flags d) [],
                           Content.spaces_after_name, None)).
    { apply (tag_name_lookup d hc p 0 0 0 [] None _ Hd E). fold q. rewrite Ps.
      reflexivity. }
    apply (tag_reach_step g_unichar_isgraph T closing _ _ q _ _ _ _ _ _ _ Ls Step);
      [rewrite Ps; discriminate|].
    apply (attr_body_reach a hc _ _ _ _ [] Content.spaces_after_name None (S q) _ _
                           Ha (or_introl eq_refl) E2).
    pose proof (tag_attrs_reach attrs hc (name_copy (bytes (def_name d))) (def_len d)
                  (def_id d) (def_flags d) Hall
                  ([] ++ attr_comps g_unichar_isgraph
                                    (mk_tag (def_id d) (def_flags d) 0 None) a)
                  (S q + List.length (attr_body a))%nat rest
                  (skipn_app_shift _ _ _ _ E2) Hfl) as Hr.
    cbn [app] in Hr. cbn [map concat]. unfold tag_open.
    replace (q + List.length (attr_text a ++ concat (map attr_text attrs)))%nat
      with (S q + List.length (attr_body a)
            + List.length (concat (map attr_text attrs)))%nat
      by (rewrite length_app; unfold attr_text; cbn [List.length]; lia).
    exact Hr.
Qed.

(** X29. A slash right after the name does not mark the tag as closed:
    in [<name/>] the slash sets [FL_CLOSED], and the flags of the row
    found for the name then replace the flags of the tag; in [<name />]
    the slash comes after the lookup and [FL_CLOSED] stays (after [</],
    with [RSPAMD_HTML_FLAG_BAD_ELEMENTS] in the document flags). *)
Theorem self_closing_needs_space (d : html_tag_def) (p : nat) (rest : list ascii)
        (hc : Z) :
  In d tag_defs_src ->
  (skipn p T = bytes (def_name d) ++ "/"%char :: ">"%char :: rest ->
   html_tag_content g_unichar_isgraph T p closing hc
   = Some (tag_done hc
             (mk_cur_tag (name_copy (bytes (def_name d))) (def_len d) (def_id d)
                         (if closing then def_flags d .| FL_CLOSING else def_flags d)
                         [])
             (p + List.length (bytes (def_name d)) + 1)))
  /\ (skipn p T = bytes (def_name d) ++ " "%char :: "/"%char :: ">"%char :: rest ->
      html_tag_content g_unichar_isgraph T p closing hc
      = Some (tag_done
                (if closing then hc .| RSPAMD_HTML_FLAG_BAD_ELEMENTS else hc)
                (mk_cur_tag (name_copy (bytes (def_name d))) (def_len d) (def_id d)
                            (if closing
                             then (def_flags d .| FL_CLOSED) .| FL_CLOSING
                             else def_flags d .| FL_CLOSED)
                            [])
                (p + List.length (bytes (def_name d)) + 2))).
Proof.
  intros Hd. pose proof (rows_not_closed d Hd) as Hfl.
  split; intros E; unfold html_tag_content; (apply tag_reach_loop; [|lia]);
    apply (tag_name_run d hc p _ _ Hd E);
    pose proof (skipn_app_shift _ _ _ _ E) as E1;
    set (q := (p + List.length (bytes (def_name d)))%nat) in *;
    destruct (skipn_peek T q _ _ E1) as (P1 & L1 & E2);
    destruct (skipn_peek T (S q) _ _ E2) as (P2 & L2 & E3);
    (assert (Step : rspamd_html_parse_tag_content g_unichar_isgraph T hc
                      (mk_cur_tag (name_in p) 0 0 0 []) q Content.parse_name None
                    = Some (hc,
                            mk_cur_tag (name_copy (bytes (def_name d))) (def_len d)
                                       (def_id d) (def_flags d) [],
                            Content.spaces_after_name, None))
      by (apply (tag_name_lookup d hc p 0 0 0 [] None _ Hd E); fold q; rewrite P1;
          reflexivity));
    (apply (tag_reach_step g_unichar_isgraph T closing _ _ q _ _ _ _ _ _ _ L1 Step);
     [rewrite P1; discriminate|]).
  - assert (Step' : rspamd_html_parse_tag_content g_unichar_isgraph T hc
                      (mk_cur_tag (name_copy (bytes (def_name d))) (def_len d)
                                  (def_id d) (def_flags d) [])
                      (S q) Content.spaces_after_name None
                    = Some (hc,
                            mk_cur_tag (name_copy (bytes (def_name d))) (def_len d)
                                       (def_id d) (def_flags d) [],
                            Content.spaces_after_name, Some (S q))).
    { unfold rspamd_html_parse_tag_content. cbv zeta. rewrite P2. reflexivity. }
    pose proof (tag_reach_gt g_unichar_isgraph T closing _ _ (S q) _ _ _ _ _ _ L2 Step'
                             P2) as Hr.
    replace (q + 1)%nat with (S q) by lia.
    destruct closing; cbn [andb ct_or_flags ct_flags ct_name ct_name_len ct_id ct_params]
      in Hr; [rewrite has_closed_or_closing, Hfl in Hr|]; exact Hr.
  - destruct (skipn_peek T (S (S q)) _ _ E3) as (P3 & L3 & _).
    assert (Step' : rspamd_html_parse_tag_content g_unichar_isgraph T hc
                      (mk_cur_tag (name_copy (bytes (def_name d))) (def_len d)
                                  (def_id d) (def_flags d) [])
                      (S q) Content.spaces_after_name None
                    = Some (hc,
                            mk_cur_tag (name_copy (bytes (def_name d))) (def_len d)
                                       (def_id d) (def_flags d .| FL_CLOSED) [],
                            Content.spaces_after_name, Some (S q))).
    { unfold rspamd_html_parse_tag_content. cbv zeta. rewrite P2. reflexivity. }
    apply (tag_reach_step g_unichar_isgraph T closing _ _ (S q) _ _ _ _ _ _ _ L2 Step');
      [rewrite P2; discriminate|].
    assert (Step2 : rspamd_html_parse_tag_content g_unichar_isgraph T hc
                      (mk_cur_tag (name_copy (bytes (def_name d))) (def_len d)
                                  (def_id d) (def_flags d .| FL_CLOSED) [])
                      (S (S q)) Content.spaces_after_name (Some (S q))
                    = Some (hc,
                            mk_cur_tag (name_copy (bytes (def_name d))) (def_len d)
                                       (def_id d) (def_flags d .| FL_CLOSED) [],
                            Content.spaces_after_name, Some (S (S q)))).
    { unfold rspamd_html_parse_tag_content. cbv zeta. rewrite P3. reflexivity. }
    pose proof (tag_reach_gt g_unichar_isgraph T closing _ _ (S (S q)) _ _ _ _ _ _ L3
                             Step2 P3) as Hr.
    replace (q + 2)%nat with (S (S q)) by lia.
    destruct closing; cbn [andb ct_or_flags ct_flags ct_name ct_name_len ct_id ct_params]
      in Hr; [rewrite has_closed_or_closing, has_closed_set in Hr|]; exact Hr.
Qed.
End TagParse.

Section TagSafe.
Context `{html_h}.
Variable g_unichar_isgraph : Z -> bool.
Variable T : list ascii.
Hypothesis slashes : slash_followed T.

Lemma slash_gt_some (p : nat) :
  (p < List.length T)%nat -> exists b, slash_gt T p = Some b.
Proof.
  intros Hp. unfold slash_gt.
  destruct (Ascii.eqb_spec (peek T p) "/") as [E|_]; [|eexists; reflexivity].
  pose proof (slashes p Hp E) as Hs.
  destruct (Nat.ltb_spec (S p) (List.length T)); [eexists; reflexivity | lia].
Qed.

Lemma ct_store_some (tag : cur_tag) (p : nat) (savep : option nat) :
  (savep <> None -> ct_params tag <> []) ->
  exists tag', ct_store g_unichar_isgraph T tag p savep = Some (tag', None).
Proof.
  intros Hps. unfold ct_store. destruct savep as [sp|]; [|eexists; reflexivity].
  destruct (rev (ct_params tag)) as [|comp before] eqn:Er.
  - exfalso. apply Hps; [discriminate|].
    rewrite <- (rev_involutive (ct_params tag)), Er. reflexivity.
  - destruct (rspamd_html_decode_entitles_inplace _ _ _) as [s len].
    eexists; reflexivity.
Qed.

Lemma content_inv_none (p : nat) (tag : cur_tag) (state : Content.substate) :
  state <> Content.parse_name -> content_inv p tag state None.
Proof.
  intros Hs. split; [intros E; contradiction|].
  split; [intros sp E; discriminate E | intros _ E; exfalso; apply E; reflexivity].
Qed.

Ltac inv_solve Hn Hs Hv :=
  split;
  [intros E; try discriminate E;
   try (destruct (Hn E) as (?start & ?En & ?Hle); eexists; split;
        [eassumption | lia]);
   try (eexists; split; [reflexivity | lia])
  |split;
   [intros sp' E; try discriminate E;
    try (injection E as <-; lia);
    try (pose proof (Hs sp' E); lia)
   |intros Ev Esv; try discriminate Ev; try (exfalso; apply Esv; reflexivity);
    cbn [ct_params ct_or_flags ct_broken];
    try (apply Hv; [reflexivity | exact Esv]);
    try (apply Hv; [reflexivity | discriminate]);
    try (intros Eapp; apply app_eq_nil in Eapp; destruct Eapp as [_ Eapp];
         discriminate Eapp)]].

(** One call keeps what the loop keeps, and does not fault. *)
Lemma parse_tag_content_inv hc (tag : cur_tag) (p : nat) (state : Content.substate)
      (savep : option nat) :
  (p < List.length T)%nat ->
  content_inv p tag state savep ->
  exists hc' tag' state' savep',
    rspamd_html_parse_tag_content g_unichar_isgraph T hc tag p state savep
    = Some (hc', tag', state', savep')
    /\ content_inv (S p) tag' state' savep'.
Proof.
  intros Hp (Hn & Hs & Hv).
  destruct (slash_gt_some p Hp) as (closed & Eclosed).
  assert (Hsave : forall sv, save_here p sv <> None -> sv <> None)
    by (intros [sp|] E; [discriminate | exact E]).
  unfold rspamd_html_parse_tag_content. cbv zeta.
  destruct state.
  - (* parse_start *)
    destruct (negb (g_ascii_isalpha (peek T p)) && negb (g_ascii_isspace (peek T p)));
      [|destruct (g_ascii_isalpha (peek T p))];
      do 4 eexists; (split; [reflexivity|]); inv_solve Hn Hs Hv.
  - (* parse_name *)
    destruct (Hn eq_refl) as (start & En & Hle).
    destruct (g_ascii_isspace (peek T p) || Ascii.eqb (peek T p) ">"
              || Ascii.eqb (peek T p) "/").
    + rewrite En. destruct (Nat.ltb_spec p start); [lia|].
      assert (Hnm : forall t f, ct_name (if Ascii.eqb (peek T p) "/"
                                         then ct_or_flags t f else t) = ct_name t)
        by (intros t f; destruct (Ascii.eqb (peek T p) "/"); reflexivity).
      destruct (wrap32 (Z.of_nat p - Z.of_nat start) =? 0).
      * do 4 eexists; (split; [reflexivity|]); inv_solve Hn Hs Hv.
      * destruct (rspamd_html_decode_entitles_inplace _ _ _) as [s len].
        destruct (bsearch _ _ _);
          do 4 eexists; (split; [reflexivity|]); inv_solve Hn Hs Hv.
    + do 4 eexists; (split; [reflexivity|]); inv_solve Hn Hs Hv.
  - (* parse_attr_name *)
    destruct savep as [sp|].
    + pose proof (Hs sp eq_refl) as Hle.
      destruct (Ascii.eqb (peek T p) "=");
        [|destruct (g_ascii_isspace (peek T p));
          [|destruct (Ascii.eqb (peek T p) "/")]];
        try (destruct (Nat.ltb_spec p sp); [lia|];
             destruct (rspamd_html_parse_tag_component _ _ _));
        do 4 eexists; (split; [reflexivity|]); inv_solve Hn Hs Hv.
    + do 4 eexists; (split; [reflexivity|]); inv_solve Hn Hs Hv.
  - (* parse_equal *)
    destruct (g_ascii_isspace (peek T p));
      [|destruct (Ascii.eqb (peek T p) "034");
        [|destruct (Ascii.eqb (peek T p) "'")]];
      do 4 eexists; (split; [reflexivity|]); inv_solve Hn Hs Hv.
    + destruct savep; [injection E as <-; lia | discriminate E].
    + apply Hv; [reflexivity | apply Hsave; exact Esv].
  - (* parse_start_dquote *)
    destruct (Ascii.eqb (peek T p) "034");
      do 4 eexists; (split; [reflexivity|]); inv_solve Hn Hs Hv.
    + destruct savep; [injection E as <-; lia | discriminate E].
    + apply Hv; [reflexivity | apply Hsave; exact Esv].
  - (* parse_dqvalue *)
    destruct (Ascii.eqb (peek T p) "034").
    + destruct (ct_store_some tag p savep (Hv eq_refl)) as (tag' & ->). cbn [bind].
      do 4 eexists; (split; [reflexivity|]). apply content_inv_none. discriminate.
    + do 4 eexists; (split; [reflexivity|]); inv_solve Hn Hs Hv.
  - (* parse_end_dquote *)
    destruct (g_ascii_isspace (peek T p));
      [|rewrite Eclosed; cbn [bind]; destruct closed];
      do 4 eexists; (split; [reflexivity|]); inv_solve Hn Hs Hv.
  - (* parse_start_squote *)
    destruct (Ascii.eqb (peek T p) "'");
      do 4 eexists; (split; [reflexivity|]); inv_solve Hn Hs Hv.
    + destruct savep; [injection E as <-; lia | discriminate E].
    + apply Hv; [reflexivity | apply Hsave; exact Esv].
  - (* parse_sqvalue *)
    destruct (Ascii.eqb (peek T p) "'").
    + destruct (ct_store_some tag p savep (Hv eq_refl)) as (tag' & ->). cbn [bind].
      do 4 eexists; (split; [reflexivity|]). apply content_inv_none. discriminate.
    + do 4 eexists; (split; [reflexivity|]); inv_solve Hn Hs Hv.
  - (* parse_end_squote *)
    destruct (g_ascii_isspace (peek T p));
      [|rewrite Eclosed; cbn [bind]; destruct closed];
      do 4 eexists; (split; [reflexivity|]); inv_solve Hn Hs Hv.
  - (* parse_value *)
    rewrite Eclosed. cbn [bind].
    destruct closed;
      [|destruct (g_ascii_isspace (peek T p) || Ascii.eqb (peek T p) ">")].
    + destruct (ct_store_some (ct_or_flags tag FL_CLOSED) p savep (Hv eq_refl))
        as (tag' & ->). cbn [bind].
      do 4 eexists; (split; [reflexivity|]). apply content_inv_none. discriminate.
    + destruct (ct_store_some tag p savep (Hv eq_refl)) as (tag' & ->). cbn [bind].
      do 4 eexists; (split; [reflexivity|]). apply content_inv_none. discriminate.
    + do 4 eexists; (split; [reflexivity|]); inv_solve Hn Hs Hv.
  - (* spaces_after_name *)
    destruct (negb (g_ascii_isspace (peek T p)));
      [destruct (Ascii.eqb (peek T p) "/");
       [|destruct (negb (Ascii.eqb (peek T p) ">"))]|];
      do 4 eexists; (split; [reflexivity|]); inv_solve Hn Hs Hv.
  - (* spaces_before_eq *)
    destruct (Ascii.eqb (peek T p) "=");
      [|destruct (negb (g_ascii_isspace (peek T p)))];
      do 4 eexists; (split; [reflexivity|]); inv_solve Hn Hs Hv.
  - (* spaces_after_eq *)
    destruct (Ascii.eqb (peek T p) "034");
      [|destruct (Ascii.eqb (peek T p) "'");
        [|destruct (negb (g_ascii_isspace (peek T p)))]];
      do 4 eexists; (split; [reflexivity|]); inv_solve Hn Hs Hv.
    + destruct savep; [injection E as <-; lia | discriminate E].
    + apply Hv; [reflexivity | apply Hsave; exact Esv].
  - (* spaces_after_param *)
    destruct (negb (g_ascii_isspace (peek T p)));
      [rewrite Eclosed; cbn [bind]; destruct closed|];
      do 4 eexists; (split; [reflexivity|]); inv_solve Hn Hs Hv.
  - (* ignore_bad_tag *)
    do 4 eexists; (split; [reflexivity|]); inv_solve Hn Hs Hv.
Qed.

Lemma tag_content_loop_safe (closing : bool) (fuel : nat) :
  forall hc tag (p : nat) state savep,
    (List.length T - p < fuel)%nat ->
    content_inv p tag state savep ->
    exists o,
      tag_content_loop g_unichar_isgraph fuel T closing hc tag p state savep = Some o
      /\ ends_at_first_gt T p o.
Proof.
  induction fuel as [|fuel IH]; intros hc tag p state savep Hf Hinv; [lia|].
  cbn [tag_content_loop].
  destruct (Nat.ltb_spec p (List.length T)) as [Hp|Hp].
  - destruct (parse_tag_content_inv hc tag p state savep Hp Hinv)
      as (hc' & tag' & state' & savep' & -> & Hinv').
    cbn [bind].
    destruct (Ascii.eqb_spec (peek T p) ">") as [Eg|Eg].
    + eexists. split; [reflexivity|]. cbn [ends_at_first_gt].
      split; [lia|]. split; [exact Eg|]. intros i Hi. lia.
    + destruct (IH hc' tag' (S p) state' savep' ltac:(lia) Hinv') as (o & -> & Ho).
      exists o. split; [reflexivity|].
      destruct o as [hc2 tag2 q | hc2 tag2]; cbn [ends_at_first_gt] in *.
      * destruct Ho as (Hq & Eq & Hbefore). split; [lia|]. split; [exact Eq|].
        intros i Hi. destruct (Nat.eq_dec i p) as [->|Hne]; [exact Eg|].
        apply Hbefore. lia.
      * intros i Hi. destruct (Nat.eq_dec i p) as [->|Hne]; [exact Eg|].
        apply Ho. lia.
  - eexists. split; [reflexivity|]. cbn [ends_at_first_gt]. intros i Hi. lia.
Qed.

(** X30. In a text where no slash is the last byte, a tag read from any
    position is read without a fault, whatever its bytes: no assertion
    of [rspamd_html_parse_tag_content] or of
    [rspamd_html_parse_tag_component] fails and [*(in + 1)] is read
    inside the text.  The tag ends at the first [>] at or after the
    position, also when that [>] is inside a quoted value; with no [>]
    the text is read to its end. *)
Theorem tag_content_never_faults (p : nat) (closing : bool) (hc : Z) :
  exists o,
    html_tag_content g_unichar_isgraph T p closing hc = Some o
    /\ ends_at_first_gt T p o.
Proof.
  unfold html_tag_content. apply tag_content_loop_safe; [lia|].
  unfold cur_tag_new. split; [intros E; discriminate E|].
  split; [intros sp E; discriminate E | intros E; discriminate E].
Qed.
End TagSafe.

Section SampleTagText.
#[local] Existing Instance sample_html_h.

Lemma well_formed_tag_parsed_witness :
  html_tag_content (fun _ => true)
    (bytes "<" ++ tag_text def_div [mk_attr (bytes "class") (bytes "a&amp;b");
                                    mk_attr (bytes "id") (bytes "k");
                                    mk_attr (bytes "STYLE") (bytes "color: red")]
     ++ bytes "text")
    1 false 0
  = Some (tag_done 0
            (mk_cur_tag (name_copy (bytes (def_name def_div))) (def_len def_div)
                        (def_id def_div) (def_flags def_div)
                        (concat
                           (map (attr_comps (fun _ => true) (tag_open def_div))
                                [mk_attr (bytes "class") (bytes "a&amp;b");
                                 mk_attr (bytes "id") (bytes "k");
                                 mk_attr (bytes "STYLE") (bytes "color: red")])))
            (1 + List.length (bytes (def_name def_div))
             + List.length
                 (concat (map attr_text
                              [mk_attr (bytes "class") (bytes "a&amp;b");
                               mk_attr (bytes "id") (bytes "k");
                               mk_attr (bytes "STYLE") (bytes "color: red")])))).
Proof.
  apply (well_formed_tag_parsed (Hok := sample_html_h_ok) (fun _ => true) _ false
           def_div _ 1 (bytes "text") 0).
  - unfold tag_defs_src, def_div. repeat (first [left; reflexivity | right]).
  - repeat (apply Forall_cons;
            [unfold attr_ok; split; [discriminate|]; split; [reflexivity|];
             split; [discriminate|];
             split; cbn; intros Hn; repeat (destruct Hn as [Hn|Hn]; [discriminate Hn|]);
             exact Hn|]).
    apply Forall_nil.
  - reflexivity.
Defined.

Lemma self_closing_needs_space_witness :
  html_tag_content (fun _ => true) (bytes "<p/>x") 1 false 0
  = Some (tag_done 0
            (mk_cur_tag (name_copy (bytes (def_name def_p))) (def_len def_p)
                        (def_id def_p) (def_flags def_p) [])
            (1 + List.length (bytes (def_name def_p)) + 1))
  /\ html_tag_content (fun _ => true) (bytes "<p />x") 1 false 0
     = Some (tag_done 0
               (mk_cur_tag (name_copy (bytes (def_name def_p))) (def_len def_p)
                           (def_id def_p) (def_flags def_p .| FL_CLOSED) [])
               (1 + List.length (bytes (def_name def_p)) + 2)).
Proof.
  assert (Hin : In def_p tag_defs_src)
    by (unfold tag_defs_src, def_p; repeat (first [left; reflexivity | right])).
  split.
  - apply (proj1 (self_closing_needs_space (Hok := sample_html_h_ok) (fun _ => true)
                    (bytes "<p/>x") false def_p 1 (bytes "x") 0 Hin)).
    reflexivity.
  - apply (proj2 (self_closing_needs_space (Hok := sample_html_h_ok) (fun _ => true)
                    (bytes "<p />x") false def_p 1 (bytes "x") 0 Hin)).
    reflexivity.
Defined.

Lemma tag_content_never_faults_witness :
  exists o,
    html_tag_content (fun _ => true) (bytes "<a href='/x>y' />") 1 false 0 = Some o
    /\ ends_at_first_gt (bytes "<a href='/x>y' />") 1 o.
Proof.
  apply (tag_content_never_faults (fun _ => true) (bytes "<a href='/x>y' />")).
  intros i Hi Hp.
  do 17 (destruct i as [|i]; [cbn in Hp |- *; try discriminate Hp; lia|]).
  cbn in Hi. lia.
Defined.
End SampleTagText.

(** ** libserver/html.c: documents that are well formed and not balanced *)

Section SampleUnbalanced.
#[local] Existing Instance sample_html_h.

End SampleUnbalanced.
